(* ===== verification/_CoqProject ===== *)
-Q . S2P
Prelude.v
GoStrings.v
Sha256.v
Json.v
Http.v
ApiTypes.v
DeepCopy.v
Kube.v
Store.v
ApiHandler.v
Samples.v
ApiSpec.v
ApiDecode.v
ApiRoutes.v
ApiConcurrent.v
Config.v
DemoHttp.v
Server.v
Tracing.v
Telemetry.v
ApiTelemetry.v
Workloads.v
Resources.v
Status.v
Controller.v
Interference.v
Settled.v
Registration.v
Operator.v
Programs.v
System.v
Platform.v
