(* ===== verification/Prelude.v ===== *)
(** * A verification library for the cloud-native service control plane

    The program lets a platform team offer small HTTP services on Kubernetes.  It is
    three Go programs around one custom resource, [ManagedService]:

    - the control-plane API (src/cmd/control-plane-api, src/internal/controlplaneapi):
      an authenticated HTTP interface that creates, lists, reads and deletes
      ManagedServices of one namespace;
    - the operator (src/cmd/main.go, src/internal/controller): for each ManagedService
      a hardened Deployment of a pinned image and a Service, and a status;
    - the workload that is deployed (src/cmd/demo-http, src/internal/demohttp).

    The two HTTP programs share src/internal/telemetry: the middleware that reports
    requests, the metrics listener, tracing, and the start and stop of the servers.
    The custom resource is src/api/v1alpha1.

    ** The files and the code they model

    Foundations, which the Go standard library provides:
    - [Prelude] (this file): results of fallible functions, sorting by a key, tactics;
    - [GoStrings]: package strings, strconv, utf8 and hex on byte strings;
    - [Sha256]: crypto/sha256 and the constant-time comparison;
    - [Json]: the encoder and the streaming decoder of encoding/json, byte by byte;
    - [Http]: requests, response writers, MaxBytesReader, and [ServeMux].

    The API (all of handler.go, store.go, config.go):
    - [ApiTypes]: the resource, its defaults and its validation (managedservice_types.go);
    - [DeepCopy]: the generated copies on a heap of pointers (zz_generated.deepcopy.go);
    - [Kube]: the Kubernetes client as a class with laws, and a cluster in memory;
    - [Store]: the store interface, its contract [StoreSpec], and the proof that
      [ControllerRuntimeStore] keeps it (store.go);
    - [ApiHandler]: authentication, routing, decoding, the operations (handler.go);
    - [ApiSpec], [ApiDecode], [ApiRoutes]: the theorems about it; [Samples]: requests;
    - [ApiConcurrent]: requests served at the same time, as interleaved goroutines;
    - [Config]: the token file and the ports (config.go).

    The shared telemetry (src/internal/telemetry):
    - [Server]: [listen_all] and the step relation [step] of [ServeUntilShutdown], and
      the metrics listener (server.go);
    - [Tracing]: the checks on the tracing settings (tracing.go);
    - [Telemetry]: the middleware, its events and their interleavings (http.go);
    - [ApiTelemetry]: the middleware around the API's handler.

    The operator (src/internal/controller, src/cmd/main.go):
    - [Workloads]: Deployments, Services, the reconciler's client as a class with laws,
      and a cluster in memory;
    - [Resources], [Status], [Controller]: one file each for managedservice_resources.go,
      managedservice_status.go and managedservice_controller.go;
    - [Interference]: the same [Reconcile] among other writers, and stopped at any call;
      [Settled]: the same while nobody edits the spec;
    - [Registration]: how collectors get into a registry (metrics.go,
      managedservice_metrics.go);
    - [Operator]: the command line, the options and the wiring (cmd/main.go).

    The programs together:
    - [DemoHttp]: the workload's handler (demohttp/handler.go);
    - [Programs]: [run] and [main] of the two HTTP programs;
    - [System]: a request to the API, its reconciliation, and the program that runs;
    - [Platform]: the API as one of the writers the operator runs among, and what a
      client of the API sees of the two at work.

    ** State and effects

    A handler maps a request, a writer and the world to the writer and the new world;
    the world is abstract, and what it holds is what the laws of the clients say it
    holds.  [Reconcile] maps a request and the world to its error, the new world and
    the metric events.  Logs, spans and metric updates are lists of events.  Time,
    randomness, files and the environment are arguments.  Go integers are [Z] with the
    checks the code makes; no arithmetic of the program can leave their range.
    The one place where sharing in memory matters, the object put aside before the
    status is edited in place, is justified by [DeepCopy]; elsewhere structs are values.

    ** Third-party code

    The Kubernetes client, the reconciler's client, the manager of controller-runtime,
    the condition helpers of apimachinery, the validation of DNS labels, Prometheus
    registries, OpenTelemetry, the container runtime, the redirects of net/http and the
    host part of net/url are parameters.  What the program relies on is a class of laws
    beside each ([ManagedServiceClientLaws], [ReconcilerClientLaws],
    [ReconcilerClientLive], [OneCluster], [ManagedOnly], [ControllerManagerLaws], [ConditionHelpersLaws],
    [NameValidation], [RegistererLaws], [ContainerRuntime]); each has a concrete
    instance ([Kube.Memory], [Workloads.MemoryCluster], [Registration.MemoryRegistry],
    the ends of [Operator] and [System]) on which the witnesses run.  The laws allow
    what happens in practice: a write that failed may have been carried out, caches may
    lag behind the API server, deletions may wait for finalizers, the API server may
    default fields the operator does not set.

    ** What the theorems show

    - Access ([ApiSpec], [ApiRoutes], [Programs]): a request without the configured
      token changes nothing; exactly which requests are authenticated; exactly which
      files give a token.
    - Effects of the API: every request has one of the abstract effects [api_effect]
      on a map of services, stored services stay valid, every branch of create, what
      was created is read back, deletes, the decoder accepts exactly the strict bodies
      and reads back what a client encodes, every answer is uncached JSON, and no
      operation leaves its namespace.
    - Concurrent requests ([ApiConcurrent]): they are linearizable, so that the theorems
      about sequences of requests hold of them, and of concurrent creations of one name
      at most one succeeds.
    - The operator: what a successful reconciliation leaves behind, how every error is
      recorded or returned, that it succeeds in one run under stated conditions
      ([reconcile_converges]), that it is idempotent, that it touches nothing else,
      hardening of the pods, selectors and ports, one true condition in every status it
      stores, exact counting of transitions; that the started manager reconciles again when an owned
      object changes; that it is as closed as its defaults unless flags say otherwise.
    - The servers: starting is all or nothing, no deadlock, shutdown terminates within
      a number of steps, and exit status 0 means a complete and clean shutdown.
    - Telemetry: the middleware does not change responses, reports the status that was
      sent, or 200 when none was, even after a panic; it uses bounded labels and keeps an
      exact gauge under interleaving; request identifiers are safe; the updates of metrics
      that the program makes cannot panic, while stored conditions are as the schema of
      the CRD admits; tracing exports only to checked endpoints.
    - Among other writers ([Interference], [Platform]): the reconciler writes only what
      is its own whatever others do; when its calls find caches that have caught up, a
      status that speaks of the present generation is true at every moment, through
      edits, failures, lost answers, interruptions, and deletions between reconciliations;
      and the API's requests are writers of the kind this allows for.  So what a client reads
      from the API is so ([api_never_overclaims]): a service that is not shown degraded
      is deployed as shown, and one shown as available has its replicas.
    - End to end ([System]), once the caches have caught up with the creation: a created
      service converges; what was requested runs, answers, and is reported.

    ** Fuel and termination

    Every definition is structurally recursive or runs over a given input; no function
    takes a fuel that could run out.  The loops of [DeepCopy] over a slice and the root
    computations of [Sha256] count down from the length and from the number of bits.
    The scanner of [Json] takes one step per byte.  The step relation of [Server] is
    bounded by [shutdown_terminates], and a run of [ApiConcurrent] by two steps per
    request.

    ** Not modelled

    - The HTTP transport: connections, timeouts, header limits, bodies of answers to
      HEAD, informational responses, MaxBytesReader closing the connection.  The
      timeouts in the [http.Server] values of the programs are kept as settings only.
    - The nesting limit of the JSON scanner (bodies have at most 4096 bytes, the limit
      is 10000 levels) and the texts of errors that are only logged.
    - Among other writers ([Interference]) every call of the reconciler is made when its
      cache has caught up: from an old copy of a Deployment [CreateOrUpdate] may find
      nothing to write, and the status would be ahead until the next reconciliation.  A
      response of the API has no generation, so that [api_never_overclaims] needs specs
      that nobody edits but by deleting the service and creating it again.  A ManagedService that is deleted and created again while its
      old object is being reconciled is left out (the status patch carries no UID, so
      that the new object may show the old one's status until its own reconciliation).
      [CreateOrUpdate] is one call there: the conflict it meets when the object changes
      between its read and its write is one of its errors.  Writes to a client's
      connection succeed.
    - Times finer than the seconds of [metav1.Time]; durations of requests.
    - What a struct literal does not set is the zero value and not written down; so are
      the fields of Kubernetes types the program never names.
    - Log lines, except the access log; the logger and client flags of the operator.
    - src/test, which drives external programs, and the tests.

    Authentication compares SHA-256 hashes: the theorems speak of equal hashes, and
    nothing is assumed about collisions.  Two facts of the router are kept as they are:
    the escaped path [/%2F] is served as the root, and HEAD matches GET patterns. *)

From Stdlib Require Export Ascii.
From stdpp Require Export base tactics option list gmap strings sorting.

(** ** Results

    A Go function returning [(T, error)] is a [result E T]; one returning only
    [error] is an [option E] ([None] is [nil]). *)
Inductive result (E A : Type) : Type :=
| Ok (a : A)
| Err (e : E).
Arguments Ok {E A} a.
Arguments Err {E A} e.

Definition result_bind {E A B : Type} (f : A -> result E B) (r : result E A) : result E B :=
  match r with
  | Ok a => f a
  | Err e => Err e
  end.

Definition is_ok {E A : Type} (r : result E A) : bool :=
  match r with Ok _ => true | Err _ => false end.

Declare Scope go_scope.
Delimit Scope go_scope with go.
Notation "'let?' x ':=' c1 'in' c2" := (result_bind (fun x => c2) c1)
  (at level 10, x name, c1 at level 100, c2 at level 200) : go_scope.
Notation "'let?' ' p ':=' c1 'in' c2" := (result_bind (fun y => let p := y in c2) c1)
  (at level 10, p pattern, c1 at level 100, c2 at level 200) : go_scope.

(** ** Sorting by a key

    [slices.SortFunc] leaves the order of equal keys unspecified; the model is
    a merge sort and [sort_by_unique] shows that for lists with distinct keys
    any other sorting algorithm gives the same list. *)
Section sort_by.
Context {A K : Type} (R : relation K) `{!RelDecision R} (key : A -> K).

Definition key_le : relation A := fun x y => R (key x) (key y).

#[export] Instance key_le_dec : RelDecision key_le :=
  fun x y => decide (R (key x) (key y)).

Definition sort_by (l : list A) : list A := merge_sort key_le l.
End sort_by.

(** ** Tactics *)

(** [case_bool] splits on the innermost boolean test of the goal. *)
Ltac case_bool :=
  match goal with
  | |- context [if ?b then _ else _] =>
      lazymatch b with
      | context [if _ then _ else _] => fail
      | context [match _ with _ => _ end] => fail
      | _ => let H := fresh "Hb" in destruct b eqn:H
      end
  end.

(** [bools] turns boolean connectives of the context into propositional ones. *)
Ltac bools :=
  repeat match goal with
  | H : negb _ = true |- _ => apply negb_true_iff in H
  | H : negb _ = false |- _ => apply negb_false_iff in H
  | H : (_ && _) = true |- _ => apply andb_true_iff in H as [? ?]
  | H : (_ || _) = false |- _ => apply orb_false_iff in H as [? ?]
  | H : (_ && _) = false |- _ => apply andb_false_iff in H as [?|?]
  | H : (_ || _) = true |- _ => apply orb_true_iff in H as [?|?]
  | H : bool_decide _ = true |- _ => apply bool_decide_eq_true in H
  | H : bool_decide _ = false |- _ => apply bool_decide_eq_false in H
  | H : String.eqb _ _ = true |- _ => apply String.eqb_eq in H
  | H : String.eqb _ _ = false |- _ => apply String.eqb_neq in H
  | H : Ascii.eqb _ _ = true |- _ => apply Ascii.eqb_eq in H
  | H : Ascii.eqb _ _ = false |- _ => apply Ascii.eqb_neq in H
  end.

(** The hints of the development live in a database of their own. *)
Create HintDb controlplane.
Create Rewrite HintDb controlplane.

(** A run is known by its first component: the others need not be computed. *)
Lemma run_eq {A B C : Type} (run : A * B * C) a : run.1.1 = a -> run = (a, run.1.2, run.2).
Proof. by destruct run as [[? ?] ?]; intros <-. Qed.

(** ** Lemmas on results *)

Lemma result_bind_ok {E A B : Type} (f : A -> result E B) r b :
  result_bind f r = Ok b <-> exists a, r = Ok a /\ f a = Ok b.
Proof.
  destruct r as [a|e]; simpl; split.
  - intros Hf. by exists a.
  - by intros (a' & [= ->] & Hf).
  - done.
  - by intros (a' & ? & _).
Qed.

Lemma is_ok_true {E A : Type} (r : result E A) : is_ok r = true <-> exists a, r = Ok a.
Proof. destruct r as [a|e]; simpl; split; [by exists a|done|done|by intros []]. Qed.

#[export] Hint Rewrite @result_bind_ok : controlplane.

Lemma filter_ext_in {A : Type} (P Q : A -> Prop) `{forall x, Decision (P x), forall x, Decision (Q x)}
    (l : list A) : (forall x, x ∈ l -> P x <-> Q x) -> filter P l = filter Q l.
Proof.
  induction l as [|x l IH]; intros HPQ; [done|]. rewrite !filter_cons.
  rewrite IH by (intros y Hy; apply HPQ; by right).
  specialize (HPQ x ltac:(by left)). destruct (decide (P x)), (decide (Q x)); tauto.
Qed.

(** ** Lemmas on sorting *)
Section sort_by_facts.
Context {A K : Type} (R : relation K) `{!RelDecision R} (key : A -> K).
Context `{!Total R} `{!Transitive R} `{!AntiSymm (=) R}.

#[export] Instance key_le_total : Total (key_le R key).
Proof. intros x y. unfold key_le. apply (total R). Qed.

#[export] Instance key_le_trans : Transitive (key_le R key).
Proof. intros x y z. unfold key_le. by etrans. Qed.

Lemma sort_by_permutation l : sort_by R key l ≡ₚ l.
Proof. apply merge_sort_Permutation. Qed.

Lemma sort_by_sorted l : StronglySorted (key_le R key) (sort_by R key l).
Proof. apply StronglySorted_merge_sort; apply _. Qed.

Lemma sort_by_length l : length (sort_by R key l) = length l.
Proof. by rewrite sort_by_permutation. Qed.

Lemma sort_by_elem_of l x : x ∈ sort_by R key l <-> x ∈ l.
Proof. by rewrite sort_by_permutation. Qed.

Lemma key_inj_of_NoDup l x y :
  NoDup (key <$> l) -> x ∈ l -> y ∈ l -> key x = key y -> x = y.
Proof.
  induction l as [|z l IH]; intros Hnd Hx Hy Hk; [by apply elem_of_nil in Hx|].
  apply NoDup_cons in Hnd as [Hz Hnd].
  apply elem_of_cons in Hx as [->|Hx], Hy as [->|Hy]; [done| | |by auto];
    exfalso; apply Hz; [rewrite Hk | rewrite <- Hk]; by apply list_elem_of_fmap_2.
Qed.

(** Any sorted rearrangement is the one [sort_by] computes. *)
Lemma sort_by_unique l l' :
  NoDup (key <$> l) -> l' ≡ₚ l -> Sorted (key_le R key) l' -> l' = sort_by R key l.
Proof.
  intros Hnd Hp Hs. apply (Sorted_unique_strong (key_le R key)).
  - intros x y Hx Hy Hxy Hyx. rewrite Hp in Hx. rewrite sort_by_elem_of in Hy.
    apply (key_inj_of_NoDup l); [done..|]. by apply (anti_symm R).
  - done.
  - apply Sorted_merge_sort, _.
  - by rewrite Hp, sort_by_permutation.
Qed.
End sort_by_facts.
