(* ===== verification/GoStrings.v ===== *)
(** * Go strings, bytes and number conversions

    A Go [string] or [[]byte] is a sequence of bytes; here it is a Rocq
    [string], whose characters are the 256 bytes.  This file models the
    functions of the Go standard library ([strings], [bytes], [unicode/utf8],
    [strconv], [encoding/hex]) that the program calls, and the facts about them
    that the components share. *)

From Stdlib Require Import DecimalString DecimalZ DecimalFacts ZArith Lia.
From S2P Require Import Prelude.

(** ** Characters *)

Definition LF : ascii := "010".
Definition CR : ascii := "013".
Definition HT : ascii := "009".
Definition SP : ascii := "032".
Definition DQ : ascii := "034".
Definition CRLF : string := String CR (String LF "").

Definition in_range (lo hi : N) (c : ascii) : bool :=
  (lo <=? N_of_ascii c)%N && (N_of_ascii c <=? hi)%N.

Definition is_lower : ascii -> bool := in_range 97 122.
Definition is_upper : ascii -> bool := in_range 65 90.
Definition is_digit : ascii -> bool := in_range 48 57.

Definition lower_ascii (c : ascii) : ascii :=
  if is_upper c then ascii_of_N (N_of_ascii c + 32) else c.
Definition upper_ascii (c : ascii) : ascii :=
  if is_lower c then ascii_of_N (N_of_ascii c - 32) else c.

(** ** Traversals *)

Fixpoint smap (f : ascii -> ascii) (s : string) : string :=
  match s with
  | "" => ""
  | String c s' => String (f c) (smap f s')
  end.

Fixpoint sforall (p : ascii -> bool) (s : string) : bool :=
  match s with
  | "" => true
  | String c s' => p c && sforall p s'
  end.

Fixpoint sdrop (n : nat) (s : string) : string :=
  match n, s with
  | O, _ => s
  | S n', "" => ""
  | S n', String _ s' => sdrop n' s'
  end.

Fixpoint stake (n : nat) (s : string) : string :=
  match n, s with
  | S n', String c s' => String c (stake n' s')
  | _, _ => ""
  end.

Fixpoint srepeat (n : nat) (c : ascii) : string :=
  match n with
  | O => ""
  | S n' => String c (srepeat n' c)
  end.

(** [s] with every single quote turned into a double quote: it lets JSON texts
    be written as literals. *)
Definition dquote (s : string) : string :=
  smap (fun c => if Ascii.eqb c "'" then DQ else c) s.

(** ** Package strings *)

Fixpoint has_prefix (s prefix : string) {struct prefix} : bool :=
  match prefix, s with
  | "", _ => true
  | String p prefix', String c s' => Ascii.eqb p c && has_prefix s' prefix'
  | String _ _, "" => false
  end.

Definition trim_prefix (s prefix : string) : string :=
  if has_prefix s prefix then sdrop (String.length prefix) s else s.

Definition has_suffix (s suffix : string) : bool :=
  (String.length suffix <=? String.length s)%nat &&
  String.eqb (sdrop (String.length s - String.length suffix) s) suffix.

(** [strings.Cut]: the text before and after the first separator. *)
Fixpoint cut (s sep : string) : option (string * string) :=
  if has_prefix s sep then Some ("", sdrop (String.length sep) s)
  else match s with
       | "" => None
       | String c s' =>
           match cut s' sep with
           | Some (before, after) => Some (String c before, after)
           | None => None
           end
       end.

(** [strings.Contains] and [strings.ContainsRune] for a one-byte needle. *)
Definition contains_byte (s : string) (c : ascii) : bool :=
  negb (sforall (fun d => negb (Ascii.eqb c d)) s).

(** [strings.ContainsAny] and [bytes.ContainsAny] for an ASCII set. *)
Definition contains_any (s chars : string) : bool :=
  negb (sforall (fun c => negb (contains_byte chars c)) s).

(** [strings.EqualFold(s, t)] where no letter of [t] has a non-ASCII case
    variant (only [k] and [s] have one): it compares ASCII case-insensitively. *)
Fixpoint equal_fold (s t : string) : bool :=
  match s, t with
  | "", "" => true
  | String a s', String b t' =>
      Ascii.eqb (lower_ascii a) (lower_ascii b) && equal_fold s' t'
  | _, _ => false
  end.

(** [strings.ToLower] on ASCII text. *)
Definition to_lower (s : string) : string := smap lower_ascii s.

(** [strings.Count(s, c)] for a one-byte separator. *)
Fixpoint count_byte (s : string) (c : ascii) : nat :=
  match s with
  | "" => 0
  | String d s' => (if Ascii.eqb c d then 1 else 0) + count_byte s' c
  end.

(** [strings.Compare] orders strings by their bytes. *)
Definition go_string_le : relation string := String.le.

(** ** Package unicode/utf8 *)

Definition RuneError : N := 65533.

Definition is_cont (c : ascii) : bool := in_range 128 191 c.
Definition cont_bits (c : ascii) : N := (N_of_ascii c - 128)%N.

(** The range a second byte may have after the first byte [x], which excludes
    overlong forms, surrogates and code points above U+10FFFF. *)
Definition second_byte_ok (x : N) (c : ascii) : bool :=
  if (x =? 224)%N then in_range 160 191 c
  else if (x =? 237)%N then in_range 128 159 c
  else if (x =? 240)%N then in_range 144 191 c
  else if (x =? 244)%N then in_range 128 143 c
  else is_cont c.

(** [utf8.DecodeRuneInString]: the rune, its width and whether the encoding is
    valid; an invalid byte is [RuneError] of width 1. *)
Definition decode_rune (a : ascii) (s : string) : N * nat * bool :=
  let x := N_of_ascii a in
  let bad := (RuneError, 1%nat, false) in
  if (x <? 128)%N then (x, 1%nat, true)
  else if (x <? 194)%N then bad
  else match s with
  | "" => bad
  | String b s1 =>
      if negb (second_byte_ok x b) then bad
      else if (x <? 224)%N then
        (((x - 192) * 64 + cont_bits b)%N, 2%nat, true)
      else match s1 with
      | "" => bad
      | String c s2 =>
          if negb (is_cont c) then bad
          else if (x <? 240)%N then
            (((x - 224) * 4096 + cont_bits b * 64 + cont_bits c)%N, 3%nat, true)
          else if (x <? 245)%N then
            match s2 with
            | "" => bad
            | String d _ =>
                if negb (is_cont d) then bad
                else (((x - 240) * 262144 + cont_bits b * 4096
                         + cont_bits c * 64 + cont_bits d)%N, 4%nat, true)
            end
          else bad
      end
  end.

Definition rune_width (a : ascii) (s : string) : nat := (decode_rune a s).1.2.
Definition rune_valid (a : ascii) (s : string) : bool := (decode_rune a s).2.

(** The loop of [utf8.RuneCountInString]; [skip] counts the bytes of the
    current rune still to pass over. *)
Fixpoint rune_count_from (skip : nat) (s : string) : nat :=
  match s with
  | "" => 0
  | String a s' =>
      match skip with
      | S k => rune_count_from k s'
      | O => S (rune_count_from (rune_width a s' - 1) s')
      end
  end.

Definition RuneCountInString (s : string) : nat := rune_count_from 0 s.

Fixpoint valid_from (skip : nat) (s : string) : bool :=
  match s with
  | "" => true
  | String a s' =>
      match skip with
      | S k => valid_from k s'
      | O => rune_valid a s' && valid_from (rune_width a s' - 1) s'
      end
  end.

(** [utf8.ValidString]. *)
Definition ValidString (s : string) : bool := valid_from 0 s.

(** ** Package strconv *)

Definition min_int64 : Z := (- 2 ^ 63)%Z.
Definition max_int64 : Z := (2 ^ 63 - 1)%Z.
Definition min_int32 : Z := (- 2 ^ 31)%Z.
Definition max_int32 : Z := (2 ^ 31 - 1)%Z.

(** The digits of a non-empty decimal numeral. *)
Definition parse_digits (s : string) : option Z :=
  match s with
  | "" => None
  | _ => Z.of_uint <$> NilEmpty.uint_of_string s
  end.

(** [strconv.Atoi] and [strconv.ParseInt(s, 10, 64)] on a 64-bit platform; an
    error (syntax or range) is [None]. *)
Definition Atoi (s : string) : option Z :=
  let signed := match s with
    | String "-" s' => Z.opp <$> parse_digits s'
    | String "+" s' => parse_digits s'
    | _ => parse_digits s
    end in
  match signed with
  | Some z => if (min_int64 <=? z)%Z && (z <=? max_int64)%Z then Some z else None
  | None => None
  end.

(** [strconv.Itoa] and the decimal printing of [encoding/json]. *)
Definition Itoa (z : Z) : string := NilZero.string_of_int (Z.to_int z).

(** ** Package encoding/hex *)

Definition hex_digit (c : ascii) : option N :=
  if is_digit c then Some (N_of_ascii c - 48)%N
  else if in_range 97 102 c then Some (N_of_ascii c - 87)%N
  else if in_range 65 70 c then Some (N_of_ascii c - 55)%N
  else None.

(** [hex.DecodeString]: [None] for a byte that is no digit or an odd length. *)
Fixpoint hex_decode (s : string) : option string :=
  match s with
  | "" => Some ""
  | String a "" => None
  | String a (String b s') =>
      match hex_digit a, hex_digit b, hex_decode s' with
      | Some x, Some y, Some r => Some (String (ascii_of_N (16 * x + y)) r)
      | _, _, _ => None
      end
  end.

Definition hex_char (n : N) : ascii :=
  ascii_of_N (if (n <? 10)%N then 48 + n else 87 + n)%N.

(** [hex.EncodeToString], in lower case. *)
Fixpoint hex_encode (s : string) : string :=
  match s with
  | "" => ""
  | String c s' =>
      String (hex_char (N.div (N_of_ascii c) 16))
        (String (hex_char (N.modulo (N_of_ascii c) 16)) (hex_encode s'))
  end.

(** ** Facts: traversals and prefixes *)

Lemma append_nil_l s : "" +:+ s = s.
Proof. done. Qed.

Lemma append_cons c s t : String c s +:+ t = String c (s +:+ t).
Proof. done. Qed.

Lemma append_nil_r s : s +:+ "" = s.
Proof. induction s as [|c s IH]; [done|]. by rewrite append_cons, IH. Qed.

Lemma append_assoc s t u : (s +:+ t) +:+ u = s +:+ t +:+ u.
Proof. induction s as [|c s IH]; [done|]. by rewrite !append_cons, IH. Qed.

Lemma strlen_append s t : String.length (s +:+ t) = String.length s + String.length t.
Proof. induction s as [|c s IH]; [done|]. rewrite append_cons. simpl. by rewrite IH. Qed.

Lemma sforall_append p s t : sforall p (s +:+ t) = sforall p s && sforall p t.
Proof.
  induction s as [|c s IH]; [done|]. rewrite append_cons. simpl.
  by rewrite IH, andb_assoc.
Qed.

Lemma sforall_impl (p q : ascii -> bool) s :
  (forall c, p c = true -> q c = true) -> sforall p s = true -> sforall q s = true.
Proof.
  intros Hpq. induction s as [|c s IH]; [done|]. simpl. intros H. bools.
  by rewrite Hpq, IH.
Qed.

Lemma sdrop_append s t : sdrop (String.length s) (s +:+ t) = t.
Proof. induction s as [|c s IH]; [done|]. rewrite append_cons. simpl. done. Qed.

Lemma sdrop_stake n s : stake n s +:+ sdrop n s = s.
Proof.
  revert s. induction n as [|n IH]; intros [|c s]; try done.
  simpl. by rewrite append_cons, IH.
Qed.

Lemma stake_length n s : String.length (stake n s) = n `min` String.length s.
Proof. revert s. induction n as [|n IH]; intros [|c s]; simpl; auto. Qed.

Lemma sdrop_length n s : String.length (sdrop n s) = String.length s - n.
Proof. revert s. induction n as [|n IH]; intros [|c s]; simpl; auto. Qed.

Lemma stake_all n s : String.length s <= n -> stake n s = s.
Proof.
  revert s. induction n as [|n IH]; intros [|c s] H; simpl in *; try done; [lia|].
  rewrite IH; [done|lia].
Qed.

Lemma has_prefix_spec s p : has_prefix s p = true <-> exists r, s = p +:+ r.
Proof.
  revert s. induction p as [|a p IH]; intros s; simpl.
  - split; [by exists s|done].
  - destruct s as [|c s]; [split; [done|by intros []]|].
    rewrite andb_true_iff, IH, Ascii.eqb_eq. split.
    + intros [-> [r ->]]. by exists r.
    + intros [r [= -> ->]]. eauto.
Qed.

Lemma has_prefix_append p r : has_prefix (p +:+ r) p = true.
Proof. apply has_prefix_spec. eauto. Qed.

Lemma trim_prefix_append p r : trim_prefix (p +:+ r) p = r.
Proof. unfold trim_prefix. by rewrite has_prefix_append, sdrop_append. Qed.

Lemma trim_prefix_other s p : has_prefix s p = false -> trim_prefix s p = s.
Proof. unfold trim_prefix. by intros ->. Qed.

(** [strings.TrimPrefix] returns its argument exactly when there is nothing to trim. *)
Lemma trim_prefix_changed s p :
  trim_prefix s p <> s -> exists r, s = p +:+ r /\ trim_prefix s p = r.
Proof.
  intros Hne. destruct (has_prefix s p) eqn:Hp.
  - apply has_prefix_spec in Hp as [r ->]. exists r. split; [done|apply trim_prefix_append].
  - by rewrite trim_prefix_other in Hne.
Qed.

Lemma contains_byte_cons c d s :
  contains_byte (String d s) c = Ascii.eqb c d || contains_byte s c.
Proof. unfold contains_byte. simpl. by destruct (Ascii.eqb c d), (sforall _ s). Qed.

Lemma contains_byte_append s t c :
  contains_byte (s +:+ t) c = contains_byte s c || contains_byte t c.
Proof.
  unfold contains_byte. rewrite sforall_append.
  by destruct (sforall _ s), (sforall _ t).
Qed.

Lemma count_byte_none s c : contains_byte s c = false -> count_byte s c = 0.
Proof.
  induction s as [|d s IH]; [done|]. rewrite contains_byte_cons. intros Hs. bools. simpl.
  rewrite IH by done. by destruct (Ascii.eqb_spec c d).
Qed.

Lemma count_byte_append s t c : count_byte (s +:+ t) c = count_byte s c + count_byte t c.
Proof. induction s as [|d s IH]; [done|]. rewrite append_cons. simpl. by rewrite IH, Nat.add_assoc. Qed.

Lemma count_byte_zero s c : count_byte s c = 0 -> contains_byte s c = false.
Proof.
  induction s as [|d s IH]; [done|]. rewrite contains_byte_cons. simpl. by destruct (Ascii.eqb c d).
Qed.

(** ** Facts: cut *)

Lemma cut_spec s sep before after :
  cut s sep = Some (before, after) -> s = before +:+ sep +:+ after.
Proof.
  revert before. induction s as [|c s IH]; intros before; simpl.
  - destruct (has_prefix "" sep) eqn:Hp; [|done]. intros [= <- <-].
    apply has_prefix_spec in Hp as [r Hr]. by destruct sep, r.
  - destruct (has_prefix (String c s) sep) eqn:Hp.
    + intros [= <- <-]. apply has_prefix_spec in Hp as [r ->]. by rewrite sdrop_append.
    + destruct (cut s sep) as [[b a]|] eqn:Hc; [|done]. intros [= <- <-].
      by rewrite append_cons, <- (IH b).
Qed.

(** For a one-byte separator the cut is at its first occurrence. *)
Lemma cut_byte_spec s c before after :
  cut s (String c "") = Some (before, after) <->
  s = before +:+ String c after /\ contains_byte before c = false.
Proof.
  split.
  - intros H. split; [by apply cut_spec in H|].
    revert before H. induction s as [|d s IH]; intros before; simpl; [done|].
    destruct (Ascii.eqb c d && true) eqn:Hcd; [by intros [= <- <-]|].
    destruct (cut s _) as [[b a]|] eqn:Hc; [|done]. intros [= <- <-].
    rewrite contains_byte_cons, (IH b); [|done]. by destruct (Ascii.eqb c d).
  - intros [-> Hb]. induction before as [|d b IH].
    + rewrite append_nil_l. simpl. by rewrite Ascii.eqb_refl.
    + rewrite append_cons. rewrite contains_byte_cons in Hb. bools.
      simpl. replace (Ascii.eqb c d) with false by (symmetry; by apply Ascii.eqb_neq).
      simpl. by rewrite IH.
Qed.

Lemma cut_byte_none s c : cut s (String c "") = None <-> contains_byte s c = false.
Proof.
  induction s as [|d s IH]; simpl; [done|]. rewrite contains_byte_cons.
  destruct (Ascii.eqb c d); simpl; [done|].
  rewrite <- IH. by destruct (cut s _) as [[b a]|].
Qed.

(** ** Facts: runes *)

Lemma rune_width_pos a s : 1 <= rune_width a s.
Proof. unfold rune_width, decode_rune. repeat case_match; simpl; lia. Qed.

Lemma rune_width_max a s : rune_width a s <= 4.
Proof. unfold rune_width, decode_rune. repeat case_match; simpl; lia. Qed.

Lemma rune_width_ascii a s : (N_of_ascii a < 128)%N -> rune_width a s = 1.
Proof. intros H. unfold rune_width, decode_rune. by rewrite (proj2 (N.ltb_lt _ _) H). Qed.

Lemma rune_count_from_le k s : rune_count_from k s <= String.length s.
Proof.
  revert k. induction s as [|a s IH]; intros k; simpl; [lia|].
  destruct k as [|k]; [specialize (IH (rune_width a s - 1))|specialize (IH k)]; lia.
Qed.

(** Every rune takes at most four bytes. *)
Lemma rune_count_from_ge k s : String.length s <= k + 4 * rune_count_from k s.
Proof.
  revert k. induction s as [|a s IH]; intros k; simpl; [lia|].
  destruct k as [|k]; [|specialize (IH k); lia].
  specialize (IH (rune_width a s - 1)). pose proof (rune_width_max a s). lia.
Qed.

Lemma RuneCount_bounds s :
  RuneCountInString s <= String.length s <= 4 * RuneCountInString s.
Proof.
  unfold RuneCountInString. pose proof (rune_count_from_le 0 s).
  pose proof (rune_count_from_ge 0 s). lia.
Qed.

Definition is_ascii (c : ascii) : bool := (N_of_ascii c <? 128)%N.

Lemma RuneCount_ascii s :
  sforall is_ascii s = true -> RuneCountInString s = String.length s.
Proof.
  unfold RuneCountInString. induction s as [|a s IH]; [done|].
  cbn [sforall]. intros H. bools. apply N.ltb_lt in H.
  cbn [rune_count_from String.length]. rewrite rune_width_ascii by done. cbn [Nat.sub]. by rewrite IH.
Qed.

Lemma ValidString_ascii s : sforall is_ascii s = true -> ValidString s = true.
Proof.
  unfold ValidString. induction s as [|a s IH]; [done|]. cbn [sforall]. intros [Ha Hs]%andb_true_iff.
  cbn [valid_from]. rewrite rune_width_ascii by by apply N.ltb_lt. cbn [Nat.sub]. rewrite IH by done.
  unfold rune_valid, decode_rune, is_ascii in *. by rewrite Ha.
Qed.

(** ** Facts: numbers *)

Lemma uint_ascii d : sforall is_ascii (NilEmpty.string_of_uint d) = true.
Proof. by induction d. Qed.

Lemma Itoa_ascii z : sforall is_ascii (Itoa z) = true.
Proof.
  unfold Itoa. pose proof (fun p => uint_ascii (Pos.to_uint p)) as Hp.
  destruct z as [|p|p]; cbn [Z.to_int NilZero.string_of_int]; [done|..]; specialize (Hp p);
    destruct (Pos.to_uint p); done.
Qed.

Lemma norm_to_uint p : Pos.to_uint p <> Decimal.Nil.
Proof. apply DecimalPos.Unsigned.to_uint_nonnil. Qed.

Lemma parse_digits_uint d :
  d <> Decimal.Nil -> parse_digits (NilEmpty.string_of_uint d) = Some (Z.of_uint d).
Proof.
  intros Hd. unfold parse_digits. rewrite NilEmpty.usu.
  destruct d; [done|..]; done.
Qed.

Lemma string_of_uint_head d :
  d <> Decimal.Nil ->
  exists c s, NilZero.string_of_uint d = String c s /\ is_digit c = true.
Proof. intros Hd. destruct d; [done|..]; eexists _, _; done. Qed.

Lemma NilZero_NilEmpty d :
  d <> Decimal.Nil -> NilZero.string_of_uint d = NilEmpty.string_of_uint d.
Proof. by destruct d. Qed.

Lemma Atoi_Itoa z : (min_int64 <= z <= max_int64)%Z -> Atoi (Itoa z) = Some z.
Proof.
  intros [Hlo Hhi]. unfold Atoi, Itoa.
  assert (forall d, d <> Decimal.Nil ->
    match NilZero.string_of_uint d with
    | String "-" s' => Z.opp <$> parse_digits s'
    | String "+" s' => parse_digits s'
    | _ => parse_digits (NilZero.string_of_uint d)
    end = Some (Z.of_uint d)) as Hpos.
  { intros d Hd. rewrite NilZero_NilEmpty by done.
    rewrite <- (parse_digits_uint d) by done. destruct d; done. }
  pose proof (DecimalZ.of_to z) as Hz.
  destruct z as [|p|p]; cbn [Z.to_int NilZero.string_of_int] in *.
  - done.
  - rewrite Hpos by apply norm_to_uint. cbn in Hz. rewrite Hz.
    by rewrite (proj2 (Z.leb_le _ _) Hlo), (proj2 (Z.leb_le _ _) Hhi).
  - rewrite NilZero_NilEmpty, parse_digits_uint by apply norm_to_uint.
    cbn in Hz. cbn [fmap option_fmap option_map]. rewrite Hz.
    by rewrite (proj2 (Z.leb_le _ _) Hlo), (proj2 (Z.leb_le _ _) Hhi).
Qed.

(** ** Facts: hexadecimal *)

Lemma hex_digit_char n : (n < 16)%N -> hex_digit (hex_char n) = Some n.
Proof.
  intros H.
  assert (n ∈ [0;1;2;3;4;5;6;7;8;9;10;11;12;13;14;15]%N) as Hin.
  { rewrite !elem_of_cons. lia. }
  repeat (apply elem_of_cons in Hin as [->|Hin]; [reflexivity|]).
  by apply elem_of_nil in Hin.
Qed.

Lemma hex_decode_encode s : hex_decode (hex_encode s) = Some s.
Proof.
  induction s as [|c s IH]; [done|]. cbn [hex_encode hex_decode].
  pose proof (N_ascii_bounded c).
  rewrite !hex_digit_char, IH.
  - rewrite <- N.div_mod by done. by rewrite ascii_N_embedding.
  - apply N.mod_lt. done.
  - apply N.Div0.div_lt_upper_bound. lia.
Qed.

Lemma hex_encode_length s : String.length (hex_encode s) = 2 * String.length s.
Proof. induction s as [|c s IH]; [done|]. cbn [hex_encode String.length]. lia. Qed.

Lemma hex_encode_inj s t : hex_encode s = hex_encode t -> s = t.
Proof. intros H. apply (f_equal hex_decode) in H. rewrite !hex_decode_encode in H. congruence. Qed.

#[export] Hint Rewrite append_nil_l append_cons append_nil_r append_assoc strlen_append
  has_prefix_append trim_prefix_append sdrop_append : controlplane.
