(* ===== verification/Sha256.v ===== *)
(** * SHA-256

    The API handler stores and compares bearer tokens by their SHA-256 digest
    ([crypto/sha256.Sum256]) with [crypto/subtle.ConstantTimeCompare].  Both are
    Go standard library functions; this file gives them executable definitions
    (FIPS 180-4, with the standard's test vectors evaluated at the end). *)

From S2P Require Import Prelude GoStrings.

Module Sha256.

Definition word := N.
Definition wrap (x : N) : word := N.land x 4294967295.
Definition wadd (x y : word) : word := wrap (x + y).
Definition rotr (n : N) (x : word) : word :=
  N.lor (N.shiftr x n) (wrap (N.shiftl x (32 - n))).

Definition big_sigma0 (x : word) : word := N.lxor (rotr 2 x) (N.lxor (rotr 13 x) (rotr 22 x)).
Definition big_sigma1 (x : word) : word := N.lxor (rotr 6 x) (N.lxor (rotr 11 x) (rotr 25 x)).
Definition small_sigma0 (x : word) : word :=
  N.lxor (rotr 7 x) (N.lxor (rotr 18 x) (N.shiftr x 3)).
Definition small_sigma1 (x : word) : word :=
  N.lxor (rotr 17 x) (N.lxor (rotr 19 x) (N.shiftr x 10)).
Definition ch (x y z : word) : word := N.lxor (N.land x y) (N.land (N.lxor x 4294967295) z).
Definition maj (x y z : word) : word :=
  N.lxor (N.land x y) (N.lxor (N.land x z) (N.land y z)).

(** The constants of FIPS 180-4: the first 32 bits of the fractional parts of the
    cube roots of the first 64 primes and of the square roots of the first eight. *)
Definition is_prime (n : nat) : bool :=
  (2 <=? n)%nat && forallb (fun d => negb (Nat.eqb (n mod d) 0)) (seq 2 (n - 2)).

Definition primes : list N := Eval vm_compute in map N.of_nat (List.filter is_prime (seq 0 312)).

(** The largest [r] with [r ^ 3 <= n], bit by bit from bit [k]. *)
Fixpoint cube_root_from (k : nat) (r n : N) : N :=
  let b := N.shiftl 1 (N.of_nat k) in
  let r' := if ((r + b) * (r + b) * (r + b) <=? n)%N then (r + b)%N else r in
  match k with O => r' | S k' => cube_root_from k' r' n end.

Definition cube_root_word (p : N) : word := wrap (cube_root_from 40 0 (N.shiftl p 96)).
Definition square_root_word (p : N) : word := wrap (N.sqrt (N.shiftl p 64)).

Definition round_constants : list word := Eval vm_compute in map cube_root_word primes.

Record state := State { sa : word; sb : word; sc : word; sd : word;
                        se : word; sf : word; sg : word; sh : word }.

Definition initial_state : state :=
  Eval vm_compute in
  match map square_root_word primes with
  | a :: b :: c :: d :: e :: f :: g :: h :: _ => State a b c d e f g h
  | _ => (State 0 0 0 0 0 0 0 0)%N
  end.

Definition round (k w : word) (s : state) : state :=
  let t1 := wadd (sh s) (wadd (big_sigma1 (se s)) (wadd (ch (se s) (sf s) (sg s)) (wadd k w))) in
  let t2 := wadd (big_sigma0 (sa s)) (maj (sa s) (sb s) (sc s)) in
  State (wadd t1 t2) (sa s) (sb s) (sc s) (wadd (sd s) t1) (se s) (sf s) (sg s).

(** The message schedule keeps a window of the next sixteen words. *)
Definition next_word (win : list word) : word :=
  let at_ := fun i => nth i win 0%N in
  wadd (small_sigma1 (at_ 14)) (wadd (at_ 9) (wadd (small_sigma0 (at_ 1)) (at_ 0))).

Fixpoint rounds (ks : list word) (win : list word) (s : state) : state :=
  match ks with
  | [] => s
  | k :: ks' => rounds ks' (tail win ++ [next_word win]) (round k (nth 0 win 0%N) s)
  end.

Definition compress (s : state) (block : list word) : state :=
  let r := rounds round_constants block s in
  State (wadd (sa s) (sa r)) (wadd (sb s) (sb r)) (wadd (sc s) (sc r)) (wadd (sd s) (sd r))
        (wadd (se s) (se r)) (wadd (sf s) (sf r)) (wadd (sg s) (sg r)) (wadd (sh s) (sh r)).

Fixpoint compress_all (s : state) (block : list word) (ws : list word) : state :=
  match ws with
  | [] => s
  | w :: ws' =>
      let block' := block ++ [w] in
      if (length block' =? 16)%nat then compress_all (compress s block') [] ws'
      else compress_all s block' ws'
  end.

Definition byte_at (x : N) (i : N) : ascii := ascii_of_N (N.land (N.shiftr x (8 * i)) 255).

(** Padding: a one bit, zeros, and the bit length in 64 bits. *)
Definition pad (m : string) : string :=
  let bits := (8 * N.of_nat (String.length m))%N in
  let zeros := (119 - String.length m mod 64) mod 64 in
  m +:+ String "128" (srepeat zeros "000")
    +:+ String (byte_at bits 7) (String (byte_at bits 6) (String (byte_at bits 5)
       (String (byte_at bits 4) (String (byte_at bits 3) (String (byte_at bits 2)
       (String (byte_at bits 1) (String (byte_at bits 0) ""))))))).

Fixpoint words (s : string) : list word :=
  match s with
  | String a (String b (String c (String d s'))) =>
      (N.shiftl (N_of_ascii a) 24 + N.shiftl (N_of_ascii b) 16
       + N.shiftl (N_of_ascii c) 8 + N_of_ascii d)%N :: words s'
  | _ => []
  end.

Definition word_bytes (w : word) (rest : string) : string :=
  String (byte_at w 3) (String (byte_at w 2) (String (byte_at w 1) (String (byte_at w 0) rest))).

(** [sha256.Sum256] *)
Definition Sum256 (m : string) : string :=
  let s := compress_all initial_state [] (words (pad m)) in
  word_bytes (sa s) (word_bytes (sb s) (word_bytes (sc s) (word_bytes (sd s)
    (word_bytes (se s) (word_bytes (sf s) (word_bytes (sg s) (word_bytes (sh s) ""))))))).

(** [subtle.ConstantTimeCompare]: the accumulated exclusive-or of all byte
    pairs, and 0 at once for different lengths. *)
Fixpoint xor_fold (acc : N) (x y : string) : N :=
  match x, y with
  | String a x', String b y' =>
      xor_fold (N.lor acc (N.lxor (N_of_ascii a) (N_of_ascii b))) x' y'
  | _, _ => acc
  end.

Definition ConstantTimeCompare (x y : string) : Z :=
  if negb (String.length x =? String.length y)%nat then 0%Z
  else if (xor_fold 0 x y =? 0)%N then 1%Z else 0%Z.

Lemma Sum256_length m : String.length (Sum256 m) = 32.
Proof. reflexivity. Qed.

Lemma N_of_ascii_inj a b : N_of_ascii a = N_of_ascii b -> a = b.
Proof. intros H. rewrite <- (ascii_N_embedding a), <- (ascii_N_embedding b). congruence. Qed.

Lemma xor_fold_zero acc x y :
  String.length x = String.length y -> xor_fold acc x y = 0%N <-> acc = 0%N /\ x = y.
Proof.
  revert acc y. induction x as [|a x IH]; intros acc [|b y] Hl; try done; simpl.
  - split; [by intros ->|by intros [-> _]].
  - injection Hl as Hl. rewrite IH, N.lor_eq_0_iff, N.lxor_eq_0_iff by done. split.
    + intros [[-> Hab] ->]. apply N_of_ascii_inj in Hab as ->. done.
    + by intros [-> [= -> ->]].
Qed.

(** Comparing in constant time decides equality. *)
Lemma ConstantTimeCompare_spec x y : ConstantTimeCompare x y = 1%Z <-> x = y.
Proof.
  unfold ConstantTimeCompare. destruct (Nat.eqb_spec (String.length x) (String.length y)) as [Hl|Hl].
  - simpl. destruct (N.eqb_spec (xor_fold 0 x y) 0) as [H0|H0].
    + apply xor_fold_zero in H0 as [_ H0]; done.
    + split; [done|]. intros ->. exfalso. apply H0. by apply xor_fold_zero.
  - split; [done|]. by intros ->.
Qed.

Example Sum256_empty :
  hex_encode (Sum256 "") = "e3b0c44298fc1c149afbf4c8996fb92427ae41e4649b934ca495991b7852b855".
Proof. vm_compute. reflexivity. Qed.

Example Sum256_abc :
  hex_encode (Sum256 "abc") = "ba7816bf8f01cfea414140de5dae2223b00361a396177a9cb410ff61f20015ad".
Proof. vm_compute. reflexivity. Qed.

Example Sum256_two_blocks :
  hex_encode (Sum256 "abcdbcdecdefdefgefghfghighijhijkijkljklmklmnlmnomnopnopq") =
  "248d6a61d20638b8e5c026930c3e6039a33ce45964ff2167f6ecedd419db06c1".
Proof. vm_compute. reflexivity. Qed.

End Sha256.
