(* ===== verification/Json.v ===== *)
(** * JSON, as [encoding/json] reads and writes it

    The API server decodes request bodies with a [json.Decoder] and encodes its
    responses with a [json.Encoder].  This file models both at the byte level:

    - [encode] prints a value the way [json.Encoder] does, HTML-safe escapes
      included;
    - [step] is the byte-at-a-time scanner of [encoding/json] ([scanner.go]),
      with its parse-state stack, extended with the value built so far, and
      [unquote] is the decoding of a scanned string literal;
    - [run] feeds a text to the scanner.

    The scanner's nesting limit of 10000 is not modelled: the bodies the program
    decodes are at most 4096 bytes long.

    The main fact is the round trip [run_encode]: reading back a printed value
    gives that value, with invalid UTF-8 replaced by U+FFFD. *)

From Stdlib Require Import DecimalString ZArith Lia.
From S2P Require Import Prelude GoStrings.

Module Json.

#[warnings="-register-all"]
Inductive json : Type :=
| JNull
| JBool (b : bool)
| JNumber (literal : string)
| JString (s : string)
| JArray (items : list json)
| JObject (members : list (string * json)).

(** ** Runes *)

Definition chr (n : N) : string := String (ascii_of_N n) "".

(** [utf8.AppendRune] *)
Definition encode_rune (r : N) : string :=
  if (r <? 128)%N then chr r
  else if (r <? 2048)%N then chr (192 + r / 64) +:+ chr (128 + r mod 64)
  else if (r <? 65536)%N then
    chr (224 + r / 4096) +:+ chr (128 + (r / 64) mod 64) +:+ chr (128 + r mod 64)
  else chr (240 + r / 262144) +:+ chr (128 + (r / 4096) mod 64)
         +:+ chr (128 + (r / 64) mod 64) +:+ chr (128 + r mod 64).

(** U+FFFD in UTF-8. *)
Definition replacement : string := chr 239 +:+ chr 191 +:+ chr 189.

(** ** Encoding *)

(** The escape [\u00XX] of a byte. *)
Definition unicode_escape (c : ascii) : string :=
  "\u00" +:+ hex_encode (String c "").

(** The escape of an ASCII byte inside a string, [None] if it stands for itself. *)
Definition escape_ascii (c : ascii) : option string :=
  if Ascii.eqb c DQ then Some (String "\" (String DQ ""))
  else if Ascii.eqb c "\" then Some "\\"
  else if Ascii.eqb c "008" then Some "\b"
  else if Ascii.eqb c "012" then Some "\f"
  else if Ascii.eqb c LF then Some "\n"
  else if Ascii.eqb c CR then Some "\r"
  else if Ascii.eqb c HT then Some "\t"
  else if (N_of_ascii c <? 32)%N then Some (unicode_escape c)
  else if Ascii.eqb c "<" || Ascii.eqb c ">" || Ascii.eqb c "&" then Some (unicode_escape c)
  else None.

(** What the bytes left in the current rune are for. *)
Inductive rest_of_rune : Type := Copy (n : nat) | Skip (n : nat).

Fixpoint escape_from (m : rest_of_rune) (s : string) : string :=
  match s with
  | "" => ""
  | String a s' =>
      match m with
      | Copy (S n) => String a (escape_from (Copy n) s')
      | Skip (S n) => escape_from (Skip n) s'
      | _ =>
          if (N_of_ascii a <? 128)%N then
            match escape_ascii a with
            | Some e => e +:+ escape_from (Copy 0) s'
            | None => String a (escape_from (Copy 0) s')
            end
          else
            let '(r, w, valid) := decode_rune a s' in
            if negb valid then "\ufffd" +:+ escape_from (Copy 0) s'
            else if (r =? 8232)%N then "\u2028" +:+ escape_from (Skip (w - 1)) s'
            else if (r =? 8233)%N then "\u2029" +:+ escape_from (Skip (w - 1)) s'
            else String a (escape_from (Copy (w - 1)) s')
      end
  end.

(** The text between the quotes of an encoded string. *)
Definition escape (s : string) : string := escape_from (Copy 0) s.

Definition quote (s : string) : string := String DQ (escape s +:+ String DQ "").

(** Elements joined by commas. *)
Fixpoint join_comma (l : list string) : string :=
  match l with
  | [] => ""
  | [x] => x
  | x :: l' => x +:+ String "," (join_comma l')
  end.

Fixpoint encode (v : json) : string :=
  match v with
  | JNull => "null"
  | JBool true => "true"
  | JBool false => "false"
  | JNumber n => n
  | JString s => quote s
  | JArray l => String "[" (join_comma (map encode l) +:+ "]")
  | JObject ms =>
      String "{" (join_comma (map (fun m => quote m.1 +:+ String ":" (encode m.2)) ms) +:+ "}")
  end.

(** [json.Encoder.Encode] ends the value with a newline. *)
Definition Encode (v : json) : string := encode v +:+ String LF "".

(** ** Scanning *)

Inductive frame : Type :=
| Top (v : option json)
| InArray (items : list json)
| InKey (members : list (string * json))
| KeyDone (members : list (string * json)) (key : string)
| InValue (members : list (string * json)) (key : string)
| ValueDone (members : list (string * json)).

Inductive number_state : Type := NNeg | NZero | NInt | NDot | NFrac | NExp | NExpSign | NExpDigits.

Inductive mode : Type :=
| BeginValue
| BeginValueOrEmpty
| BeginStringOrEmpty
| BeginString
| EndValue
| InString (raw : string)
| InEscape (raw : string)
| InHex (missing : nat) (raw : string)
| InNumber (st : number_state) (raw : string)
| InLiteral (rest : string) (v : json).

Record scanner : Type := Scanner { sc_mode : mode; sc_stack : list frame }.

Inductive outcome : Type :=
| Continue (s : scanner)
| Finished (v : json)        (* the byte closed the top-level value *)
| FinishedBefore (v : json)  (* the top-level value ended before this byte *)
| SyntaxError.

Definition is_space (c : ascii) : bool :=
  Ascii.eqb c SP || Ascii.eqb c HT || Ascii.eqb c CR || Ascii.eqb c LF.

Definition is_hex (c : ascii) : bool :=
  match hex_digit c with Some _ => true | None => false end.

(** ** String literals *)

Definition hex4 (a b c d : ascii) : option N :=
  match hex_digit a, hex_digit b, hex_digit c, hex_digit d with
  | Some x, Some y, Some z, Some w => Some (((x * 16 + y) * 16 + z) * 16 + w)%N
  | _, _, _, _ => None
  end.

Definition unescape_char (c : ascii) : option ascii :=
  if Ascii.eqb c "b" then Some "008"%char
  else if Ascii.eqb c "f" then Some "012"%char
  else if Ascii.eqb c "n" then Some LF
  else if Ascii.eqb c "r" then Some CR
  else if Ascii.eqb c "t" then Some HT
  else if Ascii.eqb c "\" || Ascii.eqb c "/" || Ascii.eqb c DQ then Some c
  else None.

Definition is_surrogate (r : N) : bool := (55296 <=? r)%N && (r <? 57344)%N.

(** [utf16.DecodeRune] of a surrogate pair. *)
Definition decode_pair (hi lo : N) : option N :=
  if (55296 <=? hi)%N && (hi <? 56320)%N && (56320 <=? lo)%N && (lo <? 57344)%N
  then Some ((hi - 55296) * 1024 + (lo - 56320) + 65536)%N
  else None.

(** [unquote] decodes the text of a scanned literal; [copy] counts the bytes of
    the current multi-byte rune still to copy.  [None] cannot occur on a
    literal the scanner accepted. *)
Fixpoint unquote_from (copy : nat) (s : string) : option string :=
  match s with
  | "" => Some ""
  | String a s1 =>
      match copy with
      | S k => String a <$> unquote_from k s1
      | O =>
          if Ascii.eqb a "\" then
            match s1 with
            | String e s2 =>
                if Ascii.eqb e "u" then
                  match s2 with
                  | String a1 (String b1 (String c1 (String d1 s3))) =>
                      match hex4 a1 b1 c1 d1 with
                      | None => None
                      | Some r =>
                          if negb (is_surrogate r) then
                            String.app (encode_rune r) <$> unquote_from 0 s3
                          else
                            match s3 with
                            | String x (String y (String a2 (String b2 (String c2 (String d2 s4))))) =>
                                match (if Ascii.eqb x "\" && Ascii.eqb y "u"
                                       then hex4 a2 b2 c2 d2 else None) with
                                | Some lo =>
                                    match decode_pair r lo with
                                    | Some p => String.app (encode_rune p) <$> unquote_from 0 s4
                                    | None => String.app replacement <$> unquote_from 0 s3
                                    end
                                | None => String.app replacement <$> unquote_from 0 s3
                                end
                            | _ => String.app replacement <$> unquote_from 0 s3
                            end
                      end
                  | _ => None
                  end
                else
                  match unescape_char e with
                  | Some c => String c <$> unquote_from 0 s2
                  | None => None
                  end
            | "" => None
            end
          else if (N_of_ascii a <? 128)%N then String a <$> unquote_from 0 s1
          else if rune_valid a s1 then String a <$> unquote_from (rune_width a s1 - 1) s1
          else String.app replacement <$> unquote_from 0 s1
      end
  end.

Definition unquote (s : string) : string := default "" (unquote_from 0 s).

(** A string with every invalid byte replaced by U+FFFD. *)
Fixpoint sanitize_from (copy : nat) (s : string) : string :=
  match s with
  | "" => ""
  | String a s' =>
      match copy with
      | S k => String a (sanitize_from k s')
      | O => if rune_valid a s' then String a (sanitize_from (rune_width a s' - 1) s')
             else replacement +:+ sanitize_from 0 s'
      end
  end.

Definition sanitize (s : string) : string := sanitize_from 0 s.

(** ** The scanner *)

Definition deposit (v : json) (st : list frame) : list frame :=
  match st with
  | Top _ :: st' => Top (Some v) :: st'
  | InArray vs :: st' => InArray (vs ++ [v]) :: st'
  | InKey ms :: st' => match v with JString k => KeyDone ms k :: st' | _ => st end
  | InValue ms k :: st' => ValueDone (ms ++ [(k, v)]) :: st'
  | _ => st
  end.

(** A container closes: its frame is popped and its value deposited. *)
Definition close (v : json) (st : list frame) : outcome :=
  match deposit v st with
  | Top (Some w) :: _ => Finished w
  | st' => Continue (Scanner EndValue st')
  end.

(** [stateEndValue] *)
Definition step_end_value (st : list frame) (c : ascii) : outcome :=
  match st with
  | Top (Some v) :: _ => FinishedBefore v
  | _ =>
    if is_space c then Continue (Scanner EndValue st) else
    match st with
    | KeyDone ms k :: st' =>
        if Ascii.eqb c ":" then Continue (Scanner BeginValue (InValue ms k :: st')) else SyntaxError
    | ValueDone ms :: st' =>
        if Ascii.eqb c "," then Continue (Scanner BeginString (InKey ms :: st'))
        else if Ascii.eqb c "}" then close (JObject ms) st'
        else SyntaxError
    | InArray vs :: st' =>
        if Ascii.eqb c "," then Continue (Scanner BeginValue st)
        else if Ascii.eqb c "]" then close (JArray vs) st'
        else SyntaxError
    | _ => SyntaxError
    end
  end.

(** [stateBeginValue] *)
Definition step_begin_value (st : list frame) (c : ascii) : outcome :=
  if is_space c then Continue (Scanner BeginValue st)
  else if Ascii.eqb c "{" then Continue (Scanner BeginStringOrEmpty (InKey [] :: st))
  else if Ascii.eqb c "[" then Continue (Scanner BeginValueOrEmpty (InArray [] :: st))
  else if Ascii.eqb c DQ then Continue (Scanner (InString "") st)
  else if Ascii.eqb c "-" then Continue (Scanner (InNumber NNeg (String c "")) st)
  else if Ascii.eqb c "0" then Continue (Scanner (InNumber NZero (String c "")) st)
  else if is_digit c then Continue (Scanner (InNumber NInt (String c "")) st)
  else if Ascii.eqb c "t" then Continue (Scanner (InLiteral "rue" (JBool true)) st)
  else if Ascii.eqb c "f" then Continue (Scanner (InLiteral "alse" (JBool false)) st)
  else if Ascii.eqb c "n" then Continue (Scanner (InLiteral "ull" JNull) st)
  else SyntaxError.

(** [stateBeginString] *)
Definition step_begin_string (st : list frame) (c : ascii) : outcome :=
  if is_space c then Continue (Scanner BeginString st)
  else if Ascii.eqb c DQ then Continue (Scanner (InString "") st)
  else SyntaxError.

Definition is_exp (c : ascii) : bool := Ascii.eqb c "e" || Ascii.eqb c "E".

(** The number states: [None] when the byte does not continue the number, with
    [number_complete] telling whether the number may end there. *)
Definition number_next (n : number_state) (c : ascii) : option number_state :=
  match n with
  | NNeg => if Ascii.eqb c "0" then Some NZero else if is_digit c then Some NInt else None
  | NZero => if Ascii.eqb c "." then Some NDot else if is_exp c then Some NExp else None
  | NInt => if is_digit c then Some NInt else if Ascii.eqb c "." then Some NDot
            else if is_exp c then Some NExp else None
  | NDot => if is_digit c then Some NFrac else None
  | NFrac => if is_digit c then Some NFrac else if is_exp c then Some NExp else None
  | NExp => if Ascii.eqb c "+" || Ascii.eqb c "-" then Some NExpSign
            else if is_digit c then Some NExpDigits else None
  | NExpSign => if is_digit c then Some NExpDigits else None
  | NExpDigits => if is_digit c then Some NExpDigits else None
  end.

Definition number_complete (n : number_state) : bool :=
  match n with NZero | NInt | NFrac | NExpDigits => true | _ => false end.

Definition push_char (s : string) (c : ascii) : string := s +:+ String c "".

(** One byte of input. *)
Definition step (s : scanner) (c : ascii) : outcome :=
  let st := sc_stack s in
  match sc_mode s with
  | BeginValue => step_begin_value st c
  | BeginValueOrEmpty =>
      if is_space c then Continue s
      else if Ascii.eqb c "]" then
        match st with InArray vs :: st' => close (JArray vs) st' | _ => SyntaxError end
      else step_begin_value st c
  | BeginStringOrEmpty =>
      if is_space c then Continue s
      else if Ascii.eqb c "}" then
        match st with InKey ms :: st' => close (JObject ms) st' | _ => SyntaxError end
      else step_begin_string st c
  | BeginString => step_begin_string st c
  | EndValue => step_end_value st c
  | InString raw =>
      if Ascii.eqb c DQ then Continue (Scanner EndValue (deposit (JString (unquote raw)) st))
      else if Ascii.eqb c "\" then Continue (Scanner (InEscape (push_char raw c)) st)
      else if (N_of_ascii c <? 32)%N then SyntaxError
      else Continue (Scanner (InString (push_char raw c)) st)
  | InEscape raw =>
      if Ascii.eqb c "u" then Continue (Scanner (InHex 4 (push_char raw c)) st)
      else match unescape_char c with
           | Some _ => Continue (Scanner (InString (push_char raw c)) st)
           | None => SyntaxError
           end
  | InHex missing raw =>
      if is_hex c then
        match missing with
        | S (S m) => Continue (Scanner (InHex (S m) (push_char raw c)) st)
        | _ => Continue (Scanner (InString (push_char raw c)) st)
        end
      else SyntaxError
  | InNumber n raw =>
      match number_next n c with
      | Some n' => Continue (Scanner (InNumber n' (push_char raw c)) st)
      | None => if number_complete n then step_end_value (deposit (JNumber raw) st) c
                else SyntaxError
      end
  | InLiteral rest v =>
      match rest with
      | String d "" => if Ascii.eqb c d then Continue (Scanner EndValue (deposit v st)) else SyntaxError
      | String d rest' => if Ascii.eqb c d then Continue (Scanner (InLiteral rest' v) st) else SyntaxError
      | "" => SyntaxError
      end
  end.

(** The result of scanning the available bytes. *)
Inductive scan_result : Type :=
| Value (v : json) (rest : string)
| BadSyntax
| NeedMore (s : scanner).

Fixpoint run (s : scanner) (input : string) : scan_result :=
  match input with
  | "" => NeedMore s
  | String c input' =>
      match step s c with
      | Continue s' => run s' input'
      | Finished v => Value v input'
      | FinishedBefore v => Value v input
      | SyntaxError => BadSyntax
      end
  end.

Definition start : scanner := Scanner BeginValue [Top None].

(** ** Reading from a stream *)

(** How a reader ends after its data: end of file, the limit of an
    [http.MaxBytesReader], or another error. *)
Inductive read_end : Type := EOF | TooLarge | ReadFailure.

Inductive read_error : Type :=
| ErrEOF             (* io.EOF: nothing but white space was left *)
| ErrUnexpectedEOF
| ErrSyntax
| ErrMaxBytes        (* http.MaxBytesError *)
| ErrRead.

(** [Decoder.readValue]: the next value and what follows it in the stream. *)
Definition read_value (input : string) (e : read_end) : result read_error (json * string) :=
  match run start input with
  | Value v rest => Ok (v, rest)
  | BadSyntax => Err ErrSyntax
  | NeedMore s =>
      match e with
      | EOF =>
          match step s SP with
          | Finished v | FinishedBefore v => Ok (v, "")
          | _ => Err (if sforall is_space input then ErrEOF else ErrUnexpectedEOF)
          end
      | TooLarge => Err ErrMaxBytes
      | ReadFailure => Err ErrRead
      end
  end.

Definition member (k : string) (v : json) : string * json := (k, v).


(** ** Facts: runes inside strings *)

(** A valid rune is decoded from its own bytes only. *)
Lemma decode_rune_local a s t r w :
  decode_rune a s = (r, w, true) -> stake (w - 1) t = stake (w - 1) s ->
  decode_rune a t = (r, w, true).
Proof.
  unfold decode_rune. intros H Ht.
  repeat (case_match; simplify_eq/=; try done);
    destruct t as [|? [|? [|? ?]]]; simplify_eq/=;
    repeat match goal with H : _ = ?b |- context [if ?b then _ else _] => rewrite <- H end;
    repeat (case_match; simplify_eq/=; try done); congruence.
Qed.

Definition non_ascii (c : ascii) : bool := negb (is_ascii c).

Lemma in_range_true lo hi c :
  in_range lo hi c = true <-> (lo <= N_of_ascii c <= hi)%N.
Proof. unfold in_range. rewrite andb_true_iff, !N.leb_le. done. Qed.

Lemma is_cont_true c : is_cont c = true <-> (128 <= N_of_ascii c <= 191)%N.
Proof. apply in_range_true. Qed.

Lemma second_byte_range x c :
  second_byte_ok x c = true ->
  (128 <= N_of_ascii c <= 191)%N /\ (x = 240 -> 144 <= N_of_ascii c)%N /\
  (x = 224 -> 160 <= N_of_ascii c)%N.
Proof.
  unfold second_byte_ok. repeat case_match; intros H'%in_range_true;
    repeat match goal with H : (_ =? _)%N = _ |- _ => apply N.eqb_eq in H || apply N.eqb_neq in H end;
    lia.
Qed.

Lemma non_ascii_true c : non_ascii c = true <-> (128 <= N_of_ascii c)%N.
Proof. unfold non_ascii, is_ascii. rewrite negb_true_iff, N.ltb_ge. done. Qed.

(** Turns the tests of [decode_rune] into inequalities. *)
Ltac rune_ranges :=
  repeat match goal with
  | H : negb _ = false |- _ => apply negb_false_iff in H
  | H : second_byte_ok _ _ = true |- _ => apply second_byte_range in H
  | H : is_cont _ = true |- _ => apply is_cont_true in H
  | H : (_ <? _)%N = true |- _ => apply N.ltb_lt in H
  | H : (_ <? _)%N = false |- _ => apply N.ltb_ge in H
  end.

(** The continuation bytes of a valid rune are there and are not ASCII. *)
Lemma decode_rune_rest a s r w :
  decode_rune a s = (r, w, true) ->
  w - 1 <= String.length s /\ sforall non_ascii (stake (w - 1) s) = true.
Proof.
  unfold decode_rune. intros H.
  repeat (case_match; simplify_eq/=; try done); rune_ranges;
    (split; [lia|]); repeat (apply andb_true_iff; split); try done;
    apply non_ascii_true; lia.
Qed.

Lemma ascii_of_code c n : N_of_ascii c = n -> c = ascii_of_N n.
Proof. intros <-. by rewrite ascii_N_embedding. Qed.

(** The two runes the encoder escapes although they are valid have one encoding. *)
Lemma decode_rune_line_sep a s r w :
  (r = 8232 \/ r = 8233)%N -> (128 <= N_of_ascii a)%N ->
  decode_rune a s = (r, w, true) ->
  w = 3 /\ exists t, String a s = encode_rune r +:+ t.
Proof.
  unfold decode_rune, cont_bits. intros Hr Ha H.
  repeat (case_match; simplify_eq/=; try done); rune_ranges; try lia.
  split; [done|].
  match goal with |- context [String a (String ?x (String ?y ?z))] => exists z;
    assert (N_of_ascii a = 226 /\ N_of_ascii x = 128 /\
            (N_of_ascii y = 168 \/ N_of_ascii y = 169))%N as (Ea & Ex & Ey) by lia;
    rewrite ?Ea, ?Ex; destruct Ey as [Ey|Ey]; rewrite ?Ey;
    rewrite (ascii_of_code _ _ Ea), (ascii_of_code _ _ Ex), (ascii_of_code _ _ Ey); done end.
Qed.

Lemma stake_copy k s : stake k (escape_from (Copy k) s) = stake k s.
Proof. revert k. induction s as [|a s IH]; intros [|k]; try done. simpl. by rewrite IH. Qed.

Lemma rune_valid_ascii a s : is_ascii a = true -> rune_valid a s = true.
Proof. unfold rune_valid, decode_rune, is_ascii. by intros ->. Qed.

Lemma unquote_ascii_escape a e s :
  escape_ascii a = Some e ->
  unquote_from 0 (e +:+ s) = String a <$> unquote_from 0 s.
Proof.
  intros H. destruct a as [[] [] [] [] [] [] [] []]; vm_compute in H;
    first [discriminate H | injection H as <-; reflexivity].
Qed.

Lemma escape_ascii_none a :
  escape_ascii a = None -> Ascii.eqb a "\" = false /\ Ascii.eqb a DQ = false /\
  (N_of_ascii a <? 32)%N = false.
Proof. destruct a as [[] [] [] [] [] [] [] []]; vm_compute; done. Qed.

Lemma unquote_raw a k s t :
  is_ascii a = false -> rune_valid a s = true -> rune_width a s - 1 = k ->
  stake k t = stake k s ->
  unquote_from 0 (String a t) = String a <$> unquote_from k t.
Proof.
  unfold rune_valid, rune_width. intros Ha Hv Hk Ht.
  destruct (decode_rune a s) as [[r w] v] eqn:Hd. simpl in *. subst v k.
  assert (decode_rune a t = (r, w, true)) as Hdt by (by eapply decode_rune_local).
  simpl. replace (Ascii.eqb a "\") with false
    by (symmetry; apply Ascii.eqb_neq; by intros ->).
  unfold is_ascii in Ha. rewrite Ha.
  unfold rune_valid, rune_width. by rewrite Hdt.
Qed.

Lemma sanitize_line_sep r t :
  (r = 8232 \/ r = 8233)%N ->
  sanitize_from 0 (encode_rune r +:+ t) = encode_rune r +:+ sanitize_from 0 t.
Proof. by intros [-> | ->]. Qed.

Lemma unquote_line_sep r t :
  (r = 8232 \/ r = 8233)%N ->
  unquote_from 0 ((if (r =? 8232)%N then "\u2028" else "\u2029") +:+ t) =
  String.app (encode_rune r) <$> unquote_from 0 t.
Proof. by intros [-> | ->]. Qed.

Lemma escape_start_line_sep a s r :
  (r = 8232 \/ r = 8233)%N -> is_ascii a = false -> decode_rune a s = (r, 3, true) ->
  escape_from (Copy 0) (String a s) =
  (if (r =? 8232)%N then "\u2028" else "\u2029") +:+ escape_from (Skip 2) s.
Proof.
  unfold is_ascii. intros Hr Ha Hd. cbn [escape_from]. rewrite Ha, Hd. by destruct Hr as [-> | ->].
Qed.

(** Decoding what the encoder wrote between the quotes. *)
Lemma unquote_escape_from s :
  (forall k, unquote_from k (escape_from (Copy k) s) = Some (sanitize_from k s)) /\
  (forall k, unquote_from 0 (escape_from (Skip k) s) = Some (sanitize_from 0 (sdrop k s))).
Proof.
  induction s as [|a s [IHc IHs]]; [by split; intros []|].
  assert (unquote_from 0 (escape_from (Copy 0) (String a s)) = Some (sanitize_from 0 (String a s)))
    as Hstart.
  { destruct (is_ascii a) eqn:Ha.
    - cbn [escape_from sanitize_from]. unfold is_ascii in Ha. rewrite Ha.
      rewrite rune_valid_ascii, rune_width_ascii by (done || by apply N.ltb_lt).
      destruct (escape_ascii a) as [e|] eqn:He.
      + rewrite unquote_ascii_escape with (a := a) by done. by rewrite IHc.
      + apply escape_ascii_none in He as (He & _ & _). cbn [unquote_from].
        by rewrite He, Ha, IHc.
    - destruct (decode_rune a s) as [[r w] v] eqn:Hd.
      destruct v eqn:Hv; [|cbn [escape_from sanitize_from]; unfold is_ascii in Ha;
        rewrite Ha, Hd; unfold rune_valid; rewrite Hd; simpl; by rewrite IHc].
      destruct (decide (r = 8232 \/ r = 8233)%N) as [Hr|Hr].
      + destruct (decode_rune_line_sep a s r w) as (-> & t & Ht);
          [done|by apply non_ascii_true; unfold non_ascii; rewrite Ha|done|].
        rewrite escape_start_line_sep with (r := r) by done.
        rewrite unquote_line_sep, IHs by done. rewrite Ht.
        rewrite sanitize_line_sep by done. simpl. do 3 f_equal.
        by destruct Hr as [-> | ->]; vm_compute in Ht; simplify_eq.
      + cbn [escape_from]. unfold is_ascii in Ha. rewrite Ha, Hd. simpl.
        destruct (N.eqb_spec r 8232); [tauto|]. destruct (N.eqb_spec r 8233); [tauto|].
        rewrite unquote_raw with (k := w - 1) (s := s); unfold rune_valid, rune_width;
          rewrite ?Hd; [by rewrite IHc|done..|apply stake_copy]. }
  split; intros [|k]; [done| |exact Hstart|apply IHs].
  cbn [escape_from unquote_from sanitize_from]. by rewrite IHc.
Qed.

Lemma unquote_escape s : unquote (escape s) = sanitize s.
Proof. unfold unquote, escape. by rewrite (proj1 (unquote_escape_from s)). Qed.

Lemma sanitize_valid_from k s : valid_from k s = true -> sanitize_from k s = s.
Proof.
  revert k. induction s as [|a s IH]; intros [|k]; try done; simpl.
  - intros H. bools. rewrite H. by rewrite IH.
  - intros H. by rewrite IH.
Qed.

(** Valid UTF-8 is left alone. *)
Lemma sanitize_valid s : ValidString s = true -> sanitize s = s.
Proof. apply sanitize_valid_from. Qed.

(** ** Facts: scanning a printed value *)

(** A piece of literal text the scanner passes over inside a string. *)
Definition passes (p : string) : Prop :=
  forall raw st t,
    run (Scanner (InString raw) st) (p +:+ t) = run (Scanner (InString (raw +:+ p)) st) t.

Lemma passes_nil : passes "".
Proof. intros raw st t. by rewrite append_nil_r. Qed.

Lemma passes_append p q : passes p -> passes q -> passes (p +:+ q).
Proof. intros Hp Hq raw st t. by rewrite append_assoc, Hp, Hq, append_assoc. Qed.

Lemma passes_char c s :
  Ascii.eqb c "\" = false -> Ascii.eqb c DQ = false -> (N_of_ascii c <? 32)%N = false ->
  passes s -> passes (String c s).
Proof.
  intros H1 H2 H3 Hs. change (String c s) with (String c "" +:+ s).
  apply passes_append; [|done]. intros raw st t. rewrite append_cons. cbn [run].
  unfold step. cbn [sc_mode sc_stack]. by rewrite H1, H2, H3.
Qed.

Lemma passes_simple c :
  Ascii.eqb c "u" = false -> is_Some (unescape_char c) -> passes (String "\" (String c "")).
Proof.
  intros Hu [e He] raw st t. rewrite !append_cons, append_nil_l. cbn [run].
  unfold step at 1. cbn [sc_mode sc_stack]. cbn [Ascii.eqb Bool.eqb andb].
  unfold step. cbn. rewrite Hu, He. unfold push_char. by rewrite append_assoc.
Qed.

Lemma passes_hex a b c d :
  is_hex a = true -> is_hex b = true -> is_hex c = true -> is_hex d = true ->
  passes (String "\" (String "u" (String a (String b (String c (String d "")))))).
Proof.
  intros Ha Hb Hc Hd raw st t. rewrite !append_cons, append_nil_l.
  cbn -[is_hex push_char]. rewrite Ha. cbn -[is_hex push_char]. rewrite Hb.
  cbn -[is_hex push_char]. rewrite Hc. cbn -[is_hex push_char]. rewrite Hd.
  unfold push_char. by rewrite !append_assoc.
Qed.

(** Solves [passes e] for a literal escape sequence. *)
Ltac pass_escape :=
  first [apply passes_hex; reflexivity | apply passes_simple; [reflexivity|eexists; reflexivity]].

Lemma passes_escape a e : escape_ascii a = Some e -> passes e.
Proof.
  intros H. destruct a as [[] [] [] [] [] [] [] []]; vm_compute in H;
    first [discriminate H | injection H as <-; pass_escape].
Qed.

Lemma passes_ufffd : passes "\ufffd".
Proof. pass_escape. Qed.

Lemma passes_line_sep : passes "\u2028" /\ passes "\u2029".
Proof. split; pass_escape. Qed.

Lemma non_ascii_ordinary c :
  is_ascii c = false ->
  Ascii.eqb c "\" = false /\ Ascii.eqb c DQ = false /\ (N_of_ascii c <? 32)%N = false.
Proof.
  unfold is_ascii. rewrite N.ltb_ge. intros H.
  rewrite !Ascii.eqb_neq, N.ltb_ge. repeat split; [by intros ->|by intros ->|lia].
Qed.

Lemma passes_non_ascii c s : is_ascii c = false -> passes s -> passes (String c s).
Proof. intros (? & ? & ?)%non_ascii_ordinary. by apply passes_char. Qed.

Lemma passes_escape_from s :
  (forall k, sforall non_ascii (stake k s) = true -> passes (escape_from (Copy k) s)) /\
  (forall k, passes (escape_from (Skip k) s)).
Proof.
  induction s as [|a s [IHc IHs]]; [split; intros; apply passes_nil|].
  assert (passes (escape_from (Copy 0) (String a s))) as Hstart.
  { cbn [escape_from]. destruct (N_of_ascii a <? 128)%N eqn:Ha.
    - destruct (escape_ascii a) as [e|] eqn:He.
      + apply passes_append; [by eapply passes_escape|by apply IHc].
      + apply escape_ascii_none in He as (? & ? & ?). by apply passes_char; [..|apply IHc].
    - destruct (decode_rune a s) as [[r w] v] eqn:Hd. destruct v; simpl.
      2: { apply passes_append; [apply passes_ufffd|by apply IHc]. }
      apply decode_rune_rest in Hd as [_ Hd].
      destruct (r =? 8232)%N; [apply passes_append; [apply passes_line_sep|apply IHs]|].
      destruct (r =? 8233)%N; [apply passes_append; [apply passes_line_sep|apply IHs]|].
      apply passes_non_ascii; [done|by apply IHc]. }
  split; intros [|k]; intros; [exact Hstart| |exact Hstart|apply IHs].
  cbn [escape_from]. simpl in H. bools.
  apply passes_non_ascii; [by apply negb_true_iff|by apply IHc].
Qed.

(** Reading a printed string. *)
Lemma run_quoted s st t :
  run (Scanner (InString "") st) (escape s +:+ String DQ t) =
  run (Scanner EndValue (deposit (JString (sanitize s)) st)) t.
Proof.
  pose proof (proj1 (passes_escape_from s) 0 eq_refl) as Hp.
  unfold passes in Hp. fold (escape s) in Hp. rewrite Hp, append_nil_l. cbn [run].
  unfold step. cbn [sc_mode sc_stack]. rewrite Ascii.eqb_refl. by rewrite unquote_escape.
Qed.

(** ** Facts: numbers *)

Definition number_start (c : ascii) : option number_state :=
  if Ascii.eqb c "-" then Some NNeg
  else if Ascii.eqb c "0" then Some NZero
  else if is_digit c then Some NInt
  else None.

Fixpoint number_run (n : number_state) (s : string) : option number_state :=
  match s with
  | "" => Some n
  | String c s' => match number_next n c with Some n' => number_run n' s' | None => None end
  end.

(** The literals of JSON's number grammar. *)
Definition number_ok (s : string) : bool :=
  match s with
  | "" => false
  | String c s' =>
      match number_start c with
      | Some n => match number_run n s' with Some n' => number_complete n' | None => false end
      | None => false
      end
  end.

(** A byte that cannot continue a number. *)
Definition ends_number (c : ascii) : bool :=
  Ascii.eqb c "," || Ascii.eqb c "]" || Ascii.eqb c "}" || is_space c.

Lemma ends_number_next n c : ends_number c = true -> number_next n c = None.
Proof.
  unfold ends_number, is_space. intros H.
  repeat (apply orb_true_iff in H as [H|H]); apply Ascii.eqb_eq in H as ->; by destruct n.
Qed.

Lemma run_number n raw st s c t n' :
  number_run n s = Some n' -> number_complete n' = true -> ends_number c = true ->
  run (Scanner (InNumber n raw) st) (s +:+ String c t) =
  run (Scanner EndValue (deposit (JNumber (raw +:+ s)) st)) (String c t).
Proof.
  intros Hs Hn Hc. revert n raw Hs. induction s as [|d s IH]; intros n raw; simpl.
  - intros [= ->]. rewrite append_nil_r. change ("" +:+ String c t) with (String c t). cbn [run]. unfold step.
    cbn [sc_mode sc_stack]. rewrite ends_number_next by done. by rewrite Hn.
  - destruct (number_next n d) as [m|] eqn:Hd; [|done]. intros Hs.
    rewrite ?append_cons. cbn [run]. unfold step at 1. cbn [sc_mode sc_stack].
    rewrite Hd, IH by done. unfold push_char. by rewrite append_assoc.
Qed.

Lemma number_start_first n c st t :
  number_start c = Some n ->
  run (Scanner BeginValue st) (String c t) = run (Scanner (InNumber n (String c "")) st) t.
Proof.
  intros Hn. destruct c as [[] [] [] [] [] [] [] []]; vm_compute in Hn;
    first [discriminate Hn | injection Hn as <-; reflexivity].
Qed.

(** ** Facts: the round trip *)

Section json_nested_induction.
Context (P : json -> Prop).
Context (Hnull : P JNull) (Hbool : forall b, P (JBool b)) (Hnumber : forall n, P (JNumber n)).
Context (Hstring : forall s, P (JString s)).
Context (Harray : forall l, Forall P l -> P (JArray l)).
Context (Hobject : forall ms, Forall (fun m => P m.2) ms -> P (JObject ms)).

Fixpoint json_nested_ind (v : json) : P v :=
  match v with
  | JNull => Hnull
  | JBool b => Hbool b
  | JNumber n => Hnumber n
  | JString s => Hstring s
  | JArray l =>
      Harray l ((fix go (l : list json) : Forall P l :=
        match l with
        | [] => @List.Forall_nil _ _
        | v :: l' => @List.Forall_cons _ P v l' (json_nested_ind v) (go l')
        end) l)
  | JObject ms =>
      Hobject ms ((fix go (ms : list (string * json)) : Forall (fun m => P m.2) ms :=
        match ms with
        | [] => @List.Forall_nil _ _
        | m :: ms' => @List.Forall_cons _ (fun m => P m.2) m ms' (json_nested_ind m.2) (go ms')
        end) ms)
  end.
End json_nested_induction.

(** The value a printed value is read back as. *)
Fixpoint clean (v : json) : json :=
  match v with
  | JString s => JString (sanitize s)
  | JArray l => JArray (map clean l)
  | JObject ms => JObject (map (fun m => (sanitize m.1, clean m.2)) ms)
  | _ => v
  end.

Fixpoint numbers_ok (v : json) : bool :=
  match v with
  | JNumber n => number_ok n
  | JArray l => forallb numbers_ok l
  | JObject ms => forallb (fun m => numbers_ok m.2) ms
  | _ => true
  end.

(** A stack on which a value is expected. *)
Definition value_position (st : list frame) : Prop :=
  match st with
  | Top _ :: _ | InArray _ :: _ | InValue _ _ :: _ => True
  | _ => False
  end.

(** The scanner after the value [v] has been read. *)
Definition resume (v : json) (st : list frame) (input : string) : scan_result :=
  match close v st with
  | Continue s => run s input
  | Finished w => Value w input
  | _ => BadSyntax
  end.

Lemma resume_scalar v st c t :
  value_position st ->
  run (Scanner EndValue (deposit v st)) (String c t) = resume v st (String c t).
Proof. destruct st as [|[] st]; by intros. Qed.

(** What the scanner does with the byte that closes a container. *)
Lemma resume_close v st c t :
  match close v st with
  | Continue s => run s t
  | Finished w => Value w t
  | FinishedBefore w => Value w (String c t)
  | SyntaxError => BadSyntax
  end = resume v st t.
Proof. unfold resume, close. by destruct (deposit v st) as [|[[]| | | | |] ?]. Qed.

Lemma number_start_head c n :
  number_start c = Some n -> is_space c = false /\ Ascii.eqb c "]" = false.
Proof. destruct c as [[] [] [] [] [] [] [] []]; vm_compute; done. Qed.

Lemma encode_head v :
  numbers_ok v = true ->
  exists c s, encode v = String c s /\ is_space c = false /\ Ascii.eqb c "]" = false.
Proof.
  intros Hv. destruct v as [|[]|n|s|l|ms]; try (by eexists _, _).
  simpl in Hv. destruct n as [|c n]; [done|]. exists c, n. split; [done|].
  simpl in Hv. destruct (number_start c) as [m|] eqn:Hm; [|done].
  by apply number_start_head in Hm.
Qed.

Definition reads_back (v : json) : Prop :=
  numbers_ok v = true ->
  forall st c t, value_position st -> ends_number c = true ->
    run (Scanner BeginValue st) (encode v +:+ String c t) = resume (clean v) st (String c t).

Lemma run_items l vs st t :
  Forall reads_back l -> forallb numbers_ok l = true -> l <> [] ->
  run (Scanner BeginValue (InArray vs :: st)) (join_comma (map encode l) +:+ String "]" t) =
  resume (JArray (vs ++ map clean l)) st t.
Proof.
  revert vs. induction l as [|v l IH]; intros vs HF Hn Hne; [done|].
  apply Forall_cons in HF as [Hv HF]. simpl in Hn. bools.
  destruct l as [|w l].
  - cbn [map join_comma]. rewrite Hv by done. unfold resume at 1. cbn [close deposit run].
    unfold step. cbn -[close]. apply resume_close.
  - change (join_comma (map encode (v :: w :: l))) with
      (encode v +:+ String "," (join_comma (map encode (w :: l)))).
    rewrite append_assoc, append_cons, Hv by done. unfold resume at 1. cbn [close deposit run].
    unfold step at 1. cbn -[run join_comma map].
    rewrite IH by done. by rewrite <- app_assoc.
Qed.

Definition encode_member (m : string * json) : string := quote m.1 +:+ String ":" (encode m.2).
Definition clean_member (m : string * json) : string * json := (sanitize m.1, clean m.2).

Lemma run_member m ms st c t :
  reads_back m.2 -> numbers_ok m.2 = true -> ends_number c = true ->
  run (Scanner BeginString (InKey ms :: st)) (encode_member m +:+ String c t) =
  run (Scanner EndValue (ValueDone (ms ++ [clean_member m]) :: st)) (String c t).
Proof.
  intros Hm Hn Hc. unfold encode_member, quote.
  rewrite append_assoc, append_cons, append_assoc, !append_cons, append_nil_l. cbn [run].
  unfold step at 1. cbn -[run]. rewrite run_quoted. cbn [run deposit].
  unfold step at 1. cbn -[run]. by rewrite Hm.
Qed.

Lemma run_members l ms st t :
  Forall (fun m => reads_back m.2) l -> forallb (fun m => numbers_ok m.2) l = true -> l <> [] ->
  run (Scanner BeginString (InKey ms :: st)) (join_comma (map encode_member l) +:+ String "}" t) =
  resume (JObject (ms ++ map clean_member l)) st t.
Proof.
  revert ms. induction l as [|m l IH]; intros ms HF Hn Hne; [done|].
  apply Forall_cons in HF as [Hm HF]. simpl in Hn. bools.
  destruct l as [|w l].
  - cbn [map join_comma]. rewrite run_member by done. cbn [run].
    unfold step. cbn -[close]. apply resume_close.
  - change (join_comma (map encode_member (m :: w :: l))) with
      (encode_member m +:+ String "," (join_comma (map encode_member (w :: l)))).
    rewrite append_assoc, append_cons, run_member by done. cbn [run].
    unfold step at 1. cbn -[run join_comma map].
    rewrite IH by done. by rewrite <- app_assoc.
Qed.

Lemma reads_back_all v : reads_back v.
Proof.
  induction v as [|b|n|s|l IH|ms IH] using json_nested_ind; intros Hn st c t Hst Hc.
  - by rewrite <- resume_scalar.
  - rewrite <- resume_scalar by done. by destruct b.
  - rewrite <- resume_scalar by done. simpl in Hn. destruct n as [|d n]; [done|].
    simpl in Hn. destruct (number_start d) as [n0|] eqn:Hd; [|done].
    destruct (number_run n0 n) as [n1|] eqn:Hr; [|done].
    cbn [encode clean]. rewrite append_cons, (number_start_first n0) by done.
    by erewrite run_number.
  - rewrite <- resume_scalar by done. cbn [encode clean]. unfold quote.
    rewrite append_cons, append_assoc. cbn [run]. unfold step at 1. cbn -[run].
    by rewrite append_cons, append_nil_l, run_quoted.
  - cbn [encode clean numbers_ok] in *. rewrite append_cons, append_assoc. cbn [run].
    unfold step at 1. cbn -[run map join_comma].
    destruct l as [|v l]; [apply resume_close|].
    rewrite append_cons, append_nil_l, <- (app_nil_l (map clean (v :: l))).
    rewrite <- run_items by done.
    simpl in Hn. bools. destruct (encode_head v) as (d & s & Hd & Hsp & Hbr); [done|].
    assert (exists s', join_comma (map encode (v :: l)) +:+ String "]" (String c t) = String d s')
      as [s' ->]; [|cbn [run]; unfold step; cbn [sc_mode sc_stack]; by rewrite Hsp, Hbr].
    simpl. rewrite Hd. destruct (map encode l); rewrite ?append_cons; eauto.
  - cbn [encode clean numbers_ok] in *. rewrite append_cons, append_assoc. cbn [run].
    unfold step at 1. cbn -[run map join_comma].
    destruct ms as [|m ms]; [apply resume_close|].
    rewrite append_cons, append_nil_l.
    change (map (fun m => (sanitize m.1, clean m.2)) (m :: ms)) with
      ([] ++ map clean_member (m :: ms)).
    rewrite <- run_members by done.
    destruct ms; done.
Qed.

(** Reading the printed form of a value gives the value back. *)
Lemma run_encode v c t :
  numbers_ok v = true -> ends_number c = true ->
  run start (encode v +:+ String c t) = Value (clean v) (String c t).
Proof. intros Hn Hc. unfold start. by rewrite reads_back_all. Qed.

Lemma read_value_Encode v e :
  numbers_ok v = true -> read_value (Encode v) e = Ok (clean v, String LF "").
Proof. intros Hn. unfold read_value, Encode. by rewrite run_encode. Qed.

(** ** Facts: the rest of the stream *)

(** What the decoder leaves unread is a suffix of its input. *)
Lemma run_suffix s input v rest :
  run s input = Value v rest -> exists p, input = p +:+ rest.
Proof.
  revert s. induction input as [|c input IH]; intros s; simpl; [done|].
  destruct (step s c) as [s'|w|w|]; [|by intros [= _ <-]; exists (String c "")|
    by intros [= _ <-]; exists ""|done].
  intros [p ->]%IH. by exists (String c p).
Qed.

End Json.
