(* ===== verification/Http.v ===== *)
(** * Package net/http as the program uses it

    Requests, response writers, the limited body reader and [http.ServeMux]
    (the method- and segment-aware multiplexer of Go 1.22 and later).  A
    handler is a function of a request, a response writer and the state of the
    world it may act on.

    The transport is not modelled: connections, timeouts, header size limits
    and the suppression of bodies in answers to HEAD. *)

From S2P Require Import Prelude GoStrings Json.

Module Http.

(** ** Requests *)

Definition header : Type := gmap string (list string).

(** [URL_EscapedPath] is [URL.EscapedPath()]; [well_formed] ties it to the
    decoded [URL_Path].  Header keys are canonical, as the server makes them. *)
Record Request : Type := {
  Method : string;
  URL_Path : string;
  URL_EscapedPath : string;
  URL_RawQuery : string;
  Header : header;
  Body : string;
  BodyEnd : Json.read_end;
  ProtoAtLeast_1_1 : bool;         (* [ProtoAtLeast(1, 1)] *)
}.

Definition MethodGet : string := "GET".
Definition MethodHead : string := "HEAD".
Definition MethodPost : string := "POST".
Definition MethodDelete : string := "DELETE".
Definition MethodConnect : string := "CONNECT".

Definition StatusOK : Z := 200.
Definition StatusCreated : Z := 201.
Definition StatusNoContent : Z := 204.
Definition StatusBadRequest : Z := 400.
Definition StatusUnauthorized : Z := 401.
Definition StatusNotFound : Z := 404.
Definition StatusMethodNotAllowed : Z := 405.
Definition StatusConflict : Z := 409.
Definition StatusRequestEntityTooLarge : Z := 413.
Definition StatusInternalServerError : Z := 500.
Definition StatusServiceUnavailable : Z := 503.

(** [textproto.CanonicalMIMEHeaderKey] *)
Definition is_token_char (c : ascii) : bool :=
  is_lower c || is_upper c || is_digit c || contains_byte "!#$%&'*+-.^_`|~" c.

Fixpoint canonical_from (upper : bool) (s : string) : string :=
  match s with
  | "" => ""
  | String c s' =>
      String (if upper then upper_ascii c else lower_ascii c)
             (canonical_from (Ascii.eqb c "-") s')
  end.

Definition CanonicalHeaderKey (key : string) : string :=
  if sforall is_token_char key then canonical_from true key else key.

(** [Header.Values] *)
Definition header_values (h : header) (key : string) : list string :=
  default [] (h !! CanonicalHeaderKey key).

(** [Header.Set] *)
Definition header_set (key value : string) (h : header) : header :=
  <[CanonicalHeaderKey key := [value]]> h.

(** ** Response writers *)

(** [rw_header] is the header map handlers mutate; the first [WriteHeader]
    fixes the status and the headers sent. *)
Record ResponseWriter : Type := {
  rw_header : header;
  rw_sent : option (Z * header);
  rw_body : string;
}.

Definition new_writer : ResponseWriter := {| rw_header := ∅; rw_sent := None; rw_body := "" |}.

Definition set_header (key value : string) (w : ResponseWriter) : ResponseWriter :=
  {| rw_header := header_set key value (rw_header w);
     rw_sent := rw_sent w; rw_body := rw_body w |}.

Definition WriteHeader (status : Z) (w : ResponseWriter) : ResponseWriter :=
  match rw_sent w with
  | Some _ => w
  | None => {| rw_header := rw_header w; rw_sent := Some (status, rw_header w);
               rw_body := rw_body w |}
  end.

Definition Write (body : string) (w : ResponseWriter) : ResponseWriter :=
  let w' := WriteHeader StatusOK w in
  {| rw_header := rw_header w'; rw_sent := rw_sent w'; rw_body := rw_body w' +:+ body |}.

(** The status of the finished response; the server sends 200 for a handler
    that wrote nothing. *)
Definition response_status (w : ResponseWriter) : Z :=
  match rw_sent w with Some (s, _) => s | None => StatusOK end.

Definition response_header (w : ResponseWriter) : header :=
  match rw_sent w with Some (_, h) => h | None => rw_header w end.

(** [http.Error] *)
Definition http_error (message : string) (status : Z) (w : ResponseWriter) : ResponseWriter :=
  Write (message +:+ String LF "")
    (WriteHeader status
      (set_header "X-Content-Type-Options" "nosniff"
        (set_header "Content-Type" "text/plain; charset=utf-8" w))).

(** ** http.MaxBytesReader *)

Definition MaxBytesReader (limit : nat) (body : string) (e : Json.read_end) : string * Json.read_end :=
  if (String.length body <=? limit)%nat then (body, e)
  else (stake limit body, Json.TooLarge).

(** ** Paths *)

(** [url.PathUnescape]: [None] for a malformed escape. *)
Fixpoint url_unescape (s : string) : option string :=
  match s with
  | "" => Some ""
  | String c s' =>
      if Ascii.eqb c "%" then
        match s' with
        | String a (String b s'') =>
            match hex_digit a, hex_digit b with
            | Some x, Some y => String (ascii_of_N (16 * x + y)) <$> url_unescape s''
            | _, _ => None
            end
        | _ => None
        end
      else String c <$> url_unescape s'
  end.

Definition path_unescape (s : string) : string := default s (url_unescape s).

(** What the parser of the request line guarantees: both paths agree, and a path
    is empty, rooted or the asterisk form. *)
Definition well_formed (r : Request) : Prop :=
  url_unescape (URL_EscapedPath r) = Some (URL_Path r) /\
  (URL_EscapedPath r = "" \/ URL_EscapedPath r = "*" \/
   has_prefix (URL_EscapedPath r) "/" = true).

(** The segments [firstSegment] takes from a path, decoded; a final slash is
    the segment ["/"]. *)
Fixpoint segments_from (cur s : string) : list string :=
  match s with
  | "" => [path_unescape cur]
  | String c s' =>
      if Ascii.eqb c "/"
      then path_unescape cur :: (if String.eqb s' "" then ["/"] else segments_from "" s')
      else segments_from (cur +:+ String c "") s'
  end.

Definition path_segments (p : string) : list string :=
  match p with
  | "" => []
  | String c s' => if String.eqb p "/" then ["/"] else segments_from "" s'
  end.

(** [path.Clean] of a rooted path: its components with [.] and [..] resolved. *)
Fixpoint split_slash (cur s : string) : list string :=
  match s with
  | "" => [cur]
  | String c s' =>
      if Ascii.eqb c "/" then cur :: split_slash "" s'
      else split_slash (cur +:+ String c "") s'
  end.

Definition clean_component (done : list string) (c : string) : list string :=
  if String.eqb c "" || String.eqb c "." then done
  else if String.eqb c ".." then removelast done
  else done ++ [c].

Definition join_rooted (cs : list string) : string :=
  match cs with
  | [] => "/"
  | _ => foldr (fun c acc => String "/" (c +:+ acc)) "" cs
  end.

Definition path_clean (p : string) : string :=
  join_rooted (foldl clean_component [] (split_slash "" p)).

(** [cleanPath] of net/http, which keeps a trailing slash. *)
Definition clean_path (p : string) : string :=
  let p := match p with
    | String "/" _ => p
    | _ => String "/" p
    end in
  let np := path_clean p in
  if has_suffix p "/" && negb (String.eqb np "/") then np +:+ "/" else np.

(** ** http.ServeMux *)

Inductive pattern_segment : Type :=
| Literal (s : string)   (* [{$}] is the literal "/" *)
| Multi.                 (* a trailing slash *)

Record pattern : Type := { p_method : string; p_segments : list pattern_segment }.

#[export] Instance pattern_segment_eq_dec : EqDecision pattern_segment.
Proof. solve_decision. Defined.

Fixpoint parse_segments (cur s : string) : list pattern_segment :=
  match s with
  | "" => if String.eqb cur "" then [Multi]
          else if String.eqb cur "{$}" then [Literal "/"]
          else [Literal (path_unescape cur)]
  | String c s' =>
      if Ascii.eqb c "/" then Literal (path_unescape cur) :: parse_segments "" s'
      else parse_segments (cur +:+ String c "") s'
  end.

(** [parsePattern], for the patterns without host and wildcards in use here:
    an optional method, a space, and a path. *)
Definition parse_pattern (s : string) : pattern :=
  let '(method, path) := match cut s " " with
    | Some (m, p) => (m, p)
    | None => ("", s)
    end in
  {| p_method := method; p_segments := parse_segments "" (sdrop 1 path) |}.

Section ServeMux.
Context {H : Type}.

(** A registered handler, with the segments still to match. *)
Definition entry : Type := list pattern_segment * (pattern * H).

Definition mux : Type := list (pattern * H).

Definition descend (seg : string) (es : list entry) : list entry :=
  omap (fun e : entry =>
    match e.1 with
    | Literal s :: rest => if String.eqb s seg then Some (rest, e.2) else None
    | _ => None
    end) es.

Definition find_end (es : list entry) : option (pattern * H) :=
  snd <$> head (filter (fun e : entry => e.1 = []) es).

Definition find_multi (es : list entry) : option (pattern * H) :=
  snd <$> head (filter (fun e : entry => e.1 = [Multi]) es).

(** [routingNode.matchPath]: literals first, then a subtree pattern. *)
Fixpoint match_path (es : list entry) (path : list string) : option (pattern * H) :=
  match path with
  | [] => find_end es
  | seg :: rest =>
      match match_path (descend seg es) rest with
      | Some r => Some r
      | None => find_multi es
      end
  end.

Definition with_method (m : string) (mx : mux) : list entry :=
  omap (fun ph : pattern * H =>
    if String.eqb (p_method ph.1) m then Some (p_segments ph.1, ph) else None) mx.

(** [routingNode.matchMethodAndPath] *)
Definition mux_match (mx : mux) (method path : string) : option (pattern * H) :=
  let segs := path_segments path in
  match (if String.eqb method "" then None else match_path (with_method method mx) segs) with
  | Some r => Some r
  | None =>
      match (if String.eqb method MethodHead then match_path (with_method MethodGet mx) segs
             else None) with
      | Some r => Some r
      | None => match_path (with_method "" mx) segs
      end
  end.

Definition ends_multi (p : pattern) : bool :=
  match last (p_segments p) with Some Multi => true | _ => false end.

(** [exactMatch] *)
Definition exact_match (r : option (pattern * H)) (path : string) : bool :=
  match r with
  | None => false
  | Some (p, _) =>
      if negb (ends_multi p) then true
      else if negb (has_suffix path "/") then false
      else (length (p_segments p) =? count_byte path "/")%nat
  end.

Inductive routing : Type :=
| Handle (h : H)
| Redirect (path : string)
| NotAllowed (methods : list string)
| NoMatch.

(** The redirect of [matchOrRedirect]: to the same path with a slash appended. *)
Definition slash_redirect (mx : mux) (method path : string) (r : Request) : option string :=
  if negb (exact_match (mux_match mx method path) path) && negb (has_suffix path "/")
     && exact_match (mux_match mx method (path +:+ "/")) (path +:+ "/")
  then Some (clean_path (URL_Path r) +:+ "/")
  else None.

(** [matchingMethods] *)
Definition methods_of (mx : mux) : list string :=
  remove_dups (filter (fun m => m <> "") (map (fun ph => p_method ph.1) mx)).

Definition path_methods (mx : mux) (path : string) : list string :=
  let ms := filter (fun m =>
    is_Some (match_path (with_method m mx) (path_segments path))) (methods_of mx) in
  if bool_decide (MethodGet ∈ ms) then MethodHead :: ms else ms.

Definition matching_methods (mx : mux) (path : string) : list string :=
  let ms := path_methods mx path ++
    (if has_suffix path "/" then [] else path_methods mx (path +:+ "/")) in
  sort_by go_string_le id (remove_dups ms).

(** [ServeMux.findHandler] *)
Definition find_handler (mx : mux) (r : Request) : routing :=
  let fallback path :=
    match matching_methods mx path with
    | [] => NoMatch
    | ms => NotAllowed ms
    end in
  let escaped := URL_EscapedPath r in
  if String.eqb (Method r) MethodConnect then
    match slash_redirect mx (Method r) escaped r with
    | Some p => Redirect p
    | None =>
        match mux_match mx (Method r) escaped with
        | Some (_, h) => Handle h
        | None => fallback escaped
        end
    end
  else
    let path := clean_path escaped in
    match slash_redirect mx (Method r) path r with
    | Some p => Redirect p
    | None =>
        if negb (String.eqb path escaped) then Redirect path
        else match mux_match mx (Method r) path with
             | Some (_, h) => Handle h
             | None => fallback path
             end
    end.
End ServeMux.

(** ** Handlers *)
Section Handlers.
Context {W : Type}.

Definition Handler : Type := Request -> ResponseWriter -> W -> ResponseWriter * W.

(** [ServeMux.ServeHTTP].  [redirect] is net/http's redirect response: its
    status and body differ between Go releases and nothing here depends on
    them. *)
Definition mux_serve (redirect : string -> Request -> ResponseWriter -> ResponseWriter)
    (mx : @mux Handler) : Handler :=
  fun r w s =>
    if String.eqb (URL_Path r) "*" then
      let w := if ProtoAtLeast_1_1 r then set_header "Connection" "close" w else w in
      (WriteHeader StatusBadRequest w, s)
    else
      match find_handler mx r with
      | Handle h => h r w s
      | Redirect p => (redirect p r w, s)
      | NotAllowed ms =>
          let allow := foldr (fun m acc =>
            match acc with "" => m | _ => m +:+ ", " +:+ acc end) "" ms in
          (http_error "Method Not Allowed" StatusMethodNotAllowed (set_header "Allow" allow w), s)
      | NoMatch => (http_error "404 page not found" StatusNotFound w, s)
      end.

(** [HandleFunc] registers a pattern. *)
Definition handle_func (pat : string) (h : Handler) : pattern * Handler := (parse_pattern pat, h).
End Handlers.

(** ** Facts: the first response status stays *)

Lemma WriteHeader_sent st w s h : rw_sent w = Some (s, h) -> WriteHeader st w = w.
Proof. unfold WriteHeader. by intros ->. Qed.

Lemma response_status_WriteHeader st w :
  rw_sent w = None -> response_status (WriteHeader st w) = st.
Proof. unfold WriteHeader, response_status. by intros ->. Qed.

Lemma Write_sent b w : rw_sent (Write b w) = rw_sent (WriteHeader StatusOK w).
Proof. done. Qed.

Lemma http_error_status message status w :
  rw_sent w = None -> response_status (http_error message status w) = status.
Proof. intros Hw. unfold http_error, response_status. rewrite Write_sent. unfold WriteHeader. simpl. by rewrite Hw. Qed.

(** ** Facts: the limited reader *)

Lemma MaxBytesReader_within limit body e :
  String.length body <= limit -> MaxBytesReader limit body e = (body, e).
Proof. intros H. unfold MaxBytesReader. by rewrite (proj2 (Nat.leb_le _ _) H). Qed.

Lemma MaxBytesReader_beyond limit body e :
  limit < String.length body ->
  MaxBytesReader limit body e = (stake limit body, Json.TooLarge).
Proof. intros H. unfold MaxBytesReader. by rewrite (proj2 (Nat.leb_gt _ _) H). Qed.

(** At most [limit] bytes are ever handed to the decoder. *)
Lemma MaxBytesReader_bound limit body e :
  String.length (MaxBytesReader limit body e).1 <= limit.
Proof.
  unfold MaxBytesReader. destruct (Nat.leb_spec (String.length body) limit); simpl; [done|].
  rewrite stake_length. lia.
Qed.

(** ** Facts: percent-decoding and segments *)

Lemma url_unescape_nil : url_unescape "" = Some "".
Proof. done. Qed.

(** A slash never falls inside an escape. *)
Lemma url_unescape_slash a b p :
  url_unescape (a +:+ String "/" b) = Some p ->
  exists a' b', url_unescape a = Some a' /\ url_unescape b = Some b' /\
    p = a' +:+ String "/" b'.
Proof.
  remember (String.length a) as n eqn:Hn. revert a p Hn.
  induction n as [n IH] using lt_wf_ind. intros a p ->.
  destruct a as [|c a].
  - rewrite append_nil_l. simpl. intros (q & Hq & ->)%fmap_Some. by exists "", q.
  - rewrite append_cons. cbn [url_unescape]. destruct (Ascii.eqb c "%").
    + destruct a as [|x [|y a]].
      { rewrite append_nil_l. by destruct b. }
      { rewrite append_cons, append_nil_l. by destruct (hex_digit x). }
      rewrite !append_cons. destruct (hex_digit x), (hex_digit y); try done.
      intros (q & Hq & ->)%fmap_Some.
      destruct (IH (String.length a)) with (a := a) (p := q) as (a' & b' & -> & Hb & ->);
        [simpl; lia|reflexivity|exact Hq|]. by eexists _, b'.
    + intros (q & Hq & ->)%fmap_Some.
      destruct (IH (String.length a)) with (a := a) (p := q) as (a' & b' & -> & Hb & ->);
        [simpl; lia|reflexivity|exact Hq|]. by eexists _, b'.
Qed.

Lemma segments_from_split cur s :
  (exists t, s = t /\ contains_byte t "/" = false /\
     segments_from cur s = [path_unescape (cur +:+ t)]) \/
  (exists t s', s = t +:+ String "/" s' /\ contains_byte t "/" = false /\
     segments_from cur s = path_unescape (cur +:+ t) :: path_segments (String "/" s')).
Proof.
  revert cur. induction s as [|c s IH]; intros cur; simpl.
  - left. exists "". by rewrite append_nil_r.
  - destruct (Ascii.eqb c "/") eqn:Hc.
    + apply Ascii.eqb_eq in Hc as ->. right. exists "", s. rewrite append_nil_r. done.
    + assert (Ascii.eqb "/" c = false) as Hc' by (by rewrite Ascii.eqb_sym).
      destruct (IH (cur +:+ String c "")) as [(t & -> & Ht & ->)|(t & s' & -> & Ht & ->)].
      * left. exists (String c t). rewrite append_assoc, contains_byte_cons, Hc'. done.
      * right. exists (String c t), s'. rewrite append_assoc, contains_byte_cons, Hc'. done.
Qed.

(** The first segment of a rooted path, read off the decoded path. *)
Lemma segments_head s p a rest :
  url_unescape (String "/" s) = Some p -> path_segments (String "/" s) = a :: rest ->
  s = "" /\ p = "/" \/
  rest = [] /\ p = String "/" a \/
  exists s' q, path_segments (String "/" s') = rest /\ url_unescape (String "/" s') = Some q /\
    p = String "/" (a +:+ q).
Proof.
  intros Hp Hseg. destruct s as [|c s]; [left; by simplify_eq/=|right].
  change (path_segments (String "/" (String c s))) with (segments_from "" (String c s)) in *.
  change (url_unescape (String "/" (String c s))) with
    (String "/" <$> url_unescape (String c s)) in Hp.
  apply fmap_Some in Hp as (p' & Hp & ->).
  destruct (segments_from_split "" (String c s)) as [(t & <- & _ & Hs')|(t & s' & Hs & _ & Hs')];
    rewrite Hs' in Hseg; injection Hseg as <- <-.
  - left. unfold path_unescape. by rewrite append_nil_l, Hp.
  - right. rewrite Hs in Hp.
    apply url_unescape_slash in Hp as (t' & q & Ht & Hq & ->).
    exists s', (String "/" q). split; [done|]. split.
    + cbn [url_unescape]. by rewrite Hq.
    + unfold path_unescape. by rewrite append_nil_l, Ht.
Qed.

(** ** Facts: what a match means *)

Inductive pattern_matches : list pattern_segment -> list string -> Prop :=
| matches_end : pattern_matches [] []
| matches_literal s p segs : pattern_matches p segs -> pattern_matches (Literal s :: p) (s :: segs)
| matches_multi seg segs : pattern_matches [Multi] (seg :: segs).

Section MuxFacts.
Context {H : Type}.
Implicit Types (es : list (@entry H)) (mx : @mux H).

Lemma elem_of_descend seg es rest ph :
  (rest, ph) ∈ descend seg es <-> (Literal seg :: rest, ph) ∈ es.
Proof.
  unfold descend. rewrite list_elem_of_omap. split.
  - intros ([segs ph'] & Hin & He). destruct segs as [|[s|] segs]; simpl in He; try done.
    destruct (String.eqb_spec s seg); [|done]. by simplify_eq.
  - intros Hin. exists (Literal seg :: rest, ph). split; [done|]. simpl. by rewrite String.eqb_refl.
Qed.

Lemma find_end_sound es ph : find_end es = Some ph -> ([], ph) ∈ es.
Proof.
  unfold find_end. intros ([segs ph'] & Hh & ->)%fmap_Some.
  assert ((segs, ph') ∈ filter (fun e : entry => e.1 = []) es) as Hin
    by (destruct (filter _ _); simplify_eq/=; by left).
  apply list_elem_of_filter in Hin as [Heq Hin]. simpl in *. by subst.
Qed.

Lemma find_multi_sound es ph : find_multi es = Some ph -> ([Multi], ph) ∈ es.
Proof.
  unfold find_multi. intros ([segs ph'] & Hh & ->)%fmap_Some.
  assert ((segs, ph') ∈ filter (fun e : entry => e.1 = [Multi]) es) as Hin
    by (destruct (filter _ _); simplify_eq/=; by left).
  apply list_elem_of_filter in Hin as [Heq Hin]. simpl in *. by subst.
Qed.

Lemma match_path_sound es path ph :
  match_path es path = Some ph -> exists segs, (segs, ph) ∈ es /\ pattern_matches segs path.
Proof.
  revert es. induction path as [|seg path IH]; intros es; simpl.
  - intros Hf%find_end_sound. exists []. split; [done|constructor].
  - destruct (match_path (descend seg es) path) as [ph'|] eqn:Hm.
    + intros [= ->]. apply IH in Hm as (segs & Hin%elem_of_descend & Hs).
      eexists. split; [done|]. by constructor.
    + intros Hf%find_multi_sound. eexists. split; [done|constructor].
Qed.

Lemma elem_of_with_method m mx segs ph :
  (segs, ph) ∈ with_method m mx -> ph ∈ mx /\ segs = p_segments ph.1 /\ p_method ph.1 = m.
Proof.
  unfold with_method. rewrite list_elem_of_omap. intros (ph' & Hin & He).
  destruct (String.eqb_spec (p_method ph'.1) m); [|done]. by simplify_eq.
Qed.

(** A matched handler is registered under a pattern that fits method and path. *)
Lemma mux_match_sound mx method path p h :
  mux_match mx method path = Some (p, h) ->
  (p, h) ∈ mx /\ pattern_matches (p_segments p) (path_segments path) /\
  (p_method p = "" \/ p_method p = method \/ method = MethodHead /\ p_method p = MethodGet).
Proof.
  unfold mux_match. intros Hm.
  repeat case_match; simplify_eq/=;
    match goal with Hp : match_path _ _ = Some _ |- _ =>
      apply match_path_sound in Hp as (segs & (Hin & -> & Hmeth)%elem_of_with_method & Hs) end;
    simpl in *; bools; auto 6.
Qed.

Lemma find_handler_match mx r h :
  find_handler mx r = Handle h -> exists p, mux_match mx (Method r) (URL_EscapedPath r) = Some (p, h).
Proof.
  unfold find_handler. intros Hf. destruct (String.eqb (Method r) MethodConnect).
  - destruct (slash_redirect _ _ _ _); [done|].
    destruct (mux_match mx (Method r) (URL_EscapedPath r)) as [[p h']|];
      [injection Hf as ->; by exists p|by destruct (matching_methods _ _)].
  - destruct (slash_redirect _ _ _ _); [done|].
    destruct (String.eqb_spec (clean_path (URL_EscapedPath r)) (URL_EscapedPath r)) as [->|];
      [|done]. simpl in Hf.
    destruct (mux_match mx (Method r) (URL_EscapedPath r)) as [[p h']|];
      [injection Hf as ->; by exists p|by destruct (matching_methods _ _)].
Qed.

Lemma find_handler_in mx r h : find_handler mx r = Handle h -> exists p, (p, h) ∈ mx.
Proof. intros (p & Hp%mux_match_sound)%find_handler_match. exists p. by destruct Hp. Qed.

Lemma find_handler_sound mx r h :
  well_formed r -> URL_Path r <> "*" -> find_handler mx r = Handle h ->
  exists p, (p, h) ∈ mx /\ pattern_matches (p_segments p) (path_segments (URL_EscapedPath r)) /\
    (URL_EscapedPath r = "" \/ has_prefix (URL_EscapedPath r) "/" = true) /\
    (p_method p = "" \/ p_method p = Method r \/
     Method r = MethodHead /\ p_method p = MethodGet).
Proof.
  intros [Hu Hroot] Hstar (p & Hp)%find_handler_match.
  assert (URL_EscapedPath r = "" \/ has_prefix (URL_EscapedPath r) "/" = true) as Hrooted.
  { destruct Hroot as [?|[He|?]]; [by left| |by right]. rewrite He in Hu. by simplify_eq/=. }
  apply mux_match_sound in Hp as (? & ? & ?). eauto 6.
Qed.
End MuxFacts.

(** ** Facts: the decoded path of a match *)

Lemma path_segments_nonempty c s : path_segments (String c s) <> [].
Proof.
  unfold path_segments. case_bool; [done|].
  by destruct (segments_from_split "" s) as [(? & _ & _ & ->)|(? & ? & _ & _ & ->)].
Qed.

Definition rooted (segs : list string) : string :=
  foldr (fun c acc => String "/" (c +:+ acc)) "" segs.

(** The decoded path starts with the decoded segments: a percent escape cannot
    make a path look different to the router than to the authentication check. *)
Lemma segments_path segs e p rest :
  url_unescape e = Some p -> has_prefix e "/" = true -> Forall (fun s => s <> "/") segs ->
  path_segments e = segs ++ rest ->
  exists q, p = rooted segs +:+ q /\
    (rest = [] -> q = "") /\ (rest <> [] -> has_prefix q "/" = true).
Proof.
  revert e p. induction segs as [|a segs IH]; intros e p He Hroot HF Hs;
    apply has_prefix_spec in Hroot as [s ->]; rewrite append_cons, append_nil_l in *.
  - rewrite app_nil_l in Hs. exists p. split; [done|]. split.
    + intros ->. by apply path_segments_nonempty in Hs.
    + cbn [url_unescape Ascii.eqb Bool.eqb] in He. apply fmap_Some in He as (? & _ & ->). done.
  - apply Forall_cons in HF as [Ha HF].
    destruct (segments_head s p _ _ He Hs) as [[-> _]|[[Hnil ->]|(s' & q & Hs' & Hq & ->)]].
    + by simplify_eq/=.
    + apply app_eq_nil in Hnil as [-> ->]. exists "". simpl. by rewrite !append_nil_r.
    + destruct (IH _ _ Hq eq_refl HF Hs') as (q' & -> & Hnil & Hcons).
      exists q'. simpl. by rewrite append_cons, append_assoc.
Qed.

Lemma segments_path_exact segs e p :
  url_unescape e = Some p -> has_prefix e "/" = true -> path_segments e = segs ->
  Forall (fun s => s <> "/") segs -> p = rooted segs.
Proof.
  intros He Hroot Hs HF. rewrite <- (app_nil_r segs) in Hs.
  destruct (segments_path _ _ _ _ He Hroot HF Hs) as (q & -> & Hq & _).
  by rewrite Hq, append_nil_r.
Qed.

Lemma segments_path_below segs e p rest :
  url_unescape e = Some p -> has_prefix e "/" = true -> path_segments e = segs ++ rest ->
  rest <> [] -> Forall (fun s => s <> "/") segs -> exists name, p = rooted segs +:+ String "/" name.
Proof.
  intros He Hroot Hs Hne HF.
  destruct (segments_path _ _ _ _ He Hroot HF Hs) as (q & -> & _ & Hq).
  destruct (proj1 (has_prefix_spec _ _) (Hq Hne)) as [name ->]. by exists name.
Qed.

(** Reads the segments of a path off the pattern it matches. *)
Ltac invert_matches :=
  repeat match goal with
  | Hm : pattern_matches _ ?segs |- _ => inversion Hm; clear Hm; simplify_eq
  end.

(** ** Facts: headers *)

Lemma header_values_set_eq k v h : header_values (header_set k v h) k = [v].
Proof. unfold header_values, header_set. unfold header. by rewrite lookup_insert_eq. Qed.

Lemma header_values_set_ne k k' v h :
  CanonicalHeaderKey k <> CanonicalHeaderKey k' ->
  header_values (header_set k v h) k' = header_values h k'.
Proof. intros Hk. unfold header_values, header_set. unfold header. by rewrite lookup_insert_ne. Qed.

#[export] Hint Rewrite header_values_set_eq : controlplane.
#[export] Hint Rewrite header_values_set_ne using (by vm_compute) : controlplane.

#[export] Hint Constructors pattern_matches : controlplane.

End Http.
