(* ===== verification/ApiTypes.v ===== *)
(** * The ManagedService API (api/v1alpha1)

    The custom resource of the platform: its Go structs, its constants, and
    the admission rules its kubebuilder markers generate (defaults and
    validation).  Go integers [int32] and [int64] are [Z]; a pointer field with
    [omitempty] is an [option].

    Of [metav1.ObjectMeta] the model keeps the fields the program reads or
    writes and those the API server maintains for them. *)

From S2P Require Import Prelude GoStrings.

Module V1alpha1.

Definition Group : string := "platform.eoghanclancy.eu".
Definition Version : string := "v1alpha1".
Definition Kind : string := "ManagedService".

Definition ManagedServiceTemplateDemoHTTP : string := "demo-http".

Definition ManagedServiceConditionAvailable : string := "Available".
Definition ManagedServiceConditionProgressing : string := "Progressing".
Definition ManagedServiceConditionDegraded : string := "Degraded".

(** [metav1.ConditionStatus] *)
Definition ConditionTrue : string := "True".
Definition ConditionFalse : string := "False".
Definition ConditionUnknown : string := "Unknown".

(** [metav1.Condition] *)
Record Condition : Type := {
  cond_Type : string;
  cond_Status : string;
  cond_ObservedGeneration : Z;
  cond_LastTransitionTime : Z;
  cond_Reason : string;
  cond_Message : string;
}.

(** [metav1.OwnerReference] *)
Record OwnerReference : Type := {
  owner_APIVersion : string;
  owner_Kind : string;
  owner_Name : string;
  owner_UID : string;
  owner_Controller : bool;
  owner_BlockOwnerDeletion : bool;
}.

(** [metav1.ObjectMeta] *)
Record ObjectMeta : Type := {
  Name : string;
  Namespace : string;
  UID : string;
  Generation : Z;
  Labels : gmap string string;
  OwnerReferences : list OwnerReference;
  DeletionTimestamp : option Z;
}.

Record ManagedServiceSpec : Type := {
  Template : string;
  Replicas : option Z;
  Message : string;
}.

Record ManagedServiceStatus : Type := {
  ObservedGeneration : Z;
  ReadyReplicas : Z;
  Endpoint : string;
  Conditions : list Condition;
}.

Record ManagedService : Type := {
  ms_meta : ObjectMeta;
  Spec : ManagedServiceSpec;
  Status : ManagedServiceStatus;
}.

Record ManagedServiceList : Type := { Items : list ManagedService }.

(** The zero values Go gives fields that are not set. *)
Definition zero_meta : ObjectMeta :=
  {| Name := ""; Namespace := ""; UID := ""; Generation := 0; Labels := ∅;
     OwnerReferences := []; DeletionTimestamp := None |}.

Definition zero_status : ManagedServiceStatus :=
  {| ObservedGeneration := 0; ReadyReplicas := 0; Endpoint := ""; Conditions := [] |}.

Definition named_meta (name namespace : string) : ObjectMeta :=
  {| Name := name; Namespace := namespace; UID := ""; Generation := 0; Labels := ∅;
     OwnerReferences := []; DeletionTimestamp := None |}.

Definition set_status (ms : ManagedService) (st : ManagedServiceStatus) : ManagedService :=
  {| ms_meta := ms_meta ms; Spec := Spec ms; Status := st |}.

(** ** Admission

    What the API server makes of the markers: [default=1], [Minimum=1],
    [Maximum=3], [Enum=demo-http] and [MaxLength=120] (in code points). *)
Definition default_spec (s : ManagedServiceSpec) : ManagedServiceSpec :=
  {| Template := Template s;
     Replicas := Some (default 1%Z (Replicas s));
     Message := Message s |}.

Definition valid_spec (s : ManagedServiceSpec) : bool :=
  String.eqb (Template s) ManagedServiceTemplateDemoHTTP
  && match Replicas s with
     | Some r => (1 <=? r)%Z && (r <=? 3)%Z
     | None => true
     end
  && (RuneCountInString (Message s) <=? 120)%nat.

(** Defaulting comes before validation. *)
Definition admit_spec (s : ManagedServiceSpec) : option ManagedServiceSpec :=
  let s' := default_spec s in if valid_spec s' then Some s' else None.

#[export] Instance Condition_eq_dec : EqDecision Condition.
Proof. solve_decision. Defined.

#[export] Instance OwnerReference_eq_dec : EqDecision OwnerReference.
Proof. solve_decision. Defined.

#[export] Instance ObjectMeta_eq_dec : EqDecision ObjectMeta.
Proof. solve_decision. Defined.

#[export] Instance ManagedServiceSpec_eq_dec : EqDecision ManagedServiceSpec.
Proof. solve_decision. Defined.

#[export] Instance ManagedServiceStatus_eq_dec : EqDecision ManagedServiceStatus.
Proof. solve_decision. Defined.

#[export] Instance ManagedService_eq_dec : EqDecision ManagedService.
Proof. solve_decision. Defined.

(** The key of an object in the cluster: its namespace and name. *)
Definition key (m : ObjectMeta) : string * string := (Namespace m, Name m).

Lemma key_named name namespace : key (named_meta name namespace) = (namespace, name).
Proof. done. Qed.

Lemma default_spec_idemp s : default_spec (default_spec s) = default_spec s.
Proof. done. Qed.

(** Admitted specs are fixed points of admission. *)
Lemma admit_spec_idemp s s' : admit_spec s = Some s' -> admit_spec s' = Some s'.
Proof.
  unfold admit_spec. destruct (valid_spec (default_spec s)) eqn:Hv; [|done].
  intros [= <-]. by rewrite default_spec_idemp, Hv.
Qed.

Lemma admit_spec_replicas s s' :
  admit_spec s = Some s' -> exists r, Replicas s' = Some r /\ (1 <= r <= 3)%Z.
Proof.
  unfold admit_spec. destruct (valid_spec (default_spec s)) eqn:Hv; [|done].
  intros [= <-]. unfold valid_spec in Hv. simpl in Hv. bools.
  exists (default 1%Z (Replicas s)). split; [done|]. split; by apply Z.leb_le.
Qed.

End V1alpha1.
