(* ===== verification/DeepCopy.v ===== *)
(** * Deep copies in memory (api/v1alpha1/zz_generated.deepcopy.go)

    The other files treat Go structs as values.  Here they are what they are in
    memory: pointers and slices are locations, and assigning a struct copies them,
    so that two structs may share what they point to.  The theorems say that the
    copies of [DeepCopy] share nothing with the original, which is what makes it
    right to treat the object before a status update and the one after it as two
    values ([Status.patchManagedServiceStatus]).

    The copy functions of metav1 ([ObjectMeta], [ListMeta], [Condition]) are
    parameters that keep the same contract. *)

From stdpp Require Import fin_maps fin_map_dom gmap infinite.
From S2P Require Import Prelude ApiTypes.
Import V1alpha1.

Module DeepCopy.

Abbreviation loc := positive (only parsing).

Record TypeMeta : Type := { tm_Kind : string; tm_APIVersion : string }.

Section Memory.
(** Metadata in memory, and the contents of the cells only metadata uses. *)
Context {M L X : Type}.

Record spec : Type := {
  m_Template : string;
  m_Replicas : option loc;
  m_Message : string;
}.

Record status : Type := {
  m_ObservedGeneration : Z;
  m_ReadyReplicas : Z;
  m_Endpoint : string;
  m_Conditions : option loc;  (* [None] is the nil slice *)
}.

Record service : Type := {
  m_TypeMeta : TypeMeta;
  m_ObjectMeta : M;
  m_Spec : spec;
  m_Status : status;
}.

Record service_list : Type := {
  l_TypeMeta : TypeMeta;
  l_ListMeta : L;
  l_Items : option loc;
}.

Inductive cell : Type :=
| Int32 (z : Z)
| ConditionArray (cs : list Condition)
| ServiceArray (items : list service)
| ServiceCell (s : service)
| ListCell (l : service_list)
| SpecCell (s : spec)
| StatusCell (s : status)
| OtherCell (x : X).

Abbreviation heap := (gmap positive cell).

(** [new] and [make]. *)
Definition new (c : cell) (h : heap) : loc * heap :=
  let l := fresh (dom h) in (l, <[l := c]> h).

Context (zero_meta : M) (zero_list_meta : L) (zero_condition : Condition).
Context (ObjectMeta_DeepCopyInto : M -> heap -> M * heap).
Context (ListMeta_DeepCopyInto : L -> heap -> L * heap).
Context (Condition_DeepCopyInto : Condition -> Condition).

Definition zero_type : TypeMeta := {| tm_Kind := ""; tm_APIVersion := "" |}.
Definition zero_spec : spec := {| m_Template := ""; m_Replicas := None; m_Message := "" |}.
Definition zero_status : status :=
  {| m_ObservedGeneration := 0; m_ReadyReplicas := 0; m_Endpoint := ""; m_Conditions := None |}.
Definition zero_service : service :=
  {| m_TypeMeta := zero_type; m_ObjectMeta := zero_meta; m_Spec := zero_spec; m_Status := zero_status |}.
Definition zero_list : service_list :=
  {| l_TypeMeta := zero_type; l_ListMeta := zero_list_meta; l_Items := None |}.

(** ** The generated functions

    A [DeepCopyInto] gives what it leaves in [out], whose old contents it
    overwrites.  A pointer that is not nil points to a value of its type. *)

Definition Spec_DeepCopyInto (i : spec) (h : heap) : spec * heap :=
  let out := i in
  match m_Replicas i with
  | None => (out, h)
  | Some p =>
      match h !! p with
      | Some (Int32 z) =>
          let '(q, h) := new (Int32 0) h in
          let h := <[q := Int32 z]> h in
          ({| m_Template := m_Template out; m_Replicas := Some q; m_Message := m_Message out |}, h)
      | _ => (out, h)
      end
  end.

(** The loop over a slice of conditions: element [i] of [in] is read and copied
    into element [i] of [out], each by its index in the heap. *)
Fixpoint copy_conditions (i : nat) (n : nat) (p q : loc) (h : heap) : heap :=
  match n with
  | 0 => h
  | S n' =>
      match h !! p, h !! q with
      | Some (ConditionArray cs), Some (ConditionArray out) =>
          match cs !! i with
          | Some c =>
              copy_conditions (S i) n' p q
                (<[q := ConditionArray (<[i := Condition_DeepCopyInto c]> out)]> h)
          | None => h
          end
      | _, _ => h
      end
  end.

Definition Status_DeepCopyInto (i : status) (h : heap) : status * heap :=
  let out := i in
  match m_Conditions i with
  | None => (out, h)
  | Some p =>
      match h !! p with
      | Some (ConditionArray cs) =>
          let '(q, h) := new (ConditionArray (replicate (length cs) zero_condition)) h in
          let h := copy_conditions 0 (length cs) p q h in
          ({| m_ObservedGeneration := m_ObservedGeneration out; m_ReadyReplicas := m_ReadyReplicas out;
              m_Endpoint := m_Endpoint out; m_Conditions := Some q |}, h)
      | _ => (out, h)
      end
  end.

Definition DeepCopyInto (i : service) (h : heap) : service * heap :=
  let '(meta, h) := ObjectMeta_DeepCopyInto (m_ObjectMeta i) h in
  let '(sp, h) := Spec_DeepCopyInto (m_Spec i) h in
  let '(st, h) := Status_DeepCopyInto (m_Status i) h in
  ({| m_TypeMeta := m_TypeMeta i; m_ObjectMeta := meta; m_Spec := sp; m_Status := st |}, h).

Fixpoint copy_services (i : nat) (n : nat) (p q : loc) (h : heap) : heap :=
  match n with
  | 0 => h
  | S n' =>
      match h !! p with
      | Some (ServiceArray items) =>
          match items !! i with
          | Some s =>
              let '(s', h) := DeepCopyInto s h in
              match h !! q with
              | Some (ServiceArray out) =>
                  copy_services (S i) n' p q (<[q := ServiceArray (<[i := s']> out)]> h)
              | _ => h
              end
          | None => h
          end
      | _ => h
      end
  end.

Definition List_DeepCopyInto (i : service_list) (h : heap) : service_list * heap :=
  let '(meta, h) := ListMeta_DeepCopyInto (l_ListMeta i) h in
  let out := {| l_TypeMeta := l_TypeMeta i; l_ListMeta := meta; l_Items := l_Items i |} in
  match l_Items i with
  | None => (out, h)
  | Some p =>
      match h !! p with
      | Some (ServiceArray items) =>
          let '(q, h) := new (ServiceArray (replicate (length items) zero_service)) h in
          let h := copy_services 0 (length items) p q h in
          ({| l_TypeMeta := l_TypeMeta out; l_ListMeta := l_ListMeta out; l_Items := Some q |}, h)
      | _ => (out, h)
      end
  end.

(** [DeepCopy] of a pointer, for each of the structs: allocate a zero struct, copy
    into it. *)
Definition deep_copy {T : Type} (wrap : T -> cell) (unwrap : cell -> option T) (zero : T)
    (copy : T -> heap -> T * heap) (i : option loc) (h : heap) : option loc * heap :=
  match i with
  | None => (None, h)
  | Some p =>
      let '(out, h) := new (wrap zero) h in
      match h !! p ≫= unwrap with
      | Some t => let '(t', h) := copy t h in (Some out, <[out := wrap t']> h)
      | None => (Some out, h)
      end
  end.

Definition as_service (c : cell) : option service := match c with ServiceCell s => Some s | _ => None end.
Definition as_list (c : cell) : option service_list := match c with ListCell s => Some s | _ => None end.
Definition as_spec (c : cell) : option spec := match c with SpecCell s => Some s | _ => None end.
Definition as_status (c : cell) : option status := match c with StatusCell s => Some s | _ => None end.

Definition DeepCopy : option loc -> heap -> option loc * heap :=
  deep_copy ServiceCell as_service zero_service DeepCopyInto.
Definition List_DeepCopy : option loc -> heap -> option loc * heap :=
  deep_copy ListCell as_list zero_list List_DeepCopyInto.
Definition Spec_DeepCopy : option loc -> heap -> option loc * heap :=
  deep_copy SpecCell as_spec zero_spec Spec_DeepCopyInto.
Definition Status_DeepCopy : option loc -> heap -> option loc * heap :=
  deep_copy StatusCell as_status zero_status Status_DeepCopyInto.

(** [DeepCopyObject]: an interface that is nil exactly when the pointer is. *)
Definition DeepCopyObject (i : option loc) (h : heap) : option loc * heap :=
  match DeepCopy i h with
  | (Some c, h') => (Some c, h')
  | (None, h') => (None, h')
  end.

Definition List_DeepCopyObject (i : option loc) (h : heap) : option loc * heap :=
  match List_DeepCopy i h with
  | (Some c, h') => (Some c, h')
  | (None, h') => (None, h')
  end.
(** ** What memory holds *)

Context {LV : Type}.
Context (read_meta : heap -> M -> option ObjectMeta) (read_list_meta : heap -> L -> option LV).

Definition read_spec (h : heap) (s : spec) : option ManagedServiceSpec :=
  match m_Replicas s with
  | None => Some {| Template := m_Template s; Replicas := None; Message := m_Message s |}
  | Some p =>
      match h !! p with
      | Some (Int32 z) => Some {| Template := m_Template s; Replicas := Some z; Message := m_Message s |}
      | _ => None
      end
  end.

Definition read_status (h : heap) (s : status) : option ManagedServiceStatus :=
  let value cs := {| ObservedGeneration := m_ObservedGeneration s; ReadyReplicas := m_ReadyReplicas s;
                     Endpoint := m_Endpoint s; Conditions := cs |} in
  match m_Conditions s with
  | None => Some (value [])
  | Some p => match h !! p with Some (ConditionArray cs) => Some (value cs) | _ => None end
  end.

Definition read_service (h : heap) (s : service) : option (TypeMeta * ManagedService) :=
  meta ← read_meta h (m_ObjectMeta s);
  sp ← read_spec h (m_Spec s);
  st ← read_status h (m_Status s);
  Some (m_TypeMeta s, {| ms_meta := meta; Spec := sp; Status := st |}).

(** A nil list of items is not an empty one. *)
Definition read_list (h : heap) (s : service_list)
    : option (TypeMeta * LV * option (list (TypeMeta * ManagedService))) :=
  meta ← read_list_meta h (l_ListMeta s);
  match l_Items s with
  | None => Some (l_TypeMeta s, meta, None)
  | Some p =>
      match h !! p with
      | Some (ServiceArray items) =>
          vs ← mapM (read_service h) items; Some (l_TypeMeta s, meta, Some vs)
      | _ => None
      end
  end.

(** Through a pointer. *)
Definition read_pointer {T V : Type} (unwrap : cell -> option T) (reads : heap -> T -> option V)
    (h : heap) (p : loc) : option V :=
  t ← h !! p ≫= unwrap; reads h t.

(** ** The contract of a copy

    [kept h h' h'']: in [h''] the memory allocated between [h] and [h'] is as in
    [h'].  A copy writes to new memory only, and reads back as the original as
    long as that memory is kept, whatever becomes of the rest. *)
Definition kept (h h' h'' : heap) : Prop :=
  forall l c, h !! l = None -> h' !! l = Some c -> h'' !! l = Some c.

Definition stable {T V : Type} (reads : heap -> T -> option V) : Prop :=
  forall h h' t v, h ⊆ h' -> reads h t = Some v -> reads h' t = Some v.

Definition copies {T V : Type} (reads : heap -> T -> option V) (copy : T -> heap -> T * heap) : Prop :=
  forall t h v, reads h t = Some v ->
    h ⊆ (copy t h).2 /\ forall h'', kept h (copy t h).2 h'' -> reads h'' (copy t h).1 = Some v.

Lemma kept_split h h1 h2 h'' :
  h ⊆ h1 -> h1 ⊆ h2 -> kept h h2 h'' -> kept h h1 h'' /\ kept h1 h2 h''.
Proof.
  intros H01 H12 Hk. split; intros l c Hn Hl.
  - apply Hk; [done|]. by eapply lookup_weaken.
  - apply Hk; [|done]. by eapply lookup_weaken_None.
Qed.

Lemma kept_self h h' : kept h h' h'.
Proof. by intros l c _ Hl. Qed.

Lemma new_spec (c : cell) (h : heap) :
  let '(l, h') := new c h in h !! l = None /\ h' = <[l := c]> h /\ h ⊆ h'.
Proof.
  unfold new. assert (h !! fresh (dom h) = None) as Hn by (apply not_elem_of_dom, is_fresh).
  split_and!; [done|done|]. by apply insert_subseteq.
Qed.

(** ** The copies keep the contract *)

Context (ObjectMeta_copies : copies read_meta ObjectMeta_DeepCopyInto) (meta_stable : stable read_meta).
Context (ListMeta_copies : copies read_list_meta ListMeta_DeepCopyInto).
Context (list_meta_stable : stable read_list_meta).
Context (Condition_copied : forall c, Condition_DeepCopyInto c = c).

Lemma read_spec_stable : stable read_spec.
Proof.
  intros h h' s v Hsub. unfold read_spec. destruct (m_Replicas s) as [p|]; [|done].
  destruct (h !! p) eqn:Hp; [|done]. by rewrite (lookup_weaken _ _ _ _ Hp Hsub).
Qed.

Lemma read_status_stable : stable read_status.
Proof.
  intros h h' s v Hsub. unfold read_status. destruct (m_Conditions s) as [p|]; [|done].
  destruct (h !! p) eqn:Hp; [|done]. by rewrite (lookup_weaken _ _ _ _ Hp Hsub).
Qed.

Lemma read_service_stable : stable read_service.
Proof.
  intros h h' s v Hsub. unfold read_service. rewrite !bind_Some.
  setoid_rewrite bind_Some. setoid_rewrite bind_Some.
  intros (meta & Hm & sp & Hsp & st & Hst & Hv). exists meta. split; [by eapply meta_stable|].
  exists sp. split; [by eapply read_spec_stable|]. exists st. split; [|done]. by eapply read_status_stable.
Qed.

Lemma Spec_copies : copies read_spec Spec_DeepCopyInto.
Proof.
  intros s h v Hr. unfold Spec_DeepCopyInto, read_spec in *. destruct (m_Replicas s) as [p|] eqn:Hp.
  - destruct (h !! p) as [[z| | | | | | |]|]; try done.
    pose proof (new_spec (Int32 0) h) as Hn. destruct (new (Int32 0) h) as [q h1].
    destruct Hn as (Hq & -> & Hsub). cbn [fst snd]. rewrite insert_insert_eq. split.
    + by apply insert_subseteq.
    + intros h'' Hk. cbn. by rewrite (Hk q (Int32 z)); [|done|apply lookup_insert_eq].
  - split; [done|]. intros h'' _. cbn. by rewrite Hp.
Qed.

Lemma copy_conditions_spec p q cs n : forall i out h,
  p <> q -> h !! p = Some (ConditionArray cs) -> h !! q = Some (ConditionArray out) ->
  length out = length cs -> i + n = length cs -> take i out = take i cs ->
  copy_conditions i n p q h = <[q := ConditionArray cs]> h.
Proof.
  induction n as [|n IH]; intros i out h Hpq Hp Hq Hlen Hi Htake; simpl.
  - rewrite !take_ge in Htake by lia. subst. by rewrite insert_id.
  - rewrite Hp, Hq. destruct (lookup_lt_is_Some_2 cs i ltac:(lia)) as [c Hc]. rewrite Hc, Condition_copied.
    rewrite (IH (S i) (<[i := c]> out)).
    + by rewrite insert_insert_eq.
    + done.
    + by rewrite lookup_insert_ne.
    + by rewrite lookup_insert_eq.
    + by rewrite length_insert.
    + lia.
    + rewrite (take_S_r _ _ c) by (rewrite list_lookup_insert_eq by lia; done).
      rewrite (take_S_r cs _ c) by done. rewrite take_insert_ge by lia. by rewrite Htake.
Qed.

Lemma Status_copies : copies read_status Status_DeepCopyInto.
Proof.
  intros s h v Hr. unfold Status_DeepCopyInto, read_status in *. destruct (m_Conditions s) as [p|] eqn:Hp.
  - destruct (h !! p) as [[|cs| | | | | |]|] eqn:Hcs; try done.
    pose proof (new_spec (ConditionArray (replicate (length cs) zero_condition)) h) as Hn.
    destruct (new _ h) as [q h1]. destruct Hn as (Hq & -> & Hsub). cbn [fst snd].
    assert (p <> q) as Hpq by congruence.
    rewrite (copy_conditions_spec p q cs (length cs) 0 (replicate (length cs) zero_condition)).
    + rewrite insert_insert_eq. split; [by apply insert_subseteq|].
      intros h'' Hk. cbn. by rewrite (Hk q (ConditionArray cs)); [|done|apply lookup_insert_eq].
    + done.
    + by rewrite lookup_insert_ne.
    + by rewrite lookup_insert_eq.
    + apply length_replicate.
    + done.
    + done.
  - split; [done|]. intros h'' _. cbn. by rewrite Hp.
Qed.

Lemma Service_copies : copies read_service DeepCopyInto.
Proof.
  intros s h v Hr. unfold read_service in Hr.
  apply bind_Some in Hr as (meta & Hm & Hr). apply bind_Some in Hr as (sp & Hsp & Hr).
  apply bind_Some in Hr as (st & Hst & [= <-]). unfold DeepCopyInto.
  destruct (ObjectMeta_copies _ _ _ Hm) as [Hsub1 Hk1].
  destruct (ObjectMeta_DeepCopyInto (m_ObjectMeta s) h) as [meta' h1]. cbn [fst snd] in Hsub1, Hk1.
  destruct (Spec_copies _ h1 _ (read_spec_stable _ _ _ _ Hsub1 Hsp)) as [Hsub2 Hk2].
  destruct (Spec_DeepCopyInto (m_Spec s) h1) as [sp' h2]. cbn [fst snd] in Hsub2, Hk2.
  assert (h ⊆ h2) as Hsub by (by etrans).
  destruct (Status_copies _ h2 _ (read_status_stable _ _ _ _ Hsub Hst)) as [Hsub3 Hk3].
  destruct (Status_DeepCopyInto (m_Status s) h2) as [st' h3]. cbn [fst snd] in Hsub3, Hk3 |- *.
  split; [by etrans|]. intros h'' Hk.
  destruct (kept_split _ h2 _ _ Hsub Hsub3 Hk) as [Hk' ?].
  destruct (kept_split _ h1 _ _ Hsub1 Hsub2 Hk') as [? ?]. unfold read_service. cbn.
  rewrite Hk1 by done. cbn. rewrite Hk2 by done. cbn. by rewrite Hk3.
Qed.
(** As [kept], but for the array that is being filled. *)
Definition kept_but (q : loc) (h h' h'' : heap) : Prop :=
  forall l c, l <> q -> h !! l = None -> h' !! l = Some c -> h'' !! l = Some c.

Definition lasting (q : loc) (h h' : heap) (s : service) (v : TypeMeta * ManagedService) : Prop :=
  forall h'', kept_but q h h' h'' -> read_service h'' s = Some v.

(** One turn of the loop. *)
Lemma copy_service_step q (h0 h : heap) (items out : list service) s v (i : nat) :
  h0 ⊆ h -> h0 !! q = None -> h !! q = Some (ServiceArray out) -> items !! i = Some s ->
  read_service h0 s = Some v ->
  let '(s', h1) := DeepCopyInto s h in
  h1 !! q = Some (ServiceArray out) /\
  let h2 := <[q := ServiceArray (<[i := s']> out)]> h1 in
  h0 ⊆ h2 /\ lasting q h0 h2 s' v /\ (forall s1 v1, lasting q h0 h s1 v1 -> lasting q h0 h2 s1 v1).
Proof.
  intros Hsub Hq Hout Hs Hv. apply (read_service_stable _ h) in Hv; [|done].
  destruct (Service_copies _ _ _ Hv) as [Hsub1 Hk]. destruct (DeepCopyInto s h) as [s' h1].
  cbn [fst snd] in Hsub1, Hk. split; [by eapply lookup_weaken|]. intros h2. split_and!.
  - apply insert_subseteq_r; [done|]. by etrans.
  - intros h'' Hk'. apply Hk. intros l c Hn Hl. assert (l <> q) by congruence.
    apply Hk'; [done|by eapply lookup_weaken_None|]. unfold h2. by rewrite lookup_insert_ne.
  - intros s1 v1 Hlast h'' Hk'. apply Hlast. intros l c Hne Hn Hl. apply Hk'; [done..|].
    unfold h2. rewrite lookup_insert_ne by done. by eapply lookup_weaken.
Qed.

Lemma copy_services_spec p q (h0 : heap) (items : list service) vs n : forall i (out : list service) (h : heap),
  h0 ⊆ h -> h0 !! q = None -> h0 !! p = Some (ServiceArray items) ->
  Forall2 (fun s v => read_service h0 s = Some v) items vs ->
  h !! q = Some (ServiceArray out) -> length out = length items -> i + n = length items ->
  Forall2 (lasting q h0 h) (take i out) (take i vs) ->
  let h' := copy_services i n p q h in
  h0 ⊆ h' /\ exists out', h' !! q = Some (ServiceArray out') /\ Forall2 (lasting q h0 h') out' vs.
Proof.
  induction n as [|n IH]; intros i out h Hsub Hq Hp Hvs Hout Hlen Hi Hdone;
    pose proof (Forall2_length _ _ _ Hvs) as Hlv.
  - simpl. rewrite !take_ge in Hdone by lia. split; [done|]. by exists out.
  - cbn [copy_services]. rewrite (lookup_weaken _ _ _ _ Hp Hsub).
    destruct (lookup_lt_is_Some_2 items i ltac:(lia)) as [s Hs]. rewrite Hs.
    destruct (Forall2_lookup_l _ _ _ _ _ Hvs Hs) as (v & Hiv & Hv).
    pose proof (copy_service_step q h0 h items out s v i Hsub Hq Hout Hs Hv) as Hstep.
    destruct (DeepCopyInto s h) as [s' h1]. destruct Hstep as (-> & Hsub2 & Hlast & Hold).
    apply (IH (S i) (<[i := s']> out)); try done.
    + by rewrite lookup_insert_eq.
    + by rewrite length_insert.
    + lia.
    + rewrite (take_S_r _ _ s') by (rewrite list_lookup_insert_eq by lia; done).
      rewrite (take_S_r vs _ v) by done. rewrite take_insert_ge by lia.
      apply Forall2_app; [|by repeat constructor]. eapply Forall2_impl; [exact Hdone|]. exact Hold.
Qed.

Lemma List_copies : copies read_list List_DeepCopyInto.
Proof.
  intros s h v Hr. unfold read_list in Hr. apply bind_Some in Hr as (meta & Hm & Hr).
  unfold List_DeepCopyInto. destruct (ListMeta_copies _ _ _ Hm) as [Hsub1 Hk1].
  destruct (ListMeta_DeepCopyInto (l_ListMeta s) h) as [meta' h1]. cbn [fst snd] in Hsub1, Hk1.
  destruct (l_Items s) as [p|] eqn:Hitems.
  2:{ injection Hr as <-. cbn [fst snd]. split; [done|]. intros h'' Hk. unfold read_list. cbn. by rewrite Hk1. }
  destruct (h !! p) as [[| |items| | | | |]|] eqn:Hp; try done.
  apply bind_Some in Hr as (vs & Hvs%mapM_Some_1 & [= <-]).
  pose proof (lookup_weaken _ _ _ _ Hp Hsub1) as Hp1. rewrite Hp1.
  assert (Forall2 (fun s v => read_service h1 s = Some v) items vs) as Hvs1
    by (eapply Forall2_impl; [exact Hvs|]; intros; by eapply read_service_stable).
  pose proof (new_spec (ServiceArray (replicate (length items) zero_service)) h1) as Hn.
  destruct (new _ h1) as [q h2]. destruct Hn as (Hq & -> & Hsub2). cbn [fst snd].
  destruct (copy_services_spec p q h1 items vs (length items) 0 (replicate (length items) zero_service)
    _ Hsub2 Hq Hp1 Hvs1 (lookup_insert_eq _ _ _) (length_replicate _ _) eq_refl ltac:(constructor))
    as (Hsub3 & out & Hout & Hlast).
  split; [by etrans|]. intros h'' Hk.
  destruct (kept_split _ h1 _ _ Hsub1 Hsub3 Hk) as [Hk' Hk'']. unfold read_list. cbn. rewrite Hk1 by done.
  cbn. rewrite (Hk'' _ _ Hq Hout). rewrite (mapM_Some_2 _ out vs); [done|].
  eapply Forall2_impl; [exact Hlast|]. intros s1 v1 Hl. apply Hl. intros l c _. apply Hk''.
Qed.

(** [DeepCopy] on top of a copy: a new struct that reads as the old one. *)
Lemma deep_copy_spec {T V : Type} (wrap : T -> cell) unwrap zero copy (reads : heap -> T -> option V) p h v :
  (forall t, unwrap (wrap t) = Some t) -> stable reads -> copies reads copy ->
  read_pointer unwrap reads h p = Some v ->
  exists q h', deep_copy wrap unwrap zero copy (Some p) h = (Some q, h') /\ h !! q = None /\ h ⊆ h' /\
    forall h'', kept h h' h'' -> read_pointer unwrap reads h'' q = Some v.
Proof.
  intros Hwrap Hstable Hcopies Hr. unfold read_pointer in Hr. apply bind_Some in Hr as (t & Ht & Hv).
  unfold deep_copy. pose proof (new_spec (wrap zero) h) as Hn. destruct (new _ h) as [q h1].
  destruct Hn as (Hq & -> & Hsub). apply bind_Some in Ht as (c & Hc & Ht).
  rewrite (lookup_weaken _ _ _ _ Hc Hsub). cbn [mbind option_bind]. rewrite Ht.
  destruct (Hcopies _ _ _ (Hstable _ _ _ _ Hsub Hv)) as [Hsub2 Hk].
  destruct (copy t _) as [t' h2]. cbn [fst snd] in Hsub2, Hk.
  do 2 eexists. split; [done|]. split; [done|]. split; [apply insert_subseteq_r; [done|]; by etrans|].
  intros h'' Hk'. unfold read_pointer.
  rewrite (Hk' q (wrap t')); [|done|apply lookup_insert_eq]. cbn. rewrite Hwrap. cbn. apply Hk.
  intros l c' Hn Hl. assert (l <> q) by (intros ->; by rewrite lookup_insert_eq in Hn).
  rewrite lookup_insert_ne in Hn by done. apply Hk'; [done|]. by rewrite lookup_insert_ne.
Qed.

Lemma read_pointer_stable {T V : Type} unwrap (reads : heap -> T -> option V) h h' p v :
  stable reads -> h ⊆ h' -> read_pointer unwrap reads h p = Some v -> read_pointer unwrap reads h' p = Some v.
Proof.
  intros Hs Hsub. unfold read_pointer. rewrite !bind_Some. setoid_rewrite bind_Some.
  intros (t & (c & Hc & Ht) & Hv). exists t. split; [|by eapply Hs]. exists c.
  split; [by eapply lookup_weaken|done].
Qed.
(** A copy that shares nothing: the original is left as it is, and from then on
    what is written to the memory of before the copy does not show in the copy, nor
    what is written to new memory in the original.  A nil pointer is copied to nil. *)
Definition isolated {V : Type} (reads : heap -> loc -> option V)
    (copy : option loc -> heap -> option loc * heap) : Prop :=
  (forall h, copy None h = (None, h)) /\
  forall p h v, reads h p = Some v ->
    exists q h', copy (Some p) h = (Some q, h') /\ h !! q = None /\ h ⊆ h' /\
      (forall h'', (forall l, is_Some (h !! l) -> h'' !! l = h' !! l) -> reads h'' p = Some v) /\
      (forall h'', (forall l, h !! l = None -> h'' !! l = h' !! l) -> reads h'' q = Some v).

Lemma deep_copy_isolated {T V : Type} (wrap : T -> cell) unwrap zero copy (reads : heap -> T -> option V) :
  (forall t, unwrap (wrap t) = Some t) -> stable reads -> copies reads copy ->
  isolated (read_pointer unwrap reads) (deep_copy wrap unwrap zero copy).
Proof.
  intros Hwrap Hs Hc. split; [done|]. intros p h v Hr.
  destruct (deep_copy_spec wrap unwrap zero copy reads p h v Hwrap Hs Hc Hr) as (q & h' & Hq & Hn & Hsub & Hk).
  exists q, h'. split_and!; [done..| |].
  - intros h'' Heq. eapply read_pointer_stable; [done| |exact Hr]. apply map_subseteq_spec.
    intros l c Hl. rewrite Heq by (by exists c). by eapply lookup_weaken.
  - intros h'' Heq. apply Hk. intros l c Hnl Hl. by rewrite Heq.
Qed.

Lemma read_list_stable : stable read_list.
Proof.
  intros h h' s v Hsub. unfold read_list. rewrite !bind_Some. intros (meta & Hm & Hr).
  exists meta. split; [by eapply list_meta_stable|]. destruct (l_Items s) as [p|]; [|done].
  destruct (h !! p) as [[| |items| | | | |]|] eqn:Hp; try done. rewrite (lookup_weaken _ _ _ _ Hp Hsub).
  apply bind_Some in Hr as (vs & Hvs%mapM_Some_1 & Hv). rewrite (mapM_Some_2 _ items vs); [done|].
  eapply Forall2_impl; [exact Hvs|]. intros; by eapply read_service_stable.
Qed.

(** C35: every generated copy is isolated.  The copy of a ManagedService, of a list
    of them, of a spec and of a status reads as the original, and no write to the
    memory that existed before (the number of replicas behind its pointer, an element
    of the conditions, an item of the list) is seen through it.  So the object the
    operator sets aside before it edits the status in place stays the base of the
    patch. *)
Theorem deep_copies_isolated :
  isolated (read_pointer as_service read_service) DeepCopyObject /\
  isolated (read_pointer as_list read_list) List_DeepCopyObject /\
  isolated (read_pointer as_spec read_spec) Spec_DeepCopy /\
  isolated (read_pointer as_status read_status) Status_DeepCopy.
Proof.
  assert (isolated (read_pointer as_service read_service) DeepCopy) as Hobj
    by (by apply deep_copy_isolated; [|apply read_service_stable|apply Service_copies]).
  assert (isolated (read_pointer as_list read_list) List_DeepCopy) as Hlist
    by (by apply deep_copy_isolated; [|apply read_list_stable|apply List_copies]).
  assert (forall T (x : option T * heap), match x with (Some c, h') => (Some c, h') | (None, h') => (None, h') end = x)
    as Hsame by (by intros T [[] ?]).
  split_and!.
  - split; [done|]. intros p h v Hr. unfold DeepCopyObject. rewrite Hsame. by apply Hobj.
  - split; [done|]. intros p h v Hr. unfold List_DeepCopyObject. rewrite Hsame. by apply Hlist.
  - by apply deep_copy_isolated; [|apply read_spec_stable|apply Spec_copies].
  - by apply deep_copy_isolated; [|apply read_status_stable|apply Status_copies].
Qed.
End Memory.
Arguments cell : clear implicits.
(** ** Witness: metadata without pointers *)
Section Witness.

Abbreviation flat := (cell ObjectMeta unit Empty_set).

Definition progressing : Condition :=
  {| cond_Type := ManagedServiceConditionProgressing; cond_Status := ConditionTrue;
     cond_ObservedGeneration := 1; cond_LastTransitionTime := 7; cond_Reason := "WaitingForReplicas";
     cond_Message := "" |}.

Definition original : service :=
  {| m_TypeMeta := zero_type; m_ObjectMeta := named_meta "demo" "applications";
     m_Spec := {| m_Template := "demo-http"; m_Replicas := Some 2%positive; m_Message := "" |};
     m_Status := {| m_ObservedGeneration := 1; m_ReadyReplicas := 0; m_Endpoint := "";
                    m_Conditions := Some 3%positive |} |}.

(** The object, its replicas and its conditions. *)
Definition memory : gmap positive flat :=
  {[ 1%positive := ServiceCell original; 2%positive := Int32 2; 3%positive := ConditionArray [progressing] ]}.

Definition value : TypeMeta * ManagedService :=
  (zero_type,
   {| ms_meta := named_meta "demo" "applications";
      Spec := {| Template := "demo-http"; Replicas := Some 2%Z; Message := "" |};
      Status := {| ObservedGeneration := 1; ReadyReplicas := 0; Endpoint := ""; Conditions := [progressing] |} |}).

Lemma deep_copies_isolated_witness :
  exists q h',
    DeepCopyObject (X:=Empty_set) (L:=unit) zero_meta progressing (fun m h => (m, h)) (fun c => c) (Some 1%positive) memory =
      (Some q, h') /\
    (* the number of replicas and the condition are overwritten in place *)
    read_pointer as_service (read_service (fun _ m => Some m))
      (<[2%positive := Int32 3]> (<[3%positive := ConditionArray []]> h')) q = Some value.
Proof.
  destruct (deep_copies_isolated (M:=ObjectMeta) (L:=unit) (X:=Empty_set) (LV:=unit) zero_meta tt progressing
    (fun m h => (m, h)) (fun m h => (m, h)) (fun c => c) (fun _ m => Some m) (fun _ m => Some m)) as [[_ Hobj] _];
    [by intros t h v [= ->]|by intros h h' t v _|by intros t h v [= ->]|by intros h h' t v _|done|].
  destruct (Hobj 1%positive memory value ltac:(vm_compute; reflexivity)) as (q & h' & Hc & _ & _ & _ & Hk).
  exists q, h'. split; [exact Hc|]. apply Hk. intros l Hl.
  rewrite !lookup_insert_ne; [done|intros <-; discriminate Hl..].
Defined.
End Witness.
End DeepCopy.
