(* ===== verification/Kube.v ===== *)
(** * The Kubernetes client, as an interface

    The controller-runtime client and the API server are third-party code: the
    model takes them as the operations of a typeclass over an abstract state
    [W] of the cluster, with an abstract type [E] of API errors.  The laws the
    program relies on are a second class; they restate the documented behaviour
    of the Kubernetes API (create fails on an existing object, a lookup
    returns the stored object, a delete may leave an object that waits for its
    finalizers, a write that failed changed nothing or was carried out and its
    answer was lost).

    [Memory] is a concrete cluster that satisfies the laws; the witnesses of the
    development run on it. *)

From S2P Require Import Prelude GoStrings ApiTypes.
Import V1alpha1.

(** [apierrors.IsNotFound] and [apierrors.IsAlreadyExists] classify errors by
    their reason, and an error has one reason. *)
Class APIErrors (E : Type) : Type := {
  IsNotFound : E -> bool;
  IsAlreadyExists : E -> bool;
  error_text : E -> string;
  one_reason : forall e, IsNotFound e = true -> IsAlreadyExists e = false;
}.

(** [client.IgnoreNotFound] *)
Definition IgnoreNotFound {E : Type} `{APIErrors E} (e : E) : option E :=
  if IsNotFound e then None else Some e.

(** [validation.IsDNS1123Label] lists what is wrong with a name; [dns1123_label]
    is the documented rule, RFC 1123's label. *)
Definition dns1123_char (c : ascii) : bool := is_lower c || is_digit c || Ascii.eqb c "-".

Definition ends_alphanumeric (s : string) : bool :=
  match s with
  | "" => false
  | String c _ => is_lower c || is_digit c
  end.

Fixpoint last_char (s : string) : option ascii :=
  match s with
  | "" => None
  | String c "" => Some c
  | String _ s' => last_char s'
  end.

Definition dns1123_label (s : string) : bool :=
  match s, last_char s with
  | String first _, Some last =>
      sforall dns1123_char s && (is_lower first || is_digit first)
      && (is_lower last || is_digit last) && (String.length s <=? 63)%nat
  | _, _ => false
  end.

Class NameValidation : Type := {
  IsDNS1123Label : string -> list string;
  IsDNS1123Label_spec : forall s, IsDNS1123Label s = [] <-> dns1123_label s = true;
}.

(** ** The client for ManagedServices *)
Class ManagedServiceClient (W E : Type) : Type := {
  client_Create : ManagedService -> W -> result E ManagedService * W;
  (** the namespace and an optional limit *)
  client_List : string -> option nat -> W -> result E (list ManagedService) * W;
  client_Get : string * string -> W -> result E ManagedService * W;
  client_Delete : string * string -> W -> option E * W;
}.

(** What a created object keeps of the object sent: the server adds metadata
    and defaults. *)
Definition created_from (o o' : ManagedService) : Prop :=
  key (ms_meta o') = key (ms_meta o) /\ Spec o' = default_spec (Spec o) /\
  Status o' = zero_status /\ DeletionTimestamp (ms_meta o') = None.

(** What is left of an object whose deletion was requested. *)
Definition deleting (o o' : ManagedService) : Prop :=
  key (ms_meta o') = key (ms_meta o) /\ Spec o' = Spec o /\ Status o' = Status o /\
  is_Some (DeletionTimestamp (ms_meta o')).

(** What a deletion does to the stored objects. *)
Definition deletion {K} `{Countable K} (k : K) (m m' : gmap K ManagedService) : Prop :=
  exists o, m !! k = Some o /\
  (m' = delete k m \/ exists o', deleting o o' /\ m' = <[k := o']> m).

(** A failed write left the objects alone, or was carried out and its answer was
    lost; [AlreadyExists] and [NotFound] are answers, which describe the objects. *)
Class ManagedServiceClientLaws (W E : Type) `{APIErrors E} `{ManagedServiceClient W E} : Type := {
  objects : W -> gmap (string * string) ManagedService;
  (** the API server is reachable, has the namespace and grants the requests in it *)
  available : string -> W -> Prop;
  objects_key : forall w k o, objects w !! k = Some o -> key (ms_meta o) = k;
  create_ok : forall o w o' w',
    client_Create o w = (Ok o', w') ->
    objects w !! key (ms_meta o) = None /\ created_from o o' /\
    objects w' = <[key (ms_meta o) := o']> (objects w);
  create_err : forall o w e w',
    client_Create o w = (Err e, w') ->
    (objects w' = objects w /\
     (IsAlreadyExists e = true -> is_Some (objects w !! key (ms_meta o)))) \/
    (IsAlreadyExists e = false /\ exists o',
     objects w !! key (ms_meta o) = None /\ created_from o o' /\
     objects w' = <[key (ms_meta o) := o']> (objects w));
  (** an object that is valid, its name and its spec, is created unless the name is in use *)
  create_available : forall n ns spec w,
    let o := {| ms_meta := named_meta n ns; Spec := spec; Status := zero_status |} in
    available ns w -> dns1123_label n = true -> is_Some (admit_spec spec) ->
    match (client_Create o w).1 with
    | Ok _ => True
    | Err e => is_Some (objects w !! (ns, n)) /\ IsAlreadyExists e = true
    end;
  list_frame : forall ns limit w r w',
    client_List ns limit w = (r, w') -> objects w' = objects w;
  list_ok : forall ns w l w',
    client_List ns None w = (Ok l, w') ->
    l ≡ₚ (map_to_list (filter (fun ko => ko.1.1 = ns) (objects w))).*2;
  list_available : forall ns limit w,
    available ns w -> is_ok (client_List ns limit w).1 = true;
  get_frame : forall k w r w', client_Get k w = (r, w') -> objects w' = objects w;
  get_ok : forall k w o w', client_Get k w = (Ok o, w') -> objects w !! k = Some o;
  get_not_found : forall k w e w',
    client_Get k w = (Err e, w') -> IsNotFound e = true -> objects w !! k = None;
  get_available : forall k w,
    available k.1 w ->
    match (client_Get k w).1 with Ok _ => True | Err e => IsNotFound e = true end;
  delete_ok : forall k w w',
    client_Delete k w = (None, w') -> deletion k (objects w) (objects w');
  delete_err : forall k w e w',
    client_Delete k w = (Some e, w') ->
    (objects w' = objects w /\ (IsNotFound e = true -> objects w !! k = None)) \/
    (IsNotFound e = false /\ deletion k (objects w) (objects w'));
  delete_available : forall k w,
    available k.1 w ->
    match (client_Delete k w).1 with None => True | Some e => IsNotFound e = true end;
}.

(** ** A concrete cluster *)
Module Memory.

Inductive error : Type := NotFound | AlreadyExists | Invalid | Unavailable.

#[global] Instance api_errors : APIErrors error := {
  IsNotFound := fun e => match e with NotFound => true | _ => false end;
  IsAlreadyExists := fun e => match e with AlreadyExists => true | _ => false end;
  error_text := fun e => match e with
    | NotFound => "not found"
    | AlreadyExists => "already exists"
    | Invalid => "invalid"
    | Unavailable => "unavailable"
    end;
  one_reason := fun e => match e with NotFound => fun _ => eq_refl | _ => fun _ => ltac:(done) end;
}.

(** A stored object without its key. *)
Record stored : Type := {
  st_UID : string;
  st_Generation : Z;
  st_Spec : ManagedServiceSpec;
  st_Status : ManagedServiceStatus;
}.

(** An API server that answers, one that cannot be reached, and one whose answers
    are lost. *)
Inductive health : Type := Healthy | Down | Lossy.

Record cluster : Type := {
  contents : gmap (string * string) stored;
  next_uid : nat;
  network : health;
}.

(** What the network does to a call that the server carried out. *)
Definition through {A : Type} (lose : A) (w : cluster) (answer : A * cluster) : A * cluster :=
  match network w with
  | Healthy => answer
  | Down => (lose, w)
  | Lossy => (lose, answer.2)
  end.

Definition restore (k : string * string) (s : stored) : ManagedService :=
  {| ms_meta := {| Name := k.2; Namespace := k.1; UID := st_UID s;
                   Generation := st_Generation s; Labels := ∅; OwnerReferences := [];
                   DeletionTimestamp := None |};
     Spec := st_Spec s;
     Status := st_Status s |}.

Definition view (w : cluster) : gmap (string * string) ManagedService :=
  map_imap (fun k s => Some (restore k s)) (contents w).

Definition empty : cluster := {| contents := ∅; next_uid := 0; network := Healthy |}.

Definition with_contents (m : gmap (string * string) stored) (w : cluster) : cluster :=
  {| contents := m; next_uid := S (next_uid w); network := network w |}.

(** An object with a valid name, as it would be stored: this server takes labels as
    names, a part of those that Kubernetes takes. *)
Definition admitted (o : ManagedService) : option ManagedServiceSpec :=
  if dns1123_label (Name (ms_meta o)) then admit_spec (Spec o) else None.

(** The operations as the API server carries them out; it validates an object before it
    looks for one of the name. *)
Definition do_create (o : ManagedService) (w : cluster) : result error ManagedService * cluster :=
  let k := key (ms_meta o) in
  match admitted o, contents w !! k with
  | None, _ => (Err Invalid, w)
  | Some _, Some _ => (Err AlreadyExists, w)
  | Some s, None =>
      let st := {| st_UID := Itoa (Z.of_nat (next_uid w)); st_Generation := 1;
                   st_Spec := s; st_Status := zero_status |} in
      (Ok (restore k st), with_contents (<[k := st]> (contents w)) w)
  end.

Definition do_list (ns : string) (limit : option nat) (w : cluster) : list ManagedService :=
  let l := (map_to_list (filter (fun ko => ko.1.1 = ns) (view w))).*2 in
  match limit with Some n => take n l | None => l end.

Definition do_get (k : string * string) (w : cluster) : result error ManagedService :=
  match contents w !! k with Some s => Ok (restore k s) | None => Err NotFound end.

Definition do_delete (k : string * string) (w : cluster) : option error * cluster :=
  match contents w !! k with
  | Some _ => (None, with_contents (delete k (contents w)) w)
  | None => (Some NotFound, w)
  end.

(** A status written through the status subresource. *)
Definition do_status (k : string * string) (st : ManagedServiceStatus) (w : cluster)
    : result error ManagedService * cluster :=
  match contents w !! k with
  | Some s =>
      let s' := {| st_UID := st_UID s; st_Generation := st_Generation s; st_Spec := st_Spec s; st_Status := st |} in
      (Ok (restore k s'), {| contents := <[k := s']> (contents w); next_uid := next_uid w; network := network w |})
  | None => (Err NotFound, w)
  end.

#[global] Instance client : ManagedServiceClient cluster error := {
  client_Create o w := through (Err Unavailable) w (do_create o w);
  client_List ns limit w := through (Err Unavailable) w (Ok (do_list ns limit w), w);
  client_Get k w := through (Err Unavailable) w (do_get k w, w);
  client_Delete k w := through (Some Unavailable) w (do_delete k w);
}.

Lemma view_lookup w k : view w !! k = restore k <$> contents w !! k.
Proof. unfold view. rewrite map_lookup_imap. by destruct (contents w !! k). Qed.

Lemma view_insert w k s :
  view (with_contents (<[k := s]> (contents w)) w) = <[k := restore k s]> (view w).
Proof.
  apply map_eq. intros i. rewrite view_lookup. simpl.
  destruct (decide (k = i)) as [->|Hne].
  - by rewrite !lookup_insert_eq.
  - by rewrite !lookup_insert_ne, view_lookup.
Qed.

Lemma view_delete w k :
  view (with_contents (delete k (contents w)) w) = delete k (view w).
Proof.
  apply map_eq. intros i. rewrite view_lookup. simpl.
  destruct (decide (k = i)) as [->|Hne].
  - by rewrite !lookup_delete_eq.
  - by rewrite !lookup_delete_ne, view_lookup.
Qed.

Lemma do_status_spec k st w :
  match view w !! k with
  | Some o => exists w', do_status k st w = (Ok (set_status o st), w') /\
      view w' = <[k := set_status o st]> (view w)
  | None => do_status k st w = (Err NotFound, w)
  end.
Proof.
  unfold do_status. rewrite view_lookup. destruct (contents w !! k) as [s|]; [|done]. simpl.
  eexists. split; [done|]. apply map_eq. intros i. rewrite view_lookup. simpl.
  destruct (decide (k = i)) as [->|Hne]; [by rewrite !lookup_insert_eq|].
  by rewrite !lookup_insert_ne, view_lookup.
Qed.

Lemma view_key w k o : view w !! k = Some o -> key (ms_meta o) = k.
Proof. rewrite view_lookup, fmap_Some. intros (s & _ & ->). by destruct k. Qed.

(** An answer other than the loss came from a healthy server. *)
Lemma answered {A} (lose a : A) w answer w' :
  through lose w answer = (a, w') -> a <> lose -> answer = (a, w').
Proof. unfold through. by destruct (network w); intros; simplify_eq. Qed.

Lemma lost {A} (lose a : A) w answer w' :
  through lose w answer = (a, w') ->
  answer = (a, w') \/ (a = lose /\ w' = w) \/ (a = lose /\ exists a', answer = (a', w')).
Proof.
  unfold through. destruct (network w); intros; simplify_eq; auto.
  right; right. split; [done|]. exists answer.1. by destruct answer.
Qed.

Lemma through_frame {A} (lose a a' : A) w w' : through lose w (a, w) = (a', w') -> w' = w.
Proof. unfold through. by destruct (network w); intros [= _ <-]. Qed.

Lemma through_healthy {A} (lose : A) w answer : network w = Healthy -> through lose w answer = answer.
Proof. unfold through. by intros ->. Qed.

Lemma do_create_ok o w o' w' :
  do_create o w = (Ok o', w') ->
  view w !! key (ms_meta o) = None /\ created_from o o' /\
  view w' = <[key (ms_meta o) := o']> (view w).
Proof.
  unfold do_create. rewrite view_lookup.
  destruct (admitted o) as [s|] eqn:Ha; [|done]. destruct (contents w !! key (ms_meta o)); [done|].
  intros [= <- <-]. split; [done|]. split; [|apply view_insert]. revert Ha.
  unfold admitted, admit_spec. do 2 (case_match; [|done]). intros [= <-]. unfold created_from.
  by destruct o as [[] ? ?].
Qed.

Lemma do_create_err o w e w' :
  do_create o w = (Err e, w') ->
  w' = w /\ (is_Some (view w !! key (ms_meta o)) /\ IsAlreadyExists e = true \/
             admitted o = None /\ IsAlreadyExists e = false).
Proof.
  unfold do_create. rewrite view_lookup.
  destruct (admitted o) as [s|] eqn:Ha; [|intros [= <- <-]; auto].
  destruct (contents w !! key (ms_meta o)); [intros [= <- <-]; eauto|done].
Qed.

Lemma do_get_lookup k w :
  do_get k w = match view w !! k with Some o => Ok o | None => Err NotFound end.
Proof. unfold do_get. rewrite view_lookup. by destruct (contents w !! k). Qed.

Lemma do_delete_spec k w r w' :
  do_delete k w = (r, w') ->
  match r with
  | None => deletion k (view w) (view w')
  | Some e => w' = w /\ IsNotFound e = true /\ view w !! k = None
  end.
Proof.
  unfold do_delete, deletion. rewrite view_lookup.
  destruct (contents w !! k); intros [= <- <-]; [|done].
  eexists. split; [done|]. left. apply view_delete.
Qed.

#[global] Program Instance laws : ManagedServiceClientLaws cluster error := {
  objects := view;
  available := fun _ w => network w = Healthy;
}.
Next Obligation. apply view_key. Qed.
Next Obligation. intros o w o' w' H. by apply answered, do_create_ok in H. Qed.
Next Obligation.
  intros o w e w' H. apply lost in H as [(-> & [[? ?]|[_ ->]])%do_create_err|[[[= ->] ->]|([= ->] & [o'|e'] & H)]];
    [by left..| |by apply do_create_err in H as [-> _]; left].
  right. split; [done|]. exists o'. by apply do_create_ok.
Qed.
Next Obligation.
  intros n ns spec w o Hw Hn [s Hs]. cbn. rewrite through_healthy by done.
  destruct (do_create o w) as [[o'|e] w'] eqn:H; [done|].
  apply do_create_err in H as [_ [?|[Ha _]]]; [done|].
  unfold admitted in Ha. cbn in Ha. rewrite Hn, Hs in Ha. done.
Qed.
Next Obligation. intros ns limit w r w' H. by apply through_frame in H as ->. Qed.
Next Obligation. intros ns w l w' H. apply answered in H; [|done]. by injection H as <- _. Qed.
Next Obligation. intros ns limit w Hw. cbn. by rewrite through_healthy. Qed.
Next Obligation. intros k w r w' H. by apply through_frame in H as ->. Qed.
Next Obligation.
  intros k w o w' H. apply answered in H; [|done]. rewrite do_get_lookup in H.
  destruct (view w !! k); congruence.
Qed.
Next Obligation.
  intros k w e w' H Hn. apply lost in H as [H|[[[= ->] _]|[[= ->] _]]]; [|done..].
  rewrite do_get_lookup in H. by destruct (view w !! k).
Qed.
Next Obligation.
  intros k w Hw. cbn. rewrite through_healthy, do_get_lookup by done. by destruct (view w !! k).
Qed.
Next Obligation. intros k w w' H. by apply answered, do_delete_spec in H. Qed.
Next Obligation.
  intros k w e w' H. apply lost in H as [(-> & ? & ?)%do_delete_spec|[[[= ->] ->]|([= ->] & [e'|] & H)]];
    [by left..|by apply do_delete_spec in H as [-> _]; left|right]. split; [done|].
  by apply do_delete_spec in H.
Qed.
Next Obligation.
  intros k w Hw. cbn. rewrite through_healthy by done. destruct (do_delete k w) as [[e|] w'] eqn:H; [|done].
  by apply do_delete_spec in H as (_ & ? & _).
Qed.

(** The documented rule itself is a validator. *)
#[global] Program Instance name_validation : NameValidation := {
  IsDNS1123Label := fun s => if dns1123_label s then [] else ["invalid label"];
}.
Next Obligation. intros s. simpl. by destruct (dns1123_label s). Qed.

End Memory.
