(* ===== verification/Store.v ===== *)
(** * The store (internal/controlplaneapi/store.go)

    [ManagedServiceStore] is the Go interface the API handler works against,
    [ControllerRuntimeStore] its implementation on a Kubernetes client.

    [StoreSpec] says what the interface promises: a partial map from names to
    ManagedServices, confined to the namespace [applications].  The instance
    [controller_runtime_store_spec] discharges it from the laws of the client,
    so the handler's theorems hold for the store the program runs. *)

From S2P Require Import Prelude GoStrings ApiTypes Kube.
Import V1alpha1.

Definition ApplicationsNamespace : string := "applications".
Definition defaultReplicas : Z := 1.

Class ManagedServiceStore (W E : Type) : Type := {
  store_Create : string -> Z -> string -> W -> result E ManagedService * W;
  store_List : W -> result E (list ManagedService) * W;
  store_Get : string -> W -> result E ManagedService * W;
  store_Delete : string -> W -> option E * W;
  store_Ready : W -> option E * W;
}.

(** ** ControllerRuntimeStore *)
Module ControllerRuntimeStore.
Section Operations.
Context {W E : Type} `{ManagedServiceClient W E}.

Definition Create (name : string) (replicas : Z) (message : string) (w : W)
    : result E ManagedService * W :=
  let managedService := {|
    ms_meta := named_meta name ApplicationsNamespace;
    Spec := {| Template := ManagedServiceTemplateDemoHTTP;
               Replicas := Some replicas;
               Message := message |};
    Status := zero_status |} in
  match client_Create managedService w with
  | (Err e, w') => (Err e, w')
  | (Ok managedService', w') => (Ok managedService', w')
  end.

Definition List (w : W) : result E (list ManagedService) * W :=
  match client_List ApplicationsNamespace None w with
  | (Err e, w') => (Err e, w')
  | (Ok items, w') => (Ok items, w')
  end.

Definition Get (name : string) (w : W) : result E ManagedService * W :=
  match client_Get (ApplicationsNamespace, name) w with
  | (Err e, w') => (Err e, w')
  | (Ok managedService, w') => (Ok managedService, w')
  end.

Definition Delete (name : string) (w : W) : option E * W :=
  client_Delete (ApplicationsNamespace, name) w.

Definition Ready (w : W) : option E * W :=
  match client_List ApplicationsNamespace (Some 1) w with
  | (Err e, w') => (Some e, w')
  | (Ok _, w') => (None, w')
  end.

(** [NewControllerRuntimeStore] *)
#[export] Instance NewControllerRuntimeStore : ManagedServiceStore W E := {
  store_Create := Create;
  store_List := List;
  store_Get := Get;
  store_Delete := Delete;
  store_Ready := Ready;
}.
End Operations.
End ControllerRuntimeStore.

(** ** The contract of the interface *)

Definition requested_spec (replicas : Z) (message : string) : ManagedServiceSpec :=
  {| Template := ManagedServiceTemplateDemoHTTP; Replicas := Some replicas; Message := message |}.

Class StoreSpec (W E : Type) `{APIErrors E} `{ManagedServiceStore W E} : Type := {
  services : W -> gmap string ManagedService;
  store_available : W -> Prop;
  services_name : forall w n o, services w !! n = Some o -> Name (ms_meta o) = n;
  spec_Create_ok : forall n r m w o w',
    store_Create n r m w = (Ok o, w') ->
    services w !! n = None /\ services w' = <[n := o]> (services w) /\
    Name (ms_meta o) = n /\ Spec o = requested_spec r m /\ Status o = zero_status;
  spec_Create_err : forall n r m w e w',
    store_Create n r m w = (Err e, w') ->
    (services w' = services w /\ (IsAlreadyExists e = true -> is_Some (services w !! n))) \/
    (IsAlreadyExists e = false /\ exists o, services w !! n = None /\
     services w' = <[n := o]> (services w) /\
     Spec o = requested_spec r m /\ Status o = zero_status);
  (** a valid service is created unless its name is in use *)
  spec_Create_available : forall n r m w,
    store_available w -> dns1123_label n = true -> is_Some (admit_spec (requested_spec r m)) ->
    match (store_Create n r m w).1 with
    | Ok _ => True
    | Err e => is_Some (services w !! n) /\ IsAlreadyExists e = true
    end;
  spec_List_frame : forall w r w', store_List w = (r, w') -> services w' = services w;
  spec_List_ok : forall w l w',
    store_List w = (Ok l, w') -> l ≡ₚ (map_to_list (services w)).*2;
  spec_List_available : forall w, store_available w -> is_ok (store_List w).1 = true;
  spec_Get_frame : forall n w r w', store_Get n w = (r, w') -> services w' = services w;
  spec_Get_ok : forall n w o w', store_Get n w = (Ok o, w') -> services w !! n = Some o;
  spec_Get_not_found : forall n w e w',
    store_Get n w = (Err e, w') -> IsNotFound e = true -> services w !! n = None;
  spec_Get_available : forall n w,
    store_available w ->
    match (store_Get n w).1 with Ok _ => True | Err e => IsNotFound e = true end;
  spec_Delete_ok : forall n w w',
    store_Delete n w = (None, w') -> deletion n (services w) (services w');
  spec_Delete_err : forall n w e w',
    store_Delete n w = (Some e, w') ->
    (services w' = services w /\ (IsNotFound e = true -> services w !! n = None)) \/
    (IsNotFound e = false /\ deletion n (services w) (services w'));
  spec_Delete_available : forall n w,
    store_available w ->
    match (store_Delete n w).1 with None => True | Some e => IsNotFound e = true end;
  spec_Ready_frame : forall w r w', store_Ready w = (r, w') -> services w' = services w;
  spec_Ready_available : forall w, store_available w -> (store_Ready w).1 = None;
}.

(** The objects of the fixed namespace, by name. *)
Definition applications (m : gmap (string * string) ManagedService) : gmap string ManagedService :=
  default ∅ (map_curry (M1:=gmap string) (M2:=gmap string) m !! ApplicationsNamespace).

Arguments applications : simpl never.

(** ** The implementation meets the contract *)

Lemma applications_lookup m n : applications m !! n = m !! (ApplicationsNamespace, n).
Proof.
  unfold applications.
  rewrite <- (lookup_map_curry (M1:=gmap string) (M2:=gmap string) m ApplicationsNamespace n).
  by destruct (map_curry m !! ApplicationsNamespace).
Qed.

Lemma applications_insert m n o :
  applications (<[(ApplicationsNamespace, n) := o]> m) = <[n := o]> (applications m).
Proof.
  apply map_eq. intros i. rewrite applications_lookup.
  destruct (decide (n = i)) as [->|Hne]; [by rewrite !lookup_insert_eq|].
  rewrite !lookup_insert_ne by congruence. by rewrite applications_lookup.
Qed.

Lemma applications_delete m n :
  applications (delete (ApplicationsNamespace, n) m) = delete n (applications m).
Proof.
  apply map_eq. intros i. rewrite applications_lookup.
  destruct (decide (n = i)) as [->|Hne]; [by rewrite !lookup_delete_eq|].
  rewrite !lookup_delete_ne by congruence. by rewrite applications_lookup.
Qed.

Lemma applications_deletion n m m' :
  deletion (ApplicationsNamespace, n) m m' -> deletion n (applications m) (applications m').
Proof.
  intros (o & Ho & Hm). exists o. rewrite applications_lookup. split; [done|].
  destruct Hm as [->|(o' & Hdel & ->)]; [left; apply applications_delete|].
  right. exists o'. split; [done|apply applications_insert].
Qed.

Lemma applications_kmap m :
  filter (fun ko => ko.1.1 = ApplicationsNamespace) m =
  kmap (fun n => (ApplicationsNamespace, n)) (applications m).
Proof.
  apply map_eq. intros [ns n]. destruct (decide (ns = ApplicationsNamespace)) as [->|Hne].
  - rewrite lookup_kmap, applications_lookup by (intros ? ? [=]; done).
    apply option_eq. intros o. rewrite map_lookup_filter_Some. split; [by intros [? _]|by intros].
  - transitivity (@None ManagedService); [|symmetry; apply lookup_kmap_None; [by intros ? ? [=]|]; by intros i [=]].
    apply map_lookup_filter_None. right. by intros o _ ?.
Qed.

Lemma applications_list m :
  (map_to_list (filter (fun ko => ko.1.1 = ApplicationsNamespace) m)).*2 ≡ₚ
  (map_to_list (applications m)).*2.
Proof.
  rewrite applications_kmap, map_to_list_kmap by (intros ? ? [=]; done).
  rewrite <- list_fmap_compose. by apply fmap_Permutation.
Qed.

(** Operations of the store leave other namespaces alone. *)
Definition same_elsewhere (m m' : gmap (string * string) ManagedService) : Prop :=
  forall k, k.1 <> ApplicationsNamespace -> m' !! k = m !! k.

#[export] Existing Instance ControllerRuntimeStore.NewControllerRuntimeStore.

Section ControllerRuntimeStoreFacts.
Context {W E : Type} `{ManagedServiceClientLaws W E}.

(** Unfolds the store's operations and splits on the client's answer. *)
Ltac client_answer :=
  cbn; unfold ControllerRuntimeStore.Create, ControllerRuntimeStore.List,
    ControllerRuntimeStore.Get, ControllerRuntimeStore.Delete, ControllerRuntimeStore.Ready;
  repeat match goal with
  | |- context [match ?c with _ => _ end = _ -> _] => destruct c as [[?|?] ?] eqn:?
  | |- (_, _) = (_, _) -> _ => intros [= <- <-] || intros [= -> ->]
  end.

#[export] Program Instance controller_runtime_store_spec : StoreSpec W E := {
  services w := applications (objects w);
  store_available := available ApplicationsNamespace;
}.
Next Obligation.
  intros w n o. cbv beta. rewrite applications_lookup. intros Ho%objects_key. by injection Ho.
Qed.
Next Obligation.
  intros n r m w o w'. client_answer.
  match goal with Hc : client_Create _ _ = _ |- _ =>
    apply create_ok in Hc as (Hk & (Hn & Hs & Ht & _) & Ho) end.
  cbn [ms_meta] in *. rewrite key_named in Hk, Ho, Hn. rewrite applications_lookup, Ho, applications_insert.
  injection Hn as _ Hn. done.
Qed.
Next Obligation.
  intros n r m w e w'. client_answer.
  match goal with Hc : client_Create _ _ = _ |- _ =>
    apply create_err in Hc as [(Ho & Hk)|(He & o' & Hnone & (_ & Hs & Ht & _) & Ho)] end;
    cbn [ms_meta] in *; rewrite key_named in *; rewrite applications_lookup, Ho; [by left|].
  right. split; [done|]. exists o'. by rewrite applications_insert.
Qed.
Next Obligation.
  intros n r m w Hw Hn Hs. simpl. unfold ControllerRuntimeStore.Create.
  pose proof (create_available n ApplicationsNamespace (requested_spec r m) w Hw Hn Hs) as Hc.
  cbv zeta in Hc. change (requested_spec r m) with
    {| Template := ManagedServiceTemplateDemoHTTP; Replicas := Some r; Message := m |} in Hc.
  destruct (client_Create _ _) as [[o|e] w']; simpl in *; [done|].
  by rewrite applications_lookup.
Qed.
Next Obligation.
  intros w r w'. client_answer;
    match goal with Hc : client_List _ _ _ = _ |- _ => apply list_frame in Hc as -> end; done.
Qed.
Next Obligation.
  intros w l w'. client_answer.
  match goal with Hc : client_List _ _ _ = _ |- _ => apply list_ok in Hc as -> end.
  apply applications_list.
Qed.
Next Obligation.
  intros w Hw. pose proof (list_available ApplicationsNamespace None w Hw) as Hc.
  simpl. unfold ControllerRuntimeStore.List. by destruct (client_List _ _ _) as [[] ?].
Qed.
Next Obligation.
  intros n w r w'. client_answer;
    match goal with Hc : client_Get _ _ = _ |- _ => apply get_frame in Hc as -> end; done.
Qed.
Next Obligation.
  intros n w o w'. cbv beta. rewrite applications_lookup. client_answer.
  match goal with Hc : client_Get _ _ = _ |- _ => apply get_ok in Hc as -> end. done.
Qed.
Next Obligation.
  intros n w e w'. cbv beta. rewrite applications_lookup. client_answer. intros Hn.
  match goal with Hc : client_Get _ _ = _ |- _ => apply get_not_found in Hc as -> end; done.
Qed.
Next Obligation.
  intros n w Hw. pose proof (get_available (ApplicationsNamespace, n) w Hw) as Hc.
  simpl. unfold ControllerRuntimeStore.Get. by destruct (client_Get _ _) as [[] ?].
Qed.
Next Obligation.
  intros n w w' Hd. by apply delete_ok, applications_deletion in Hd.
Qed.
Next Obligation.
  intros n w e w' Hd. apply delete_err in Hd as [(Ho & Hn)|(He & Hd)]; cbn;
    [left; by rewrite Ho, applications_lookup|right; by apply applications_deletion in Hd].
Qed.
Next Obligation. intros n w. exact (delete_available (ApplicationsNamespace, n) w). Qed.
Next Obligation.
  intros w r w'. client_answer;
    match goal with Hc : client_List _ _ _ = _ |- _ => apply list_frame in Hc as -> end; done.
Qed.
Next Obligation.
  intros w Hw. pose proof (list_available ApplicationsNamespace (Some 1) w Hw) as Hc.
  simpl. unfold ControllerRuntimeStore.Ready. by destruct (client_List _ _ _) as [[] ?].
Qed.

Lemma same_elsewhere_refl m : same_elsewhere m m.
Proof. done. Qed.

(** What a client call on a key of the namespace does stays in the namespace. *)
Lemma create_elsewhere o w :
  Namespace (ms_meta o) = ApplicationsNamespace ->
  same_elsewhere (objects w) (objects (client_Create o w).2).
Proof.
  intros Hns. destruct (client_Create o w) as [[o'|e] w'] eqn:Hc.
  - apply create_ok in Hc as (_ & _ & Hw). simpl. rewrite Hw. intros k Hk.
    rewrite lookup_insert_ne; [done|]. intros <-. by apply Hk.
  - apply create_err in Hc as [[Hw _]|(_ & o' & _ & _ & Hw)]; simpl; rewrite Hw; [done|].
    intros k Hk. rewrite lookup_insert_ne; [done|]. intros <-. by apply Hk.
Qed.

Lemma deletion_elsewhere n m m' :
  deletion (ApplicationsNamespace, n) m m' -> same_elsewhere m m'.
Proof.
  intros (o & _ & [->|(o' & _ & ->)]) k Hk;
    (rewrite lookup_delete_ne || rewrite lookup_insert_ne); try done; intros <-; by apply Hk.
Qed.

Lemma delete_elsewhere n w :
  same_elsewhere (objects w) (objects (client_Delete (ApplicationsNamespace, n) w).2).
Proof.
  destruct (client_Delete _ w) as [[e|] w'] eqn:Hc.
  - apply delete_err in Hc as [[Hw _]|[_ Hd]]; simpl; [by rewrite Hw|by apply deletion_elsewhere in Hd].
  - apply delete_ok in Hc. by apply deletion_elsewhere in Hc.
Qed.

(** C39: the store is confined to its namespace.  No operation, whether it
    succeeds or fails, adds, changes or removes an object of another namespace;
    reads and the readiness probe change no object at all. *)
Theorem store_confined w :
  (forall n replicas message,
     same_elsewhere (objects w) (objects (ControllerRuntimeStore.Create n replicas message w).2)) /\
  (forall n, same_elsewhere (objects w) (objects (ControllerRuntimeStore.Delete n w).2)) /\
  objects (ControllerRuntimeStore.List w).2 = objects w /\
  (forall n, objects (ControllerRuntimeStore.Get n w).2 = objects w) /\
  objects (ControllerRuntimeStore.Ready w).2 = objects w.
Proof.
  split_and!.
  - intros n r m. unfold ControllerRuntimeStore.Create.
    match goal with |- context [client_Create ?o w] => pose proof (create_elsewhere o w eq_refl) as Hc end.
    by destruct (client_Create _ w) as [[|] ?].
  - intros n. apply delete_elsewhere.
  - unfold ControllerRuntimeStore.List. destruct (client_List _ _ w) as [[|] ?] eqn:Hc;
      by apply list_frame in Hc.
  - intros n. unfold ControllerRuntimeStore.Get. destruct (client_Get _ w) as [[|] ?] eqn:Hc;
      by apply get_frame in Hc.
  - unfold ControllerRuntimeStore.Ready. destruct (client_List _ _ w) as [[|] ?] eqn:Hc;
      by apply list_frame in Hc.
Qed.
End ControllerRuntimeStoreFacts.

(** ** Witness: a cluster with an object of another namespace *)

Definition shared_cluster : Memory.cluster :=
  {| Memory.contents := {[ ("other", "demo") :=
       {| Memory.st_UID := "u1"; Memory.st_Generation := 1;
          Memory.st_Spec := requested_spec 1 ""; Memory.st_Status := zero_status |} ]};
     Memory.next_uid := 2; Memory.network := Memory.Healthy |}.

Lemma store_confined_witness :
  let w := (ControllerRuntimeStore.Delete "demo" (ControllerRuntimeStore.Create "demo" 1 "" shared_cluster).2).2 in
  objects w !! ("other", "demo") = objects shared_cluster !! ("other", "demo").
Proof.
  destruct (store_confined shared_cluster) as [Hc _].
  destruct (store_confined (ControllerRuntimeStore.Create "demo" 1 "" shared_cluster).2) as (_ & Hd & _).
  cbv zeta. etransitivity; [apply Hd|apply Hc]; discriminate.
Defined.
