(* ===== verification/ApiHandler.v ===== *)
(** * The API handler (internal/controlplaneapi/handler.go)

    The HTTP interface of the control plane: bearer authentication, routing,
    request decoding and validation, the lifecycle operations on the store, and
    the JSON responses.  A handler maps a request, a response writer and the
    state [W] of the world behind the store to the writer and the new state. *)

From S2P Require Import Prelude GoStrings Sha256 Json Http ApiTypes Kube Store.
Import V1alpha1.

Module ApiHandler.
Import Json (json, JNull, JBool, JNumber, JString, JArray, JObject).
Import Http.

(** ** Constants *)

Definition maxRequestBodyBytes : nat := 4096.
Definition methodNotAllowedMessage : string := "method not allowed".
Definition readinessStatusReady : string := "ready".
Definition readinessStatusNotReady : string := "not ready".
Definition healthRoute : string := "/healthz".
Definition readinessRoute : string := "/readyz".
Definition apiV1Route : string := "/api/v1".
Definition managedServicesRoute : string := "/api/v1/managed-services".
Definition managedServiceItemRoute : string := "/api/v1/managed-services/{name}".
Definition unknownRoute : string := "unknown".

(** ** Wire types *)

Record statusResponse : Type := { status_Status : string }.
Record identityResponse : Type := { identity_Service : string; identity_Version : string }.
Record errorResponse : Type := { error_Error : string }.

Record createManagedServiceRequest : Type := {
  req_Name : string;
  req_Replicas : option Z;
  req_Message : string;
}.

Record managedServiceCondition : Type := {
  rc_Type : string;
  rc_Status : string;
  rc_Reason : string;
  rc_Message : string;
  rc_ObservedGeneration : Z;
}.

Record managedServiceResponse : Type := {
  resp_Name : string;
  resp_Namespace : string;
  resp_Template : string;
  resp_Replicas : Z;
  resp_Message : string;
  resp_ObservedGeneration : Z;
  resp_ReadyReplicas : Z;
  resp_Endpoint : string;
  resp_Conditions : list managedServiceCondition;
}.

Record managedServiceListResponse : Type := { list_Items : list managedServiceResponse }.

(** ** JSON forms, by the struct tags *)

Definition json_int (z : Z) : json := JNumber (Itoa z).

(** A string field tagged [omitempty]. *)
Definition omit_empty (k v : string) : list (string * json) :=
  if String.eqb v "" then [] else [(k, JString v)].

Definition json_of_status (r : statusResponse) : json :=
  JObject [("status", JString (status_Status r))].

Definition json_of_identity (r : identityResponse) : json :=
  JObject [("service", JString (identity_Service r)); ("version", JString (identity_Version r))].

Definition json_of_error (r : errorResponse) : json :=
  JObject [("error", JString (error_Error r))].

Definition json_of_condition (c : managedServiceCondition) : json :=
  JObject [("type", JString (rc_Type c)); ("status", JString (rc_Status c));
           ("reason", JString (rc_Reason c)); ("message", JString (rc_Message c));
           ("observedGeneration", json_int (rc_ObservedGeneration c))].

Definition json_of_response (r : managedServiceResponse) : json :=
  JObject ([("name", JString (resp_Name r)); ("namespace", JString (resp_Namespace r));
            ("template", JString (resp_Template r)); ("replicas", json_int (resp_Replicas r))]
           ++ omit_empty "message" (resp_Message r)
           ++ [("observedGeneration", json_int (resp_ObservedGeneration r));
               ("readyReplicas", json_int (resp_ReadyReplicas r))]
           ++ omit_empty "endpoint" (resp_Endpoint r)
           ++ [("conditions", JArray (map json_of_condition (resp_Conditions r)))]).

Definition json_of_list (r : managedServiceListResponse) : json :=
  JObject [("items", JArray (map json_of_response (list_Items r)))].

(** What a Go client sends for a create request. *)
Definition json_of_request (r : createManagedServiceRequest) : json :=
  JObject ([("name", JString (req_Name r))]
           ++ match req_Replicas r with Some z => [("replicas", json_int z)] | None => [] end
           ++ omit_empty "message" (req_Message r)).

(** ** Writing responses *)

Definition writeJSON (statusCode : Z) (response : json) (writer : ResponseWriter) : ResponseWriter :=
  Write (Json.Encode response)
    (WriteHeader statusCode
      (set_header "Cache-Control" "no-store"
        (set_header "Content-Type" "application/json" writer))).

Definition writeError (statusCode : Z) (message : string) : ResponseWriter -> ResponseWriter :=
  writeJSON statusCode (json_of_error {| error_Error := message |}).

Definition writeManagedServiceNotFound : ResponseWriter -> ResponseWriter :=
  writeError StatusNotFound "managed service not found".

Definition writeInternalError : ResponseWriter -> ResponseWriter :=
  writeError StatusInternalServerError "internal server error".

(** ** Decoding the create request *)

(** [foldName] of encoding/json, as far as ASCII field names can tell: the two
    non-ASCII letters that fold to ASCII ones are U+017F and U+212A. *)
Fixpoint fold_name (s : string) : string :=
  match s with
  | "" => ""
  | String a s1 =>
      match s1 with
      | String b s2 =>
          if Ascii.eqb a "197" && Ascii.eqb b "191" then String "S" (fold_name s2)
          else match s2 with
               | String c s3 =>
                   if Ascii.eqb a "226" && Ascii.eqb b "132" && Ascii.eqb c "170"
                   then String "K" (fold_name s3)
                   else String (upper_ascii a) (fold_name s1)
               | "" => String (upper_ascii a) (fold_name s1)
               end
      | "" => String (upper_ascii a) ""
      end
  end.

Definition is_field (field key : string) : bool :=
  String.eqb key field || String.eqb (fold_name key) (fold_name field).

Definition zeroRequest : createManagedServiceRequest :=
  {| req_Name := ""; req_Replicas := None; req_Message := "" |}.

(** [OverflowInt] of an [int32] after [strconv.ParseInt]. *)
Definition parse_int32 (lit : string) : option Z :=
  match Atoi lit with
  | Some z => if (min_int32 <=? z)%Z && (z <=? max_int32)%Z then Some z else None
  | None => None
  end.

(** One member of the object decoded into the struct; the flag tells whether
    the decoder saved an error (a wrong type, a number out of range, a field
    the struct does not have) and went on. *)
Definition decode_member (st : createManagedServiceRequest * bool) (m : string * json)
    : createManagedServiceRequest * bool :=
  let '(req, ok) := st in
  let '(k, v) := m in
  let with_name s := {| req_Name := s; req_Replicas := req_Replicas req;
                        req_Message := req_Message req |} in
  let with_message s := {| req_Name := req_Name req; req_Replicas := req_Replicas req;
                           req_Message := s |} in
  let with_replicas p := {| req_Name := req_Name req; req_Replicas := p;
                            req_Message := req_Message req |} in
  if is_field "name" k then
    match v with
    | JString s => (with_name s, ok)
    | JNull => (req, ok)
    | _ => (req, false)
    end
  else if is_field "replicas" k then
    match v with
    | JNull => (with_replicas None, ok)
    | JNumber lit =>
        match parse_int32 lit with
        | Some z => (with_replicas (Some z), ok)
        | None => (with_replicas (Some (default 0%Z (req_Replicas req))), false)
        end
    | _ => (with_replicas (Some (default 0%Z (req_Replicas req))), false)
    end
  else if is_field "message" k then
    match v with
    | JString s => (with_message s, ok)
    | JNull => (req, ok)
    | _ => (req, false)
    end
  else (req, false).

(** [decodeState.unmarshal] into a [createManagedServiceRequest]. *)
Definition unmarshal_request (v : json) : createManagedServiceRequest * bool :=
  match v with
  | JObject ms => foldl decode_member (zeroRequest, true) ms
  | JNull => (zeroRequest, true)
  | _ => (zeroRequest, false)
  end.

Definition requestDecodeStatus (err : option Json.read_error) : Z :=
  match err with
  | Some Json.ErrMaxBytes => StatusRequestEntityTooLarge
  | _ => StatusBadRequest
  end.

(** The second [Decode] reads any value; only [io.EOF] means that nothing
    followed the first. *)
Definition decodeCreateRequest (request : Request) : createManagedServiceRequest * Z :=
  let '(body, body_end) := MaxBytesReader maxRequestBodyBytes (Body request) (BodyEnd request) in
  match Json.read_value body body_end with
  | Err err => (zeroRequest, requestDecodeStatus (Some err))
  | Ok (v, rest) =>
      let '(createRequest, ok) := unmarshal_request v in
      if negb ok then (createRequest, requestDecodeStatus None)
      else
        match Json.read_value rest body_end with
        | Err Json.ErrEOF => (createRequest, 0%Z)
        | Err err => (createRequest, requestDecodeStatus (Some err))
        | Ok _ => (createRequest, requestDecodeStatus None)
        end
  end.

Definition requestError (statusCode : Z) : errorResponse :=
  if (statusCode =? StatusRequestEntityTooLarge)%Z
  then {| error_Error := "request too large" |}
  else {| error_Error := "invalid request" |}.

(** ** Responses *)

Definition newManagedServiceCondition (c : Condition) : managedServiceCondition :=
  {| rc_Type := cond_Type c; rc_Status := cond_Status c; rc_Reason := cond_Reason c;
     rc_Message := cond_Message c; rc_ObservedGeneration := cond_ObservedGeneration c |}.

Definition newManagedServiceResponse (managedService : ManagedService) : managedServiceResponse :=
  let replicas := match Replicas (Spec managedService) with
    | Some r => r
    | None => defaultReplicas
    end in
  let conditions :=
    sort_by go_string_le rc_Type
      (map newManagedServiceCondition (Conditions (Status managedService))) in
  {| resp_Name := Name (ms_meta managedService);
     resp_Namespace := ApplicationsNamespace;
     resp_Template := Template (Spec managedService);
     resp_Replicas := replicas;
     resp_Message := Message (Spec managedService);
     resp_ObservedGeneration := ObservedGeneration (Status managedService);
     resp_ReadyReplicas := ReadyReplicas (Status managedService);
     resp_Endpoint := Endpoint (Status managedService);
     resp_Conditions := conditions |}.

(** ** Routing for telemetry *)

Definition NormalizeRoute (request : Request) : string :=
  let path := URL_Path request in
  if String.eqb path healthRoute || String.eqb path readinessRoute
     || String.eqb path apiV1Route || String.eqb path managedServicesRoute
  then path
  else
    let itemPrefix := managedServicesRoute +:+ "/" in
    let itemName := trim_prefix path itemPrefix in
    if negb (String.eqb itemName path) && negb (String.eqb itemName "")
       && negb (contains_byte itemName "/")
    then managedServiceItemRoute
    else unknownRoute.

(** ** Authentication *)

Definition isProtectedPath (path : string) : bool :=
  String.eqb path apiV1Route || has_prefix path (apiV1Route +:+ "/").

Definition blanks : string := String SP (String HT (String CR (String LF ""))).

Definition authenticated (expectedTokenHash : string) (request : Request) : bool :=
  match header_values (Header request) "Authorization" with
  | [value] =>
      match cut value " " with
      | None => false
      | Some (scheme, credential) =>
          if negb (equal_fold scheme "Bearer") || String.eqb credential ""
             || contains_any credential blanks
          then false
          else
            let presentedTokenHash := Sha256.Sum256 credential in
            (Sha256.ConstantTimeCompare expectedTokenHash presentedTokenHash =? 1)%Z
      end
  | _ => false
  end.

(** ** Handlers *)
Section Handlers.
Context {W E : Type} `{APIErrors E} `{ManagedServiceStore W E} `{NameValidation}.

Record apiHandler : Type := {
  expectedTokenHash : string;
  readinessCheck : option (W -> option E * W);
}.

Definition rejectQueryParameters (writer : ResponseWriter) (request : Request)
    : option ResponseWriter :=
  if String.eqb (URL_RawQuery request) "" then None
  else Some (writeError StatusBadRequest "query parameters are not supported" writer).

Definition validManagedServiceName (name : string) : bool :=
  negb (String.eqb name "") && (length (IsDNS1123Label name) =? 0)%nat.

Definition createManagedService : @Handler W := fun request writer w =>
  let '(createRequest, statusCode) := decodeCreateRequest request in
  if negb (statusCode =? 0)%Z then
    (writeJSON statusCode (json_of_error (requestError statusCode)) writer, w)
  else
    let replicas := match req_Replicas createRequest with
      | Some r => r
      | None => defaultReplicas
      end in
    if negb (validManagedServiceName (req_Name createRequest))
       || (replicas <? 1)%Z || (3 <? replicas)%Z
       || (120 <? RuneCountInString (req_Message createRequest))%nat
    then (writeError StatusBadRequest "invalid request" writer, w)
    else
      match store_Create (req_Name createRequest) replicas (req_Message createRequest) w with
      | (Err err, w') =>
          if IsAlreadyExists err
          then (writeError StatusConflict "managed service already exists" writer, w')
          else (writeInternalError writer, w')
      | (Ok managedService, w') =>
          (writeJSON StatusCreated (json_of_response (newManagedServiceResponse managedService))
             writer, w')
      end.

Definition listManagedServices : @Handler W := fun request writer w =>
  match store_List w with
  | (Err _, w') => (writeInternalError writer, w')
  | (Ok managedServices, w') =>
      let items := sort_by go_string_le resp_Name
        (map newManagedServiceResponse managedServices) in
      (writeJSON StatusOK (json_of_list {| list_Items := items |}) writer, w')
  end.

Definition serveManagedServiceCollection : @Handler W := fun request writer w =>
  match rejectQueryParameters writer request with
  | Some writer' => (writer', w)
  | None =>
      if String.eqb (Method request) MethodGet then listManagedServices request writer w
      else if String.eqb (Method request) MethodPost then createManagedService request writer w
      else
        (writeError StatusMethodNotAllowed methodNotAllowedMessage
           (set_header "Allow" (MethodGet +:+ ", " +:+ MethodPost) writer), w)
  end.

Definition getManagedService (name : string) : @Handler W := fun request writer w =>
  match store_Get name w with
  | (Err err, w') =>
      if IsNotFound err then (writeManagedServiceNotFound writer, w')
      else (writeInternalError writer, w')
  | (Ok managedService, w') =>
      (writeJSON StatusOK (json_of_response (newManagedServiceResponse managedService)) writer, w')
  end.

Definition deleteManagedService (name : string) : @Handler W := fun request writer w =>
  match store_Delete name w with
  | (Some err, w') =>
      if IsNotFound err then (writeManagedServiceNotFound writer, w')
      else (writeInternalError writer, w')
  | (None, w') =>
      (WriteHeader StatusNoContent
         (set_header "Cache-Control" "no-store"
           (set_header "Content-Type" "application/json" writer)), w')
  end.

Definition serveManagedService : @Handler W := fun request writer w =>
  match rejectQueryParameters writer request with
  | Some writer' => (writer', w)
  | None =>
      let name := trim_prefix (URL_Path request) (managedServicesRoute +:+ "/") in
      if negb (validManagedServiceName name) then
        (writeError StatusBadRequest "invalid managed service name" writer, w)
      else if String.eqb (Method request) MethodGet then getManagedService name request writer w
      else if String.eqb (Method request) MethodDelete then deleteManagedService name request writer w
      else
        (writeError StatusMethodNotAllowed methodNotAllowedMessage
           (set_header "Allow" (MethodGet +:+ ", " +:+ MethodDelete) writer), w)
  end.

Definition serveReadiness (handler : apiHandler) : @Handler W := fun request writer w =>
  let ready w := (writeJSON StatusOK
    (json_of_status {| status_Status := readinessStatusReady |}) writer, w) in
  match readinessCheck handler with
  | None => ready w
  | Some check =>
      match check w with
      | (Some _, w') =>
          (writeJSON StatusServiceUnavailable
             (json_of_status {| status_Status := readinessStatusNotReady |}) writer, w')
      | (None, w') => ready w'
      end
  end.

Definition getOnly (next : @Handler W) : @Handler W := fun request writer w =>
  if negb (String.eqb (Method request) MethodGet) then
    (writeError StatusMethodNotAllowed methodNotAllowedMessage
       (set_header "Allow" MethodGet writer), w)
  else next request writer w.

Definition serveHealth : @Handler W := fun _ writer w =>
  (writeJSON StatusOK (json_of_status {| status_Status := "healthy" |}) writer, w).

Definition serveIdentity : @Handler W := fun _ writer w =>
  (writeJSON StatusOK
     (json_of_identity {| identity_Service := "control-plane-api"; identity_Version := "v1" |})
     writer, w).

Definition serveNotFound : @Handler W := fun _ writer w =>
  (writeError StatusNotFound "not found" writer, w).

(** The routes [NewHandler] registers. *)
Definition router (handler : apiHandler) : @mux (@Handler W) := [
  handle_func healthRoute (getOnly serveHealth);
  handle_func readinessRoute (getOnly (serveReadiness handler));
  handle_func apiV1Route (getOnly serveIdentity);
  handle_func managedServicesRoute serveManagedServiceCollection;
  handle_func (managedServicesRoute +:+ "/") serveManagedService;
  handle_func "/" serveNotFound
].

(** [ServeHTTP] *)
Definition ServeHTTP (redirect : string -> Request -> ResponseWriter -> ResponseWriter)
    (handler : apiHandler) : @Handler W := fun request writer w =>
  if isProtectedPath (URL_Path request)
     && negb (authenticated (expectedTokenHash handler) request) then
    (writeError StatusUnauthorized "unauthorized"
       (set_header "WWW-Authenticate" "Bearer" writer), w)
  else mux_serve redirect (router handler) request writer w.

Definition NewHandler (token : string) (readinessCheck : option (W -> option E * W)) : apiHandler :=
  {| expectedTokenHash := Sha256.Sum256 token; readinessCheck := readinessCheck |}.
End Handlers.

End ApiHandler.
