(* ===== verification/Samples.v ===== *)
(** * Concrete requests

    The inputs the witnesses of the API theorems run on: a redirect response, a
    token, and requests against the concrete cluster of [Kube.Memory]. *)

From S2P Require Import Prelude GoStrings Json Http ApiTypes Kube Store ApiHandler.
Import Http ApiHandler.

Module Samples.

(** A redirect as net/http writes it. *)
Definition redirect (p : string) (r : Request) (w : ResponseWriter) : ResponseWriter :=
  WriteHeader 307 (set_header "Location" p w).

Lemma redirect_3xx p r w :
  rw_sent w = None -> (300 <= response_status (redirect p r w) < 400)%Z.
Proof. intros Hw. unfold redirect, response_status, WriteHeader. simpl. by rewrite Hw. Qed.

Definition token : string := "s3cret".

Definition bearer (credential : string) : header := {["Authorization" := ["Bearer " +:+ credential]]}.

Definition request (method path : string) (h : header) (body : string) : Request :=
  {| Method := method; URL_Path := path; URL_EscapedPath := path; URL_RawQuery := "";
     Header := h; Body := body; BodyEnd := Json.EOF; ProtoAtLeast_1_1 := true |}.

Definition create_body : string := dquote "{'name':'demo','replicas':2}".

Definition create_demo : Request :=
  request MethodPost managedServicesRoute (bearer token) create_body.

Definition delete_demo : Request :=
  request MethodDelete "/api/v1/managed-services/demo" (bearer token) "".

Definition get_demo : Request :=
  request MethodGet "/api/v1/managed-services/demo" (bearer token) "".

(** The route of the first request spelled with an escape, without a token. *)
Definition sneaky_create : Request :=
  {| Method := MethodPost; URL_Path := managedServicesRoute;
     URL_EscapedPath := "/%61pi/v1/managed-services"; URL_RawQuery := "";
     Header := ∅; Body := create_body; BodyEnd := Json.EOF; ProtoAtLeast_1_1 := true |}.

(** A cluster holding the service [demo]. *)
Definition with_demo : Memory.cluster :=
  {| Memory.contents := {[ ("applications", "demo") :=
       {| Memory.st_UID := "u1"; Memory.st_Generation := 1;
          Memory.st_Spec := requested_spec 1 ""; Memory.st_Status := V1alpha1.zero_status |} ]};
     Memory.next_uid := 1; Memory.network := Memory.Healthy |}.

End Samples.
