(* ===== verification/ApiSpec.v ===== *)
(** * What the API handler guarantees: access and effects

    Theorems about [ApiHandler]: who may reach the store, and what each request
    does to it. *)

From S2P Require Import Prelude GoStrings Sha256 Json Http ApiTypes Kube Store ApiHandler Samples.
Import V1alpha1 Http ApiHandler.

#[local] Opaque Sha256.Sum256.

(** ** Shared lemmas: responses *)

Definition json_headers (h : header) : header :=
  header_set "Cache-Control" "no-store" (header_set "Content-Type" "application/json" h).

Lemma writeJSON_sent status j w :
  rw_sent w = None ->
  rw_sent (writeJSON status j w) = Some (status, json_headers (rw_header w)).
Proof. intros Hw. unfold writeJSON. rewrite Write_sent. unfold WriteHeader. simpl. by rewrite Hw. Qed.

Lemma writeJSON_status status j w :
  rw_sent w = None -> response_status (writeJSON status j w) = status.
Proof. intros Hw. unfold response_status. by rewrite writeJSON_sent. Qed.

Lemma set_header_sent k v w : rw_sent (set_header k v w) = rw_sent w.
Proof. done. Qed.

#[export] Hint Rewrite writeJSON_status using (by rewrite ?set_header_sent) : controlplane.

(** ** Who is let through *)

Section Gate.
Context {W E : Type} `{APIErrors E} `{ManagedServiceStore W E} `{NameValidation}.
Context (redirect : string -> Request -> ResponseWriter -> ResponseWriter).
Context (handler : @apiHandler W E).

(** The handler of each decoded path. *)
Inductive route_of : string -> @Handler W -> Prop :=
| route_health : route_of healthRoute (getOnly serveHealth)
| route_ready : route_of readinessRoute (getOnly (serveReadiness handler))
| route_identity : route_of apiV1Route (getOnly serveIdentity)
| route_collection : route_of managedServicesRoute serveManagedServiceCollection
| route_item name : route_of (managedServicesRoute +:+ String "/" name) serveManagedService
| route_unknown path : route_of path serveNotFound.

Lemma routed_handler r h :
  well_formed r -> URL_Path r <> "*" -> find_handler (router handler) r = Handle h ->
  route_of (URL_Path r) h.
Proof.
  intros Hwf Hstar Hf. destruct (find_handler_sound _ _ _ Hwf Hstar Hf) as (p & Hin & Hp & Hr & _).
  destruct Hwf as [Hu _]. destruct Hr as [He|Hroot].
  { rewrite He in Hp. repeat (apply elem_of_cons in Hin as [[= -> ->]|Hin]);
      [inversion Hp..|by apply elem_of_nil in Hin]. }
  pose proof (fun segs => segments_path_exact segs _ _ Hu Hroot) as Hexact.
  repeat (apply elem_of_cons in Hin as [[= -> ->]|Hin]); [..|by apply elem_of_nil in Hin];
    simpl in Hp; invert_matches.
  - rewrite (Hexact ["healthz"]); [constructor|done|by repeat constructor].
  - rewrite (Hexact ["readyz"]); [constructor|done|by repeat constructor].
  - rewrite (Hexact ["api"; "v1"]); [constructor|done|by repeat constructor].
  - rewrite (Hexact ["api"; "v1"; "managed-services"]); [constructor|done|by repeat constructor].
  - match goal with Hs : _ :: _ = path_segments _ |- _ => symmetry in Hs;
      apply (segments_path_below ["api"; "v1"; "managed-services"] _ _ _ Hu Hroot) in Hs
        as [name ->] end; [exact (route_item name)|done|by repeat constructor].
  - constructor.
Qed.

(** Health, identity and unknown routes only write a response. *)
Lemma getOnly_frame (next : @Handler W) r w s :
  (Method r = MethodGet -> (next r w s).2 = s) -> (getOnly next r w s).2 = s.
Proof.
  intros Hn. unfold getOnly. destruct (String.eqb_spec (Method r) MethodGet); simpl; auto.
Qed.

Lemma serveReadiness_state r w s :
  (serveReadiness handler r w s).2 = s \/
  exists check, readinessCheck handler = Some check /\
    (serveReadiness handler r w s).2 = (check s).2.
Proof.
  unfold serveReadiness. destruct (readinessCheck handler) as [check|]; [|by left].
  right. exists check. split; [done|]. by destruct (check s) as [[] ?].
Qed.

Lemma protected_refused r w s :
  rw_sent w = None -> authenticated (expectedTokenHash handler) r = false ->
  isProtectedPath (URL_Path r) = true ->
  let '(w', s') := ServeHTTP redirect handler r w s in
  response_status w' = StatusUnauthorized /\
  header_values (response_header w') "WWW-Authenticate" = ["Bearer"] /\ s' = s.
Proof.
  intros Hw Ha Hp. unfold ServeHTTP. rewrite Ha, Hp. simpl.
  unfold writeError, response_status, response_header. rewrite writeJSON_sent by done.
  split_and!; [done| |done]. unfold json_headers, set_header. simpl. by autorewrite with controlplane.
Qed.

(** C1: a request that does not carry the configured bearer token is inert.  On
    a protected path, however it is spelled with percent escapes, it is answered
    401 with the challenge header and the world is left as it was; on any other
    path the world is left as it was, except that a GET of the readiness route
    runs the configured readiness check. *)
Theorem unauthenticated_is_inert r w s :
  well_formed r -> rw_sent w = None -> authenticated (expectedTokenHash handler) r = false ->
  let '(w', s') := ServeHTTP redirect handler r w s in
  (isProtectedPath (URL_Path r) = true ->
   response_status w' = StatusUnauthorized /\
   header_values (response_header w') "WWW-Authenticate" = ["Bearer"]) /\
  (s' = s \/
   Method r = MethodGet /\ URL_Path r = readinessRoute /\
   exists check, readinessCheck handler = Some check /\ s' = (check s).2).
Proof.
  intros Hwf Hw Ha. destruct (isProtectedPath (URL_Path r)) eqn:Hp.
  { pose proof (protected_refused r w s Hw Ha Hp) as Href.
    destruct (ServeHTTP redirect handler r w s). destruct_and! Href. auto. }
  unfold ServeHTTP. rewrite Ha, Hp. simpl.
  destruct (mux_serve redirect (router handler) r w s) as [w' s'] eqn:Hm.
  split; [done|]. revert Hm. unfold mux_serve.
  destruct (String.eqb_spec (URL_Path r) "*") as [|Hstar]; [by intros [= _ <-]; left|].
  destruct (find_handler (router handler) r) as [h| | |] eqn:Hf; try by intros [= _ <-]; left.
  intros Hm. assert (s' = (h r w s).2) as -> by (by rewrite Hm).
  apply routed_handler in Hf; [|done..].
  inversion Hf as [Hr|Hr|Hr|Hr|? Hr|]; subst; try (by rewrite <- Hr in Hp).
  - left. by apply getOnly_frame.
  - unfold getOnly. destruct (String.eqb_spec (Method r) MethodGet) as [Hg|]; [|by left]. simpl.
    destruct (serveReadiness_state r w s) as [->|Hc]; [by left|by right].
  - by left.
Qed.
End Gate.

(** ** Who is authenticated *)

Lemma equal_fold_refl_lower s t : equal_fold s t = true <-> to_lower s = to_lower t.
Proof.
  revert t. induction s as [|a s IH]; intros [|b t]; simpl; [done..|]. rewrite andb_true_iff, IH.
  rewrite Ascii.eqb_eq. unfold to_lower. simpl. split; [by intros [-> ->]|by intros [= -> ->]].
Qed.

(** C26: exactly which requests the handler authenticates: those with a single
    Authorization header made of the scheme Bearer in any case, one space, and
    a non-empty credential without blanks whose SHA-256 hash is the hash of the
    configured token. *)
Theorem authenticated_iff token r :
  authenticated (Sha256.Sum256 token) r = true <->
  exists scheme credential,
    header_values (Header r) "Authorization" = [scheme +:+ String SP credential] /\
    to_lower scheme = "bearer" /\ credential <> "" /\
    contains_any credential blanks = false /\
    Sha256.Sum256 credential = Sha256.Sum256 token.
Proof.
  unfold authenticated. split.
  - intros Ha. destruct (header_values _ _) as [|value [|]]; try done.
    destruct (cut value " ") as [[scheme credential]|] eqn:Hc; [|done].
    apply (cut_byte_spec value SP) in Hc as [-> Hs]. exists scheme, credential.
    destruct (_ || _ || _) eqn:Hb; [done|]. bools.
    apply Z.eqb_eq, Sha256.ConstantTimeCompare_spec in Ha.
    match goal with He : equal_fold _ _ = true |- _ => apply equal_fold_refl_lower in He end. done.
  - intros (scheme & credential & -> & Hs & Hne & Hb & Hh).
    assert (contains_byte scheme SP = false) as Hsp.
    { assert (contains_byte (to_lower scheme) SP = false) as Hl by (by rewrite Hs).
      clear -Hl. induction scheme as [|a s IH]; [done|]. unfold to_lower in Hl. simpl in Hl.
      rewrite contains_byte_cons in *. bools. rewrite IH by done.
      destruct (Ascii.eqb_spec SP a) as [<-|]; done. }
    rewrite (proj2 (cut_byte_spec _ SP scheme credential)) by done.
    rewrite (proj2 (equal_fold_refl_lower scheme "Bearer") Hs), Hb. simpl.
    destruct (String.eqb_spec credential ""); [done|]. simpl.
    by apply Z.eqb_eq, Sha256.ConstantTimeCompare_spec.
Qed.

(** ** What requests do to the store *)

Section Effects.
Context {W E : Type} `{StoreSpec W E} `{NameValidation}.
Context (redirect : string -> Request -> ResponseWriter -> ResponseWriter).
Context (redirect_3xx : forall p r w, rw_sent w = None ->
  (300 <= response_status (redirect p r w) < 400)%Z).
Context (token : string).

(** The handler as cmd/control-plane-api builds it. *)
Definition api_server : @Handler W := ServeHTTP redirect (NewHandler token (Some store_Ready)).

(** A service the API may hold: its name and its spec are valid. *)
Definition valid_service (n : string) (o : ManagedService) : Prop :=
  dns1123_label n = true /\ admit_spec (Spec o) = Some (Spec o).

(** The abstract behaviour of one request on the map of services. *)
Inductive api_effect (r : Request) (w : ResponseWriter) (m : gmap string ManagedService)
    : gmap string ManagedService -> ResponseWriter -> Prop :=
| effect_none w' :
    response_status w' <> StatusCreated -> response_status w' <> StatusNoContent ->
    api_effect r w m m w'
| effect_created req o w' :
    Method r = MethodPost -> URL_Path r = managedServicesRoute ->
    authenticated (Sha256.Sum256 token) r = true ->
    decodeCreateRequest r = (req, 0%Z) ->
    m !! req_Name req = None -> dns1123_label (req_Name req) = true ->
    Spec o = requested_spec (default defaultReplicas (req_Replicas req)) (req_Message req) ->
    admit_spec (Spec o) = Some (Spec o) -> Status o = zero_status ->
    w' = writeJSON StatusCreated (json_of_response (newManagedServiceResponse o)) w \/
      w' = writeInternalError w ->
    api_effect r w m (<[req_Name req := o]> m) w'
| effect_deleted n m' w' :
    Method r = MethodDelete -> URL_Path r = managedServicesRoute +:+ String "/" n ->
    authenticated (Sha256.Sum256 token) r = true -> deletion n m m' ->
    response_status w' = StatusNoContent \/ w' = writeInternalError w ->
    api_effect r w m m' w'.

Lemma validManagedServiceName_spec n : validManagedServiceName n = dns1123_label n.
Proof.
  unfold validManagedServiceName. apply eq_true_iff_eq. rewrite andb_true_iff. split.
  - intros [_ Hl]. apply IsDNS1123Label_spec. by destruct (IsDNS1123Label n).
  - intros Hn. split; [by destruct n|]. apply IsDNS1123Label_spec in Hn. by rewrite Hn.
Qed.

(** The handler's checks on replicas and message are the markers' checks. *)
Lemma admit_requested replicas message :
  (replicas <? 1)%Z || (3 <? replicas)%Z || (120 <? RuneCountInString message)%nat = false ->
  admit_spec (requested_spec replicas message) = Some (requested_spec replicas message).
Proof.
  intros Hb. bools. unfold admit_spec, requested_spec, default_spec, valid_spec. simpl.
  rewrite !Z.ltb_ge, Nat.ltb_ge in *.
  by rewrite (proj2 (Z.leb_le _ _)), (proj2 (Z.leb_le _ _)), (proj2 (Nat.leb_le _ _)) by lia.
Qed.

Lemma default_match (p : option Z) :
  match p with Some r => r | None => defaultReplicas end = default defaultReplicas p.
Proof. by destruct p. Qed.

Lemma decode_status r req code :
  decodeCreateRequest r = (req, code) ->
  code = 0%Z \/ code = StatusBadRequest \/ code = StatusRequestEntityTooLarge.
Proof.
  assert (forall e, requestDecodeStatus e = StatusBadRequest \/
    requestDecodeStatus e = StatusRequestEntityTooLarge) as Hs by (intros [[]|]; auto).
  unfold decodeCreateRequest. repeat case_match; intros [= <- <-]; first [by left | by right; left | by right; right | right; apply (Hs (Some _))].
Qed.

Lemma writeInternalError_status w :
  rw_sent w = None -> response_status (writeInternalError w) = StatusInternalServerError.
Proof. intros Hw. unfold writeInternalError, writeError. by rewrite writeJSON_status. Qed.

(** A handler that leaves the services alone and answers anything but 201 or 204. *)
Lemma inert_effect r w w' s s' :
  services s' = services s -> response_status w' <> StatusCreated ->
  response_status w' <> StatusNoContent ->
  api_effect r w (services s) (services s') w'.
Proof. intros -> ? ?. by constructor. Qed.

(** Splits a handler on its tests and closes the branches that only answer. *)
Ltac answers :=
  repeat case_match; intros [= <- <-];
    unfold writeManagedServiceNotFound, writeInternalError, writeError;
    apply inert_effect; rewrite ?writeJSON_status by done; try done.

Lemma create_effect r w s w' s' :
  rw_sent w = None -> Method r = MethodPost -> URL_Path r = managedServicesRoute ->
  authenticated (Sha256.Sum256 token) r = true ->
  createManagedService r w s = (w', s') ->
  api_effect r w (services s) (services s') w'.
Proof.
  intros Hw Hm Hp Ha. unfold createManagedService.
  destruct (decodeCreateRequest r) as [req code] eqn:Hd.
  destruct (Z.eqb_spec code 0) as [->|Hcode]; simpl.
  2:{ intros [= <- <-]. apply inert_effect; rewrite ?writeJSON_status by done; [done|..];
      by destruct (decode_status _ _ _ Hd) as [?|[->| ->]]. }
  rewrite default_match, validManagedServiceName_spec.
  destruct (_ || _) eqn:Hb; [answers|].
  destruct (store_Create _ _ _ s) as [[o|e] s''] eqn:Hc.
  - intros [= <- <-].
    apply spec_Create_ok in Hc as (Hnone & -> & Hname & Hspec & Hstatus).
    rewrite <- !orb_assoc in Hb. apply orb_false_iff in Hb as [Hn Hb].
    eapply effect_created; try done; [by apply negb_false_iff| |by left].
    rewrite Hspec. apply admit_requested. by rewrite <- orb_assoc.
  - apply spec_Create_err in Hc as [[Hs _]|(He & o & Hnone & Hs & Hspec & Hstatus)]; [by answers|].
    rewrite He. intros [= <- <-]. rewrite Hs.
    rewrite <- !orb_assoc in Hb. apply orb_false_iff in Hb as [Hn Hb].
    eapply effect_created; try done; [by apply negb_false_iff| |by right].
    rewrite Hspec. apply admit_requested. by rewrite <- orb_assoc.
Qed.

Lemma collection_effect r w s w' s' :
  rw_sent w = None -> URL_Path r = managedServicesRoute ->
  authenticated (Sha256.Sum256 token) r = true ->
  serveManagedServiceCollection r w s = (w', s') ->
  api_effect r w (services s) (services s') w'.
Proof.
  intros Hw Hp Ha. unfold serveManagedServiceCollection, rejectQueryParameters.
  destruct (String.eqb (URL_RawQuery r) ""); [|answers].
  destruct (String.eqb_spec (Method r) MethodGet) as [_|_].
  { unfold listManagedServices. destruct (store_List s) as [res s''] eqn:Hl.
    apply spec_List_frame in Hl. by answers. }
  destruct (String.eqb_spec (Method r) MethodPost) as [Hm|_]; [by apply create_effect|answers].
Qed.

Lemma item_effect r n w s w' s' :
  rw_sent w = None -> URL_Path r = managedServicesRoute +:+ String "/" n ->
  authenticated (Sha256.Sum256 token) r = true ->
  serveManagedService r w s = (w', s') ->
  api_effect r w (services s) (services s') w'.
Proof.
  intros Hw Hp Ha. unfold serveManagedService, rejectQueryParameters.
  destruct (String.eqb (URL_RawQuery r) ""); [|answers].
  assert (trim_prefix (URL_Path r) (managedServicesRoute +:+ "/") = n) as ->.
  { rewrite Hp. change (String "/" n) with ("/" +:+ n). rewrite <- append_assoc.
    apply trim_prefix_append. }
  destruct (negb _); [answers|].
  destruct (String.eqb_spec (Method r) MethodGet) as [_|_].
  { unfold getManagedService. destruct (store_Get n s) as [res s''] eqn:Hg.
    apply spec_Get_frame in Hg. by answers. }
  destruct (String.eqb_spec (Method r) MethodDelete) as [Hm|_]; [|answers].
  unfold deleteManagedService. destruct (store_Delete n s) as [[e|] s''] eqn:Hd.
  { apply spec_Delete_err in Hd as [[Hs _]|[He Hd]]; [by answers|]. rewrite He. intros [= <- <-].
    eapply effect_deleted; try done. by right. }
  intros [= <- <-]. apply spec_Delete_ok in Hd. eapply effect_deleted; try done.
  left. by apply response_status_WriteHeader.
Qed.

Lemma inert_get (next : @Handler W) r w s w' s' :
  rw_sent w = None -> getOnly next r w s = (w', s') ->
  (forall w' s', next r w s = (w', s') ->
     api_effect r w (services s) (services s') w') ->
  api_effect r w (services s) (services s') w'.
Proof. intros Hw Hg Hn. revert Hg. unfold getOnly. destruct (negb _); [answers|apply Hn]. Qed.

Lemma readiness_effect r w s w' s' :
  rw_sent w = None -> serveReadiness (NewHandler token (Some store_Ready)) r w s = (w', s') ->
  api_effect r w (services s) (services s') w'.
Proof.
  intros Hw. unfold serveReadiness. simpl. destruct (store_Ready s) as [res s''] eqn:Hr.
  apply spec_Ready_frame in Hr. by answers.
Qed.

(** The multiplexer's own answers change nothing. *)
Lemma mux_effect mx r w s w' s' :
  rw_sent w = None ->
  (forall h, URL_Path r <> "*" -> find_handler mx r = Handle h -> h r w s = (w', s') ->
     api_effect r w (services s) (services s') w') ->
  mux_serve redirect mx r w s = (w', s') ->
  api_effect r w (services s) (services s') w'.
Proof.
  intros Hw Hh. unfold mux_serve. destruct (String.eqb_spec (URL_Path r) "*") as [|Hstar].
  { intros [= <- <-]. destruct (ProtoAtLeast_1_1 r); apply inert_effect; by rewrite ?response_status_WriteHeader. }
  destruct (find_handler _ r) as [h|path|ms|] eqn:Hf; [by apply Hh| | |];
    intros [= <- <-]; apply inert_effect; rewrite ?http_error_status; try done;
    pose proof (redirect_3xx path r w Hw); unfold StatusCreated, StatusNoContent; lia.
Qed.

Lemma request_effect_steps r w s w' s' :
  well_formed r -> rw_sent w = None -> api_server r w s = (w', s') ->
  api_effect r w (services s) (services s') w'.
Proof.
  intros Hwf Hw. unfold api_server, ServeHTTP. cbn [expectedTokenHash NewHandler].
  destruct (isProtectedPath (URL_Path r)) eqn:Hp, (authenticated (Sha256.Sum256 token) r) eqn:Ha;
    simpl; try by answers.
  all: apply mux_effect; [done|]; intros h Hstar Hf Hh; apply routed_handler in Hf; [|done..].
  all: inversion Hf as [Hr|Hr|Hr|Hr|n Hr|]; subst; try (by rewrite <- Hr in Hp);
    first [ by eapply collection_effect | by eapply item_effect
          | apply (inert_get _ _ _ _ _ _ Hw Hh); intros ? ?; first [apply readiness_effect|answers]; done
          | revert Hh; answers ].
Qed.

(** C2: refinement of the abstract service map.  Every request, whatever its
    method, path, headers and body, does one of three things: it creates one
    absent service with a valid name and an admissible spec taken from the
    decoded body and answers 201; it deletes, or marks for deletion, the service
    named by the path and answers 204; or it changes no service and answers
    neither 201 nor 204.  The first two need POST or DELETE and the token; when
    the API server's own answer was lost, they answer 500 instead. *)
Theorem request_effect r w s w' s' :
  well_formed r -> rw_sent w = None -> api_server r w s = (w', s') ->
  api_effect r w (services s) (services s') w'.
Proof. apply request_effect_steps. Qed.

(** Requests served one after the other. *)
Fixpoint serve_all (rs : list Request) (s : W) : list ResponseWriter * W :=
  match rs with
  | [] => ([], s)
  | r :: rs' =>
      let '(w, s1) := api_server r new_writer s in
      let '(ws, s2) := serve_all rs' s1 in
      (w :: ws, s2)
  end.

(** What an authenticated create request asks for. *)
Definition requests_service (n : string) (r : Request) : Prop :=
  Method r = MethodPost /\ authenticated (Sha256.Sum256 token) r = true /\
  exists req, decodeCreateRequest r = (req, 0%Z) /\ req_Name req = n.

Lemma api_effect_keeps r w m m' w' n o' :
  api_effect r w m m' w' -> m' !! n = Some o' ->
  (forall o, m !! n = Some o -> valid_service n o) ->
  valid_service n o' /\ (is_Some (m !! n) \/ requests_service n r).
Proof.
  intros He Hn Hv.
  destruct He as [|req o w' Hm Hp Ha Hd Hnone Hl Hs Hadm _ _|k m' w' Hm Hp Ha (o & Ho & [->|(o1 & Hdel & ->)]) _].
  - split; [by apply Hv|by left].
  - apply lookup_insert_Some in Hn as [[<- <-]|[_ Hn]]; [|split; [by apply Hv|by left]].
    split; [done|]. right. split; [done|]. split; [done|]. by exists req.
  - apply lookup_delete_Some in Hn as [_ Hn]. split; [by apply Hv|by left].
  - apply lookup_insert_Some in Hn as [[<- <-]|[_ Hn]]; [|split; [by apply Hv|by left]].
    destruct Hdel as (_ & Hspec & _). apply Hv in Ho as Hval. destruct Hval as [Hl Hadm].
    split; [|left; by eexists]. split; [done|]. by rewrite Hspec.
Qed.

(** C12: the invariant of the stored services.  If every stored service has a
    valid DNS label for a name and a spec the admission rules leave unchanged,
    then so it is after any sequence of requests, and every service found then
    was there before or was asked for by an authenticated create request. *)
Theorem services_stay_valid rs s :
  Forall well_formed rs ->
  (forall n o, services s !! n = Some o -> valid_service n o) ->
  forall n o, services (serve_all rs s).2 !! n = Some o ->
    valid_service n o /\ (is_Some (services s !! n) \/ Exists (requests_service n) rs).
Proof.
  revert s. induction rs as [|r rs IH]; intros s HF Hv n o; simpl.
  { intros Hn. split; [by apply Hv|]. left. by exists o. }
  apply Forall_cons in HF as [Hr HF].
  destruct (api_server r new_writer s) as [w s1] eqn:Hs.
  destruct (serve_all rs s1) as [ws s2] eqn:Hrs. simpl. intros Hn.
  pose proof (request_effect_steps r new_writer s w s1 Hr eq_refl Hs) as He.
  assert (s2 = (serve_all rs s1).2) as -> by (by rewrite Hrs).
  destruct (IH s1 HF) with (n := n) (o := o) as [Hval Hwhere]; [|done|].
  { intros k ok Hk. destruct (api_effect_keeps _ _ _ _ _ _ _ He Hk) as [Hk' _]; [by apply Hv|done]. }
  split; [done|]. destruct Hwhere as [[o1 Ho1]|Hex]; [|by right; right].
  destruct (api_effect_keeps _ _ _ _ _ _ _ He Ho1) as [_ [?|?]]; [by apply Hv|by left|by right; left].
Qed.

(** Which decoded requests the handler accepts. *)
Definition acceptable (req : createManagedServiceRequest) : bool :=
  let replicas := default defaultReplicas (req_Replicas req) in
  dns1123_label (req_Name req) && (1 <=? replicas)%Z && (replicas <=? 3)%Z
  && (RuneCountInString (req_Message req) <=? 120)%nat.

(** C16: a create request on every branch, while the store is available: 400 or
    413 for a body that does not decode, 400 for an unacceptable name, number of
    replicas or message, 409 for a name in use, and otherwise 201 with the new
    service's representation.  500 cannot happen: what the handler accepts has a
    valid name and an admissible spec, which is all that an API server that is up,
    has the namespace and grants the request asks for.  Only 201 changes the
    services. *)
Theorem create_outcome r w s :
  store_available s -> rw_sent w = None ->
  let '(w', s') := createManagedService r w s in
  let '(req, code) := decodeCreateRequest r in
  if negb (code =? 0)%Z then
    (code = StatusBadRequest \/ code = StatusRequestEntityTooLarge) /\
    response_status w' = code /\ services s' = services s
  else if negb (acceptable req) then
    response_status w' = StatusBadRequest /\ services s' = services s
  else if bool_decide (is_Some (services s !! req_Name req)) then
    response_status w' = StatusConflict /\ services s' = services s
  else
    exists o, services s' = <[req_Name req := o]> (services s) /\
    Spec o = requested_spec (default defaultReplicas (req_Replicas req)) (req_Message req) /\
    w' = writeJSON StatusCreated (json_of_response (newManagedServiceResponse o)) w.
Proof.
  intros Hs Hw. unfold createManagedService.
  destruct (decodeCreateRequest r) as [req code] eqn:Hd.
  destruct (Z.eqb_spec code 0) as [->|Hcode]; simpl.
  2:{ rewrite writeJSON_status by done. by destruct (decode_status _ _ _ Hd) as [?|?]. }
  rewrite default_match, validManagedServiceName_spec. fold (acceptable req).
  set (replicas := default defaultReplicas (req_Replicas req)).
  assert (negb (acceptable req) =
    negb (dns1123_label (req_Name req)) || (replicas <? 1)%Z || (3 <? replicas)%Z
    || (120 <? RuneCountInString (req_Message req))%nat) as Hacc.
  { unfold acceptable. by rewrite !negb_andb, Z.ltb_antisym, Z.ltb_antisym, Nat.ltb_antisym. }
  rewrite <- Hacc. destruct (negb (acceptable req)) eqn:Hb; simpl.
  { unfold writeError. by rewrite writeJSON_status. }
  symmetry in Hacc. rewrite <- !orb_assoc in Hacc. apply orb_false_iff in Hacc as [Hname%negb_false_iff Hacc].
  rewrite orb_assoc in Hacc. apply admit_requested in Hacc.
  pose proof (spec_Create_available (req_Name req) replicas (req_Message req) s Hs Hname (mk_is_Some _ _ Hacc))
    as Hav.
  destruct (store_Create _ _ _ s) as [[o|e] s'] eqn:Hc; simpl in Hav.
  - apply spec_Create_ok in Hc as (-> & -> & _ & Hspec & _).
    rewrite bool_decide_eq_false_2 by (by intros []). by exists o.
  - destruct Hav as [[o Ho] He].
    apply spec_Create_err in Hc as [[Hframe _]|(He' & _)]; [|congruence]. rewrite He.
    rewrite bool_decide_eq_true_2 by done. unfold writeError. by rewrite writeJSON_status.
Qed.
End Effects.

(** ** Witnesses *)

Lemma unauthenticated_is_inert_witness :
  let handler := NewHandler Samples.token (Some store_Ready) in
  authenticated (expectedTokenHash handler) Samples.sneaky_create = false /\
  isProtectedPath (URL_Path Samples.sneaky_create) = true /\
  let '(w', s') := ServeHTTP Samples.redirect handler Samples.sneaky_create new_writer Memory.empty in
  (isProtectedPath (URL_Path Samples.sneaky_create) = true ->
   response_status w' = StatusUnauthorized /\
   header_values (response_header w') "WWW-Authenticate" = ["Bearer"]) /\
  (s' = Memory.empty \/
   Method Samples.sneaky_create = MethodGet /\ URL_Path Samples.sneaky_create = readinessRoute /\
   exists check, readinessCheck handler = Some check /\ s' = (check Memory.empty).2).
Proof.
  split; [by vm_compute|]. split; [by vm_compute|].
  apply (unauthenticated_is_inert Samples.redirect (NewHandler Samples.token (Some store_Ready))
    Samples.sneaky_create new_writer Memory.empty).
  - split; [reflexivity|]. right; right. reflexivity.
  - reflexivity.
  - vm_compute. reflexivity.
Defined.

Lemma request_effect_witness :
  let result := api_server Samples.redirect Samples.token Samples.create_demo new_writer Memory.empty in
  response_status result.1 = StatusCreated /\
  api_effect Samples.token Samples.create_demo new_writer (services Memory.empty)
    (services result.2) result.1.
Proof.
  cbv zeta. split; [by vm_compute|].
  apply (request_effect Samples.redirect Samples.redirect_3xx Samples.token Samples.create_demo
    new_writer Memory.empty).
  - split; [reflexivity|]. right; right. reflexivity.
  - reflexivity.
  - apply surjective_pairing.
Defined.

Lemma services_stay_valid_witness :
  let s' := (serve_all Samples.redirect Samples.token
    [Samples.create_demo; Samples.get_demo] Memory.empty).2 in
  is_Some (services s' !! "demo") /\
  forall n o, services s' !! n = Some o ->
    valid_service n o /\
    (is_Some (services Memory.empty !! n) \/
     Exists (requests_service Samples.token n) [Samples.create_demo; Samples.get_demo]).
Proof.
  cbv zeta. split; [by vm_compute; eexists|].
  apply (services_stay_valid Samples.redirect Samples.redirect_3xx Samples.token
    [Samples.create_demo; Samples.get_demo] Memory.empty).
  - repeat constructor; right; right; reflexivity.
  - intros n o. change (services Memory.empty) with (applications (Memory.view Memory.empty)).
    rewrite applications_lookup, Memory.view_lookup. cbn [Memory.contents Memory.empty]. rewrite lookup_empty.
    discriminate.
Defined.

Lemma create_outcome_witness :
  store_available Memory.empty /\
  decodeCreateRequest Samples.create_demo =
    ({| req_Name := "demo"; req_Replicas := Some 2%Z; req_Message := "" |}, 0%Z) /\
  exists o s', createManagedService Samples.create_demo new_writer Memory.empty =
    (writeJSON StatusCreated (json_of_response (newManagedServiceResponse o)) new_writer, s').
Proof.
  split; [reflexivity|]. split; [by vm_compute|].
  pose proof (create_outcome Samples.create_demo new_writer Memory.empty eq_refl eq_refl) as Ho.
  destruct (createManagedService _ _ _) as [w' s'].
  replace (decodeCreateRequest Samples.create_demo) with
    ({| req_Name := "demo"; req_Replicas := Some 2%Z; req_Message := "" |}, 0%Z) in Ho
    by (by vm_compute).
  cbv beta iota in Ho. change (negb (0 =? 0)%Z) with false in Ho.
  replace (negb (acceptable _)) with false in Ho by (by vm_compute).
  replace (bool_decide _) with false in Ho by (by vm_compute).
  cbv iota in Ho. destruct Ho as (o & _ & _ & ->). by exists o, s'.
Defined.
