(* ===== verification/ApiDecode.v ===== *)
(** * Decoding of create requests

    Theorems about [ApiHandler.decodeCreateRequest]: the requests of a Go client
    are read back, the accepted bodies are exactly the strict ones, and no body
    beyond the limit is accepted. *)

From Stdlib Require Import DecimalFacts DecimalPos DecimalN DecimalString ZArith.
From S2P Require Import Prelude GoStrings Json Http ApiTypes Kube Store ApiHandler Samples.
Import Http ApiHandler.
Import Json (json, JNull, JBool, JNumber, JString, JArray, JObject).

(** ** Shared lemmas: the end of the body *)

Lemma step_start_space c : Json.is_space c = true -> Json.step Json.start c = Json.Continue Json.start.
Proof. intros Hc. unfold Json.start, Json.step, Json.step_begin_value. cbn. by rewrite Hc. Qed.

Lemma run_spaces s :
  sforall Json.is_space s = true -> Json.run Json.start s = Json.NeedMore Json.start.
Proof.
  induction s as [|c s IH]; [done|]. cbn [sforall Json.run]. intros Hs. bools.
  by rewrite step_start_space, IH.
Qed.

(** [io.EOF] is reported exactly when only white space is left before it. *)
Lemma read_value_eof s e :
  Json.read_value s e = Err Json.ErrEOF <-> e = Json.EOF /\ sforall Json.is_space s = true.
Proof.
  unfold Json.read_value. split.
  - destruct (Json.run Json.start s); [done..|].
    destruct e; [|done..]. destruct (Json.step _ SP); try done; by destruct (sforall _ s).
  - intros [-> Hs]. rewrite run_spaces by done. by rewrite step_start_space, Hs.
Qed.

(** ** Shared lemmas: decoding members *)

(** The members the struct takes without an error. *)
Definition accepted_member (m : string * json) : bool :=
  if is_field "name" m.1 || (negb (is_field "replicas" m.1) && is_field "message" m.1) then
    match m.2 with JString _ | JNull => true | _ => false end
  else if is_field "replicas" m.1 then
    match m.2 with
    | JNull => true
    | JNumber lit => match parse_int32 lit with Some _ => true | None => false end
    | _ => false
    end
  else false.

Definition accepted_body (v : json) : bool :=
  match v with
  | JNull => true
  | JObject ms => forallb accepted_member ms
  | _ => false
  end.

Lemma decode_member_flag st m : (decode_member st m).2 = st.2 && accepted_member m.
Proof.
  destruct st as [req ok], m as [k v]. unfold decode_member, accepted_member. simpl.
  destruct (is_field "name" k), (is_field "replicas" k), (is_field "message" k); simpl;
    try (by destruct v; rewrite ?andb_true_r, ?andb_false_r);
    destruct v as [| |lit| | |]; rewrite ?andb_true_r, ?andb_false_r; try done;
    destruct (parse_int32 lit); by rewrite ?andb_true_r, ?andb_false_r.
Qed.

Lemma decode_members_flag ms st :
  (foldl decode_member st ms).2 = st.2 && forallb accepted_member ms.
Proof.
  revert st. induction ms as [|m ms IH]; intros st; simpl; [by rewrite andb_true_r|].
  by rewrite IH, decode_member_flag, andb_assoc.
Qed.

Lemma unmarshal_flag v : (unmarshal_request v).2 = accepted_body v.
Proof. destruct v; try done. simpl. by rewrite decode_members_flag. Qed.

(** ** Shared lemmas: what a client writes *)

Lemma number_run_uint d : Json.number_run Json.NInt (NilEmpty.string_of_uint d) = Some Json.NInt.
Proof. induction d; simpl; done. Qed.

(** A normal numeral is a JSON number: it has no leading zero. *)
Lemma number_ok_pos p :
  exists c s, NilZero.string_of_uint (Pos.to_uint p) = String c s /\
    Json.number_start c = Some Json.NInt /\ Json.number_run Json.NInt s = Some Json.NInt.
Proof.
  assert (Decimal.nzhead (Pos.to_uint p) = Pos.to_uint p) as Hn.
  { pose proof (DecimalPos.Unsigned.to_uint_nonzero p) as Hz.
    pose proof (DecimalN.Unsigned.to_of (Pos.to_uint p)) as Ht.
    unfold N.of_uint in Ht. rewrite DecimalPos.Unsigned.of_to in Ht. simpl in Ht.
    unfold Decimal.unorm in Ht. destruct (Decimal.nzhead (Pos.to_uint p)); congruence. }
  destruct (Pos.to_uint p) as [|d|d|d|d|d|d|d|d|d|d] eqn:Hp;
    [by apply DecimalPos.Unsigned.to_uint_nonnil in Hp
    |by apply DecimalFacts.nzhead_nonzero in Hn
    |eexists _, _; (split; [reflexivity|]); (split; [reflexivity|apply number_run_uint])..].
Qed.

Lemma number_ok_Itoa z : Json.number_ok (Itoa z) = true.
Proof.
  unfold Itoa. destruct z as [|p|p]; cbn [Z.to_int NilZero.string_of_int]; [done|..];
    destruct (number_ok_pos p) as (c & s & -> & Hc & Hs); unfold Json.number_ok.
  - by rewrite Hc, Hs.
  - assert (Json.number_next Json.NNeg c = Some Json.NInt) as Hneg.
    { clear -Hc. destruct c as [[] [] [] [] [] [] [] []]; vm_compute in Hc;
        first [discriminate Hc | reflexivity]. }
    change (Json.number_start "-") with (Some Json.NNeg). cbn [Json.number_run].
    by rewrite Hneg, Hs.
Qed.

Lemma parse_int32_Itoa z : (min_int32 <= z <= max_int32)%Z -> parse_int32 (Itoa z) = Some z.
Proof.
  intros Hz. unfold parse_int32. rewrite Atoi_Itoa.
  - by rewrite (proj2 (Z.leb_le _ _)), (proj2 (Z.leb_le _ _)) by lia.
  - unfold min_int32, max_int32, min_int64, max_int64 in *. lia.
Qed.

(** ** Properties *)

(** C20: the decoder accepts exactly the bodies of at most 4096 bytes, read to
    their end, that hold one JSON value followed by nothing but white space,
    where the value is null or an object all of whose members are fields of the
    request with a value of the field's type (or null).  Unknown fields,
    trailing values, wrong types, numbers beyond int32 and cut-off bodies are all
    rejected. *)
Theorem decode_accepts_iff r :
  (decodeCreateRequest r).2 = 0%Z <->
  String.length (Body r) <= maxRequestBodyBytes /\ BodyEnd r = Json.EOF /\
  exists v rest, Json.read_value (Body r) Json.EOF = Ok (v, rest) /\
    accepted_body v = true /\ sforall Json.is_space rest = true.
Proof.
  assert (forall e, requestDecodeStatus e <> 0%Z) as Hnz by (by intros [[]|]).
  unfold decodeCreateRequest. split.
  - destruct (MaxBytesReader _ _ _) as [body body_end] eqn:Hm.
    destruct (Json.read_value body body_end) as [[v rest]|e] eqn:Hv; [|by cbn [snd]; intros ?%Hnz].
    pose proof (unmarshal_flag v) as Hflag.
    destruct (unmarshal_request v) as [req ok]. simpl in Hflag. subst ok.
    destruct (accepted_body v) eqn:Ha; cbn [negb snd]; [|by intros ?%Hnz].
    destruct (Json.read_value rest body_end) as [|[]] eqn:Hr; cbn [snd]; (try by intros ?%Hnz); intros _.
    apply read_value_eof in Hr as [-> Hrest].
    unfold MaxBytesReader in Hm.
    destruct (Nat.leb_spec (String.length (Body r)) maxRequestBodyBytes); [|done].
    injection Hm as <- He. split; [done|]. split; [done|]. by exists v, rest.
  - intros (Hl & He & v & rest & Hv & Ha & Hrest).
    rewrite MaxBytesReader_within, He, Hv by done.
    pose proof (unmarshal_flag v) as Hflag. destruct (unmarshal_request v) as [req ok].
    simpl in Hflag. rewrite Ha in Hflag. subst ok. simpl.
    by rewrite (proj2 (read_value_eof rest Json.EOF)).
Qed.

(** A body beyond the limit is never accepted: the answer is 413, or 400
    when the first 4096 bytes already show an error; the handler never reads
    further. *)
Theorem oversized_body_rejected r :
  maxRequestBodyBytes < String.length (Body r) ->
  (decodeCreateRequest r).2 = StatusRequestEntityTooLarge \/
  (decodeCreateRequest r).2 = StatusBadRequest /\
    (Json.read_value (stake maxRequestBodyBytes (Body r)) Json.TooLarge = Err Json.ErrSyntax \/
     exists v rest, Json.read_value (stake maxRequestBodyBytes (Body r)) Json.TooLarge = Ok (v, rest) /\
       (accepted_body v = false \/
        is_ok (Json.read_value rest Json.TooLarge) = true \/
        Json.read_value rest Json.TooLarge = Err Json.ErrSyntax)).
Proof.
  intros Hl. unfold decodeCreateRequest. rewrite MaxBytesReader_beyond by done.
  assert (forall s err, Json.read_value s Json.TooLarge = Err err ->
    err = Json.ErrSyntax \/ err = Json.ErrMaxBytes) as Herr.
  { intros s err. unfold Json.read_value. destruct (Json.run _ s); intros [= <-]; auto. }
  destruct (Json.read_value (stake _ _) _) as [[v rest]|e] eqn:Hv.
  2:{ destruct (Herr _ _ Hv) as [->| ->]; [right; split; [done|by left]|by left]. }
  pose proof (unmarshal_flag v) as Hflag.
  destruct (unmarshal_request v) as [req ok]. simpl in Hflag. subst ok.
  destruct (accepted_body v) eqn:Ha; simpl; [|right; split; [done|right; eauto]].
  destruct (Json.read_value rest Json.TooLarge) as [p|e] eqn:Hr; simpl.
  { right. split; [done|]. right. exists v, rest. split; [done|]. right; left. by rewrite Hr. }
  destruct (Herr _ _ Hr) as [->| ->]; [|by left].
  right. split; [done|]. right. exists v, rest. auto.
Qed.

(** C21: the round trip with a Go client.  A request whose strings are valid
    UTF-8 and whose replicas fit an int32, marshalled the way [json.Encoder]
    does, is decoded to itself, as long as the text stays within the limit. *)
Theorem decode_encode r req :
  Body r = Json.Encode (json_of_request req) -> BodyEnd r = Json.EOF ->
  String.length (Body r) <= maxRequestBodyBytes ->
  ValidString (req_Name req) = true -> ValidString (req_Message req) = true ->
  (forall z, req_Replicas req = Some z -> (min_int32 <= z <= max_int32)%Z) ->
  decodeCreateRequest r = (req, 0%Z).
Proof.
  intros Hb He Hl Hname Hmessage Hreplicas. unfold decodeCreateRequest.
  rewrite MaxBytesReader_within, Hb, He by done.
  assert (Json.numbers_ok (json_of_request req) = true) as Hok.
  { unfold json_of_request, omit_empty. destruct (req_Replicas req); simpl;
      rewrite ?number_ok_Itoa; by case_bool. }
  rewrite Json.read_value_Encode by done.
  assert (unmarshal_request (Json.clean (json_of_request req)) = (req, true)) as ->; [|done].
  destruct req as [name replicas message]. simpl in *.
  unfold json_of_request, omit_empty. simpl.
  destruct (String.eqb_spec message "") as [->|Hne], replicas as [z|]; simpl;
    rewrite ?(Json.sanitize_valid name), ?(Json.sanitize_valid message) by done; simpl;
    unfold decode_member; simpl; rewrite ?parse_int32_Itoa by auto; done.
Qed.

(** ** Witnesses *)

Definition padded_create : Request :=
  Samples.request MethodPost managedServicesRoute (Samples.bearer Samples.token)
    (Samples.create_body +:+ srepeat 4096 SP).

Lemma oversized_body_rejected_witness :
  maxRequestBodyBytes < String.length (Body padded_create) /\
  ((decodeCreateRequest padded_create).2 = StatusRequestEntityTooLarge \/
   (decodeCreateRequest padded_create).2 = StatusBadRequest).
Proof.
  assert (maxRequestBodyBytes < String.length (Body padded_create)) as Hl.
  { unfold padded_create, maxRequestBodyBytes. cbn [Samples.request Body].
    rewrite strlen_append. replace (String.length (srepeat 4096 SP)) with 4096 by (by vm_compute).
    replace (String.length Samples.create_body) with 28 by (by vm_compute). lia. }
  exact (conj Hl (match oversized_body_rejected padded_create Hl with
    | or_introl Hc => or_introl Hc
    | or_intror (conj Hc _) => or_intror Hc
    end)).
Defined.

(** Two letters with an accent and a line separator survive the trip. *)
Definition unicode_request : createManagedServiceRequest :=
  {| req_Name := "demo"; req_Replicas := Some 3%Z;
     req_Message := Json.encode_rune 233 +:+ "<&>" +:+ Json.encode_rune 8232 |}.

Lemma decode_encode_witness :
  let r := Samples.request MethodPost managedServicesRoute ∅
    (Json.Encode (json_of_request unicode_request)) in
  decodeCreateRequest r = (unicode_request, 0%Z).
Proof.
  apply decode_encode; [reflexivity|reflexivity| |vm_compute; reflexivity..|].
  - apply Nat.leb_le. vm_compute. reflexivity.
  - intros z [= <-]. split; vm_compute; discriminate.
Defined.
