(* ===== verification/ApiRoutes.v ===== *)
(** * Routes and responses

    Theorems about the routing of [ApiHandler], its telemetry labels, and the
    representations it returns: valid requests reach the operation their path
    names and no request is left without an answer of the API's own, lists are
    sorted and do not depend on the order of the store. *)

From S2P Require Import Prelude GoStrings Sha256 Json Http ApiTypes Kube Store ApiHandler ApiSpec Samples.
Import V1alpha1 Http ApiHandler.

#[local] Opaque Sha256.Sum256.

Lemma rw_body_WriteHeader w status : rw_body (WriteHeader status w) = rw_body w.
Proof. unfold WriteHeader. by case_match. Qed.

(** ** Shared lemmas: labels *)

Lemma dns_label_chars n : dns1123_label n = true -> sforall dns1123_char n = true.
Proof.
  unfold dns1123_label. destruct n as [|c n]; [done|].
  destruct (last_char (String c n)); [|done]. intros Hn.
  apply andb_true_iff in Hn as [Hn _]. apply andb_true_iff in Hn as [Hn _].
  by apply andb_true_iff in Hn as [Hn _].
Qed.

Lemma dns_char_not c d :
  dns1123_char c = true -> dns1123_char d = false -> Ascii.eqb d c = false.
Proof. intros Hc Hd. destruct (Ascii.eqb_spec d c) as [->|]; [congruence|done]. Qed.

Lemma dns_label_without n d :
  dns1123_label n = true -> dns1123_char d = false -> contains_byte n d = false.
Proof.
  intros Hn%dns_label_chars Hd. induction n as [|c n IH]; [done|]. simpl in Hn. bools.
  by rewrite contains_byte_cons, IH, dns_char_not.
Qed.

Lemma dns_label_last n :
  dns1123_label n = true -> exists c, last_char n = Some c /\ dns1123_char c = true.
Proof.
  unfold dns1123_label. destruct n as [|a n]; [done|].
  destruct (last_char (String a n)) as [c|]; [|done]. intros Hn.
  apply andb_true_iff in Hn as [Hn _]. apply andb_true_iff in Hn as [_ Hc].
  exists c. split; [done|]. unfold dns1123_char. by rewrite Hc.
Qed.

Lemma last_char_append s t : t <> "" -> last_char (s +:+ t) = last_char t.
Proof.
  intros Ht. induction s as [|c s IH]; [done|]. rewrite append_cons.
  destruct (s +:+ t) eqn:Hst; [|simpl in *; by rewrite IH].
  by destruct s; [destruct t|].
Qed.

(** ** Shared lemmas: paths without escapes *)

Lemma has_suffix_byte s c : last_char s <> Some c -> has_suffix s (String c "") = false.
Proof.
  intros Hl. unfold has_suffix.
  destruct (Nat.leb_spec (String.length (String c "")) (String.length s)) as [Hlen|]; [|done].
  simpl in *. destruct (String.eqb_spec (sdrop (String.length s - 1) s) (String c "")) as [Hd|]; [|done].
  exfalso. apply Hl. rewrite <- (sdrop_stake (String.length s - 1) s), Hd. by rewrite last_char_append.
Qed.

Lemma split_slash_plain cur n : contains_byte n "/" = false -> split_slash cur n = [cur +:+ n].
Proof.
  revert cur. induction n as [|c n IH]; intros cur; simpl; [by rewrite append_nil_r|].
  rewrite contains_byte_cons. intros Hn. bools.
  destruct (Ascii.eqb_spec c "/") as [->|]; [done|]. by rewrite IH, append_assoc.
Qed.

Lemma segments_from_plain cur n :
  contains_byte n "/" = false -> segments_from cur n = [path_unescape (cur +:+ n)].
Proof.
  revert cur. induction n as [|c n IH]; intros cur; simpl; [by rewrite append_nil_r|].
  rewrite contains_byte_cons. intros Hn. bools.
  destruct (Ascii.eqb_spec c "/") as [->|]; [done|]. by rewrite IH, append_assoc.
Qed.

Lemma segments_from_slash cur n :
  contains_byte n "/" = false -> segments_from cur (n +:+ "/") = [path_unescape (cur +:+ n); "/"].
Proof.
  revert cur. induction n as [|c n IH]; intros cur; [by rewrite append_nil_r|].
  rewrite append_cons, contains_byte_cons. intros Hn. bools. simpl.
  destruct (Ascii.eqb_spec c "/") as [->|]; [done|]. by rewrite IH, append_assoc.
Qed.

Lemma path_unescape_plain n : contains_byte n "%" = false -> path_unescape n = n.
Proof.
  intros Hn. unfold path_unescape. assert (url_unescape n = Some n) as ->; [|done].
  induction n as [|c n IH]; [done|]. rewrite contains_byte_cons in Hn. bools. simpl.
  destruct (Ascii.eqb_spec c "%") as [->|]; [done|]. by rewrite IH.
Qed.

(** ** Shared lemmas: the router *)

Lemma match_path_nil {H : Type} segs : match_path ([] : list (@entry H)) segs = None.
Proof.
  induction segs as [|s segs IH]; [done|]. cbn [match_path].
  change (descend s []) with (@nil (@entry H)). by rewrite IH.
Qed.

Section Routing.
Context {W E : Type} `{APIErrors E} `{ManagedServiceStore W E} `{NameValidation}.
Context (handler : @apiHandler W E).

(** No route of the API names a method, so the method plays no part. *)
Lemma router_match method path :
  mux_match (router handler) method path =
  match_path (with_method "" (router handler)) (path_segments path).
Proof.
  unfold mux_match.
  assert (forall m, m <> "" -> with_method m (router handler) = []) as Hnone.
  { intros m Hm. unfold with_method. simpl. destruct m; [done|reflexivity]. }
  destruct (String.eqb_spec method "") as [->|Hm]; [done|].
  rewrite Hnone, match_path_nil by done.
  by destruct (String.eqb method MethodHead); [rewrite Hnone, match_path_nil|].
Qed.

(** The root pattern catches whatever has a segment. *)
Lemma router_total method path :
  path_segments path <> [] -> exists p h, mux_match (router handler) method path = Some (p, h).
Proof.
  intros Hne. rewrite router_match. destruct (path_segments path) as [|seg segs]; [done|]. cbn [match_path].
  destruct (match_path (descend seg _) segs) as [[p h]|]; [by exists p, h|]. do 2 eexists. reflexivity.
Qed.

Definition item_path (name : string) : string := managedServicesRoute +:+ String "/" name.

Lemma item_path_clean n : dns1123_label n = true -> clean_path (item_path n) = item_path n.
Proof.
  intros Hn.
  assert (contains_byte n "/" = false) as Hslash by (by apply dns_label_without).
  assert (has_suffix (item_path n) "/" = false) as Hsuf.
  { destruct (dns_label_last n Hn) as (c & Hc & Hd). apply has_suffix_byte. unfold item_path.
    change (String "/" n) with ("/" +:+ n). rewrite <- append_assoc, last_char_append, Hc by (by intros ->).
    by intros [= ->]. }
  change (clean_path (item_path n)) with
    (let np := path_clean (item_path n) in
     if has_suffix (item_path n) "/" && negb (String.eqb np "/") then np +:+ "/" else np).
  rewrite Hsuf. cbv zeta. rewrite andb_false_l. unfold path_clean, item_path.
  change (split_slash "" (managedServicesRoute +:+ String "/" n)) with
    ("" :: "api" :: "v1" :: "managed-services" :: split_slash "" n).
  rewrite split_slash_plain, append_nil_l by done.
  assert (n <> "" /\ n <> "." /\ n <> "..") as (H1' & H2' & H3')
    by (split_and!; intros ->; discriminate Hn).
  cbn [foldl]. unfold clean_component at 1. apply String.eqb_neq in H1', H2', H3'.
  rewrite H1', H2', H3'. cbn. by rewrite append_nil_r.
Qed.

Lemma item_path_segments n :
  dns1123_label n = true -> path_segments (item_path n) = ["api"; "v1"; "managed-services"; n].
Proof.
  intros Hn. change (path_segments (item_path n)) with
    ("api" :: "v1" :: "managed-services" :: path_segments (String "/" n)).
  assert (path_segments (String "/" n) = segments_from "" n) as -> by (by destruct n).
  by rewrite segments_from_plain, append_nil_l, path_unescape_plain by (by apply dns_label_without).
Qed.

Lemma item_path_segments_slash n :
  dns1123_label n = true ->
  path_segments (item_path n +:+ "/") = ["api"; "v1"; "managed-services"; n; "/"].
Proof.
  intros Hn. change (path_segments (item_path n +:+ "/")) with
    ("api" :: "v1" :: "managed-services" :: path_segments (String "/" (n +:+ "/"))).
  assert (path_segments (String "/" (n +:+ "/")) = segments_from "" (n +:+ "/")) as ->
    by (by destruct n).
  by rewrite segments_from_slash, append_nil_l, path_unescape_plain by (by apply dns_label_without).
Qed.

(** A request for an item is handed to [serveManagedService]. *)
Lemma item_routed r n :
  dns1123_label n = true -> URL_EscapedPath r = item_path n ->
  find_handler (router handler) r = Handle serveManagedService.
Proof.
  intros Hn Hp.
  assert (forall segs, segs = ["api"; "v1"; "managed-services"; n] \/
      segs = ["api"; "v1"; "managed-services"; n; "/"] ->
    match_path (with_method "" (router handler)) segs =
    Some (handle_func (managedServicesRoute +:+ "/") serveManagedService)) as Hmatch.
  { by intros segs [->| ->]. }
  assert (slash_redirect (router handler) (Method r) (item_path n) r = None) as Hredirect.
  { unfold slash_redirect. rewrite !router_match, item_path_segments, item_path_segments_slash by done.
    rewrite !Hmatch by auto. unfold exact_match. cbn [fst snd handle_func].
    change (ends_multi (parse_pattern (managedServicesRoute +:+ "/"))) with true. cbn [negb].
    destruct (has_suffix (item_path n +:+ "/") "/"); cbn [negb]; [|by rewrite andb_false_r].
    change (length (p_segments (parse_pattern (managedServicesRoute +:+ "/")))) with 4.
    rewrite count_byte_append. change (count_byte (item_path n) "/") with (4 + count_byte n "/").
    rewrite count_byte_none by (by apply dns_label_without). simpl. by rewrite andb_false_r. }
  unfold find_handler. rewrite Hp, item_path_clean, Hredirect, String.eqb_refl by done. cbn [negb].
  rewrite router_match, item_path_segments, Hmatch by auto. simpl. by case_bool.
Qed.
End Routing.

(** ** The life of a service through the API *)

Section Lifecycle.
Context {W E : Type} `{StoreSpec W E} `{NameValidation}.
Context (redirect : string -> Request -> ResponseWriter -> ResponseWriter).
Context (token : string).

(** An authenticated request without a query for the item [n]. *)
Definition item_request (method n : string) (r : Request) : Prop :=
  Method r = method /\ URL_Path r = item_path n /\ URL_EscapedPath r = item_path n /\
  URL_RawQuery r = "" /\ authenticated (Sha256.Sum256 token) r = true.

Lemma item_request_served method n r w s :
  dns1123_label n = true -> item_request method n r ->
  api_server redirect token r w s =
  if String.eqb method MethodGet then getManagedService n r w s
  else if String.eqb method MethodDelete then deleteManagedService n r w s
  else (writeError StatusMethodNotAllowed methodNotAllowedMessage
          (set_header "Allow" (MethodGet +:+ ", " +:+ MethodDelete) w), s).
Proof.
  intros Hn (<- & Hp & He & Hq & Ha). unfold api_server, ServeHTTP.
  cbn [expectedTokenHash NewHandler]. rewrite Ha, andb_false_r. unfold mux_serve.
  rewrite Hp at 1. change (String.eqb (item_path n) "*") with false. cbv iota.
  rewrite (item_routed _ r n Hn He). unfold serveManagedService, rejectQueryParameters.
  rewrite Hq. cbn [String.eqb].
  assert (trim_prefix (URL_Path r) (managedServicesRoute +:+ "/") = n) as ->.
  { rewrite Hp. unfold item_path. change (String "/" n) with ("/" +:+ n).
    rewrite <- append_assoc. apply trim_prefix_append. }
  by rewrite validManagedServiceName_spec, Hn.
Qed.

Lemma get_served n r w s :
  store_available s -> dns1123_label n = true -> item_request MethodGet n r ->
  (api_server redirect token r w s).1 =
    match services s !! n with
    | Some o => writeJSON StatusOK (json_of_response (newManagedServiceResponse o)) w
    | None => writeManagedServiceNotFound w
    end /\
  services (api_server redirect token r w s).2 = services s.
Proof.
  intros Hs Hn Hr. rewrite (item_request_served MethodGet n) by done.
  change (String.eqb MethodGet MethodGet) with true. cbv iota. unfold getManagedService.
  pose proof (spec_Get_available n s Hs) as Hav.
  destruct (store_Get n s) as [[o|e] s'] eqn:Hg; simpl in Hav.
  - split; [|by apply spec_Get_frame in Hg]. by rewrite (spec_Get_ok _ _ _ _ Hg).
  - rewrite Hav. split; [|by apply spec_Get_frame in Hg].
    by rewrite (spec_Get_not_found _ _ _ _ Hg).
Qed.

(** A GET of an item, from the escaped path through authentication and
    routing to the store and back: with a valid name, the token and no query it
    returns the stored service's representation with 200, or 404 when no such
    service is stored, and leaves the services alone. *)
Theorem get_outcome n r w s :
  store_available s -> dns1123_label n = true -> item_request MethodGet n r ->
  (api_server redirect token r w s).1 =
    match services s !! n with
    | Some o => writeJSON StatusOK (json_of_response (newManagedServiceResponse o)) w
    | None => writeManagedServiceNotFound w
    end /\
  services (api_server redirect token r w s).2 = services s.
Proof. apply get_served. Qed.

(** A DELETE of an item: 204 without a body when the service exists, which
    is then gone or waiting for its finalizers, and 404 otherwise; no other
    service changes. *)
Theorem delete_outcome n r w s :
  store_available s -> dns1123_label n = true -> item_request MethodDelete n r ->
  rw_sent w = None ->
  let '(w', s') := api_server redirect token r w s in
  delete n (services s') = delete n (services s) /\
  match services s !! n with
  | Some o =>
      response_status w' = StatusNoContent /\ rw_body w' = rw_body w /\
      (services s' !! n = None \/ exists o', deleting o o' /\ services s' !! n = Some o')
  | None => w' = writeManagedServiceNotFound w /\ services s' = services s
  end.
Proof.
  intros Hs Hn Hr Hw. rewrite (item_request_served MethodDelete n) by done.
  change (String.eqb MethodDelete MethodGet) with false.
  change (String.eqb MethodDelete MethodDelete) with true. cbv iota. unfold deleteManagedService.
  pose proof (spec_Delete_available n s Hs) as Hav.
  destruct (store_Delete n s) as [[e|] s'] eqn:Hd; simpl in Hav.
  - rewrite Hav. apply spec_Delete_err in Hd as [[-> Hnone]|[? _]]; [|congruence].
    split; [done|]. by rewrite Hnone.
  - apply spec_Delete_ok in Hd as (o & -> & Hs').
    rewrite response_status_WriteHeader by done.
    rewrite rw_body_WriteHeader.
    destruct Hs' as [->|(o' & Hdel & ->)].
    + rewrite lookup_delete_eq, delete_delete_eq. auto 6.
    + rewrite lookup_insert_eq, delete_insert_eq. eauto 8.
Qed.

Lemma writeJSON_body status j w : rw_body (writeJSON status j w) = rw_body w +:+ Json.Encode j.
Proof. unfold writeJSON, Write. cbn [rw_body]. by rewrite !rw_body_WriteHeader. Qed.

(** What a 201 says about the stores. *)
Lemma created_stored r w s w' s' :
  (forall p r w, rw_sent w = None -> (300 <= response_status (redirect p r w) < 400)%Z) ->
  well_formed r -> rw_sent w = None -> api_server redirect token r w s = (w', s') ->
  response_status w' = StatusCreated ->
  let req := (decodeCreateRequest r).1 in
  exists o, services s' !! req_Name req = Some o /\ dns1123_label (req_Name req) = true /\
    Spec o = requested_spec (default defaultReplicas (req_Replicas req)) (req_Message req) /\
    admit_spec (Spec o) = Some (Spec o) /\
    w' = writeJSON StatusCreated (json_of_response (newManagedServiceResponse o)) w.
Proof.
  intros Hredirect Hwf Hw Hs H201.
  apply (request_effect_steps redirect Hredirect) in Hs; [|done..].
  inversion Hs as [|req o w1 Hm Hp Ha Hd Hnone Hl Hspec Hadm Hst Hw1 Hs1|n m' w1 Hm Hp Ha Hd Hw1]; subst;
    [congruence| |by destruct Hw1 as [Hw1| ->]; [rewrite H201 in Hw1|rewrite writeInternalError_status in H201]].
  destruct Hw1 as [-> | ->]; [|by rewrite writeInternalError_status in H201].
  rewrite Hd. exists o. by rewrite lookup_insert_eq.
Qed.

(** C19: what was created can be read.  If a POST answered 201, a GET of the item
    it named on the resulting store answers 200 with the very bytes the POST
    answered with. *)
Theorem created_is_readable rc rg s w1 s1 :
  (forall p r w, rw_sent w = None -> (300 <= response_status (redirect p r w) < 400)%Z) ->
  well_formed rc -> api_server redirect token rc new_writer s = (w1, s1) ->
  response_status w1 = StatusCreated -> store_available s1 ->
  item_request MethodGet (req_Name (decodeCreateRequest rc).1) rg ->
  response_status (api_server redirect token rg new_writer s1).1 = StatusOK /\
  rw_body (api_server redirect token rg new_writer s1).1 = rw_body w1.
Proof.
  intros Hredirect Hwf Hs H201 Hav Hg.
  destruct (created_stored _ new_writer _ _ _ Hredirect Hwf eq_refl Hs H201) as (o & Ho & Hl & _ & _ & ->).
  destruct (get_served _ _ new_writer _ Hav Hl Hg) as [-> _].
  by rewrite Ho, writeJSON_status, !writeJSON_body.
Qed.
End Lifecycle.

(** ** Representations *)

(** The conditions of a response are those of the status, sorted by type,
    and do not depend on their order in the status or on the sorting algorithm:
    condition types are unique (the list is a map keyed by type). *)
Theorem conditions_canonical o conditions :
  NoDup (cond_Type <$> Conditions (Status o)) ->
  conditions ≡ₚ map newManagedServiceCondition (Conditions (Status o)) ->
  Sorted (key_le go_string_le rc_Type) conditions ->
  resp_Conditions (newManagedServiceResponse o) = conditions.
Proof.
  intros Hnd Hp Hs. symmetry. apply sort_by_unique; [apply _..| |done|done].
  by rewrite <- list_fmap_compose.
Qed.

Section Lists.
Context {W E : Type} `{StoreSpec W E}.

(** The answer to a list request is determined by the stored services: the
    sorted representations of exactly those services, each once, in whatever
    order the store returned them. *)
Theorem list_canonical r w s items :
  store_available s ->
  items ≡ₚ map newManagedServiceResponse (map_to_list (services s)).*2 ->
  Sorted (key_le go_string_le resp_Name) items ->
  (listManagedServices r w s).1 = writeJSON StatusOK (json_of_list {| list_Items := items |}) w /\
  services (listManagedServices r w s).2 = services s.
Proof.
  intros Hav Hp Hs. unfold listManagedServices. pose proof (spec_List_available s Hav) as Hok.
  destruct (store_List s) as [[l|e] s'] eqn:Hl; [|done].
  split; [|by apply spec_List_frame in Hl]. apply spec_List_ok in Hl as Hperm.
  simpl. do 3 f_equal. symmetry. apply sort_by_unique; [apply _..| | |done].
  - rewrite Hperm, <- list_fmap_compose.
    assert ((resp_Name ∘ newManagedServiceResponse) <$> (map_to_list (services s)).*2 =
      (map_to_list (services s)).*1) as ->; [|apply NoDup_fst_map_to_list].
    rewrite <- list_fmap_compose. apply list_fmap_ext. intros i [n o] Hi. simpl.
    eapply services_name. by apply elem_of_map_to_list, list_elem_of_lookup_2 with i.
  - by rewrite Hp, Hperm.
Qed.
End Lists.

(** ** Telemetry labels *)

Definition route_labels : list string :=
  [healthRoute; readinessRoute; apiV1Route; managedServicesRoute; managedServiceItemRoute; unknownRoute].

Lemma NormalizeRoute_label r : NormalizeRoute r ∈ route_labels.
Proof.
  unfold NormalizeRoute. destruct (_ || _ || _ || _) eqn:Hfixed; [|case_bool; by repeat constructor].
  unfold route_labels. rewrite !elem_of_cons. bools; auto.
Qed.

(** The telemetry label of a request is one of six, whatever the path: the
    path itself for the four fixed routes, the item template exactly for the
    paths below the collection with one non-empty segment, [unknown] for all
    others.  So request paths cannot blow up the number of metric series, and no
    service name leaks into a label. *)
Theorem NormalizeRoute_bounded r :
  NormalizeRoute r ∈ route_labels /\
  (URL_Path r ∈ [healthRoute; readinessRoute; apiV1Route; managedServicesRoute] ->
   NormalizeRoute r = URL_Path r) /\
  (NormalizeRoute r = managedServiceItemRoute <->
   exists name, URL_Path r = item_path name /\ name <> "" /\ contains_byte name "/" = false).
Proof.
  unfold NormalizeRoute.
  destruct (_ || _ || _ || _) eqn:Hfixed.
  - assert (URL_Path r ∈ [healthRoute; readinessRoute; apiV1Route; managedServicesRoute]) as Hin.
    { rewrite !elem_of_cons. bools; auto. }
    assert (forall p, p ∈ [healthRoute; readinessRoute; apiV1Route; managedServicesRoute] ->
      p ∈ route_labels /\ p <> managedServiceItemRoute /\ forall name, p <> item_path name) as Hfix.
    { intros p. rewrite !elem_of_cons, elem_of_nil.
      by intros [->|[->|[->|[->|[]]]]]; (split; [repeat constructor|]). }
    destruct (Hfix _ Hin) as (Hl & Hne & Hni).
    split_and!; [done..|]. split; [done|]. intros (name & Hp & _). by destruct (Hni name).
  - bools. set (prefix := managedServicesRoute +:+ "/").
    assert (forall name, prefix +:+ name = item_path name) as Hitem.
    { intros name. unfold prefix, item_path. by rewrite append_assoc. }
    split_and!.
    + case_bool; by repeat constructor.
    + rewrite !elem_of_cons, elem_of_nil. intros [?|[?|[?|[?|[]]]]]; done.
    + destruct (_ && _) eqn:Hb; [|split; [done|]].
      * bools. split; [intros _|done].
        destruct (trim_prefix_changed (URL_Path r) prefix) as (name & Hp & Ht); [done|].
        rewrite Ht in *. exists name. by rewrite Hp, Hitem.
      * intros (name & Hp & Hne & Hslash). exfalso. rewrite Hp, <- Hitem in Hb.
        rewrite trim_prefix_append, Hslash in Hb.
        bools; [|done|done].
        match goal with Hl : name = _ |- _ => apply (f_equal String.length) in Hl;
          rewrite strlen_append in Hl; simpl in Hl; lia end.
Qed.

(** ** Every request gets an answer of the API's own *)

Definition uncached_json (w : ResponseWriter) : Prop :=
  header_values (response_header w) "Cache-Control" = ["no-store"] /\
  header_values (response_header w) "Content-Type" = ["application/json"].

Lemma writeJSON_uncached status j w : rw_sent w = None -> uncached_json (writeJSON status j w).
Proof.
  intros Hw. unfold uncached_json, response_header. rewrite writeJSON_sent by done.
  unfold json_headers. split; [|rewrite header_values_set_ne by (by vm_compute)];
    apply header_values_set_eq.
Qed.

Section Answers.
Context {W E : Type} `{APIErrors E} `{ManagedServiceStore W E} `{NameValidation}.
Context (redirect : string -> Request -> ResponseWriter -> ResponseWriter).
Context (handler : @apiHandler W E).

Lemma getOnly_uncached (next : @Handler W) r w s :
  rw_sent w = None -> uncached_json (next r w s).1 -> uncached_json (getOnly next r w s).1.
Proof. intros Hw Hn. unfold getOnly. case_bool; [by apply writeJSON_uncached|done]. Qed.

Lemma route_uncached path h r w s :
  route_of handler path h -> rw_sent w = None -> uncached_json (h r w s).1.
Proof.
  intros Hr Hw.
  destruct Hr; try apply getOnly_uncached; try done;
    unfold serveReadiness, serveManagedServiceCollection, serveManagedService,
      listManagedServices, createManagedService, getManagedService, deleteManagedService,
      rejectQueryParameters;
    repeat case_match; simplify_eq/=; try by apply writeJSON_uncached.
  unfold uncached_json, response_header, WriteHeader. simpl. rewrite Hw. simpl.
  split; [|rewrite header_values_set_ne by (by vm_compute)]; apply header_values_set_eq.
Qed.

(** No request with a rooted path falls through to net/http's own plain-text
    404 or 405: it is answered 401, redirected, or handled, and unless it is
    redirected the response is JSON marked not to be stored in any cache. *)
Theorem answers_are_uncached_json r w s :
  well_formed r -> has_prefix (URL_EscapedPath r) "/" = true -> rw_sent w = None ->
  uncached_json (ServeHTTP redirect handler r w s).1 \/
  exists p, find_handler (router handler) r = Redirect p.
Proof.
  intros Hwf Hroot Hw. unfold ServeHTTP. destruct (_ && _); [left; by apply writeJSON_uncached|].
  assert (URL_Path r <> "*") as Hstar.
  { destruct Hwf as [Hu _]. apply has_prefix_spec in Hroot as [e He]. rewrite He in Hu.
    rewrite append_cons, append_nil_l in Hu. simpl in Hu.
    apply fmap_Some in Hu as (q & _ & ->). done. }
  unfold mux_serve. destruct (String.eqb_spec (URL_Path r) "*"); [done|].
  assert ((exists h, find_handler (router handler) r = Handle h) \/
    exists p, find_handler (router handler) r = Redirect p) as [[h Hh]|Hp]; [| |by right].
  - unfold find_handler.
    destruct (router_total handler (Method r) (URL_EscapedPath r)) as (p & h & Hm).
    { apply has_prefix_spec in Hroot as [e ->]. apply path_segments_nonempty. }
    case_bool.
    + destruct (slash_redirect _ _ _ _); [by right; eexists|]. rewrite Hm. left. by exists h.
    + destruct (slash_redirect _ _ _ _); [by right; eexists|].
      destruct (String.eqb_spec (clean_path (URL_EscapedPath r)) (URL_EscapedPath r)) as [->|];
        [|by right; eexists]. simpl. rewrite Hm. left. by exists h.
  - left. rewrite Hh. by eapply route_uncached, Hw; apply routed_handler.
Qed.
End Answers.

(** ** Witnesses *)

Lemma authenticated_demo r :
  Header r = Samples.bearer Samples.token -> authenticated (Sha256.Sum256 Samples.token) r = true.
Proof. intros Hr. unfold authenticated. rewrite Hr. vm_compute. reflexivity. Qed.

Lemma get_outcome_witness :
  services Samples.with_demo !! "demo" <> None /\
  (api_server Samples.redirect Samples.token Samples.get_demo new_writer Samples.with_demo).1 =
    match services Samples.with_demo !! "demo" with
    | Some o => writeJSON StatusOK (json_of_response (newManagedServiceResponse o)) new_writer
    | None => writeManagedServiceNotFound new_writer
    end /\
  services (api_server Samples.redirect Samples.token Samples.get_demo new_writer
    Samples.with_demo).2 = services Samples.with_demo.
Proof.
  split; [vm_compute; discriminate|].
  apply (get_outcome Samples.redirect Samples.token "demo" Samples.get_demo new_writer
    Samples.with_demo); [reflexivity..|].
  split_and!; [reflexivity..|by apply authenticated_demo].
Defined.

Lemma delete_outcome_witness :
  let '(w', s') := api_server Samples.redirect Samples.token Samples.delete_demo new_writer
    Samples.with_demo in
  delete "demo" (services s') = delete "demo" (services Samples.with_demo) /\
  match services Samples.with_demo !! "demo" with
  | Some o =>
      response_status w' = StatusNoContent /\ rw_body w' = rw_body new_writer /\
      (services s' !! "demo" = None \/
       exists o', deleting o o' /\ services s' !! "demo" = Some o')
  | None => w' = writeManagedServiceNotFound new_writer /\ services s' = services Samples.with_demo
  end.
Proof.
  apply (delete_outcome Samples.redirect Samples.token "demo" Samples.delete_demo new_writer
    Samples.with_demo); [reflexivity..| |reflexivity].
  split_and!; [reflexivity..|by apply authenticated_demo].
Defined.

Lemma created_is_readable_witness :
  let c := api_server Samples.redirect Samples.token Samples.create_demo new_writer Memory.empty in
  let g := api_server Samples.redirect Samples.token Samples.get_demo new_writer c.2 in
  response_status g.1 = StatusOK /\ rw_body g.1 = rw_body c.1.
Proof.
  cbv zeta.
  apply (created_is_readable Samples.redirect Samples.token Samples.create_demo Samples.get_demo
    Memory.empty).
  - exact Samples.redirect_3xx.
  - split; [reflexivity|]. right; right. reflexivity.
  - apply surjective_pairing.
  - vm_compute. reflexivity.
  - vm_compute. reflexivity.
  - split_and!; [reflexivity..|by apply authenticated_demo].
Defined.

(** A status whose conditions are stored out of order. *)
Definition two_conditions : ManagedService :=
  let condition t := {| cond_Type := t; cond_Status := ConditionTrue; cond_ObservedGeneration := 1;
    cond_LastTransitionTime := 0; cond_Reason := ""; cond_Message := "" |} in
  {| ms_meta := zero_meta; Spec := requested_spec 1 "";
     Status := {| ObservedGeneration := 1; ReadyReplicas := 1; Endpoint := "";
                  Conditions := [condition "Progressing"; condition "Available"] |} |}.

Lemma conditions_canonical_witness :
  rc_Type <$> resp_Conditions (newManagedServiceResponse two_conditions) =
  ["Available"; "Progressing"].
Proof.
  rewrite (conditions_canonical two_conditions
    (map newManagedServiceCondition (reverse (Conditions (Status two_conditions))))).
  - reflexivity.
  - apply (bool_decide_unpack _). vm_compute. exact I.
  - apply fmap_Permutation, reverse_Permutation.
  - repeat constructor.
Defined.

Lemma list_canonical_witness :
  let items := map newManagedServiceResponse (map_to_list (services Samples.with_demo)).*2 in
  (listManagedServices Samples.get_demo new_writer Samples.with_demo).1 =
    writeJSON StatusOK (json_of_list {| list_Items := items |}) new_writer /\
  services (listManagedServices Samples.get_demo new_writer Samples.with_demo).2 =
    services Samples.with_demo.
Proof.
  cbv zeta. apply list_canonical; [reflexivity|reflexivity|vm_compute; repeat constructor].
Defined.

Lemma answers_are_uncached_json_witness :
  uncached_json (ServeHTTP Samples.redirect (NewHandler Samples.token (Some store_Ready))
    Samples.sneaky_create new_writer Memory.empty).1 \/
  exists p, find_handler (router (NewHandler Samples.token (Some store_Ready)))
    Samples.sneaky_create = Redirect p.
Proof.
  apply answers_are_uncached_json; [|reflexivity..].
  split; [reflexivity|]. right; right. reflexivity.
Defined.
