(* ===== verification/ApiConcurrent.v ===== *)
(** * Concurrent requests to the API

    [http.Server] runs every request in a goroutine of its own.  The handler keeps no
    state between requests and every request makes at most one call on the store
    ([one_store_call]), so that the goroutines interact only through the order of
    these calls.  [concurrent] is the interleaving of the goroutines: a request makes
    its call, and later, perhaps after the calls of others, writes its response. *)

From S2P Require Import Prelude GoStrings Sha256 Json Http ApiTypes Kube Store ApiHandler ApiSpec Samples.
Import V1alpha1 Http ApiHandler.

#[local] Opaque Sha256.Sum256.

Module ApiConcurrent.

(** ** Requests as one call on the store *)
Section Calls.
Context {W E : Type} `{APIErrors E} `{ManagedServiceStore W E} `{NameValidation}.
Context (redirect : string -> Request -> ResponseWriter -> ResponseWriter).

Inductive store_call : Type :=
| NoCall
| CallCreate (name : string) (replicas : Z) (message : string)
| CallList
| CallGet (name : string)
| CallDelete (name : string)
| CallReady.

Inductive call_result : Type :=
| NoResult
| ServiceResult (r : result E ManagedService)
| ListResult (r : result E (list ManagedService))
| ErrorResult (err : option E).

Definition run_call (c : store_call) (s : W) : call_result * W :=
  match c with
  | NoCall => (NoResult, s)
  | CallCreate n r m => let '(a, s') := store_Create n r m s in (ServiceResult a, s')
  | CallList => let '(a, s') := store_List s in (ListResult a, s')
  | CallGet n => let '(a, s') := store_Get n s in (ServiceResult a, s')
  | CallDelete n => let '(a, s') := store_Delete n s in (ErrorResult a, s')
  | CallReady => let '(a, s') := store_Ready s in (ErrorResult a, s')
  end.

(** The response from the result of the call. *)
Definition response : Type := call_result -> ResponseWriter -> ResponseWriter.

Definition decomposes (f : ResponseWriter -> W -> ResponseWriter * W) (c : store_call) (k : response) : Prop :=
  forall w s, f w s = (k (run_call c s).1 w, (run_call c s).2).

Definition atomic (f : ResponseWriter -> W -> ResponseWriter * W) : Prop := exists c k, decomposes f c k.

Lemma atomic_local (g : ResponseWriter -> ResponseWriter) : atomic (fun w s => (g w, s)).
Proof. exists NoCall, (fun _ => g). by intros w s. Qed.

Lemma create_atomic r : atomic (createManagedService r).
Proof.
  unfold createManagedService. destruct (decodeCreateRequest r) as [req code].
  destruct (negb (code =? 0)%Z); [apply atomic_local|]. cbv zeta.
  destruct (_ || _); [apply atomic_local|].
  exists (CallCreate (req_Name req)
    match req_Replicas req with Some n => n | None => defaultReplicas end (req_Message req)), (fun a w =>
    match a with
    | ServiceResult (Ok o) => writeJSON StatusCreated (json_of_response (newManagedServiceResponse o)) w
    | ServiceResult (Err err) =>
        if IsAlreadyExists err then writeError StatusConflict "managed service already exists" w
        else writeInternalError w
    | _ => w
    end).
  intros w s. cbn [run_call].
  destruct (store_Create _ _ _ s) as [[o|err] s']; [done|]. simpl. by destruct (IsAlreadyExists err).
Qed.

Lemma list_atomic r : atomic (listManagedServices r).
Proof.
  exists CallList, (fun a w =>
    match a with
    | ListResult (Ok os) => writeJSON StatusOK (json_of_list {| list_Items :=
        sort_by go_string_le resp_Name (map newManagedServiceResponse os) |}) w
    | _ => writeInternalError w
    end).
  intros w s. unfold listManagedServices. simpl. by destruct (store_List s) as [[os|err] s'].
Qed.

Lemma get_atomic n r : atomic (getManagedService n r).
Proof.
  exists (CallGet n), (fun a w =>
    match a with
    | ServiceResult (Ok o) => writeJSON StatusOK (json_of_response (newManagedServiceResponse o)) w
    | ServiceResult (Err err) =>
        if IsNotFound err then writeManagedServiceNotFound w else writeInternalError w
    | _ => w
    end).
  intros w s. unfold getManagedService. cbn [run_call].
  destruct (store_Get n s) as [[o|err] s']; [done|]. simpl. by destruct (IsNotFound err).
Qed.

Lemma delete_atomic n r : atomic (deleteManagedService n r).
Proof.
  exists (CallDelete n), (fun a w =>
    match a with
    | ErrorResult (Some err) =>
        if IsNotFound err then writeManagedServiceNotFound w else writeInternalError w
    | _ => WriteHeader StatusNoContent
        (set_header "Cache-Control" "no-store" (set_header "Content-Type" "application/json" w))
    end).
  intros w s. unfold deleteManagedService. cbn [run_call].
  destruct (store_Delete n s) as [[err|] s']; [|done]. simpl. by destruct (IsNotFound err).
Qed.

Lemma readiness_atomic token r : atomic (serveReadiness (NewHandler token (Some store_Ready)) r).
Proof.
  exists CallReady, (fun a w =>
    match a with
    | ErrorResult (Some _) =>
        writeJSON StatusServiceUnavailable (json_of_status {| status_Status := readinessStatusNotReady |}) w
    | _ => writeJSON StatusOK (json_of_status {| status_Status := readinessStatusReady |}) w
    end).
  intros w s. unfold serveReadiness. simpl. by destruct (store_Ready s) as [[err|] s'].
Qed.

Lemma getOnly_atomic (next : @Handler W) r : atomic (next r) -> atomic (getOnly next r).
Proof.
  intros Hn. unfold getOnly. destruct (negb (String.eqb (Method r) MethodGet)); [apply atomic_local|exact Hn].
Qed.

Lemma collection_atomic r : atomic (serveManagedServiceCollection r).
Proof.
  unfold serveManagedServiceCollection, rejectQueryParameters.
  destruct (String.eqb (URL_RawQuery r) ""); [|apply atomic_local].
  destruct (String.eqb (Method r) MethodGet); [apply list_atomic|].
  destruct (String.eqb (Method r) MethodPost); [apply create_atomic|apply atomic_local].
Qed.

Lemma item_atomic r : atomic (serveManagedService r).
Proof.
  unfold serveManagedService, rejectQueryParameters.
  destruct (String.eqb (URL_RawQuery r) ""); [|apply atomic_local]. cbv zeta.
  destruct (negb _); [apply atomic_local|].
  destruct (String.eqb (Method r) MethodGet); [apply get_atomic|].
  destruct (String.eqb (Method r) MethodDelete); [apply delete_atomic|apply atomic_local].
Qed.

Lemma router_atomic token p h r : (p, h) ∈ router (NewHandler token (Some store_Ready)) -> atomic (h r).
Proof.
  intros Hin. repeat (apply elem_of_cons in Hin as [[= -> ->]|Hin]); [..|by apply elem_of_nil in Hin].
  - apply getOnly_atomic, atomic_local.
  - apply getOnly_atomic, readiness_atomic.
  - apply getOnly_atomic, atomic_local.
  - apply collection_atomic.
  - apply item_atomic.
  - apply atomic_local.
Qed.

Lemma server_atomic token r : atomic (api_server redirect token r).
Proof.
  unfold api_server, ServeHTTP. destruct (_ && _); [apply atomic_local|].
  unfold mux_serve. destruct (String.eqb (URL_Path r) "*"); [apply atomic_local|].
  destruct (find_handler (router _) r) as [h|p|ms|] eqn:Hf; [|apply atomic_local..].
  apply find_handler_in in Hf as [p Hin]. by eapply router_atomic.
Qed.
(** ** Goroutines *)

Inductive goroutine : Type :=
| Started (r : Request)
| Answering (k : ResponseWriter -> ResponseWriter)  (* the call was made *)
| Answered (w : ResponseWriter).

Context (token : string).

Inductive concurrent : list goroutine * W -> list goroutine * W -> Prop :=
| concurrent_call ts s i r c k :
    ts !! i = Some (Started r) -> decomposes (api_server redirect token r) c k ->
    concurrent (ts, s) (<[i := Answering (k (run_call c s).1)]> ts, (run_call c s).2)
| concurrent_answer ts s i k :
    ts !! i = Some (Answering k) -> concurrent (ts, s) (<[i := Answered (k new_writer)]> ts, s).

(** What is known of the run so far: [served] are the requests that have made their
    calls, in the order of the calls, with the answers they get. *)
Definition goroutine_ok (served : list (nat * (Request * ResponseWriter))) (r : Request) (i : nat)
    (t : goroutine) : Prop :=
  match t with
  | Started r' => r' = r /\ i ∉ served.*1
  | Answering k => (i, (r, k new_writer)) ∈ served
  | Answered w => (i, (r, w)) ∈ served
  end.

Record run_so_far (rs : list Request) (s0 : W) (served : list (nat * (Request * ResponseWriter)))
    (ts : list goroutine) (s : W) : Prop := {
  so_far_length : length ts = length rs;
  so_far_served : serve_all redirect token (served.*2).*1 s0 = ((served.*2).*2, s);
  so_far_once : NoDup (served.*1);
  so_far_range : forall i, i ∈ served.*1 -> i < length rs;
  so_far_ok : forall i r t, rs !! i = Some r -> ts !! i = Some t -> goroutine_ok served r i t;
}.

Lemma serve_all_snoc rs r s :
  serve_all redirect token (rs ++ [r]) s =
  let '(ws, s1) := serve_all redirect token rs s in
  let '(w, s2) := api_server redirect token r new_writer s1 in (ws ++ [w], s2).
Proof.
  revert s. induction rs as [|r' rs IH]; intros s; simpl; [by destruct (api_server _ _ _ _ _)|].
  destruct (api_server redirect token r' new_writer s) as [w s1]. rewrite IH.
  destruct (serve_all redirect token rs s1) as [ws s2]. by destruct (api_server _ _ _ _ _).
Qed.

Lemma goroutine_ok_snoc served r i t e :
  i <> e.1 -> goroutine_ok served r i t -> goroutine_ok (served ++ [e]) r i t.
Proof.
  intros Hne. destruct t; simpl.
  - intros [-> Hin]. split; [done|]. rewrite fmap_app, elem_of_app. intros [?|Hc]; [done|].
    apply list_elem_of_singleton in Hc. done.
  - rewrite elem_of_app. by left.
  - rewrite elem_of_app. by left.
Qed.

Lemma concurrent_so_far rs s0 served ts s ts' s' :
  run_so_far rs s0 served ts s -> concurrent (ts, s) (ts', s') ->
  exists served', run_so_far rs s0 served' ts' s'.
Proof.
  intros [Hlen Hserved Honce Hrange Hok] Hstep.
  inversion Hstep as [? ? i r c k Hi Hc|? ? i k Hi]; subst.
  - destruct (lookup_lt_is_Some_2 rs i) as [r' Hr]; [rewrite <- Hlen; by eapply lookup_lt_Some|].
    pose proof (Hok _ _ _ Hr Hi) as [-> Hnew].
    exists (served ++ [(i, (r', k (run_call c s).1 new_writer))]). split.
    + by rewrite length_insert.
    + rewrite !fmap_app. cbn. rewrite serve_all_snoc, Hserved. by rewrite (Hc new_writer s).
    + rewrite fmap_app. apply NoDup_app. split_and!; [done| |apply NoDup_singleton].
      intros x Hx ->%list_elem_of_singleton. done.
    + intros j. rewrite fmap_app, elem_of_app. intros [?| ->%list_elem_of_singleton]; [auto|].
      by eapply lookup_lt_Some.
    + intros j rj t Hrj Ht. destruct (decide (j = i)) as [->|Hne].
      * rewrite list_lookup_insert_eq in Ht by (by eapply lookup_lt_Some). injection Ht as <-.
        simpl. replace rj with r' by congruence. apply elem_of_app. right. by left.
      * rewrite list_lookup_insert_ne in Ht by done. apply goroutine_ok_snoc; [done|by apply Hok].
  - exists served. split; [by rewrite length_insert|done..|].
    intros j rj t Hrj Ht. destruct (decide (j = i)) as [->|Hne].
    + rewrite list_lookup_insert_eq in Ht by (by eapply lookup_lt_Some). injection Ht as <-.
      exact (Hok _ _ _ Hrj Hi).
    + rewrite list_lookup_insert_ne in Ht by done. by apply Hok.
Qed.

Lemma concurrent_run_so_far rs s0 ts s :
  rtc concurrent (Started <$> rs, s0) (ts, s) -> exists served, run_so_far rs s0 served ts s.
Proof.
  intros Hrun. change ts with (ts, s).1. change s with (ts, s).2 at 2. revert Hrun. generalize (ts, s).
  apply (rtc_ind_r (fun p => exists served, run_so_far rs s0 served p.1 p.2)).
  - exists []. split; [cbn; by rewrite length_fmap|done|constructor| |].
    + by intros i ?%elem_of_nil.
    + intros i r t Hr Ht. cbn in Ht. rewrite list_lookup_fmap, Hr in Ht. injection Ht as <-.
      split; [done|]. apply not_elem_of_nil.
  - intros [ts1 s1] [ts2 s2] _ Hstep [served Hs]. by eapply concurrent_so_far.
Qed.
(** When all have answered, the requests in the order of their calls. *)
Lemma served_permutation rs s0 served ws s :
  run_so_far rs s0 served (Answered <$> ws) s -> served.*2 ≡ₚ zip rs ws.
Proof.
  intros [Hlen _ Honce Hrange Hok]. rewrite length_fmap in Hlen.
  assert (forall i r w, rs !! i = Some r -> ws !! i = Some w -> (i, (r, w)) ∈ served) as Hin.
  { intros i r w Hr Hw. by apply (Hok i r (Answered w)); [|rewrite list_lookup_fmap, Hw]. }
  assert (zip rs ws = (imap pair (zip rs ws)).*2) as ->.
  { apply list_eq. intros i. rewrite list_lookup_fmap, list_lookup_imap. by destruct (zip rs ws !! i). }
  apply fmap_Permutation, NoDup_Permutation.
  - by eapply NoDup_fmap_1.
  - apply NoDup_alt. intros i j x. rewrite !list_lookup_imap, !fmap_Some.
    intros (p & _ & ->) (q & _ & [= -> _]). done.
  - assert (forall i r w, (i, (r, w)) ∈ imap pair (zip rs ws) <-> rs !! i = Some r /\ ws !! i = Some w) as Himap.
    { intros i r w. rewrite list_elem_of_lookup. split.
      - intros [j Hj]. rewrite list_lookup_imap in Hj. apply fmap_Some in Hj as ([r' w'] & Hp & Heq).
        apply lookup_zip_with_Some in Hp as (? & ? & ? & ? & ?). by simplify_eq.
      - intros [Hr Hw]. exists i. rewrite list_lookup_imap. apply fmap_Some. exists (r, w). split; [|done].
        apply lookup_zip_with_Some. by exists r, w. }
    intros [i [r w]]. rewrite Himap. split; [|intros [? ?]; by apply Hin].
    intros Hs. assert (i < length rs) as Hi by (apply Hrange; by apply (list_elem_of_fmap_2 fst) in Hs).
    destruct (lookup_lt_is_Some_2 rs i Hi) as [r' Hr].
    destruct (lookup_lt_is_Some_2 ws i ltac:(lia)) as [w' Hw].
    assert ((i, (r, w)) = (i, (r', w'))) as [= -> ->]; [|done].
    eapply (key_inj_of_NoDup fst served); [exact Honce|exact Hs|by apply Hin|done].
Qed.

(** A run of two overlapping requests, in which the second makes its call first and
    the first answers first. *)
Lemma overlapping_run r1 r2 s0 :
  let second := api_server redirect token r2 new_writer s0 in
  let first := api_server redirect token r1 new_writer second.2 in
  rtc concurrent (Started <$> [r1; r2], s0) (Answered <$> [first.1; second.1], first.2).
Proof.
  destruct (server_atomic token r1) as (c1 & k1 & Hd1), (server_atomic token r2) as (c2 & k2 & Hd2).
  cbv zeta. rewrite (Hd2 new_writer s0). cbn [fst snd]. rewrite (Hd1 new_writer (run_call c2 s0).2). cbn [fst snd].
  eapply rtc_l; [by apply (concurrent_call _ _ 1 r2 c2 k2)|].
  eapply rtc_l; [by apply (concurrent_call _ _ 0 r1 c1 k1)|].
  eapply rtc_l; [by eapply (concurrent_answer _ _ 0)|].
  eapply rtc_l; [by eapply (concurrent_answer _ _ 1)|]. apply rtc_refl.
Qed.

(** No goroutine waits for another: every run can be completed. *)
Lemma insert_middle {A} (pre ts : list A) x y : <[length pre := y]> (pre ++ x :: ts) = pre ++ y :: ts.
Proof. by rewrite insert_app_r_alt, Nat.sub_diag by done. Qed.

Lemma rtc_answer pre k ts s : exists w,
  rtc concurrent (pre ++ Answering k :: ts, s) (pre ++ Answered w :: ts, s).
Proof.
  exists (k new_writer). apply rtc_once.
  replace (pre ++ Answered _ :: ts) with (<[length pre := Answered (k new_writer)]> (pre ++ Answering k :: ts)).
  - apply concurrent_answer. by apply list_lookup_middle.
  - apply insert_middle.
Qed.

Lemma rtc_call pre r ts s : exists w s',
  rtc concurrent (pre ++ Started r :: ts, s) (pre ++ Answered w :: ts, s').
Proof.
  destruct (server_atomic token r) as (c & k & Hc).
  destruct (rtc_answer pre (k (run_call c s).1) ts (run_call c s).2) as [w Hw].
  exists w, (run_call c s).2. eapply rtc_l; [|exact Hw].
  replace (pre ++ Answering _ :: ts) with (<[length pre := Answering (k (run_call c s).1)]> (pre ++ Started r :: ts)).
  - eapply concurrent_call; [by apply list_lookup_middle|done].
  - apply insert_middle.
Qed.

Lemma run_completes ws ts s : exists ws' s',
  rtc concurrent ((Answered <$> ws) ++ ts, s) (Answered <$> ws', s').
Proof.
  revert ws s. induction ts as [|t ts IH]; intros ws s.
  { exists ws, s. by rewrite app_nil_r. }
  assert (exists w s1, rtc concurrent ((Answered <$> ws) ++ t :: ts, s) ((Answered <$> ws) ++ Answered w :: ts, s1))
    as (w & s1 & Ht).
  { destruct t as [r|k|w]; [apply rtc_call| |by exists w, s].
    destruct (rtc_answer (Answered <$> ws) k ts s) as [w Hw]. by exists w, s. }
  destruct (IH (ws ++ [w]) s1) as (ws' & s' & Hrun). exists ws', s'. etrans; [exact Ht|].
  by rewrite fmap_app, <- app_assoc in Hrun.
Qed.

(** C13: concurrent requests are linearizable.  However the goroutines of any number of
    requests are interleaved, the run can always be completed, and when all have
    answered there is an order of the requests in which serving them one after the
    other gives each the same answer and leaves the same world.  What is shown of
    sequences of requests holds of concurrent ones. *)
Theorem requests_linearizable rs s0 ts s :
  rtc concurrent (Started <$> rs, s0) (ts, s) ->
  (exists ws s', rtc concurrent (ts, s) (Answered <$> ws, s')) /\
  forall ws, ts = Answered <$> ws ->
    exists l, l ≡ₚ zip rs ws /\ serve_all redirect token l.*1 s0 = (l.*2, s).
Proof.
  intros [served Hs]%concurrent_run_so_far. split; [exact (run_completes [] ts s)|].
  intros ws ->. exists (served.*2). split; [by eapply served_permutation|].
  exact (so_far_served _ _ _ _ _ Hs).
Qed.
End Calls.
(** ** Concurrent creations *)
Section Creations.
Context {W E : Type} `{StoreSpec W E} `{NameValidation}.
Context (redirect : string -> Request -> ResponseWriter -> ResponseWriter).
Context (redirect_3xx : forall p r w, rw_sent w = None ->
  (300 <= response_status (redirect p r w) < 400)%Z).
Context (token : string).

(** The name of the service a request created. *)
Definition created (rw : Request * ResponseWriter) : option string :=
  if (response_status rw.2 =? StatusCreated)%Z then Some (req_Name (decodeCreateRequest rw.1).1) else None.

Lemma serve_all_creates rs s ws s' :
  Forall (fun r => well_formed r /\ Method r <> MethodDelete) rs ->
  serve_all redirect token rs s = (ws, s') ->
  NoDup (omap created (zip rs ws)) /\
  forall n, n ∈ omap created (zip rs ws) -> services s !! n = None.
Proof.
  revert s ws s'. induction rs as [|r rs IH]; intros s ws s' HF; simpl.
  { intros [= <- _]. split; [constructor|]. by intros n ?%elem_of_nil. }
  apply Forall_cons in HF as [[Hwf Hmeth] HF].
  destruct (api_server redirect token r new_writer s) as [w s1] eqn:Hs.
  destruct (serve_all redirect token rs s1) as [ws1 s2] eqn:Hrs. intros [= <- <-].
  destruct (IH _ _ _ HF Hrs) as [Hnd Hnone]. cbn [zip_with omap list_omap].
  apply (request_effect_steps redirect redirect_3xx) in Hs; [|done..].
  inversion Hs as [w1 Hne _ Hm Hw|req o w1 _ _ _ Hd Hfree _ _ _ _ Hw1 Hm Hw|n m' w1 Hdel]; [| |congruence].
  - assert (created (r, w) = None) as -> by (unfold created; cbn [snd]; by rewrite (proj2 (Z.eqb_neq _ _) Hne)).
    split; [done|exact Hnone].
  - assert (forall n, n ∈ omap created (zip rs ws1) -> n <> req_Name req /\ services s !! n = None) as Htail.
    { intros n [Hn Hne]%Hnone%lookup_insert_None. by split; [apply not_eq_sym|]. }
    assert (created (r, w) = Some (req_Name req) \/ created (r, w) = None) as [-> | ->].
    { unfold created. cbn [fst snd]. rewrite Hd. destruct (_ =? _)%Z; [by left|by right]. }
    2: { split; [done|]. by intros n [_ ?]%Htail. }
    split.
    + constructor; [|done]. by intros [? _]%Htail.
    + intros n [->|Hn]%elem_of_cons; [done|]. by apply Htail.
Qed.

(** C18: of concurrent creations of one name at most one succeeds.  When any number of
    requests, none of them a DELETE, run concurrently, the names of the services
    created with 201 are pairwise distinct and were free before. *)
Theorem concurrent_creates_exclusive rs s0 ws s :
  Forall (fun r => well_formed r /\ Method r <> MethodDelete) rs ->
  rtc (concurrent redirect token) (Started <$> rs, s0) (Answered <$> ws, s) ->
  NoDup (omap created (zip rs ws)) /\
  forall n, n ∈ omap created (zip rs ws) -> services s0 !! n = None.
Proof.
  intros HF [served Hrun]%concurrent_run_so_far.
  pose proof (served_permutation _ _ _ _ _ _ _ Hrun) as Hp.
  pose proof (so_far_served _ _ _ _ _ _ _ Hrun) as Hserved.
  assert (zip (served.*2).*1 (served.*2).*2 = served.*2) as Hzip by apply zip_fst_snd.
  apply serve_all_creates in Hserved as [Hnd Hfree].
  - rewrite Hzip, Hp in *. split; [done|]. intros n Hn. apply Hfree. by rewrite Hp.
  - rewrite Hp. rewrite Forall_fmap. apply Forall_forall. intros [r w] Hr%elem_of_zip_l.
    rewrite Forall_forall in HF. by apply HF.
Qed.
End Creations.
(** ** Witnesses *)

(** Two overlapping creations of the same service: one succeeds, one is refused. *)
Lemma requests_linearizable_witness :
  let second := api_server Samples.redirect Samples.token Samples.create_demo new_writer Memory.empty in
  let first := api_server Samples.redirect Samples.token Samples.create_demo new_writer second.2 in
  [response_status first.1; response_status second.1] = [StatusConflict; StatusCreated] /\
  exists l, l ≡ₚ zip [Samples.create_demo; Samples.create_demo] [first.1; second.1] /\
    serve_all Samples.redirect Samples.token l.*1 Memory.empty = (l.*2, first.2).
Proof.
  cbv zeta. split; [by vm_compute|].
  apply (proj2 (requests_linearizable Samples.redirect Samples.token
    [Samples.create_demo; Samples.create_demo] Memory.empty _ _
    (overlapping_run Samples.redirect Samples.token Samples.create_demo Samples.create_demo Memory.empty))).
  reflexivity.
Defined.

Lemma concurrent_creates_exclusive_witness :
  let second := api_server Samples.redirect Samples.token Samples.create_demo new_writer Memory.empty in
  let first := api_server Samples.redirect Samples.token Samples.create_demo new_writer second.2 in
  let ends := zip [Samples.create_demo; Samples.create_demo] [first.1; second.1] in
  omap created ends = ["demo"] /\
  NoDup (omap created ends) /\ forall n, n ∈ omap created ends -> services Memory.empty !! n = None.
Proof.
  cbv zeta. split; [by vm_compute|].
  apply (concurrent_creates_exclusive Samples.redirect Samples.redirect_3xx Samples.token
    [Samples.create_demo; Samples.create_demo] Memory.empty _
    (api_server Samples.redirect Samples.token Samples.create_demo new_writer
      (api_server Samples.redirect Samples.token Samples.create_demo new_writer Memory.empty).2).2).
  - repeat constructor; try discriminate; right; right; reflexivity.
  - apply overlapping_run.
Defined.

End ApiConcurrent.
