(* ===== verification/Config.v ===== *)
(** * Configuration (internal/controlplaneapi/config.go, telemetry/server.go)

    Loading the bearer token and parsing the two listener ports.  The file system
    is a parameter; the error texts, which quote the value, are reduced to the
    constructors of an inductive type. *)

From Stdlib Require Import ZArith Lia.
From S2P Require Import Prelude GoStrings Sha256 Json Http ApiHandler.
Import Http.

#[local] Opaque Sha256.Sum256.

Module Config.

Definition DefaultPort : Z := 8080.
Definition DefaultMetricsPort : Z := 9090.
Definition MinimumTokenLength : nat := 32.

Inductive token_error (E : Type) : Type :=
| TokenFileRequired
| TokenFileUnreadable (err : E)
| TokenEmpty
| TokenLineEnding
| TokenTooShort.
Arguments TokenFileRequired {E}.
Arguments TokenFileUnreadable {E} err.
Arguments TokenEmpty {E}.
Arguments TokenLineEnding {E}.
Arguments TokenTooShort {E}.

Definition trimTrailingLineEnding (contents : string) : string :=
  if has_suffix contents CRLF then stake (String.length contents - 2) contents
  else if has_suffix contents (String LF "") then stake (String.length contents - 1) contents
  else contents.

Definition LoadToken {E : Type} (ReadFile : string -> result E string) (path : string)
    : result (token_error E) string :=
  if String.eqb path "" then Err TokenFileRequired
  else
    match ReadFile path with
    | Err err => Err (TokenFileUnreadable err)
    | Ok contents =>
        let contents := trimTrailingLineEnding contents in
        if (String.length contents =? 0)%nat then Err TokenEmpty
        else if contains_any contents CRLF then Err TokenLineEnding
        else if (String.length contents <? MinimumTokenLength)%nat then Err TokenTooShort
        else Ok contents
    end.

Inductive port_error : Type :=
| PortInvalid (value : string)
| MetricsPortInvalid (value : string)
| MetricsPortEqualsPort.

Definition ParsePort (value : string) : result port_error Z :=
  if String.eqb value "" then Ok DefaultPort
  else
    match Atoi value with
    | Some port =>
        if (port <? 1)%Z || (65535 <? port)%Z then Err (PortInvalid value) else Ok port
    | None => Err (PortInvalid value)
    end.

(** [telemetry.ParseMetricsPort] *)
Definition ParseMetricsPort (value : string) (publicPort : Z) : result port_error Z :=
  let parsed :=
    if String.eqb value "" then Ok DefaultMetricsPort
    else
      match Atoi value with
      | Some parsedPort =>
          if (parsedPort <? 1)%Z || (65535 <? parsedPort)%Z then Err (MetricsPortInvalid value)
          else Ok parsedPort
      | None => Err (MetricsPortInvalid value)
      end in
  match parsed with
  | Err err => Err err
  | Ok metricsPort =>
      if (metricsPort =? publicPort)%Z then Err MetricsPortEqualsPort else Ok metricsPort
  end.

(** The two ports as cmd/control-plane-api reads them. *)
Definition ports (port metrics_port : string) : result port_error (Z * Z) :=
  (let? p := ParsePort port in
   let? m := ParseMetricsPort metrics_port p in
   Ok (p, m))%go.

(** ** Line endings *)

Lemma stake_append s t : stake (String.length s) (s +:+ t) = s.
Proof.
  induction s as [|c s IH]; [by destruct t|]. rewrite append_cons. simpl. by rewrite IH.
Qed.

Lemma has_suffix_append s t : has_suffix (s +:+ t) t = true.
Proof.
  unfold has_suffix. rewrite strlen_append.
  replace (String.length s + String.length t - String.length t) with (String.length s) by lia.
  rewrite sdrop_append, String.eqb_refl, andb_true_r. apply Nat.leb_le. lia.
Qed.

Lemma has_suffix_spec s t : has_suffix s t = true <-> exists r, s = r +:+ t.
Proof.
  split; [|by intros [r ->]; apply has_suffix_append].
  unfold has_suffix. intros Hs. bools.
  exists (stake (String.length s - String.length t) s).
  rewrite <- (sdrop_stake (String.length s - String.length t) s) at 1. by f_equal.
Qed.

Lemma trim_append s t : stake (String.length (s +:+ t) - String.length t) (s +:+ t) = s.
Proof. rewrite strlen_append. replace (_ + _ - _) with (String.length s) by lia. apply stake_append. Qed.

Lemma contains_crlf s :
  contains_any s CRLF = contains_byte s CR || contains_byte s LF.
Proof.
  induction s as [|c s IH]; [done|]. rewrite !contains_byte_cons.
  unfold contains_any in *. cbn [sforall]. rewrite negb_andb, IH, negb_involutive.
  assert (contains_byte CRLF c = Ascii.eqb CR c || Ascii.eqb LF c) as ->.
  { unfold CRLF. rewrite !contains_byte_cons, (Ascii.eqb_sym c CR), (Ascii.eqb_sym c LF).
    change (contains_byte "" c) with false. by rewrite orb_false_r. }
  by destruct (Ascii.eqb CR c), (Ascii.eqb LF c), (contains_byte s CR), (contains_byte s LF).
Qed.

(** Of a text without line endings the trimming keeps all, of one with a final
    line ending all but that. *)
Lemma trim_line_ending t :
  contains_byte t CR = false -> contains_byte t LF = false ->
  trimTrailingLineEnding t = t /\
  trimTrailingLineEnding (t +:+ String LF "") = t /\
  trimTrailingLineEnding (t +:+ CRLF) = t.
Proof.
  intros Hcr Hlf. unfold trimTrailingLineEnding.
  assert (forall u, contains_byte u LF = false -> has_suffix u CRLF = false /\
    has_suffix u (String LF "") = false) as Hno.
  { intros u Hu. split; apply not_true_iff_false; intros [v ->]%has_suffix_spec;
      rewrite contains_byte_append in Hu; bools; done. }
  split_and!.
  - by destruct (Hno t Hlf) as [-> ->].
  - destruct (has_suffix (t +:+ String LF "") CRLF) eqn:Hs.
    + apply has_suffix_spec in Hs as [v Hv]. exfalso.
      change CRLF with (String CR "" +:+ String LF "") in Hv. rewrite <- append_assoc in Hv.
      apply (f_equal (fun u => stake (String.length u - String.length (String LF "")) u)) in Hv.
      rewrite !trim_append in Hv. subst t. rewrite contains_byte_append in Hcr. by bools.
    + rewrite has_suffix_append. apply trim_append.
  - rewrite has_suffix_append. apply (trim_append t CRLF).
Qed.

Lemma trim_line_ending_inv contents :
  exists e, contents = trimTrailingLineEnding contents +:+ e /\
    (e = "" \/ e = String LF "" \/ e = CRLF).
Proof.
  unfold trimTrailingLineEnding.
  destruct (has_suffix contents CRLF) eqn:H1.
  { apply has_suffix_spec in H1 as [r ->]. exists CRLF.
    pose proof (trim_append r CRLF) as Ht. cbn [String.length CRLF] in Ht. rewrite Ht. auto. }
  destruct (has_suffix contents (String LF "")) eqn:H2.
  { apply has_suffix_spec in H2 as [r ->]. exists (String LF "").
    pose proof (trim_append r (String LF "")) as Ht. cbn [String.length] in Ht. rewrite Ht. auto. }
  exists "". rewrite append_nil_r. auto.
Qed.

(** ** Properties *)

Lemma LoadToken_ok {E : Type} (ReadFile : string -> result E string) path token :
  LoadToken ReadFile path = Ok token <->
  path <> "" /\ MinimumTokenLength <= String.length token /\
  contains_byte token CR = false /\ contains_byte token LF = false /\
  exists e, ReadFile path = Ok (token +:+ e) /\ (e = "" \/ e = String LF "" \/ e = CRLF).
Proof.
  unfold LoadToken. split.
  - destruct (String.eqb_spec path ""); [done|]. destruct (ReadFile path) as [contents|]; [|done].
    cbv zeta. destruct (trim_line_ending_inv contents) as (e & Hc & He).
    set (t := trimTrailingLineEnding contents) in *.
    destruct (Nat.eqb_spec (String.length t) 0); [done|].
    destruct (contains_any t CRLF) eqn:Hb; [done|].
    destruct (Nat.ltb_spec (String.length t) MinimumTokenLength); [done|].
    intros [= <-]. rewrite contains_crlf in Hb. bools.
    split_and!; [done..|]. exists e. by rewrite Hc at 1.
  - intros (Hpath & Hlen & Hcr & Hlf & e & -> & He). apply String.eqb_neq in Hpath as ->.
    destruct (trim_line_ending token Hcr Hlf) as (H1 & H2 & H3).
    assert (trimTrailingLineEnding (token +:+ e) = token) as ->.
    { destruct He as [->|[->| ->]]; [by rewrite append_nil_r|done|done]. }
    rewrite contains_crlf, Hcr, Hlf. cbv zeta.
    destruct (Nat.eqb_spec (String.length token) 0) as [H0|_];
      [rewrite H0 in Hlen; unfold MinimumTokenLength in Hlen; lia|].
    by destruct (Nat.ltb_spec (String.length token) MinimumTokenLength); [lia|].
Qed.

(** Exactly which files give a token: the path is set and the file holds the
    token, of at least 32 bytes and without line endings, followed by at most
    one line ending, LF or CRLF, which is not part of the token. *)
Theorem LoadToken_iff {E : Type} (ReadFile : string -> result E string) path token :
  LoadToken ReadFile path = Ok token <->
  path <> "" /\ MinimumTokenLength <= String.length token /\
  contains_byte token CR = false /\ contains_byte token LF = false /\
  exists e, ReadFile path = Ok (token +:+ e) /\ (e = "" \/ e = String LF "" \/ e = CRLF).
Proof. apply LoadToken_ok. Qed.

Lemma ParsePort_ok s p :
  ParsePort s = Ok p -> (1 <= p <= 65535)%Z /\ (s = "" -> p = DefaultPort).
Proof.
  unfold ParsePort. destruct (String.eqb_spec s "") as [->|]; [by intros [= <-]|].
  destruct (Atoi s); [|done]. case_bool; [done|].
  intros [= <-]. bools. rewrite Z.ltb_ge in *. split; [lia|done].
Qed.

Lemma ParseMetricsPort_ok s p m :
  ParseMetricsPort s p = Ok m ->
  (1 <= m <= 65535)%Z /\ p <> m /\ (s = "" -> m = DefaultMetricsPort).
Proof.
  unfold ParseMetricsPort. destruct (String.eqb_spec s "") as [->|].
  - destruct (Z.eqb_spec DefaultMetricsPort p); [done|]. by intros [= <-].
  - destruct (Atoi s) as [q|]; [|done]. destruct (_ || _) eqn:Hb; [done|].
    destruct (Z.eqb_spec q p); [done|]. intros [= <-]. bools. rewrite Z.ltb_ge in *.
    split; [lia|done].
Qed.

(** The ports of a started program.  Both are between 1 and 65535 and they
    differ; the defaults 8080 and 9090 apply to empty values; and every pair of
    distinct ports in the range can be configured by its decimal numerals. *)
Theorem ports_valid port metrics_port :
  match ports port metrics_port with
  | Ok (p, m) => (1 <= p <= 65535)%Z /\ (1 <= m <= 65535)%Z /\ p <> m /\
      (port = "" -> p = DefaultPort) /\ (metrics_port = "" -> m = DefaultMetricsPort)
  | Err _ => port <> "" \/ metrics_port <> ""
  end /\
  forall p m, (1 <= p <= 65535)%Z -> (1 <= m <= 65535)%Z -> p <> m ->
    ports (Itoa p) (Itoa m) = Ok (p, m).
Proof.
  split.
  - unfold ports. destruct (ParsePort port) as [p|e] eqn:Hp; simpl.
    + destruct (ParseMetricsPort metrics_port p) as [m|e] eqn:Hm; simpl.
      * destruct (ParsePort_ok _ _ Hp), (ParseMetricsPort_ok _ _ _ Hm) as (? & ? & ?). auto.
      * destruct (String.eqb_spec port "") as [->|]; [|by left]. right. intros ->.
        injection Hp as <-. by vm_compute in Hm.
    + left. intros ->. by vm_compute in Hp.
  - intros p m Hp Hm Hne. unfold ports.
    assert (forall z, (1 <= z <= 65535)%Z -> Itoa z <> "" /\ Atoi (Itoa z) = Some z) as Hz.
    { intros z Hz. assert (Atoi (Itoa z) = Some z) as Ha.
      { apply Atoi_Itoa. unfold min_int64, max_int64. lia. }
      split; [|done]. by intros He; rewrite He in Ha. }
    destruct (Hz p Hp) as [Hep Hap], (Hz m Hm) as [Hem Ham].
    apply String.eqb_neq in Hep, Hem.
    unfold ParsePort, ParseMetricsPort. rewrite Hep, Hap, Hem, Ham.
    rewrite (proj2 (Z.ltb_ge p 1)), (proj2 (Z.ltb_ge 65535 p)) by lia. simpl.
    rewrite (proj2 (Z.ltb_ge m 1)), (proj2 (Z.ltb_ge 65535 m)) by lia. simpl.
    by rewrite (proj2 (Z.eqb_neq m p)) by done.
Qed.

Lemma contains_blanks s :
  contains_any s ApiHandler.blanks =
  contains_byte s SP || contains_byte s HT || contains_any s CRLF.
Proof.
  rewrite contains_crlf. induction s as [|c s IH]; [done|]. rewrite !contains_byte_cons.
  unfold contains_any in *. cbn [sforall]. rewrite negb_andb, IH, negb_involutive.
  assert (contains_byte ApiHandler.blanks c =
    Ascii.eqb SP c || Ascii.eqb HT c || Ascii.eqb CR c || Ascii.eqb LF c) as ->.
  { unfold ApiHandler.blanks. rewrite !contains_byte_cons, !(Ascii.eqb_sym c).
    change (contains_byte "" c) with false. by rewrite orb_false_r, <- !orb_assoc. }
  by destruct (Ascii.eqb SP c), (Ascii.eqb HT c), (Ascii.eqb CR c), (Ascii.eqb LF c),
    (contains_byte s SP), (contains_byte s HT), (contains_byte s CR).
Qed.

(** C40: which loaded tokens can be used.  A request that presents the loaded
    token itself as its bearer credential is authenticated exactly when the
    token contains no space and no tab; [LoadToken] accepts tokens that do, and
    no client can authenticate with them. *)
Theorem loaded_token_usable {E : Type} (ReadFile : string -> result E string) path token r :
  LoadToken ReadFile path = Ok token ->
  header_values (Header r) "Authorization" = ["Bearer " +:+ token] ->
  ApiHandler.authenticated (Sha256.Sum256 token) r = true <->
  contains_byte token SP = false /\ contains_byte token HT = false.
Proof.
  intros (_ & Hlen & Hcr & Hlf & _)%LoadToken_ok Hh. unfold ApiHandler.authenticated. rewrite Hh.
  assert (cut ("Bearer " +:+ token) " " = Some ("Bearer", token)) as ->
    by (by apply (cut_byte_spec _ SP)).
  change (equal_fold "Bearer" "Bearer") with true. cbn [negb orb].
  assert (token <> "") as Hne%String.eqb_neq
    by (intros ->; unfold MinimumTokenLength in Hlen; simpl in Hlen; lia).
  rewrite Hne, contains_blanks, contains_crlf, Hcr, Hlf, !orb_false_r. cbn [orb].
  rewrite (proj2 (Sha256.ConstantTimeCompare_spec _ _) eq_refl).
  by destruct (contains_byte token SP), (contains_byte token HT); split; try done; intros [].
Qed.

(** ** Witness: a passphrase is loaded, and locks everybody out *)

Definition passphrase : string := "correct horse battery staple and more".

Definition passphrase_request : Request :=
  {| Method := MethodGet; URL_Path := "/api/v1"; URL_EscapedPath := "/api/v1"; URL_RawQuery := "";
     Header := {["Authorization" := ["Bearer " +:+ passphrase]]}; Body := ""; BodyEnd := Json.EOF;
     ProtoAtLeast_1_1 := true |}.

Lemma loaded_token_usable_witness :
  let read := fun _ : string => Ok (passphrase +:+ String LF "") : result unit string in
  LoadToken read "/token" = Ok passphrase /\
  contains_byte passphrase SP = true /\
  ApiHandler.authenticated (Sha256.Sum256 passphrase) passphrase_request = false.
Proof.
  cbv zeta. split; [vm_compute; reflexivity|]. split; [reflexivity|].
  apply not_true_iff_false. intros Ha.
  apply (loaded_token_usable (fun _ => Ok (passphrase +:+ String LF "") : result unit string)
    "/token" passphrase passphrase_request) in Ha as [Hs _].
  - vm_compute in Hs. discriminate Hs.
  - vm_compute. reflexivity.
  - vm_compute. reflexivity.
Defined.
End Config.
