(* ===== verification/DemoHttp.v ===== *)
(** * The demo-http workload (internal/demohttp/handler.go)

    The program the operator deploys for a ManagedService: a handler with three
    routes, its configuration and its telemetry labels. *)

From Stdlib Require Import ZArith Lia.
From S2P Require Import Prelude GoStrings Json Http Config.

Module DemoHttp.
Import Json (json, JString, JObject).
Import Http.

(** ** Constants *)

Definition ServiceName : string := "demo-http".
Definition DefaultMessage : string := "Hello from a ManagedService".
Definition DefaultPort : Z := 8080.
Definition DefaultMetricsPort : Z := Config.DefaultMetricsPort.

Definition rootRoute : string := "/".
Definition healthRoute : string := "/healthz".
Definition readinessRoute : string := "/readyz".
Definition unknownRoute : string := "unknown".

(** ** Responses *)

Record rootResponse : Type := { root_Service : string; root_Message : string }.
Record statusResponse : Type := { status_Status : string }.

Definition json_of_root (r : rootResponse) : json :=
  JObject [("service", JString (root_Service r)); ("message", JString (root_Message r))].

Definition json_of_status (r : statusResponse) : json :=
  JObject [("status", JString (status_Status r))].

Definition writeJSON (statusCode : Z) (response : json) (writer : ResponseWriter) : ResponseWriter :=
  Write (Json.Encode response)
    (WriteHeader statusCode
      (set_header "Cache-Control" "no-store"
        (set_header "Content-Type" "application/json" writer))).

(** ** The handler *)
Section Handler.
Context {W : Type}.

Definition serveRoot (message : string) : @Handler W := fun _ writer w =>
  (writeJSON StatusOK (json_of_root {| root_Service := ServiceName; root_Message := message |}) writer, w).

Definition serveHealth : @Handler W := fun _ writer w =>
  (writeJSON StatusOK (json_of_status {| status_Status := "ok" |}) writer, w).

Definition serveReady : @Handler W := fun _ writer w =>
  (writeJSON StatusOK (json_of_status {| status_Status := "ready" |}) writer, w).

Definition router (message : string) : @mux (@Handler W) := [
  handle_func "GET /{$}" (serveRoot message);
  handle_func "GET /healthz" serveHealth;
  handle_func "GET /readyz" serveReady
].

Definition NewHandler (redirect : string -> Request -> ResponseWriter -> ResponseWriter)
    (message : string) : @Handler W :=
  let message := if String.eqb message "" then DefaultMessage else message in
  mux_serve redirect (router message).
End Handler.

Definition NormalizeRoute (request : Request) : string :=
  let path := URL_Path request in
  if String.eqb path rootRoute || String.eqb path healthRoute || String.eqb path readinessRoute
  then path else unknownRoute.

(** ** Configuration *)

Definition ParsePort (value : string) : result Config.port_error Z :=
  if String.eqb value "" then Ok DefaultPort
  else
    match Atoi value with
    | Some port =>
        if (port <? 1)%Z || (65535 <? port)%Z then Err (Config.PortInvalid value) else Ok port
    | None => Err (Config.PortInvalid value)
    end.

Definition ParseMetricsPort (value : string) (publicPort : Z) : result Config.port_error Z :=
  Config.ParseMetricsPort value publicPort.

(** ** What the routes answer *)

Definition routes : list string := [rootRoute; healthRoute; readinessRoute].

(** The body of each route. *)
Definition answer (message path : string) : json :=
  if String.eqb path rootRoute then
    json_of_root {| root_Service := ServiceName;
                    root_Message := if String.eqb message "" then DefaultMessage else message |}
  else if String.eqb path healthRoute then json_of_status {| status_Status := "ok" |}
  else json_of_status {| status_Status := "ready" |}.

Definition reads (method : string) : bool :=
  String.eqb method MethodGet || String.eqb method MethodHead.

Section Facts.
Context {W : Type} (redirect : string -> Request -> ResponseWriter -> ResponseWriter).
Context (redirect_3xx : forall p r w, rw_sent w = None ->
  (300 <= response_status (redirect p r w) < 400)%Z).

(** Every pattern names GET, which a HEAD request also matches. *)
Lemma demo_router_match (m method path : string) :
  mux_match (router (W:=W) m) method path =
  if reads method then match_path (with_method MethodGet (router m)) (path_segments path) else None.
Proof.
  unfold mux_match, reads.
  assert (forall k, k <> MethodGet -> with_method k (router (W:=W) m) = []) as Hnone.
  { intros k Hk. apply elem_of_nil_inv. intros [segs ph] (Hin & _ & Hm)%elem_of_with_method. apply Hk.
    rewrite <- Hm. by repeat (apply elem_of_cons in Hin as [->|Hin]; [reflexivity|]);
      apply elem_of_nil in Hin. }
  assert (forall segs, match_path (with_method "" (router (W:=W) m)) segs = None) as Hempty.
  { intros segs. rewrite Hnone by discriminate. induction segs as [|s segs IH]; [done|].
    cbn [match_path]. change (descend s []) with (@nil (@entry (@Handler W))). by rewrite IH. }
  rewrite Hempty. destruct (String.eqb_spec method "") as [->|Hne]; [done|].
  destruct (String.eqb_spec method MethodGet) as [->|Hget]; cbn [orb].
  { by destruct (match_path _ _). }
  rewrite Hnone by done. rewrite (Hnone "") in Hempty by discriminate. rewrite Hempty.
  destruct (String.eqb method MethodHead); [|done]. by destruct (match_path _ _).
Qed.

(** A route is matched by its own pattern, and by no other with a slash added. *)
Lemma route_found m path :
  path ∈ routes -> exists p h,
    match_path (with_method MethodGet (router (W:=W) m)) (path_segments path) = Some (p, h) /\
    ends_multi p = false /\ clean_path path = path /\
    matching_methods (router (W:=W) m) path = [MethodGet; MethodHead] /\
    (m <> "" -> forall r w s, h r w s = (writeJSON StatusOK (answer m path) w, s)).
Proof.
  intros Hin. unfold routes in Hin.
  repeat (apply elem_of_cons in Hin as [->|Hin];
    [do 2 eexists; split_and!; [reflexivity|reflexivity|reflexivity|vm_compute; reflexivity|]|]).
  - intros Hm r w s. unfold answer. simpl. by destruct (String.eqb_spec m "").
  - done.
  - done.
  - by apply elem_of_nil in Hin.
Qed.

Lemma handler_found m r h :
  well_formed r -> URL_Path r <> "*" -> m <> "" -> find_handler (router (W:=W) m) r = Handle h ->
  reads (Method r) = true /\
  exists path, path ∈ routes /\ (URL_Path r = path \/ path = rootRoute /\ URL_Path r = "//") /\
    forall r w s, h r w s = (writeJSON StatusOK (answer m path) w, s).
Proof.
  intros Hwf Hstar Hm Hf. destruct (find_handler_sound _ _ _ Hwf Hstar Hf) as (p & Hin & Hp & Hr & Hmeth).
  assert (p_method p = MethodGet) as Hget.
  { by repeat (apply elem_of_cons in Hin as [[= -> _]|Hin]; [reflexivity|]); apply elem_of_nil in Hin. }
  split.
  { unfold reads. rewrite Hget in Hmeth. destruct Hmeth as [Hmeth|[<- |[-> _]]]; [done|by rewrite String.eqb_refl|done]. }
  destruct Hwf as [Hu _]. destruct Hr as [He|Hroot].
  { rewrite He in Hp. repeat (apply elem_of_cons in Hin as [[= -> ->]|Hin]);
      [inversion Hp..|by apply elem_of_nil in Hin]. }
  pose proof (fun segs => segments_path_exact segs _ _ Hu Hroot) as Hexact.
  repeat (apply elem_of_cons in Hin as [[= -> ->]|Hin]); [..|by apply elem_of_nil in Hin];
    simpl in Hp; invert_matches.
  - exists rootRoute. split; [by left|]. split.
    + apply has_prefix_spec in Hroot as [t Ht]. rewrite Ht, append_cons, append_nil_l in *.
      destruct (segments_head t _ "/" [] Hu) as [[_ ?]|[[_ ?]|(t' & _ & Hn & _)]]; [done|by left|by right|].
      by apply path_segments_nonempty in Hn.
    + intros r0 w s. unfold answer. simpl. by destruct (String.eqb_spec m "").
  - exists healthRoute. split; [by right; left|]. split; [left|done].
    by rewrite (Hexact ["healthz"]); [|done|repeat constructor].
  - exists readinessRoute. split; [by right; right; left|]. split; [left|done].
    by rewrite (Hexact ["readyz"]); [|done|repeat constructor].
Qed.

Lemma route_served m path r :
  m <> "" -> path ∈ routes -> URL_EscapedPath r = path ->
  find_handler (router (W:=W) m) r = NotAllowed [MethodGet; MethodHead] /\ reads (Method r) = false \/
  reads (Method r) = true /\ exists h, find_handler (router (W:=W) m) r = Handle h /\
    forall r w s, h r w s = (writeJSON StatusOK (answer m path) w, s).
Proof.
  intros Hm Hin <-. destruct (route_found m _ Hin) as (p & h & Hfound & Hends & Hclean & Hms & Hh).
  assert (slash_redirect (router (W:=W) m) (Method r) (URL_EscapedPath r) r = None) as Hslash.
  { unfold slash_redirect. rewrite !demo_router_match, Hfound. destruct (reads (Method r)); simpl.
    - by rewrite Hends.
    - by rewrite andb_false_r. }
  unfold find_handler. rewrite Hclean, Hslash, String.eqb_refl, demo_router_match, Hfound, Hms.
  destruct (reads (Method r)) eqn:Hr; [right|left; by destruct (String.eqb _ _)].
  split; [done|]. exists h. split; [by destruct (String.eqb _ _)|]. by apply Hh.
Qed.

(** A GET or HEAD of a route gets the route's body. *)
Lemma served_read message r w (s : W) :
  URL_EscapedPath r ∈ routes -> URL_Path r <> "*" -> reads (Method r) = true ->
  NewHandler redirect message r w s = (writeJSON StatusOK (answer message (URL_EscapedPath r)) w, s).
Proof.
  intros Hin Hstar Hr. unfold NewHandler, mux_serve. rewrite (proj2 (String.eqb_neq _ _) Hstar).
  set (m := if String.eqb message "" then DefaultMessage else message).
  assert (m <> "") as Hm by (unfold m; by destruct (String.eqb_spec message "")).
  destruct (route_served m _ r Hm Hin eq_refl) as [[_ ?]|(_ & h & -> & Hh)]; [congruence|].
  rewrite Hh. unfold answer, m. destruct (String.eqb_spec message "") as [->|Hn]; [done|].
  by rewrite (proj2 (String.eqb_neq _ _) Hn).
Qed.

(** C33: the workload's handler on every request.  It has no effect.  On each of its
    three routes GET and HEAD get 200 with the route's body, the configured message
    or the default one for the root, and other methods 405 with the allowed ones.
    Nothing else is answered 200, except that the escaped path [/%2F], which the
    router cannot tell from the root, is answered like it. *)
Theorem demo_outcome message r w (s : W) :
  well_formed r -> rw_sent w = None ->
  let '(w', s') := NewHandler redirect message r w s in
  s' = s /\
  (URL_EscapedPath r ∈ routes -> URL_Path r <> "*" ->
   w' = if reads (Method r) then writeJSON StatusOK (answer message (URL_EscapedPath r)) w
        else http_error "Method Not Allowed" StatusMethodNotAllowed
               (set_header "Allow" (MethodGet +:+ ", " +:+ MethodHead) w)) /\
  (response_status w' = StatusOK ->
   reads (Method r) = true /\
   exists path, path ∈ routes /\ (URL_Path r = path \/ path = rootRoute /\ URL_Path r = "//") /\
     w' = writeJSON StatusOK (answer message path) w).
Proof.
  intros Hwf Hw. unfold NewHandler. set (m := if String.eqb message "" then DefaultMessage else message).
  assert (m <> "") as Hm by (unfold m; by destruct (String.eqb_spec message "")).
  assert (forall path, answer m path = answer message path) as Hans.
  { intros path. unfold answer, m. destruct (String.eqb_spec message "") as [->|Hn]; [reflexivity|].
    by rewrite (proj2 (String.eqb_neq _ _) Hn). }
  unfold mux_serve. destruct (String.eqb_spec (URL_Path r) "*") as [|Hstar].
  { split_and!; [done|done|]. destruct (ProtoAtLeast_1_1 r); by rewrite response_status_WriteHeader. }
  assert (URL_EscapedPath r ∈ routes -> _) as Hserved by (intros Hin; exact (route_served m _ r Hm Hin eq_refl)).
  destruct (find_handler (router m) r) as [h|p|ms|] eqn:Hf.
  - destruct (handler_found m r h Hwf Hstar Hm Hf) as (Hr & path & Hin & Hpath & Hh).
    rewrite Hh, Hans. split_and!; [done| |].
    + intros Hroute _. rewrite Hr. destruct (Hserved Hroute) as [[? _]|(_ & h' & [= <-] & Hh')]; [done|].
      specialize (Hh r w s). rewrite Hh', !Hans in Hh. exact (eq_sym (f_equal fst Hh)).
    + intros _. split; [done|]. by exists path.
  - split_and!; [done| |].
    + intros Hroute. by destruct (Hserved Hroute) as [[? _]|(_ & h' & ? & _)].
    + intros Hs. pose proof (redirect_3xx p r w Hw) as Hr3. rewrite Hs in Hr3. unfold StatusOK in Hr3. lia.
  - split_and!; [done| |by rewrite http_error_status].
    intros Hroute _. destruct (Hserved Hroute) as [[[= ->] ->]|(_ & h' & ? & _)]; done.
  - split_and!; [done| |by rewrite http_error_status].
    intros Hroute. by destruct (Hserved Hroute) as [[? _]|(_ & h' & ? & _)].
Qed.
End Facts.

(** The telemetry label of a workload request is one of four, and a request of
    a route gets its own. *)
Theorem demo_routes_bounded r :
  NormalizeRoute r ∈ unknownRoute :: routes /\
  (URL_Path r ∈ routes -> NormalizeRoute r = URL_Path r).
Proof.
  unfold NormalizeRoute, routes. split.
  - destruct (_ || _) eqn:Hb; [|by left]. right.
    rewrite !orb_true_iff, !String.eqb_eq in Hb. rewrite !elem_of_cons. tauto.
  - rewrite !elem_of_cons, elem_of_nil. intros [->|[->|[->|[]]]]; done.
Qed.
(** ** Witness: HEAD of the root *)

Definition to_path (p : string) (r : Request) (w : ResponseWriter) : ResponseWriter :=
  WriteHeader 307 (set_header "Location" p w).

Lemma to_path_3xx p r w : rw_sent w = None -> (300 <= response_status (to_path p r w) < 400)%Z.
Proof. intros Hw. unfold to_path. rewrite response_status_WriteHeader by exact Hw. lia. Qed.

Definition head_root : Request :=
  {| Method := MethodHead; URL_Path := "/"; URL_EscapedPath := "/"; URL_RawQuery := ""; Header := ∅;
     Body := ""; BodyEnd := Json.EOF; ProtoAtLeast_1_1 := true |}.

Lemma demo_outcome_witness :
  NewHandler to_path "" head_root new_writer 5 =
  (writeJSON StatusOK (JObject [("service", JString "demo-http");
                                ("message", JString "Hello from a ManagedService")]) new_writer, 5).
Proof.
  pose proof (demo_outcome to_path to_path_3xx "" head_root new_writer 5) as Hd.
  destruct (NewHandler _ "" head_root new_writer 5) as [w' s'] eqn:Hn.
  destruct Hd as (-> & Hroute & _).
  - split; [reflexivity|]. right; right. reflexivity.
  - reflexivity.
  - rewrite Hroute; [reflexivity|left|discriminate].
Defined.
End DemoHttp.
