(* ===== verification/Server.v ===== *)
(** * The life of the HTTP servers (internal/telemetry/server.go)

    [listen_all] is the start of [ServeUntilShutdown], which opens one listener
    per server or none; [step] is the rest of it, as the interleaving of the
    goroutines that serve, the goroutine that shuts down, and the environment
    that cancels the context and makes servers fail.

    [http.Server.Serve] returns [ErrServerClosed] once [Shutdown] was called,
    also when it is called after it; it closes its listener when it returns.
    [Shutdown] and [Close] may fail.  Sending to the result channel blocks while
    the channel is full. *)

From Stdlib Require Import Lia.
From S2P Require Import Prelude GoStrings Json Http.

#[local] Set Warnings "-clear-no-such-hyp".

Module Server.

(** ** Settings

    The fields of [http.Server] that the programs set, without the handler.  Durations
    are in nanoseconds; net/http reads 0 as no limit, except for the size of headers,
    for which it has a default. *)
Record http_Server : Type := {
  Addr : string;
  ReadHeaderTimeout : Z;
  ReadTimeout : Z;
  WriteTimeout : Z;
  IdleTimeout : Z;
  MaxHeaderBytes : Z;
}.

(** [time.Second] *)
Definition Second : Z := 1000000000.

Definition maxMetricsHeaderBytes : Z := Z.shiftl 16 10.

(** The largest request headers and the longest phases of a connection are bounded,
    and reading the header is part of reading the request. *)
Definition bounded (server : http_Server) : Prop :=
  (0 < ReadHeaderTimeout server <= ReadTimeout server)%Z /\ (0 < WriteTimeout server)%Z /\
  (0 < IdleTimeout server)%Z /\ (0 < MaxHeaderBytes server)%Z.

#[export] Instance bounded_dec server : Decision (bounded server).
Proof. unfold bounded. apply _. Defined.

(** ** Starting *)
Section Startup.
Context {E : Type}.

(** [NamedServer]; the server is [None] for a nil pointer. *)
Record NamedServer : Type := { ns_Name : string; ns_Server : option http_Server }.

(** The open listeners of the process. *)
Record os : Type := { os_open : gset nat; os_next : nat }.

Inductive startup_error : Type :=
| NoServers
| NameAndConfigurationRequired
| ListenFailed (name : string) (err : E).

Context (net_Listen_error : string -> os -> option E).

Definition net_Listen (addr : string) (o : os) : result E nat * os :=
  match net_Listen_error addr o with
  | Some err => (Err err, o)
  | None => (Ok (os_next o), {| os_open := {[os_next o]} ∪ os_open o; os_next := S (os_next o) |})
  end.

Definition listener_Close (l : nat) (o : os) : os :=
  {| os_open := os_open o ∖ {[l]}; os_next := os_next o |}.

Definition close_all (ls : list nat) (o : os) : os := foldl (fun o l => listener_Close l o) o ls.

Fixpoint listen_from (listeners : list nat) (servers : list NamedServer) (o : os)
    : result startup_error (list nat) * os :=
  match servers with
  | [] => (Ok listeners, o)
  | spec :: rest =>
      match String.eqb (ns_Name spec) "", ns_Server spec with
      | false, Some server =>
          match net_Listen (Addr server) o with
          | (Err err, o') => (Err (ListenFailed (ns_Name spec) err), close_all listeners o')
          | (Ok l, o') => listen_from (listeners ++ [l]) rest o'
          end
      | _, _ => (Err NameAndConfigurationRequired, close_all listeners o)
      end
  end.

Definition listen_all (servers : list NamedServer) (o : os)
    : result startup_error (list nat) * os :=
  match servers with
  | [] => (Err NoServers, o)
  | _ => listen_from [] servers o
  end.

(** Listener numbers are fresh. *)
Definition os_ok (o : os) : Prop := forall l, l ∈ os_open o -> l < os_next o.

Lemma close_all_open ls o : os_open (close_all ls o) = os_open o ∖ list_to_set ls.
Proof.
  revert o. induction ls as [|l ls IH]; intros o; simpl; [set_solver|].
  change (foldl _ _ _) with (close_all ls (listener_Close l o)). rewrite IH. simpl. set_solver.
Qed.

Lemma listen_from_spec listeners servers o base :
  os_ok o -> base ## list_to_set listeners -> os_open o = base ∪ list_to_set listeners ->
  let '(res, o') := listen_from listeners servers o in
  match res with
  | Err _ => os_open o' = base
  | Ok ls =>
      exists new, ls = listeners ++ new /\ length new = length servers /\ NoDup new /\
      os_open o' = base ∪ list_to_set ls /\ (forall l, l ∈ new -> l ∉ os_open o) /\
      Forall (fun spec => ns_Name spec <> "" /\ is_Some (ns_Server spec)) servers
  end.
Proof.
  revert listeners o. induction servers as [|spec servers IH]; intros listeners o Hok Hdisj Ho; simpl.
  { exists []. rewrite app_nil_r. split_and!; [done|done|constructor|done|set_solver|constructor]. }
  destruct (String.eqb_spec (ns_Name spec) "") as [|Hname];
    [rewrite close_all_open; set_solver|].
  destruct (ns_Server spec) as [server|] eqn:Haddr; [|rewrite close_all_open; set_solver].
  unfold net_Listen. destruct (net_Listen_error (Addr server) o) as [err|];
    [rewrite close_all_open; set_solver|].
  assert (os_next o ∉ os_open o) as Hfresh by (intros Hin%Hok; lia).
  specialize (IH (listeners ++ [os_next o])
    {| os_open := {[os_next o]} ∪ os_open o; os_next := S (os_next o) |}).
  destruct (listen_from _ servers _) as [[ls|err] o'].
  - destruct IH as (new & -> & Hlen & Hnd & Hopen & Hnew & HF).
    + intros l. simpl. rewrite elem_of_union, elem_of_singleton. intros [->|Hl%Hok]; lia.
    + rewrite list_to_set_app_L. set_solver.
    + rewrite list_to_set_app_L. set_solver.
    + exists (os_next o :: new). rewrite <- app_assoc. split_and!; [done|simpl; lia| | | |].
      * constructor; [|done]. intros Hin%Hnew. set_solver.
      * by rewrite <- app_assoc in Hopen.
      * intros l [->|Hl]%elem_of_cons; [done|]. apply Hnew in Hl. set_solver.
      * constructor; [|done]. by rewrite Haddr.
  - apply IH; [|rewrite list_to_set_app_L; set_solver..].
    intros l. simpl. rewrite elem_of_union, elem_of_singleton. intros [->|Hl%Hok]; lia.
Qed.

Lemma listen_all_outcome servers o :
  os_ok o ->
  let '(res, o') := listen_all servers o in
  match res with
  | Err _ => os_open o' = os_open o
  | Ok ls =>
      servers <> [] /\ length ls = length servers /\ NoDup ls /\
      os_open o' = os_open o ∪ list_to_set ls /\ (forall l, l ∈ ls -> l ∉ os_open o) /\
      Forall (fun spec => ns_Name spec <> "" /\ is_Some (ns_Server spec)) servers
  end.
Proof.
  intros Hok. unfold listen_all. destruct servers as [|spec servers]; [done|].
  pose proof (listen_from_spec [] (spec :: servers) o (os_open o) Hok) as Hspec.
  destruct (listen_from [] (spec :: servers) o) as [[ls|err] o'].
  - destruct Hspec as (new & -> & ?); [set_solver..|]. done.
  - apply Hspec; set_solver.
Qed.

(** C25: starting is all or nothing.  Either every server has a name, a
    configuration and a listener of its own, or the error is returned with the
    open listeners exactly as before: none leaks. *)
Theorem startup_all_or_nothing servers o :
  os_ok o ->
  let '(res, o') := listen_all servers o in
  match res with
  | Err _ => os_open o' = os_open o
  | Ok ls =>
      servers <> [] /\ length ls = length servers /\ NoDup ls /\
      os_open o' = os_open o ∪ list_to_set ls /\ (forall l, l ∈ ls -> l ∉ os_open o) /\
      Forall (fun spec => ns_Name spec <> "" /\ is_Some (ns_Server spec)) servers
  end.
Proof. apply listen_all_outcome. Qed.
End Startup.
Arguments startup_error : clear implicits.

(** ** Serving and shutting down *)
Section Lifecycle.
Context {E : Type}.

Inductive serve_error : Type := ErrServerClosed | ServeError (err : E).

(** What [ServeUntilShutdown] joins into its result; [[]] is [nil]. *)
Inductive lifecycle_error : Type :=
| ServeFailed (name : string) (err : E)
| StoppedUnexpectedly (name : string)
| ShutdownFailed (name : string) (err : E)
| CloseFailed (name : string) (err : E).

Inductive routine : Type :=
| Pending                                (* started, [Serve] not yet entered *)
| Serving
| Returned (result : option serve_error). (* [Serve] returned and the result was sent *)

(** One server: its goroutine, its [inShutdown] flag, its listener. *)
Record server_state : Type := {
  sv_name : string;
  sv_routine : routine;
  sv_shutdown : bool;
  sv_listening : bool;
}.

Inductive program_counter : Type :=
| Selecting
| ShuttingDown (k : nat)  (* about to call [Shutdown] on server [k] *)
| Closing (k : nat)       (* its [Shutdown] failed *)
| Draining
| Finished.

Record state : Type := {
  st_cancelled : bool;
  st_servers : list server_state;
  st_results : list (string * option serve_error);  (* the channel *)
  st_main : program_counter;
  st_received : nat;
  st_errors : list lifecycle_error;
}.

Definition init (names : list string) : state := {|
  st_cancelled := false;
  st_servers := (fun n => {| sv_name := n; sv_routine := Pending; sv_shutdown := false;
                             sv_listening := true |}) <$> names;
  st_results := [];
  st_main := Selecting;
  st_received := 0;
  st_errors := [];
|}.

Definition set_server (i : nat) (sv : server_state) (st : state) : state :=
  {| st_cancelled := st_cancelled st; st_servers := <[i := sv]> (st_servers st);
     st_results := st_results st; st_main := st_main st; st_received := st_received st;
     st_errors := st_errors st |}.

Definition set_main (pc : program_counter) (errs : list lifecycle_error) (st : state) : state :=
  {| st_cancelled := st_cancelled st; st_servers := st_servers st; st_results := st_results st;
     st_main := pc; st_received := st_received st; st_errors := st_errors st ++ errs |}.

(** [Serve] of server [i] returns: the deferred close, then the send. *)
Definition serve_returns (i : nat) (sv : server_state) (r : option serve_error) (st : state) : state :=
  {| st_cancelled := st_cancelled st;
     st_servers := <[i := {| sv_name := sv_name sv; sv_routine := Returned r;
                             sv_shutdown := sv_shutdown sv; sv_listening := false |}]> (st_servers st);
     st_results := st_results st ++ [(sv_name sv, r)];
     st_main := st_main st; st_received := st_received st; st_errors := st_errors st |}.

(** [Shutdown] of a server: the flag is set and a tracked listener closed. *)
Definition shut_down (sv : server_state) : server_state :=
  {| sv_name := sv_name sv; sv_routine := sv_routine sv; sv_shutdown := true;
     sv_listening := match sv_routine sv with Pending => sv_listening sv | _ => false end |}.

(** The error of the first result, received by the select. *)
Definition first_error (cancelled : bool) (name : string) (r : option serve_error)
    : list lifecycle_error :=
  match r with
  | Some (ServeError err) => [ServeFailed name err]
  | _ => if cancelled then [] else [StoppedUnexpectedly name]
  end.

Definition later_error (name : string) (r : option serve_error) : list lifecycle_error :=
  match r with
  | Some (ServeError err) => [ServeFailed name err]
  | _ => []
  end.

Definition receive (rest : list (string * option serve_error)) (pc : program_counter)
    (errs : list lifecycle_error) (st : state) : state :=
  {| st_cancelled := st_cancelled st; st_servers := st_servers st; st_results := rest;
     st_main := pc; st_received := S (st_received st); st_errors := st_errors st ++ errs |}.

Inductive actor : Type := Environment | Goroutine (i : nat) | MainRoutine.

Inductive step : actor -> state -> state -> Prop :=
| step_cancel st :
    st_cancelled st = false ->
    step Environment st {| st_cancelled := true; st_servers := st_servers st;
      st_results := st_results st; st_main := st_main st; st_received := st_received st;
      st_errors := st_errors st |}
| step_fail st i sv err :
    st_servers st !! i = Some sv -> sv_routine sv = Serving -> sv_shutdown sv = false ->
    length (st_results st) < length (st_servers st) ->
    step Environment st (serve_returns i sv (Some (ServeError err)) st)
| step_serve st i sv :
    st_servers st !! i = Some sv -> sv_routine sv = Pending -> sv_shutdown sv = false ->
    step (Goroutine i) st (set_server i {| sv_name := sv_name sv; sv_routine := Serving;
      sv_shutdown := false; sv_listening := sv_listening sv |} st)
| step_closed st i sv :
    st_servers st !! i = Some sv -> sv_routine sv = Pending \/ sv_routine sv = Serving ->
    sv_shutdown sv = true -> length (st_results st) < length (st_servers st) ->
    step (Goroutine i) st (serve_returns i sv (Some ErrServerClosed) st)
| step_first_result st name r rest :
    st_main st = Selecting -> st_results st = (name, r) :: rest ->
    step MainRoutine st
      (receive rest (ShuttingDown 0) (first_error (st_cancelled st) name r) st)
| step_context_done st :
    st_main st = Selecting -> st_cancelled st = true ->
    step MainRoutine st (set_main (ShuttingDown 0) [] st)
| step_shutdown st k sv :
    st_main st = ShuttingDown k -> st_servers st !! k = Some sv ->
    step MainRoutine st (set_main (ShuttingDown (S k)) [] (set_server k (shut_down sv) st))
| step_shutdown_fails st k sv err :
    st_main st = ShuttingDown k -> st_servers st !! k = Some sv ->
    step MainRoutine st
      (set_main (Closing k) [ShutdownFailed (sv_name sv) err] (set_server k (shut_down sv) st))
| step_close st k :
    st_main st = Closing k -> step MainRoutine st (set_main (ShuttingDown (S k)) [] st)
| step_close_fails st k sv err :
    st_main st = Closing k -> st_servers st !! k = Some sv ->
    step MainRoutine st (set_main (ShuttingDown (S k)) [CloseFailed (sv_name sv) err] st)
| step_all_shut_down st k :
    st_main st = ShuttingDown k -> st_servers st !! k = None ->
    step MainRoutine st (set_main Draining [] st)
| step_next_result st name r rest :
    st_main st = Draining -> st_received st < length (st_servers st) ->
    st_results st = (name, r) :: rest ->
    step MainRoutine st (receive rest Draining (later_error name r) st)
| step_finish st :
    st_main st = Draining -> ~ st_received st < length (st_servers st) ->
    step MainRoutine st (set_main Finished [] st).

Definition any_step (st st' : state) : Prop := exists a, step a st st'.
Definition reachable (names : list string) : state -> Prop := rtc any_step (init names).

#[export] Instance actor_eq_dec : EqDecision actor.
Proof. solve_decision. Defined.

(** ** The invariant *)

Definition has_returned (sv : server_state) : bool :=
  match sv_routine sv with Returned _ => true | _ => false end.

Definition returned (svs : list server_state) : nat := length (filter (fun sv => has_returned sv = true) svs).

(** How many servers the shutdown loop is done with. *)
Definition shut (n : nat) (pc : program_counter) : nat :=
  match pc with
  | Selecting => 0
  | ShuttingDown k => k
  | Closing k => S k
  | Draining | Finished => n
  end.

Definition server_ok (sv : server_state) : Prop :=
  match sv_routine sv with
  | Returned _ => sv_listening sv = false
  | Serving => sv_shutdown sv = true -> sv_listening sv = false
  | Pending => True
  end.

Record invariant (names : list string) (st : state) : Prop := {
  inv_names : sv_name <$> st_servers st = names;
  inv_servers : Forall server_ok (st_servers st);
  inv_count : st_received st + length (st_results st) = returned (st_servers st);
  inv_shut : shut (length names) (st_main st) <= length names;
  inv_flags : forall i sv, st_servers st !! i = Some sv ->
    sv_shutdown sv = bool_decide (i < shut (length names) (st_main st));
  inv_finished : st_main st = Finished -> st_received st = length names;
  inv_select : st_main st = Selecting -> st_received st = 0;
  inv_clean : st_main st <> Selecting -> st_errors st = [] -> st_cancelled st = true;
  inv_failures : forall i sv err, st_servers st !! i = Some sv ->
    sv_routine sv = Returned (Some (ServeError err)) ->
    (sv_name sv, Some (ServeError err)) ∈ st_results st \/
    ServeFailed (sv_name sv) err ∈ st_errors st;
}.

Definition weight (b : bool) : nat := if b then 1 else 0.

Lemma returned_insert (svs : list server_state) (i : nat) sv sv' :
  svs !! i = Some sv ->
  returned (<[i := sv']> svs) + weight (has_returned sv) = returned svs + weight (has_returned sv').
Proof.
  unfold returned. revert i. induction svs as [|x svs IH]; intros [|i] Hi; simplify_eq/=.
  - rewrite !filter_cons. destruct (has_returned sv), (has_returned sv'); simpl; lia.
  - specialize (IH i Hi). rewrite !filter_cons. destruct (has_returned x); simpl in *; lia.
Qed.

Lemma returned_le svs : returned svs <= length svs.
Proof. apply length_filter. Qed.

Lemma returned_all svs : returned svs = length svs -> Forall (fun sv => has_returned sv = true) svs.
Proof.
  unfold returned. induction svs as [|sv svs IH]; [done|]. rewrite filter_cons. intros Hl.
  pose proof (returned_le svs). unfold returned in *.
  destruct (has_returned sv) eqn:Hr; simpl in Hl; [|lia]. constructor; [done|]. apply IH. lia.
Qed.

Lemma names_insert (svs : list server_state) (i : nat) sv sv' :
  svs !! i = Some sv -> sv_name sv' = sv_name sv -> sv_name <$> <[i := sv']> svs = sv_name <$> svs.
Proof. intros Hi Hn. rewrite list_fmap_insert, Hn. apply list_insert_id. by rewrite list_lookup_fmap, Hi. Qed.

Lemma invariant_length names st : invariant names st -> length (st_servers st) = length names.
Proof. intros Hinv. by rewrite <- (inv_names _ _ Hinv), length_fmap. Qed.

Lemma init_invariant names : invariant names (init names).
Proof.
  constructor; simpl; try done.
  - by rewrite <- list_fmap_compose, list_fmap_id.
  - apply Forall_forall. intros sv Hsv. by apply list_elem_of_fmap in Hsv as (n & -> & _).
  - unfold returned. induction names as [|n names IH]; simpl; [done|]. by rewrite filter_cons.
  - lia.
  - intros i sv. rewrite list_lookup_fmap. by intros (n & _ & ->)%fmap_Some.
  - intros i sv err. rewrite list_lookup_fmap. by intros (n & _ & ->)%fmap_Some.
Qed.

(** Replacing the state of one server, its flag and its errors apart. *)
Lemma set_server_invariant names st i sv sv' :
  invariant names st -> st_servers st !! i = Some sv ->
  sv_name sv' = sv_name sv -> sv_shutdown sv' = sv_shutdown sv -> server_ok sv' ->
  has_returned sv = false -> has_returned sv' = false ->
  invariant names (set_server i sv' st).
Proof.
  intros Hinv Hi Hname Hflag Hok Hr Hr'. destruct Hinv. constructor; simpl; try done.
  - by erewrite names_insert.
  - by apply Forall_insert.
  - pose proof (returned_insert _ i sv sv' Hi). rewrite Hr, Hr' in *. simpl in *. lia.
  - intros j svj. rewrite list_lookup_insert_Some. intros [(-> & -> & _)|[_ Hj]]; [|eauto].
    rewrite Hflag. eauto.
  - intros j svj err. rewrite list_lookup_insert_Some. intros [(-> & -> & _)|[_ Hj]]; [|eauto].
    unfold has_returned in Hr'. by destruct (sv_routine svj).
Qed.

Lemma serve_returns_invariant names st i sv r :
  invariant names st -> st_servers st !! i = Some sv -> has_returned sv = false ->
  invariant names (serve_returns i sv r st).
Proof.
  intros Hinv Hi Hr. destruct Hinv. constructor; simpl; try done.
  - by erewrite names_insert.
  - apply Forall_insert; done.
  - match goal with |- context [<[i := ?sv']> _] => pose proof (returned_insert _ i sv sv' Hi) as Hc end.
    rewrite Hr in Hc. simpl in Hc. rewrite length_app. simpl. lia.
  - intros j svj. rewrite list_lookup_insert_Some. intros [(-> & <- & _)|[_ Hj]]; simpl; eauto.
  - intros j svj err. rewrite list_lookup_insert_Some, elem_of_app, list_elem_of_singleton.
    intros [(-> & <- & _)|[_ Hj]]; simpl.
    + intros [= ->]. left. by right.
    + intros Hj'. destruct (inv_failures0 _ _ _ Hj Hj'); auto.
Qed.

Lemma not_returned sv :
  sv_routine sv = Pending \/ sv_routine sv = Serving -> has_returned sv = false.
Proof. unfold has_returned. by intros [->| ->]. Qed.

Lemma concurrent_step_invariant names a st st' :
  a <> MainRoutine -> invariant names st -> step a st st' -> invariant names st'.
Proof.
  intros Ha Hinv Hstep. destruct Hstep; try done.
  - by destruct Hinv; constructor.
  - apply serve_returns_invariant; [done..|]. apply not_returned. auto.
  - eapply set_server_invariant; eauto using not_returned.
    unfold server_ok. simpl. done.
  - apply serve_returns_invariant; [done..|]. by apply not_returned.
Qed.

(** Receiving a result moves a failure from the channel to the errors. *)
Lemma receive_invariant names st name r rest pc errs :
  invariant names st -> st_results st = (name, r) :: rest ->
  pc <> Finished -> pc <> Selecting -> shut (length names) pc = shut (length names) (st_main st) ->
  (errs = [] -> st_errors st = [] -> st_cancelled st = true) ->
  (forall err, r = Some (ServeError err) -> ServeFailed name err ∈ errs) ->
  invariant names (receive rest pc errs st).
Proof.
  intros Hinv Hres Hfin Hsel Hshut Hclean Hfail. destruct Hinv. rewrite Hres in *.
  constructor; simpl in *; try done; rewrite ?Hshut; try done.
  - lia.
  - intros _ [? ?]%app_eq_nil. auto.
  - intros i sv err Hi Hr. rewrite elem_of_app.
    destruct (inv_failures0 _ _ _ Hi Hr) as [Hin|Hin]; [|by auto].
    apply elem_of_cons in Hin as [[= -> <-]|Hin]; [|by auto]. right. right. by apply Hfail.
Qed.

Lemma set_main_invariant names st pc errs :
  invariant names st -> pc <> Selecting ->
  shut (length names) pc = shut (length names) (st_main st) ->
  (pc = Finished -> st_received st = length names) ->
  (st_errors st ++ errs = [] -> st_cancelled st = true) ->
  invariant names (set_main pc errs st).
Proof.
  intros Hinv Hsel Hshut Hfin Hclean. destruct Hinv.
  constructor; simpl; try done; rewrite ?Hshut; try done.
  intros i sv err Hi Hr. rewrite elem_of_app. destruct (inv_failures0 _ _ _ Hi Hr); auto.
Qed.

Lemma shut_down_ok sv : server_ok sv -> server_ok (shut_down sv).
Proof. unfold server_ok, shut_down. simpl. by destruct (sv_routine sv). Qed.

(** Calling [Shutdown] on the next server extends the flags by one. *)
Lemma shut_down_invariant names st k sv pc errs :
  invariant names st -> st_main st = ShuttingDown k -> st_servers st !! k = Some sv ->
  pc = ShuttingDown (S k) /\ errs = [] \/ pc = Closing k ->
  invariant names (set_main pc errs (set_server k (shut_down sv) st)).
Proof.
  intros Hinv Hmain Hk Hpc. pose proof (invariant_length _ _ Hinv) as Hlen.
  pose proof (lookup_lt_Some _ _ _ Hk) as Hlt. destruct Hinv. rewrite Hmain in *.
  assert (shut (length names) pc = S k) as Hshut by (by destruct Hpc as [[-> _]| ->]).
  constructor; simpl in *; rewrite ?Hshut; try (by destruct Hpc as [[-> _]| ->]).
  - by erewrite names_insert.
  - apply Forall_insert; [done|]. apply shut_down_ok. by eapply Forall_lookup_1.
  - pose proof (returned_insert _ k sv (shut_down sv) Hk) as Hc.
    change (has_returned (shut_down sv)) with (has_returned sv) in Hc. lia.
  - lia.
  - intros j svj. rewrite list_lookup_insert_Some. intros [(-> & <- & _)|[Hne Hj]]; simpl.
    + symmetry. apply bool_decide_eq_true. lia.
    + rewrite (inv_flags0 _ _ Hj). apply bool_decide_ext. lia.
  - intros _ [? ?]%app_eq_nil. auto.
  - intros j svj err. rewrite list_lookup_insert_Some, elem_of_app.
    intros [(-> & <- & _)|[_ Hj]]; simpl; intros Hr; edestruct inv_failures0; eauto.
Qed.

Lemma main_step_invariant names st st' :
  invariant names st -> step MainRoutine st st' -> invariant names st'.
Proof.
  intros Hinv Hstep. pose proof (invariant_length _ _ Hinv) as Hlen.
  pose proof (inv_clean _ _ Hinv) as Hclean. pose proof (inv_shut _ _ Hinv) as Hshut.
  inversion Hstep as [| | | |? name r rest Hm Hres|? Hm Hc|? k sv Hm Hk|? k sv err Hm Hk|? k Hm
    |? k sv err Hm Hk|? k Hm Hk|? name r rest Hm Hlt Hres|? Hm Hge]; subst; rewrite Hm in *.
  - eapply receive_invariant; eauto; try done.
    + by rewrite Hm.
    + intros Hf _. unfold first_error in Hf. destruct r as [[]|], (st_cancelled st); done.
    + intros err Hr. rewrite Hr. by left.
  - apply set_main_invariant; try done. by rewrite Hm.
  - eapply shut_down_invariant; eauto.
  - eapply shut_down_invariant; eauto.
  - apply set_main_invariant; try done; [by rewrite Hm|]. rewrite app_nil_r. auto.
  - apply set_main_invariant; try done; [by rewrite Hm|]. by intros [_ ?]%app_eq_nil.
  - apply set_main_invariant; try done; [|rewrite app_nil_r; auto].
    rewrite Hm. simpl in *. apply lookup_ge_None in Hk. lia.
  - eapply receive_invariant; eauto; try done.
    + by rewrite Hm.
    + intros err Hr. rewrite Hr. by left.
  - apply set_main_invariant; try done; [by rewrite Hm| |rewrite app_nil_r; auto].
    intros _. pose proof (inv_count _ _ Hinv). pose proof (returned_le (st_servers st)). lia.
Qed.

Lemma step_invariant names st st' : invariant names st -> any_step st st' -> invariant names st'.
Proof.
  intros Hinv [a Hstep]. destruct (decide (a = MainRoutine)) as [->|Ha];
    eauto using main_step_invariant, concurrent_step_invariant.
Qed.

Lemma reachable_invariant names st : reachable names st -> invariant names st.
Proof.
  intros Hr. pose proof (init_invariant names) as Hinit. unfold reachable in Hr.
  induction Hr as [|st1 st2 st3 Hstep _ IH]; [done|]. apply IH. by eapply step_invariant.
Qed.

(** ** Progress *)

Lemma step_goroutine st i sv :
  st_servers st !! i = Some sv -> has_returned sv = false ->
  length (st_results st) < length (st_servers st) ->
  sv_routine sv = Serving /\ sv_shutdown sv = false \/ exists st', step (Goroutine i) st st'.
Proof.
  intros Hi Hr Hcap. unfold has_returned in Hr.
  destruct (sv_routine sv) eqn:Hroutine; [| |done]; destruct (sv_shutdown sv) eqn:Hflag.
  - right. eexists. eapply step_closed; eauto.
  - right. eexists. eapply step_serve; eauto.
  - right. eexists. eapply step_closed; eauto.
  - by left.
Qed.

Lemma not_all_returned svs :
  returned svs < length svs -> exists i sv, svs !! i = Some sv /\ has_returned sv = false.
Proof.
  unfold returned. induction svs as [|sv svs IH]; [simpl; lia|]. rewrite filter_cons. intros Hl.
  destruct (has_returned sv) eqn:Hr; [|by exists 0, sv].
  destruct IH as (i & sv' & Hi & Hr'); [simpl in Hl; lia|]. by exists (S i), sv'.
Qed.

(** The only state that waits for the environment: all servers serve. *)
Definition idle (st : state) : Prop :=
  st_main st = Selecting /\ st_cancelled st = false /\ st_results st = [] /\
  Forall (fun sv => sv_routine sv = Serving) (st_servers st).

Lemma none_returned svs sv : returned svs = 0 -> sv ∈ svs -> has_returned sv = false.
Proof.
  unfold returned. intros Hz Hin. destruct (has_returned sv) eqn:Hr; [|done].
  assert (sv ∈ filter (fun sv => has_returned sv = true) svs) as Hf by (by apply list_elem_of_filter).
  by destruct (filter _ svs); [apply elem_of_nil in Hf|].
Qed.

Definition is_serving (sv : server_state) : bool :=
  match sv_routine sv with Serving => true | _ => false end.

Lemma selecting_progress names st :
  invariant names st -> st_main st = Selecting ->
  idle st \/ exists a st', a <> Environment /\ step a st st'.
Proof.
  intros Hinv Hm. destruct (st_results st) as [|[name r] rest] eqn:Hres.
  2:{ right. exists MainRoutine. eexists. split; [done|]. by eapply step_first_result. }
  destruct (st_cancelled st) eqn:Hc.
  { right. exists MainRoutine. eexists. split; [done|]. by apply step_context_done. }
  pose proof (inv_count _ _ Hinv) as Hcount. rewrite (inv_select _ _ Hinv Hm), Hres in Hcount.
  destruct (decide (Forall (fun sv => is_serving sv = true) (st_servers st))) as [HF|HF].
  { left. split_and!; [done..|]. eapply Forall_impl; [exact HF|]. intros sv. unfold is_serving.
    by destruct (sv_routine sv). }
  right. apply not_Forall_Exists, Exists_exists in HF as (sv & Hin & Hns); [|apply _].
  pose proof (none_returned _ _ (eq_sym Hcount) Hin) as Hnr.
  apply list_elem_of_lookup in Hin as [i Hi].
  destruct (step_goroutine st i sv Hi Hnr) as [[Hs _]|[st' Hst]].
  - rewrite Hres. simpl. by apply lookup_lt_Some in Hi as ?; lia.
  - destruct Hns. unfold is_serving. by rewrite Hs.
  - by exists (Goroutine i), st'.
Qed.

Lemma draining_progress names st :
  invariant names st -> st_main st = Draining -> exists a st', a <> Environment /\ step a st st'.
Proof.
  intros Hinv Hm. destruct (decide (st_received st < length (st_servers st))) as [Hlt|Hge].
  2:{ exists MainRoutine. eexists. split; [done|]. by apply step_finish. }
  destruct (st_results st) as [|[name r] rest] eqn:Hres.
  2:{ exists MainRoutine. eexists. split; [done|]. by eapply step_next_result. }
  pose proof (inv_count _ _ Hinv) as Hcount. rewrite Hres in Hcount. simpl in Hcount.
  destruct (not_all_returned (st_servers st)) as (i & sv & Hi & Hnr); [lia|].
  destruct (step_goroutine st i sv Hi Hnr) as [[_ Hflag]|[st' Hst]].
  - rewrite Hres. simpl. lia.
  - rewrite (inv_flags _ _ Hinv _ _ Hi), Hm in Hflag. apply bool_decide_eq_false in Hflag.
    apply lookup_lt_Some in Hi. rewrite (invariant_length _ _ Hinv) in Hi. done.
  - by exists (Goroutine i), st'.
Qed.

(** In every state of the program it is finished, waits for work or can go on. *)
Lemma progress names st :
  invariant names st ->
  st_main st = Finished \/ idle st \/ exists a st', a <> Environment /\ step a st st'.
Proof.
  intros Hinv. destruct (st_main st) as [|k|k| |] eqn:Hm; [| | | |by left].
  - right. by eapply selecting_progress.
  - right; right. exists MainRoutine. destruct (st_servers st !! k) as [sv|] eqn:Hk; eexists;
      (split; [done|]); [by eapply step_shutdown|by eapply step_all_shut_down].
  - right; right. exists MainRoutine. eexists. split; [done|]. by apply step_close.
  - right; right. by eapply draining_progress.
Qed.

(** ** Termination *)

Definition routine_weight (r : routine) : nat :=
  match r with Pending => 2 | Serving => 1 | Returned _ => 0 end.

Definition servers_weight (svs : list server_state) : nat :=
  sum_list ((fun sv => routine_weight (sv_routine sv)) <$> svs).

Definition main_weight (n received : nat) (pc : program_counter) : nat :=
  match pc with
  | Selecting => 3 * n + 3
  | ShuttingDown k => 2 * (n - k) + n + 2
  | Closing k => 2 * (n - k) + n + 1
  | Draining => n - received + 1
  | Finished => 0
  end.

Definition measure (n : nat) (st : state) : nat :=
  weight (negb (st_cancelled st)) + servers_weight (st_servers st) +
  main_weight n (st_received st) (st_main st).

Lemma servers_weight_insert (svs : list server_state) (i : nat) sv sv' :
  svs !! i = Some sv ->
  servers_weight (<[i := sv']> svs) + routine_weight (sv_routine sv) =
  servers_weight svs + routine_weight (sv_routine sv').
Proof.
  unfold servers_weight. revert i. induction svs as [|x svs IH]; intros [|i] Hi; simplify_eq/=; [lia|].
  specialize (IH i Hi). lia.
Qed.

Lemma step_measure names st st' :
  invariant names st -> any_step st st' ->
  measure (length names) st' < measure (length names) st.
Proof.
  intros Hinv [a Hstep]. pose proof (inv_shut _ _ Hinv) as Hshut.
  pose proof (invariant_length _ _ Hinv) as Hlen. unfold measure.
  destruct Hstep; simpl;
    repeat match goal with
    | Hm : st_main _ = _ |- _ => rewrite Hm in *; clear Hm
    | Hc : st_cancelled _ = _ |- _ => rewrite Hc in *; clear Hc
    | Hi : st_servers _ !! ?i = Some ?sv |- context [<[?i := ?sv']> _] =>
        pose proof (servers_weight_insert _ _ _ sv' Hi); apply lookup_lt_Some in Hi; simpl in *
    | Hr : sv_routine _ = _ |- _ => rewrite Hr in *; clear Hr
    | Hr : _ \/ _ |- _ => destruct Hr
    | Hk : _ !! _ = None |- _ => apply lookup_ge_None in Hk
    end; simpl in *; try lia.
Qed.

Lemma run_bounded names st st' m :
  invariant names st -> nsteps any_step m st st' -> m <= measure (length names) st.
Proof.
  intros Hinv Hrun. induction Hrun as [st|m st st1 st2 Hstep _ IH]; [lia|].
  pose proof (step_measure _ _ _ Hinv Hstep).
  assert (m <= measure (length names) st1) by (apply IH; by eapply step_invariant). lia.
Qed.

Lemma init_weight names : servers_weight (st_servers (init names)) = 2 * length names.
Proof.
  unfold servers_weight. cbn [init st_servers]. rewrite <- list_fmap_compose.
  induction names as [|n names IH]; [done|]. rewrite fmap_cons. simpl in *. lia.
Qed.

(** ** Properties *)

Lemma finished_state names st :
  reachable names st -> st_main st = Finished ->
  st_received st = length names /\ st_results st = [] /\
  Forall (fun sv => has_returned sv = true /\ sv_shutdown sv = true /\ sv_listening sv = false)
    (st_servers st) /\
  (forall sv err, sv ∈ st_servers st -> sv_routine sv = Returned (Some (ServeError err)) ->
     ServeFailed (sv_name sv) err ∈ st_errors st) /\
  (st_errors st = [] -> st_cancelled st = true).
Proof.
  intros Hinv%reachable_invariant Hm. pose proof (invariant_length _ _ Hinv) as Hlen.
  pose proof (inv_finished _ _ Hinv Hm) as Hrec. pose proof (inv_count _ _ Hinv) as Hcount.
  pose proof (returned_le (st_servers st)) as Hle.
  assert (st_results st = []) as Hres by (apply length_zero_iff_nil; lia).
  rewrite Hres in Hcount. simpl in Hcount.
  assert (Forall (fun sv => has_returned sv = true) (st_servers st)) as Hall
    by (apply returned_all; lia).
  split_and!; [done|done| | |].
  - apply Forall_lookup. intros i sv Hi. pose proof (Forall_lookup_1 _ _ _ _ Hall Hi) as Hr.
    split_and!; [done| |].
    + rewrite (inv_flags _ _ Hinv _ _ Hi), Hm. apply bool_decide_eq_true.
      apply lookup_lt_Some in Hi. simpl. lia.
    + pose proof (Forall_lookup_1 _ _ _ _ (inv_servers _ _ Hinv) Hi) as Hok.
      unfold server_ok, has_returned in *. by destruct (sv_routine sv).
  - intros sv err [i Hi]%list_elem_of_lookup Hr.
    destruct (inv_failures _ _ Hinv _ _ _ Hi Hr) as [Hin|Hin]; [|done].
    rewrite Hres in Hin. by apply elem_of_nil in Hin.
  - apply (inv_clean _ _ Hinv). by rewrite Hm.
Qed.

(** A finished shutdown is complete.  When [ServeUntilShutdown] returns,
    every server was told to shut down, every serving goroutine has returned and
    its result was received, and every listener is closed; the failure of every
    server is part of the returned error; and [nil] is returned only if the
    context was cancelled. *)
Theorem finished_is_clean names st :
  reachable names st -> st_main st = Finished ->
  st_received st = length names /\ st_results st = [] /\
  Forall (fun sv => has_returned sv = true /\ sv_shutdown sv = true /\ sv_listening sv = false)
    (st_servers st) /\
  (forall sv err, sv ∈ st_servers st -> sv_routine sv = Returned (Some (ServeError err)) ->
     ServeFailed (sv_name sv) err ∈ st_errors st) /\
  (st_errors st = [] -> st_cancelled st = true).
Proof. apply finished_state. Qed.

(** C23: no deadlock: at every point the program has finished, or all servers
    serve while it waits for a failure or the cancellation, or one of its own
    goroutines can go on.  In particular no send to the result channel ever
    blocks for good. *)
Theorem no_deadlock names st :
  reachable names st ->
  st_main st = Finished \/ idle st \/ exists a st', a <> Environment /\ step a st st'.
Proof. intros Hinv%reachable_invariant. by eapply progress. Qed.

(** C22: shutting down terminates.  Every run of [n] servers has at most [5 * n + 4]
    steps, and a run that can go on no more, after the context was cancelled, has
    finished. *)
Theorem shutdown_terminates names st m :
  nsteps any_step m (init names) st ->
  m <= 5 * length names + 4 /\
  (st_cancelled st = true -> (forall a st', step a st st' -> a = Environment) ->
   st_main st = Finished).
Proof.
  intros Hrun. split.
  - pose proof (run_bounded _ _ _ _ (init_invariant names) Hrun) as Hm.
    unfold measure in Hm. rewrite init_weight in Hm. simpl in Hm. lia.
  - intros Hc Hstuck. assert (reachable names st) as Hr by (eapply rtc_nsteps_2; exact Hrun).
    apply reachable_invariant, progress in Hr as [?|[(_ & Hc' & _)|(a & st' & Ha & Hst)]];
      [done|congruence|]. by apply Hstuck in Hst.
Qed.

End Lifecycle.
Arguments serve_error : clear implicits.
Arguments lifecycle_error : clear implicits.
Arguments routine : clear implicits.
Arguments server_state : clear implicits.
Arguments state : clear implicits.

(** ** The metrics server

    [NewMetricsServer]: promhttp's handler is a parameter. *)
Section MetricsServer.
Context {W : Type}.

Definition serveMetricsHealth : @Http.Handler W := fun request writer w =>
  if negb (String.eqb (Http.Method request) Http.MethodGet) then
    (Http.WriteHeader Http.StatusMethodNotAllowed (Http.set_header "Allow" Http.MethodGet writer), w)
  else
    (Http.Write (dquote "{'status':'healthy'}" +:+ String LF "")
       (Http.set_header "Content-Type" "application/json" writer), w).

Definition metrics_router (promhttp_HandlerFor : @Http.Handler W) : @Http.mux (@Http.Handler W) := [
  Http.handle_func "/metrics" promhttp_HandlerFor;
  Http.handle_func "/healthz" serveMetricsHealth
].

(** The server of [NewMetricsServer(address, gatherer)], and its handler. *)
Definition metricsServer (address : string) : http_Server :=
  {| Addr := address; ReadHeaderTimeout := 5 * Second; ReadTimeout := 15 * Second;
     WriteTimeout := 15 * Second; IdleTimeout := 60 * Second; MaxHeaderBytes := maxMetricsHeaderBytes |}.

Definition NewMetricsServer (redirect : string -> Http.Request -> Http.ResponseWriter -> Http.ResponseWriter)
    (promhttp_HandlerFor : @Http.Handler W) : @Http.Handler W :=
  Http.mux_serve redirect (metrics_router promhttp_HandlerFor).

Lemma metrics_routed prom r h :
  Http.well_formed r -> Http.URL_Path r <> "*" ->
  Http.find_handler (metrics_router prom) r = Http.Handle h ->
  Http.URL_Path r = "/metrics" /\ h = prom \/ Http.URL_Path r = "/healthz" /\ h = serveMetricsHealth.
Proof.
  intros Hwf Hstar Hf. destruct (Http.find_handler_sound _ _ _ Hwf Hstar Hf) as (p & Hin & Hp & Hr & _).
  destruct Hwf as [Hu _]. destruct Hr as [He|Hroot].
  { rewrite He in Hp. repeat (apply elem_of_cons in Hin as [[= -> ->]|Hin]);
      [inversion Hp..|by apply elem_of_nil in Hin]. }
  pose proof (fun segs => Http.segments_path_exact segs _ _ Hu Hroot) as Hexact.
  repeat (apply elem_of_cons in Hin as [[= -> ->]|Hin]); [..|by apply elem_of_nil in Hin];
    simpl in Hp; Http.invert_matches; [left|right]; (split; [|done]).
  - by rewrite (Hexact ["metrics"]); [|done|repeat constructor].
  - by rewrite (Hexact ["healthz"]); [|done|repeat constructor].
Qed.

(** The internal metrics listener exposes metrics and health, nothing else:
    the metrics handler runs only for the path [/metrics]; a request answered 200
    otherwise is a GET of [/healthz]; everything else gets an error or a redirect
    and no request but [/metrics] has an effect. *)
Theorem metrics_listener_confined redirect prom r w s :
  Http.well_formed r -> Http.URL_Path r <> "/metrics" -> Http.rw_sent w = None ->
  (forall p w0, Http.rw_sent w0 = None ->
     (300 <= Http.response_status (redirect p r w0) < 400)%Z) ->
  let '(w', s') := NewMetricsServer redirect prom r w s in
  s' = s /\
  (Http.response_status w' = Http.StatusOK ->
   Http.Method r = Http.MethodGet /\ Http.URL_Path r = "/healthz").
Proof.
  intros Hwf Hpath Hw Hredirect. unfold NewMetricsServer, Http.mux_serve.
  destruct (String.eqb_spec (Http.URL_Path r) "*") as [|Hstar].
  { split; [done|]. destruct (Http.ProtoAtLeast_1_1 r); rewrite Http.response_status_WriteHeader by done; done. }
  destruct (Http.find_handler _ r) as [h|p|ms|] eqn:Hf; [|split; [done|]..].
  - destruct (metrics_routed _ _ _ Hwf Hstar Hf) as [[? _]|[Hp ->]]; [done|].
    unfold serveMetricsHealth. destruct (String.eqb_spec (Http.Method r) Http.MethodGet); simpl; [done|].
    split; [done|]. by rewrite Http.response_status_WriteHeader.
  - intros Hs. pose proof (Hredirect p w Hw) as Hr. rewrite Hs in Hr. unfold Http.StatusOK in Hr. lia.
  - by rewrite Http.http_error_status.
  - by rewrite Http.http_error_status.
Qed.
End MetricsServer.

(** ** Witnesses *)

Definition names_example : list string := ["public API"; "internal metrics"].

Lemma startup_all_or_nothing_witness :
  let servers := [{| ns_Name := "public API"; ns_Server := Some (metricsServer ":8080") |};
                  {| ns_Name := "internal metrics"; ns_Server := Some (metricsServer ":9090") |}] in
  let fails := fun (addr : string) (_ : os) => if String.eqb addr ":9090" then Some tt else None in
  let o := {| os_open := {[0]}; os_next := 1 |} in
  let '(res, o') := listen_all fails servers o in
  res = Err (ListenFailed "internal metrics" tt) /\ os_open o' = {[0]}.
Proof.
  cbv zeta.
  pose proof (startup_all_or_nothing
    (fun (addr : string) (_ : os) => if String.eqb addr ":9090" then Some tt else None)
    [{| ns_Name := "public API"; ns_Server := Some (metricsServer ":8080") |};
     {| ns_Name := "internal metrics"; ns_Server := Some (metricsServer ":9090") |}]
    {| os_open := {[0]}; os_next := 1 |}) as Hs.
  simpl in Hs. split; [done|]. apply Hs. intros l. simpl. intros Hl%elem_of_singleton. lia.
Defined.

(** Cancelled while one server serves and the other goroutine has not started. *)
Lemma graceful_run {E : Type} :
  exists st : state E, nsteps any_step 11 (init names_example) st /\
    st_main st = Finished /\ st_cancelled st = true /\ st_errors st = [].
Proof.
  eexists. split.
  { eapply nsteps_l; [exists (Goroutine 0); eapply step_serve; reflexivity|].
    eapply nsteps_l; [exists Environment; apply step_cancel; reflexivity|].
    eapply nsteps_l; [exists MainRoutine; apply step_context_done; reflexivity|].
    eapply nsteps_l; [exists MainRoutine; eapply step_shutdown; reflexivity|].
    eapply nsteps_l; [exists (Goroutine 0); eapply step_closed; [reflexivity|by right|reflexivity|simpl; lia]|].
    eapply nsteps_l; [exists MainRoutine; eapply step_shutdown; reflexivity|].
    eapply nsteps_l; [exists MainRoutine; eapply step_all_shut_down; reflexivity|].
    eapply nsteps_l; [exists MainRoutine; eapply step_next_result; [reflexivity|simpl; lia|reflexivity]|].
    eapply nsteps_l; [exists (Goroutine 1); eapply step_closed; [reflexivity|by left|reflexivity|simpl; lia]|].
    eapply nsteps_l; [exists MainRoutine; eapply step_next_result; [reflexivity|simpl; lia|reflexivity]|].
    eapply nsteps_l; [exists MainRoutine; eapply step_finish; [reflexivity|simpl; lia]|].
    apply nsteps_O. }
  done.
Qed.

Lemma finished_is_clean_witness :
  exists st : state unit, st_main st = Finished /\ st_errors st = [] /\
    st_received st = 2 /\ st_results st = [].
Proof.
  destruct (@graceful_run unit) as (st & Hrun & Hm & _ & He). exists st.
  destruct (finished_is_clean names_example st) as (Hr & Hres & _).
  - eapply rtc_nsteps_2. exact Hrun.
  - exact Hm.
  - done.
Defined.

Lemma no_deadlock_witness :
  st_main (init (E:=unit) names_example) = Finished \/ idle (init (E:=unit) names_example) \/
  exists a st', a <> Environment /\ step a (init (E:=unit) names_example) st'.
Proof. apply (no_deadlock names_example). apply rtc_refl. Defined.

Lemma shutdown_terminates_witness :
  exists st : state unit, nsteps any_step 11 (init names_example) st /\ 11 <= 5 * length names_example + 4.
Proof.
  destruct (@graceful_run unit) as (st & Hrun & _). exists st. split; [exact Hrun|].
  exact (proj1 (shutdown_terminates names_example st 11 Hrun)).
Defined.

Definition unknown_metrics_path : Http.Request :=
  {| Http.Method := Http.MethodGet; Http.URL_Path := "/debug/pprof"; Http.URL_EscapedPath := "/debug/pprof";
     Http.URL_RawQuery := ""; Http.Header := ∅; Http.Body := ""; Http.BodyEnd := Json.EOF;
     Http.ProtoAtLeast_1_1 := true |}.

Lemma metrics_listener_confined_witness :
  let redirect := fun (p : string) (r : Http.Request) (w : Http.ResponseWriter) =>
    Http.WriteHeader 301 w in
  let prom := fun (r : Http.Request) (w : Http.ResponseWriter) (n : nat) =>
    (Http.WriteHeader 200 w, S n) in
  let '(w', s') := NewMetricsServer redirect prom unknown_metrics_path Http.new_writer 7 in
  s' = 7 /\
  (Http.response_status w' = Http.StatusOK ->
   Http.Method unknown_metrics_path = Http.MethodGet /\
   Http.URL_Path unknown_metrics_path = "/healthz").
Proof.
  apply metrics_listener_confined.
  - split; [reflexivity|]. right; right. reflexivity.
  - discriminate.
  - reflexivity.
  - intros p w Hw. rewrite Http.response_status_WriteHeader by exact Hw. lia.
Defined.
End Server.
