(* ===== verification/Telemetry.v ===== *)
(** * Request telemetry (internal/telemetry/http.go, metrics.go)

    The middleware around every handler: request identifiers, access logs,
    metrics and spans.  What it reports to Prometheus, OpenTelemetry and the
    logger is a trace of [event]s.  A handler is seen as the middleware sees it:
    the sequence of calls it makes on its response writer, and whether it
    panicked; [ApiTelemetry] connects that view to the API's handler.

    Clocks, random bytes and the identity of the span are inputs ([environment]).
    Writes are taken to succeed, and informational (1xx) statuses are not
    modelled. *)

From Stdlib Require Import ZArith Lia.
From S2P Require Import Prelude GoStrings Json Http.
Import Http.

#[local] Set Warnings "-clear-no-such-hyp".

Module Telemetry.

(** ** Bounding what clients send *)

Definition RequestIDHeader : string := "X-Request-ID".
Definition MaxRequestIDLength : nat := 64.
Definition unknownRoute : string := "unknown".

Definition request_id_char (c : ascii) : bool :=
  is_lower c || is_upper c || is_digit c || contains_byte "-_.:" c.

Definition validRequestID (value : string) : bool :=
  if String.eqb value "" || (MaxRequestIDLength <? String.length value)%nat then false
  else sforall request_id_char value.

(** [random] is the outcome of [rand.Read] on 16 bytes. *)
Definition requestID {E : Type} (random : result E string) (values : list string) : result E string :=
  let generate :=
    match random with
    | Err err => Err err
    | Ok identifier => Ok (hex_encode identifier)
    end in
  match values with
  | [value] => if validRequestID value then Ok value else generate
  | _ => generate
  end.

Definition safeRoute (route : string) : string :=
  if String.eqb route "" || (128 <? String.length route)%nat then unknownRoute
  else if sforall (fun c => negb ((N_of_ascii c <=? 32)%N || (127 <=? N_of_ascii c)%N)) route
  then route else unknownRoute.

Definition known_methods : list string :=
  ["CONNECT"; "DELETE"; "GET"; "HEAD"; "OPTIONS"; "PATCH"; "POST"; "PUT"; "TRACE"].

Definition normalizedMethod (method : string) : string :=
  if bool_decide (method ∈ known_methods) then method else "OTHER".

(** ** The response recorder *)

Record responseRecorder : Type := {
  rec_ResponseWriter : ResponseWriter;
  rec_status : Z;
  rec_bytesWritten : nat;
}.

Definition new_recorder (w : ResponseWriter) : responseRecorder :=
  {| rec_ResponseWriter := w; rec_status := 0; rec_bytesWritten := 0 |}.

Definition rec_WriteHeader (statusCode : Z) (recorder : responseRecorder) : responseRecorder :=
  if negb (rec_status recorder =? 0)%Z then recorder
  else {| rec_ResponseWriter := WriteHeader statusCode (rec_ResponseWriter recorder);
          rec_status := statusCode; rec_bytesWritten := rec_bytesWritten recorder |}.

Definition rec_Write (body : string) (recorder : responseRecorder) : responseRecorder :=
  let recorder :=
    if (rec_status recorder =? 0)%Z then rec_WriteHeader StatusOK recorder else recorder in
  {| rec_ResponseWriter := Write body (rec_ResponseWriter recorder);
     rec_status := rec_status recorder;
     rec_bytesWritten := rec_bytesWritten recorder + String.length body |}.

Definition rec_statusCode (recorder : responseRecorder) : Z :=
  if (rec_status recorder =? 0)%Z then StatusOK else rec_status recorder.

(** [Header()] is promoted from the embedded writer. *)
Definition rec_set_header (k v : string) (recorder : responseRecorder) : responseRecorder :=
  {| rec_ResponseWriter := set_header k v (rec_ResponseWriter recorder);
     rec_status := rec_status recorder; rec_bytesWritten := rec_bytesWritten recorder |}.

(** What a handler does with its writer. *)
Inductive writer_call : Type :=
| CallSetHeader (k v : string)
| CallWriteHeader (statusCode : Z)
| CallWrite (body : string).

Definition on_writer (c : writer_call) (w : ResponseWriter) : ResponseWriter :=
  match c with
  | CallSetHeader k v => set_header k v w
  | CallWriteHeader st => WriteHeader st w
  | CallWrite b => Write b w
  end.

Definition on_recorder (c : writer_call) (recorder : responseRecorder) : responseRecorder :=
  match c with
  | CallSetHeader k v => rec_set_header k v recorder
  | CallWriteHeader st => rec_WriteHeader st recorder
  | CallWrite b => rec_Write b recorder
  end.

Definition run_writer (cs : list writer_call) (w : ResponseWriter) : ResponseWriter :=
  foldl (fun w c => on_writer c w) w cs.

Definition run_recorder (cs : list writer_call) (recorder : responseRecorder) : responseRecorder :=
  foldl (fun r c => on_recorder c r) recorder cs.

(** ** Metrics and events *)

(** The label values of one request's series. *)
Inductive event : Type :=
| InFlightInc (method route : string)
| InFlightDec (method route : string)
| RequestsInc (method route statusClass : string)
| DurationObserve (method route statusClass : string)
| SpanStart (name method route : string)
| SpanStatusCode (statusCode : Z)
| SpanError
| SpanEnd
| LogHandled (service request_id method route : string) (statusCode : Z) (response_size : nat)
    (trace_id : option string).

Definition requestStarted (method route : string) : list event := [InFlightInc method route].

Definition statusClass (statusCode : Z) : string := Itoa (Z.quot statusCode 100) +:+ "xx".

Definition requestFinished (method route : string) (recorder : responseRecorder) : list event :=
  let class := statusClass (rec_statusCode recorder) in
  [InFlightDec method route; RequestsInc method route class; DurationObserve method route class].

(** ** The middleware *)
Section Middleware.
Context {W E : Type}.

Record environment : Type := {
  env_random : result E string;
  env_trace_id : option string;  (* of a valid span context *)
}.

Record HTTPHandlerOptions : Type := {
  ServiceName : string;
  with_Metrics : bool;           (* a nil Metrics reports nothing *)
  RouteNormalizer : option (Request -> string);
}.

(** A handler as the middleware sees it: given the request identifier of its
    context, the calls on its writer and whether it panicked. *)
Definition observed_handler : Type := string -> Request -> W -> list writer_call * bool * W.

Definition internal_error_body : string :=
  dquote "{'error':'internal server error'}" +:+ String LF "".

(** [NewHTTPHandler]: the response, the world, the events, and whether the panic
    of the handler goes on to the server. *)
Definition NewHTTPHandler (next : observed_handler) (options : HTTPHandlerOptions)
    (env : environment) (request : Request) (writer : ResponseWriter) (w : W)
    : ResponseWriter * W * list event * bool :=
  let normalizeRoute := default (fun _ => unknownRoute) (RouteNormalizer options) in
  match requestID (env_random env) (header_values (Header request) RequestIDHeader) with
  | Err _ =>
      (Write internal_error_body
         (WriteHeader StatusInternalServerError
           (set_header "Content-Type" "application/json" writer)), w, [], false)
  | Ok id =>
      let writer := set_header RequestIDHeader id writer in
      let route := safeRoute (normalizeRoute request) in
      let method := normalizedMethod (Method request) in
      let start := [SpanStart (method +:+ " " +:+ route) method route] in
      let started := if with_Metrics options then requestStarted method route else [] in
      let '(calls, panicked, w') := next id request w in
      let recorder := run_recorder calls (new_recorder writer) in
      let statusCode := rec_statusCode recorder in
      let finished := if with_Metrics options then requestFinished method route recorder else [] in
      let status := SpanStatusCode statusCode ::
        (if (StatusInternalServerError <=? statusCode)%Z then [SpanError] else []) in
      let log := [LogHandled (ServiceName options) id method route statusCode
                    (rec_bytesWritten recorder) (env_trace_id env)] in
      (rec_ResponseWriter recorder, w', start ++ started ++ finished ++ status ++ log ++ [SpanEnd],
       panicked)
  end.

(** [RequestIDFromContext] *)
Definition RequestIDFromContext (value : option string) : string := default "" value.
End Middleware.
Arguments environment : clear implicits.

(** ** Facts: request identifiers *)

Lemma request_id_hex s : sforall request_id_char (hex_encode s) = true.
Proof.
  induction s as [|c s IH]; [done|]. cbn [hex_encode sforall].
  assert (forall n, (n < 16)%N -> request_id_char (hex_char n) = true) as Hhex.
  { intros n Hn. assert (n ∈ [0;1;2;3;4;5;6;7;8;9;10;11;12;13;14;15]%N) as Hin
      by (rewrite !elem_of_cons; lia).
    repeat (apply elem_of_cons in Hin as [->|Hin]; [reflexivity|]). by apply elem_of_nil in Hin. }
  pose proof (N_ascii_bounded c).
  rewrite !Hhex, IH; [done|apply N.mod_lt; lia|apply N.Div0.div_lt_upper_bound; lia].
Qed.

Lemma generated_id_valid s : String.length s = 16 -> validRequestID (hex_encode s) = true.
Proof.
  intros Hs. pose proof (hex_encode_length s) as Hl. rewrite Hs in Hl. unfold validRequestID.
  rewrite Hl, request_id_hex. by destruct (hex_encode s).
Qed.

(** Request identifiers are safe to log and to echo.  Whatever
    X-Request-ID headers a client sends, the identifier in use is 1 to 64
    letters, digits, dashes, underscores, dots and colons; it is the client's
    own exactly when the client sent one header with such a value, and 32 random
    hexadecimal digits otherwise; without random bytes a valid client identifier
    still works. *)
Theorem requestID_safe {E : Type} (random : result E string) values :
  (forall s, random = Ok s -> String.length s = 16) ->
  match requestID random values with
  | Ok id =>
      1 <= String.length id <= MaxRequestIDLength /\ sforall request_id_char id = true /\
      (values = [id] \/
       (forall v, values = [v] -> validRequestID v = false) /\
       exists s, random = Ok s /\ id = hex_encode s)
  | Err err => random = Err err /\ forall v, values = [v] -> validRequestID v = false
  end.
Proof.
  intros Hrandom.
  assert (forall id, validRequestID id = true ->
    1 <= String.length id <= MaxRequestIDLength /\ sforall request_id_char id = true) as Hvalid.
  { intros id. unfold validRequestID. destruct (_ || _) eqn:Hb; [done|]. bools.
    destruct id; [done|]. rewrite Nat.ltb_ge in *. simpl in *. split; [lia|done]. }
  assert (forall gen, match random with Err err => Err err | Ok i => Ok (hex_encode i) end = gen ->
    (forall v, values = [v] -> validRequestID v = false) ->
    match gen with
    | Ok id => 1 <= String.length id <= MaxRequestIDLength /\ sforall request_id_char id = true /\
        (values = [id] \/ (forall v, values = [v] -> validRequestID v = false) /\
         exists s, random = Ok s /\ id = hex_encode s)
    | Err err => random = Err err /\ forall v, values = [v] -> validRequestID v = false
    end) as Hgen.
  { intros gen <- Hv. destruct random as [s|err]; [|done].
    destruct (Hvalid (hex_encode s)) as [? ?]; [by apply generated_id_valid, Hrandom|]. eauto 10. }
  unfold requestID. destruct values as [|v [|v' vs]]; [by apply Hgen| |by apply Hgen].
  destruct (validRequestID v) eqn:Hv; [|apply Hgen; [done|by intros ? [= <-]]].
  destruct (Hvalid v Hv). auto.
Qed.

(** ** Facts: the recorder *)

(** The recorder never changes what the client sees, and knows it. *)
Record recorder_sound (w0 w : ResponseWriter) (recorder : responseRecorder) : Prop := {
  sound_writer : rec_ResponseWriter recorder = w;
  sound_status : rec_statusCode recorder = response_status w;
  sound_sent : (rec_status recorder = 0)%Z <-> rw_sent w = None;
  sound_bytes : String.length (rw_body w) = String.length (rw_body w0) + rec_bytesWritten recorder;
}.

Lemma on_recorder_sound w0 w recorder c :
  recorder_sound w0 w recorder ->
  (forall st, c = CallWriteHeader st -> (st <> 0)%Z) ->
  recorder_sound w0 (on_writer c w) (on_recorder c recorder).
Proof.
  intros [Hw Hst Hsent Hbytes] Hc. unfold rec_statusCode in Hst.
  destruct recorder as [w1 st n]. simpl in *. subst w1.
  destruct c as [k v|code|body]; simpl; unfold rec_set_header, rec_WriteHeader, rec_Write; simpl.
  - by constructor.
  - specialize (Hc code eq_refl). destruct (Z.eqb_spec st 0) as [->|Hne]; simpl.
    + destruct (rw_sent w) eqn:Hs; [by destruct Hsent as [Hn _]; specialize (Hn eq_refl)|].
      unfold WriteHeader. rewrite Hs. constructor; simpl; try done.
      unfold rec_statusCode. simpl. by rewrite (proj2 (Z.eqb_neq code 0)).
    + destruct (rw_sent w) as [[s h]|] eqn:Hs; [|by destruct Hne; apply Hsent].
      rewrite (WriteHeader_sent _ _ _ _ Hs). constructor; simpl; [done| |by rewrite Hs|done].
      unfold rec_statusCode. simpl. rewrite (proj2 (Z.eqb_neq st 0)) in * by done. done.
  - destruct (Z.eqb_spec st 0) as [->|Hne]; simpl.
    + destruct (rw_sent w) eqn:Hs; [by destruct Hsent as [Hn _]; specialize (Hn eq_refl)|].
      unfold Write, WriteHeader. rewrite Hs. simpl. constructor; simpl; try done.
      rewrite strlen_append. lia.
    + destruct (rw_sent w) as [[s h]|] eqn:Hs; [|by destruct Hne; apply Hsent].
      unfold Write. rewrite (WriteHeader_sent _ _ _ _ Hs). constructor; simpl; try done.
      * unfold rec_statusCode. simpl. rewrite (proj2 (Z.eqb_neq st 0)) by done.
        unfold response_status in *. simpl. rewrite Hs in *. done.
      * by rewrite Hs.
      * rewrite strlen_append. lia.
Qed.

Definition real_statuses (cs : list writer_call) : Prop :=
  Forall (fun c => forall st, c = CallWriteHeader st -> (st <> 0)%Z) cs.

Lemma run_recorder_sound cs w0 w recorder :
  recorder_sound w0 w recorder -> real_statuses cs ->
  recorder_sound w0 (run_writer cs w) (run_recorder cs recorder).
Proof.
  revert w recorder. induction cs as [|c cs IH]; intros w recorder Hs HF; [done|].
  apply Forall_cons in HF as [Hc HF]. apply IH; [|done]. by apply on_recorder_sound.
Qed.

Lemma new_recorder_sound w : rw_sent w = None -> recorder_sound w w (new_recorder w).
Proof.
  intros Hw. constructor; simpl; [done| |done|lia].
  unfold rec_statusCode, response_status. simpl. by rewrite Hw.
Qed.

(** ** The middleware is transparent and reports what it saw *)

Definition method_labels : list string := known_methods ++ ["OTHER"].

(** What the events of one request say, if they take its status to be [st]: its method and
    route, its status and its class, and how much was written. *)
Definition reports (options : HTTPHandlerOptions) (id : string) (r : Request)
    (w w' : ResponseWriter) (st : Z) (e : event) : Prop :=
  let method := normalizedMethod (Method r) in
  let route := safeRoute (default (fun _ => unknownRoute) (RouteNormalizer options) r) in
  match e with
  | InFlightInc m rt | InFlightDec m rt => m = method /\ rt = route
  | RequestsInc m rt class | DurationObserve m rt class =>
      m = method /\ rt = route /\ class = statusClass st
  | SpanStart name m rt => name = method +:+ " " +:+ route /\ m = method /\ rt = route
  | SpanStatusCode st' => st' = st
  | SpanError => (StatusInternalServerError <= st)%Z
  | SpanEnd => True
  | LogHandled service i m rt st' size _ =>
      service = ServiceName options /\ i = id /\ m = method /\ rt = route /\
      st' = st /\ String.length (rw_body w') = String.length (rw_body w) + size
  end.

Section MiddlewareFacts.
Context {W E : Type}.
Implicit Types (next : @observed_handler W) (env : environment E).

Lemma telemetry_reports next options env r w s id calls panicked s' :
  requestID (env_random env) (header_values (Header r) RequestIDHeader) = Ok id ->
  next id r s = (calls, panicked, s') -> rw_sent w = None -> real_statuses calls ->
  let w' := run_writer calls (set_header RequestIDHeader id w) in
  exists events,
    NewHTTPHandler next options env r w s = (w', s', events, panicked) /\
    Forall (reports options id r w w' (response_status w')) events /\
    SpanStatusCode (response_status w') ∈ events /\
    (SpanError ∈ events <-> (StatusInternalServerError <= response_status w')%Z).
Proof.
  intros Hid Hnext Hw Hcalls w'. unfold NewHTTPHandler. rewrite Hid, Hnext.
  assert (recorder_sound (set_header RequestIDHeader id w) w'
    (run_recorder calls (new_recorder (set_header RequestIDHeader id w)))) as [Hrw Hst _ Hbytes].
  { apply run_recorder_sound; [by apply new_recorder_sound|done]. }
  eexists. split; [by rewrite Hrw|]. rewrite Hst. unfold requestFinished. rewrite Hst.
  split; [|split; [destruct (with_Metrics options); cbn [app requestStarted]; rewrite !elem_of_cons; tauto|]].
  2:{ destruct (with_Metrics options), (Z.leb_spec StatusInternalServerError (response_status w'));
      cbn [app requestStarted]; rewrite !elem_of_cons, elem_of_nil; (split; [|tauto || lia]);
      intros; destruct_or?; try done; lia. }
  repeat (apply Forall_app; split).
  - by repeat constructor.
  - destruct (with_Metrics options); by repeat constructor.
  - destruct (with_Metrics options); by repeat constructor.
  - constructor; [done|]. destruct (Z.leb_spec StatusInternalServerError (response_status w'));
      by repeat constructor.
  - by repeat constructor.
  - by repeat constructor.
Qed.

(** C31: the middleware is transparent and reports what it saw.  Once there is a request
    identifier, and for a handler that sends no status 0, the response is what the handler
    makes of a writer that carries it, the world is what the handler makes of it, and a
    panic goes on.  Whether the handler returns or panics, the events carry the method,
    the route, the number of bytes written and one status [st]: the status of the header the handler sent, or 200 if it
    sent none; and the span is an error exactly if [st] is 500 or more.  So a handler that
    panics before it sends anything is reported as a success with status 200, although
    there is no response. *)
Theorem telemetry_transparent next options env r w s id calls panicked s' :
  requestID (env_random env) (header_values (Header r) RequestIDHeader) = Ok id ->
  next id r s = (calls, panicked, s') -> rw_sent w = None -> real_statuses calls ->
  let w' := run_writer calls (set_header RequestIDHeader id w) in
  exists st events,
    NewHTTPHandler next options env r w s = (w', s', events, panicked) /\
    Forall (reports options id r w w' st) events /\ SpanStatusCode st ∈ events /\
    (SpanError ∈ events <-> (StatusInternalServerError <= st)%Z) /\
    match rw_sent w' with
    | Some (sent, _) => st = sent
    | None => st = StatusOK
    end /\
    (panicked = true -> rw_sent w' = None -> SpanStatusCode StatusOK ∈ events /\ SpanError ∉ events).
Proof.
  intros Hid Hnext Hw Hcalls w'.
  destruct (telemetry_reports next options env r w s id calls panicked s' Hid Hnext Hw Hcalls)
    as (events & Hrun & Hr & Hst & Herr). fold w' in Hrun, Hr, Hst, Herr.
  exists (response_status w'), events. do 4 (split; [done|]). unfold response_status in *.
  split; [by destruct (rw_sent w') as [[]|]|]. intros _ Hnone. rewrite Hnone in *. split; [done|].
  rewrite Herr. unfold StatusInternalServerError, StatusOK. lia.
Qed.

(** ** Labels *)

Definition event_labels (e : event) : option (string * string) :=
  match e with
  | InFlightInc m rt | InFlightDec m rt | RequestsInc m rt _ | DurationObserve m rt _
  | SpanStart _ m rt | LogHandled _ _ m rt _ _ _ => Some (m, rt)
  | _ => None
  end.

Lemma normalizedMethod_bounded m : normalizedMethod m ∈ method_labels.
Proof.
  unfold normalizedMethod, method_labels. rewrite elem_of_app. case_bool_decide; [by left|].
  right. by left.
Qed.

Definition printable (c : ascii) : bool := (33 <=? N_of_ascii c)%N && (N_of_ascii c <=? 126)%N.

Lemma safeRoute_printable rt :
  sforall printable (safeRoute rt) = true /\ 1 <= String.length (safeRoute rt) <= 128 /\
  (safeRoute rt = rt \/ safeRoute rt = unknownRoute).
Proof.
  unfold safeRoute. destruct (_ || _) eqn:Hb; [vm_compute; split; [done|split; [lia|by right]]|].
  destruct (sforall _ rt) eqn:Hp; [|vm_compute; split; [done|split; [lia|by right]]].
  bools. rewrite Nat.ltb_ge in *. split; [|split; [|by left]].
  - revert Hp. apply sforall_impl. intros c. unfold printable.
    rewrite negb_true_iff, orb_false_iff, N.leb_gt, N.leb_gt, andb_true_iff, !N.leb_le. lia.
  - destruct rt; [done|]. simpl in *. lia.
Qed.

(** The label values that the middleware hands to the metrics are ASCII. *)
Definition label_values (e : event) : list string :=
  match e with
  | InFlightInc m rt | InFlightDec m rt => [m; rt]
  | RequestsInc m rt class | DurationObserve m rt class => [m; rt; class]
  | _ => []
  end.

Definition ascii_values (vs : list string) : Prop := Forall (fun v => sforall is_ascii v = true) vs.

Lemma statusClass_ascii st : sforall is_ascii (statusClass st) = true.
Proof. unfold statusClass. by rewrite sforall_append, Itoa_ascii. Qed.

Lemma normalizedMethod_ascii m : sforall is_ascii (normalizedMethod m) = true.
Proof.
  pose proof (normalizedMethod_bounded m) as Hin. revert Hin. generalize (normalizedMethod m). intros l.
  unfold method_labels, known_methods. cbn [app]. rewrite !elem_of_cons, elem_of_nil.
  by intros Hin; destruct_or? Hin; try subst l.
Qed.

Lemma safeRoute_ascii rt : sforall is_ascii (safeRoute rt) = true.
Proof.
  destruct (safeRoute_printable rt) as [Hp _]. revert Hp. apply sforall_impl. intros c.
  unfold printable, is_ascii. rewrite andb_true_iff, !N.leb_le, N.ltb_lt. lia.
Qed.

Lemma emitted_values next options env r w s :
  Forall (fun e => ascii_values (label_values e)) (NewHTTPHandler next options env r w s).1.2.
Proof.
  unfold NewHTTPHandler. destruct (requestID _ _) as [id|]; [|constructor].
  destruct (next id r s) as [[calls panicked] s']. cbn [fst snd].
  pose proof (normalizedMethod_ascii (Method r)) as Hm.
  pose proof (safeRoute_ascii (default (fun _ => unknownRoute) (RouteNormalizer options) r)) as Hrt.
  unfold requestStarted, requestFinished.
  match goal with |- context [statusClass ?st] => pose proof (statusClass_ascii st) as Hc end.
  repeat (apply Forall_app; split); repeat case_match; repeat constructor; done.
Qed.

(** C32: bounded cardinality.  Whatever method and path a client invents, the
    method label of every metric, span and log line is one of ten values and the
    route label is at most 128 printable characters without spaces, and one of
    the normaliser's values or [unknown]; so with a normaliser of [k] values
    there are at most [10 * (k + 1)] label pairs. *)
Theorem labels_bounded next options env r w s e m rt (routes : list string) :
  (forall normalize r, RouteNormalizer options = Some normalize -> normalize r ∈ routes) ->
  e ∈ (NewHTTPHandler next options env r w s).1.2 -> event_labels e = Some (m, rt) ->
  (m, rt) ∈ list_prod method_labels (unknownRoute :: routes) /\
  length (list_prod method_labels (unknownRoute :: routes)) = 10 * (length routes + 1) /\
  sforall printable rt = true /\ 1 <= String.length rt <= 128.
Proof.
  intros Hroutes He Hl. unfold NewHTTPHandler in He.
  destruct (requestID _ _) as [id|]; [|by apply elem_of_nil in He].
  destruct (next id r s) as [[calls panicked] s']. simpl in He.
  set (method := normalizedMethod (Method r)) in *.
  set (route := safeRoute (default (fun _ => unknownRoute) (RouteNormalizer options) r)) in *.
  assert (m = method /\ rt = route) as [-> ->].
  { unfold requestFinished, requestStarted in He. rewrite !elem_of_cons, !elem_of_app in He.
    destruct (with_Metrics options), (_ <=? _)%Z; simpl in He;
      rewrite ?elem_of_cons, ?elem_of_nil, ?list_elem_of_singleton in He;
      repeat match goal with
      | H : _ \/ _ |- _ => destruct H
      | H : False |- _ => destruct H
      | H : e = _ |- _ => subst e; simpl in Hl; try discriminate Hl
      | H : e ∈ _ |- _ => inversion H; clear H; subst; simpl in Hl
      end; by injection Hl as <- <-. }
  destruct (safeRoute_printable (default (fun _ => unknownRoute) (RouteNormalizer options) r))
    as (Hp & Hlen & Hsafe). fold route in Hp, Hlen, Hsafe.
  split_and!; [|rewrite length_prod; simpl; lia|done|lia|lia].
  apply list_elem_of_In, in_prod; apply list_elem_of_In; [apply normalizedMethod_bounded|].
  rewrite elem_of_cons. destruct Hsafe as [->| ->]; [|by left].
  destruct (RouteNormalizer options) as [normalize|] eqn:Hn; simpl; [right; by eapply Hroutes|by left].
Qed.
End MiddlewareFacts.

(** ** The in-flight gauge under concurrency *)

(** The effect of an event on the gauge with labels [m] and [rt]. *)
Definition gauge_delta (m rt : string) (e : event) : Z :=
  match e with
  | InFlightInc m' rt' => if bool_decide ((m', rt') = (m, rt)) then 1 else 0
  | InFlightDec m' rt' => if bool_decide ((m', rt') = (m, rt)) then -1 else 0
  | _ => 0
  end%Z.

Definition gauge (m rt : string) (tr : list event) : Z :=
  foldr (fun e z => gauge_delta m rt e + z)%Z 0%Z tr.

#[export] Instance event_eq_dec : EqDecision event.
Proof. solve_decision. Defined.

(** A request with these labels has started, and its end is still to come. *)
Definition in_flight (m rt : string) (rest : list event) : bool :=
  bool_decide (InFlightDec m rt ∈ rest) && bool_decide (InFlightInc m rt ∉ rest).

(** Concurrent requests: each step emits the next event of one of them. *)
Inductive schedule : list (list event) -> list event -> list (list event) -> Prop :=
| schedule_nil ts : schedule ts [] ts
| schedule_emit ts (i : nat) e t tr ts' :
    ts !! i = Some (e :: t) -> schedule (<[i := t]> ts) tr ts' -> schedule ts (e :: tr) ts'.

Definition count_in_flight (m rt : string) (ts : list (list event)) : nat :=
  length (filter (fun t => in_flight m rt t = true) ts).

(** The events of one request, whatever it is. *)
Definition request_trace (t : list event) : Prop :=
  exists (W E : Type) next options (env : environment E) r w (s : W),
    t = (NewHTTPHandler next options env r w s).1.2.

(** What is left of a request's events brings the gauge back down. *)
Definition settles (t : list event) : Prop :=
  forall n m rt, gauge m rt (drop n t) = (- Z.of_nat (if in_flight m rt (drop n t) then 1 else 0))%Z.

Lemma settles_drop n t : settles t -> settles (drop n t).
Proof. intros Hs k m rt. rewrite drop_drop. apply Hs. Qed.

Definition neutral (e : event) : bool :=
  match e with InFlightInc _ _ | InFlightDec _ _ => false | _ => true end.

Lemma neutral_in_flight m rt e t :
  neutral e = true -> gauge m rt (e :: t) = gauge m rt t /\ in_flight m rt (e :: t) = in_flight m rt t.
Proof.
  intros He. unfold in_flight. split; [by destruct e|].
  f_equal; apply bool_decide_ext; rewrite elem_of_cons; destruct e; naive_solver.
Qed.

Lemma settles_neutral ts : forallb neutral ts = true -> settles ts.
Proof.
  intros Hts n m rt. revert n. induction ts as [|e ts IH]; intros n; [by rewrite drop_nil|].
  simpl in Hts. apply andb_true_iff in Hts as [He Hts].
  destruct n as [|n]; [|by apply IH]. simpl drop.
  destruct (neutral_in_flight m rt e ts) as [-> ->]; [done|]. by apply (IH Hts 0).
Qed.

Lemma settles_cons e t : neutral e = true -> settles t -> settles (e :: t).
Proof.
  intros He Ht [|n] m rt; [|apply (Ht n)]. simpl drop.
  destruct (neutral_in_flight m rt e t) as [-> ->]; [done|]. apply (Ht 0).
Qed.

Lemma settles_in_flight m rt t :
  forallb neutral t = true -> settles (InFlightInc m rt :: InFlightDec m rt :: t).
Proof.
  intros Ht.
  assert (forall e, e ∈ t -> neutral e = true) as Hneutral.
  { intros e He. by eapply forallb_forall in Ht; [|by apply list_elem_of_In]. }
  assert (forall m' rt', gauge m' rt' t = 0%Z) as Hz.
  { intros m' rt'. clear Hneutral. induction t as [|e t IH]; [done|]. simpl in Ht. bools.
    simpl. rewrite IH by done. by destruct e. }
  assert (forall m' rt', InFlightInc m' rt' ∉ t) as Hni by (intros ?? He; by apply Hneutral in He).
  intros [|[|n]] m' rt'; [| |by apply (settles_neutral t)]; unfold in_flight; simpl drop; simpl gauge;
    rewrite Hz; destruct (decide ((m, rt) = (m', rt'))) as [[= -> ->]|Hne].
  - rewrite !bool_decide_eq_true_2 by done.
    rewrite (bool_decide_eq_false_2 (_ ∉ _)) by (intros Hn; apply Hn; by left).
    by rewrite andb_false_r.
  - rewrite bool_decide_eq_false_2 by done.
    rewrite (bool_decide_eq_false_2 (InFlightDec _ _ ∈ _)); [done|].
    rewrite !elem_of_cons. intros [|[[= <- <-]|He]]; [done|done|by apply Hneutral in He].
  - rewrite !bool_decide_eq_true_2; [done| |by left|done].
    rewrite elem_of_cons. intros [|He]; [done|by apply Hneutral in He].
  - rewrite bool_decide_eq_false_2 by done.
    rewrite (bool_decide_eq_false_2 (InFlightDec _ _ ∈ _)); [done|].
    rewrite !elem_of_cons. intros [[= <- <-]|He]; [done|by apply Hneutral in He].
Qed.

Lemma request_trace_settles t : request_trace t -> settles t.
Proof.
  intros (W & E & next & options & env & r & w & s & ->). unfold NewHTTPHandler.
  destruct (requestID _ _) as [id|]; [|by apply settles_neutral].
  destruct (next id r s) as [[calls panicked] s']. simpl.
  apply settles_cons; [done|]. unfold requestFinished. simpl.
  destruct (with_Metrics options); simpl.
  - apply settles_in_flight. simpl. by case_bool.
  - apply settles_neutral. simpl. by case_bool.
Qed.

Definition total_gauge (m rt : string) (ts : list (list event)) : Z :=
  foldr (fun t z => gauge m rt t + z)%Z 0%Z ts.

Lemma total_gauge_insert m rt (ts : list (list event)) (i : nat) e t :
  ts !! i = Some (e :: t) ->
  (total_gauge m rt (<[i := t]> ts) + gauge_delta m rt e = total_gauge m rt ts)%Z.
Proof.
  revert i. induction ts as [|t' ts IH]; intros [|i] Hi; simplify_eq/=; [lia|].
  specialize (IH i Hi). lia.
Qed.

Lemma schedule_gauge m rt ts tr ts' :
  schedule ts tr ts' -> (gauge m rt tr = total_gauge m rt ts - total_gauge m rt ts')%Z.
Proof.
  induction 1 as [ts|ts i e t tr ts' Hi _ IH]; simpl; [lia|].
  pose proof (total_gauge_insert m rt _ _ _ _ Hi). lia.
Qed.

Lemma schedule_settles ts tr ts' : schedule ts tr ts' -> Forall settles ts -> Forall settles ts'.
Proof.
  induction 1 as [|ts i e t tr ts' Hi _ IH]; [done|]. intros HF. apply IH. apply Forall_insert; [done|].
  pose proof (Forall_lookup_1 _ _ _ _ HF Hi) as Hs. apply (settles_drop 1 _ Hs).
Qed.

Lemma settled_total m rt ts :
  Forall settles ts -> total_gauge m rt ts = (- Z.of_nat (count_in_flight m rt ts))%Z.
Proof.
  unfold count_in_flight. induction 1 as [|t ts Ht _ IH]; [done|]. simpl. rewrite IH.
  rewrite filter_cons. pose proof (Ht 0 m rt) as Hg. rewrite drop_0 in Hg. rewrite Hg.
  destruct (in_flight m rt t); simpl; lia.
Qed.

Lemma request_trace_fresh m rt t : request_trace t -> in_flight m rt t = false.
Proof.
  intros (W & E & next & options & env & r & w & s & ->). unfold NewHTTPHandler.
  destruct (requestID _ _) as [id|]; [|done]. destruct (next id r s) as [[calls panicked] s'].
  set (route := safeRoute _). set (method := normalizedMethod _). unfold in_flight.
  destruct (decide ((m, rt) = (method, route))) as [[= -> ->]|Hne].
  - rewrite andb_false_iff. destruct (with_Metrics options); simpl.
    + right. apply bool_decide_eq_false. intros Hn. apply Hn. right. by left.
    + left. apply bool_decide_eq_false. rewrite !elem_of_cons. by case_bool; set_solver.
  - apply andb_false_iff. left. apply bool_decide_eq_false. simpl.
    unfold requestFinished. destruct (with_Metrics options), (_ <=? _)%Z; simpl;
      rewrite ?elem_of_cons, ?elem_of_nil; intros Hin;
      repeat match goal with H : _ \/ _ |- _ => destruct H end; simplify_eq; done.
Qed.

(** C30: the in-flight gauge is exact.  However the events of concurrent requests
    interleave, whatever the handlers answer and even if they panic, after any
    number of events the gauge of a label pair is the number of requests with
    these labels that have started and not finished; so it is never negative,
    and back to zero when all requests are done. *)
Theorem in_flight_gauge_exact ts tr ts' m rt :
  Forall request_trace ts -> schedule ts tr ts' ->
  gauge m rt tr = Z.of_nat (count_in_flight m rt ts') /\
  (Forall (fun t => t = []) ts' -> gauge m rt tr = 0%Z).
Proof.
  intros HF Hs.
  assert (Forall settles ts) as Hset by (eapply Forall_impl; [exact HF|apply request_trace_settles]).
  assert (gauge m rt tr = Z.of_nat (count_in_flight m rt ts')) as Hg.
  { rewrite (schedule_gauge m rt _ _ _ Hs), (settled_total m rt ts Hset).
    rewrite (settled_total m rt ts') by (by eapply schedule_settles).
    assert (count_in_flight m rt ts = 0) as ->; [|lia]. unfold count_in_flight.
    clear -HF. induction HF as [|t ts Ht _ IH]; [done|]. rewrite filter_cons.
    by rewrite (request_trace_fresh m rt t Ht). }
  split; [done|]. intros Hdone. rewrite Hg. unfold count_in_flight.
  clear -Hdone. induction Hdone as [|t ts -> _ IH]; [done|]. by rewrite filter_cons.
Qed.

(** ** Witnesses: a request with an unusable identifier and an unusual method,
    whose handler panics after it has written *)

Definition sample_request : Request :=
  {| Method := "BREW"; URL_Path := "/coffee"; URL_EscapedPath := "/coffee"; URL_RawQuery := "";
     Header := {["X-Request-Id" := ["not a valid id"]]}; Body := ""; BodyEnd := Json.EOF;
     ProtoAtLeast_1_1 := true |}.

Definition sample_env : environment unit :=
  {| env_random := Ok "0123456789abcdef"; env_trace_id := None |}.

Definition sample_options : HTTPHandlerOptions :=
  {| ServiceName := "sample"; with_Metrics := true; RouteNormalizer := None |}.

Definition sample_calls : list writer_call := [CallWriteHeader 418; CallWrite "short and stout"].

Definition sample_next : @observed_handler nat := fun _ _ n => (sample_calls, true, S n).

Definition sample_id : string := hex_encode "0123456789abcdef".

Lemma requestID_safe_witness :
  match requestID (Ok "0123456789abcdef" : result unit string) ["not a valid id"] with
  | Ok id => 1 <= String.length id <= MaxRequestIDLength /\ id = sample_id
  | Err _ => False
  end.
Proof.
  pose proof (requestID_safe (Ok "0123456789abcdef" : result unit string) ["not a valid id"]) as Hr.
  assert (forall s, (Ok "0123456789abcdef" : result unit string) = Ok s -> String.length s = 16) as Hs
    by (by intros s [= <-]).
  destruct (Hr Hs) as (Hl & _). split; [exact Hl|reflexivity].
Defined.

(** A handler that panics at once. *)
Definition panicking_next : @observed_handler nat := fun _ _ n => ([], true, S n).

Lemma telemetry_transparent_witness :
  let w' := run_writer sample_calls (set_header RequestIDHeader sample_id new_writer) in
  (exists events,
    NewHTTPHandler sample_next sample_options sample_env sample_request new_writer 0 =
      (w', 1, events, true) /\
    Forall (reports sample_options sample_id sample_request new_writer w' 418) events) /\
  (exists events,
    NewHTTPHandler panicking_next sample_options sample_env sample_request new_writer 0 =
      (set_header RequestIDHeader sample_id new_writer, 1, events, true) /\
    SpanStatusCode StatusOK ∈ events).
Proof.
  cbv zeta. split.
  - destruct (telemetry_transparent sample_next sample_options sample_env sample_request new_writer 0
      sample_id sample_calls true 1) as (st & events & Hrun & Hr & _ & _ & Hst & _); [reflexivity..| |].
    + by repeat constructor; intros ? [= <-].
    + exists events. split; [exact Hrun|]. cbn in Hst. rewrite Hst in Hr. exact Hr.
  - destruct (telemetry_transparent panicking_next sample_options sample_env sample_request new_writer 0
      sample_id [] true 1) as (st & events & Hrun & _ & _ & _ & _ & Hp); [reflexivity..|constructor|].
    exists events. split; [exact Hrun|]. apply Hp; reflexivity.
Defined.

Lemma labels_bounded_witness :
  ("OTHER", unknownRoute) ∈ list_prod method_labels [unknownRoute] /\
  length (list_prod method_labels [unknownRoute]) = 10.
Proof.
  destruct (labels_bounded sample_next sample_options sample_env sample_request new_writer 0
    (InFlightInc "OTHER" unknownRoute) "OTHER" unknownRoute []) as (Hin & Hl & _).
  - discriminate.
  - right. left.
  - reflexivity.
  - split; [exact Hin|exact Hl].
Defined.

Lemma in_flight_gauge_exact_witness :
  let t := (NewHTTPHandler sample_next sample_options sample_env sample_request new_writer 0).1.2 in
  (** both requests have started, one has finished *)
  let tr := take 2 t ++ take 2 t ++ drop 2 t in
  gauge "OTHER" unknownRoute tr = 1%Z /\
  count_in_flight "OTHER" unknownRoute [[]; drop 2 t] = 1.
Proof.
  cbv zeta. set (t := (NewHTTPHandler _ _ _ _ _ _).1.2).
  destruct (in_flight_gauge_exact [t; t] (take 2 t ++ take 2 t ++ drop 2 t) [[]; drop 2 t]
    "OTHER" unknownRoute) as [Hg _].
  - assert (request_trace t) as Ht.
    { exists nat, unit, sample_next, sample_options, sample_env, sample_request, new_writer, 0.
      reflexivity. }
    repeat constructor; exact Ht.
  - vm_compute. do 2 (eapply (schedule_emit _ 0); [reflexivity|simpl]).
    do 2 (eapply (schedule_emit _ 1); [reflexivity|simpl]).
    repeat (eapply (schedule_emit _ 0); [reflexivity|simpl]). apply schedule_nil.
  - rewrite Hg. split; reflexivity.
Defined.
End Telemetry.
