(* ===== verification/ApiTelemetry.v ===== *)
(** * The public listener of the control plane (cmd/control-plane-api/main.go)

    The API handler behind the telemetry middleware, as [run] composes them.
    [driven] says that a handler acts on its writer only through the calls of
    [http.ResponseWriter], which is what lets the middleware record it; every
    handler of the API is driven. *)

From Stdlib Require Import ZArith Lia.
From S2P Require Import Prelude GoStrings Sha256 Json Http ApiTypes Kube Store ApiHandler Samples ApiSpec ApiRoutes Telemetry.
Import V1alpha1 Http ApiHandler Telemetry.

#[local] Opaque Sha256.Sum256.

Module ApiTelemetry.

Section Driven.
Context {W : Type}.

(** On this request the handler makes these calls, whatever the writer. *)
Definition observed (f : ResponseWriter -> ResponseWriter * W) (calls : list writer_call) (s' : W) : Prop :=
  real_statuses calls /\ forall w, f w = (run_writer calls w, s').

Definition observable (f : ResponseWriter -> ResponseWriter * W) : Prop :=
  exists calls s', observed f calls s'.

Definition driven (h : @Handler W) : Prop := forall r s, observable (fun w => h r w s).

Definition json_calls (status : Z) (j : Json.json) : list writer_call :=
  [CallSetHeader "Content-Type" "application/json"; CallSetHeader "Cache-Control" "no-store";
   CallWriteHeader status; CallWrite (Json.Encode j)].

Lemma real_json_calls status j : (status <> 0)%Z -> real_statuses (json_calls status j).
Proof. intros Hs. repeat constructor; intros st [=]; by subst. Qed.

Lemma observed_json status j s' :
  (status <> 0)%Z -> observable (fun w => (writeJSON status j w, s')).
Proof. intros Hs. exists (json_calls status j), s'. split; [by apply real_json_calls|done]. Qed.

Lemma observed_json_header k v status j s' :
  (status <> 0)%Z -> observable (fun w => (writeJSON status j (set_header k v w), s')).
Proof.
  intros Hs. exists (CallSetHeader k v :: json_calls status j), s'.
  split; [constructor; [done|by apply real_json_calls]|done].
Qed.

Lemma getOnly_driven next : driven next -> driven (getOnly (W:=W) next).
Proof.
  intros Hn r s. unfold getOnly, writeError. destruct (negb _); [|apply Hn].
  by apply observed_json_header.
Qed.
End Driven.

Section ApiDriven.
Context {W E : Type} `{APIErrors E} `{ManagedServiceStore W E} `{NameValidation}.
Context (redirect : string -> Request -> ResponseWriter -> ResponseWriter).
Context (redirect_driven : forall p r, exists calls, real_statuses calls /\
  forall w, redirect p r w = run_writer calls w).
Context (handler : @apiHandler W E).

(** Splits on what does not depend on the writer, then reads off the calls. *)
Ltac drive :=
  repeat match goal with
  | |- observable (fun w => if ?b then _ else _) => destruct b eqn:?
  | |- observable (fun w => match ?x with _ => _ end) => destruct x eqn:?
  end;
  try first [ by apply observed_json | by apply observed_json_header ].

Lemma createManagedService_driven : driven createManagedService.
Proof.
  intros r s. unfold createManagedService, writeInternalError, writeError.
  destruct (decodeCreateRequest r) as [req code]. destruct (Z.eqb_spec code 0) as [->|Hcode]; simpl.
  - drive.
  - by apply observed_json.
Qed.

Lemma listManagedServices_driven : driven listManagedServices.
Proof. intros r s. unfold listManagedServices, writeInternalError, writeError. drive. Qed.

Lemma getManagedService_driven n : driven (getManagedService n).
Proof.
  intros r s. unfold getManagedService, writeManagedServiceNotFound, writeInternalError, writeError.
  drive.
Qed.

Lemma deleteManagedService_driven n : driven (deleteManagedService n).
Proof.
  intros r s. unfold deleteManagedService, writeManagedServiceNotFound, writeInternalError, writeError.
  drive.
  exists [CallSetHeader "Content-Type" "application/json"; CallSetHeader "Cache-Control" "no-store";
          CallWriteHeader StatusNoContent]. eexists. split; [|done].
  repeat constructor; by intros st [= <-].
Qed.

Lemma collection_driven : driven serveManagedServiceCollection.
Proof.
  intros r s. unfold serveManagedServiceCollection, rejectQueryParameters, writeError.
  destruct (String.eqb (URL_RawQuery r) ""); [|by apply observed_json].
  destruct (String.eqb (Method r) MethodGet); [apply listManagedServices_driven|].
  destruct (String.eqb (Method r) MethodPost); [apply createManagedService_driven|].
  by apply observed_json_header.
Qed.

Lemma item_driven : driven serveManagedService.
Proof.
  intros r s. unfold serveManagedService, rejectQueryParameters, writeError.
  destruct (String.eqb (URL_RawQuery r) ""); [|by apply observed_json].
  destruct (negb _); [by apply observed_json|].
  destruct (String.eqb (Method r) MethodGet); [apply getManagedService_driven|].
  destruct (String.eqb (Method r) MethodDelete); [apply deleteManagedService_driven|].
  by apply observed_json_header.
Qed.

Lemma readiness_driven : driven (serveReadiness handler).
Proof. intros r s. unfold serveReadiness. drive. Qed.

Lemma router_driven p h : (p, h) ∈ router handler -> driven h.
Proof.
  intros Hin. repeat (apply elem_of_cons in Hin as [[= -> ->]|Hin]); [..|by apply elem_of_nil in Hin].
  - apply getOnly_driven. intros r s. by apply observed_json.
  - apply getOnly_driven, readiness_driven.
  - apply getOnly_driven. intros r s. by apply observed_json.
  - apply collection_driven.
  - apply item_driven.
  - intros r s. by apply observed_json.
Qed.

Lemma http_error_observed pre m st (s' : W) :
  (st <> 0)%Z -> real_statuses pre -> observable (fun w => (http_error m st (run_writer pre w), s')).
Proof.
  intros Hst Hpre. exists (pre ++ [CallSetHeader "Content-Type" "text/plain; charset=utf-8";
    CallSetHeader "X-Content-Type-Options" "nosniff"; CallWriteHeader st;
    CallWrite (m +:+ String LF "")]), s'.
  split; [apply Forall_app; split; [done|by repeat constructor; intros ? [= <-]]|].
  intros w. unfold run_writer. by rewrite foldl_app.
Qed.

Lemma ServeHTTP_driven : driven (ServeHTTP redirect handler).
Proof.
  intros r s. unfold ServeHTTP, writeError. destruct (_ && _); [by apply observed_json_header|].
  unfold mux_serve. destruct (String.eqb (URL_Path r) "*").
  { exists ((if ProtoAtLeast_1_1 r then [CallSetHeader "Connection" "close"] else []) ++
      [CallWriteHeader StatusBadRequest]), s.
    destruct (ProtoAtLeast_1_1 r); (split; [by repeat constructor; intros ? [= <-]|done]). }
  destruct (find_handler (router handler) r) as [h|p|ms|] eqn:Hf.
  - apply find_handler_in in Hf as [p Hin]. by eapply router_driven.
  - destruct (redirect_driven p r) as (calls & Hc & Hr). exists calls, s. split; [done|].
    intros w. by rewrite Hr.
  - apply (http_error_observed [CallSetHeader "Allow" _]); [done|by repeat constructor].
  - apply (http_error_observed []); [done|constructor].
Qed.
End ApiDriven.

(** ** The public listener *)
Section PublicListener.
Context {W E : Type} `{StoreSpec W E} `{NameValidation}.
Context (redirect : string -> Request -> ResponseWriter -> ResponseWriter).
Context (redirect_3xx : forall p r w, rw_sent w = None ->
  (300 <= response_status (redirect p r w) < 400)%Z).
Context (token : string).

Definition serviceName : string := "control-plane-api".

(** The options [run] passes to [NewHTTPHandler]. *)
Definition public_options : HTTPHandlerOptions :=
  {| ServiceName := serviceName; with_Metrics := true; RouteNormalizer := Some NormalizeRoute |}.

(** The middleware's view of the API handler on one request. *)
Definition observes_api (next : @observed_handler W) (id : string) (r : Request) (s : W) : Prop :=
  let '(calls, panicked, s') := next id r s in
  panicked = false /\ observed (fun w => api_server redirect token r w s) calls s'.

Lemma safeRoute_label rt : rt ∈ route_labels -> safeRoute rt = rt.
Proof.
  unfold route_labels. intros Hin.
  repeat (apply elem_of_cons in Hin as [->|Hin]; [reflexivity|]). by apply elem_of_nil in Hin.
Qed.

(** C14: the listener as deployed.  Behind the middleware a request has exactly
    the effect on the services, and gets exactly the status and body, that the
    abstract behaviour of the API allows; the access log line carries that status
    and the identifier; and every label is one of ten methods and one of the six
    routes of the API, never the name of a service. *)
Theorem public_listener next (env : environment E) r s id :
  well_formed r ->
  requestID (env_random env) (header_values (Header r) RequestIDHeader) = Ok id ->
  observes_api next id r s ->
  let '(w', s', events, panicked) := NewHTTPHandler next public_options env r new_writer s in
  panicked = false /\
  api_effect token r (set_header RequestIDHeader id new_writer) (services s) (services s') w' /\
  (forall service i m rt st size t, LogHandled service i m rt st size t ∈ events ->
     service = serviceName /\ i = id /\ st = response_status w' /\
     String.length (rw_body w') = size) /\
  (forall e m rt, e ∈ events -> event_labels e = Some (m, rt) ->
     m ∈ method_labels /\ rt ∈ route_labels).
Proof.
  intros Hwf Hid Hobs. unfold observes_api in Hobs.
  destruct (next id r s) as [[calls panicked] s'] eqn:Hnext. destruct Hobs as [-> [Hreal Hcalls]].
  destruct (telemetry_reports next public_options env r new_writer s id calls false s'
    Hid Hnext eq_refl Hreal) as (events & -> & Htruth & _).
  split_and!; [done| | |].
  - apply (request_effect_steps redirect redirect_3xx); [done|done|apply Hcalls].
  - intros service i m rt st size t Hin. rewrite Forall_forall in Htruth.
    destruct (Htruth _ Hin) as (? & ? & _ & _ & ? & Hsize). simpl in Hsize. auto.
  - intros e m rt Hin Hl. rewrite Forall_forall in Htruth. pose proof (Htruth _ Hin) as He.
    assert (m = normalizedMethod (Method r) /\ rt = safeRoute (NormalizeRoute r)) as [-> ->].
    { destruct e; simpl in He, Hl; try done; injection Hl as <- <-; by destruct_and? He. }
    rewrite safeRoute_label by apply NormalizeRoute_label.
    split; [apply normalizedMethod_bounded|apply NormalizeRoute_label].
Qed.
End PublicListener.

(** ** Witness *)

Lemma samples_redirect_driven p r :
  exists calls, real_statuses calls /\ forall w, Samples.redirect p r w = run_writer calls w.
Proof.
  exists [CallSetHeader "Location" p; CallWriteHeader 307].
  split; [by repeat constructor; intros ? [= <-]|done].
Qed.

Lemma public_listener_witness :
  exists calls s',
    let next := fun _ _ _ => (calls, false, s') in
    let env := {| env_random := Ok "0123456789abcdef" : result unit string; env_trace_id := None |} in
    let '(w', s', events, panicked) :=
      NewHTTPHandler next public_options env Samples.create_demo new_writer Memory.empty in
    panicked = false /\
    api_effect Samples.token Samples.create_demo
      (set_header RequestIDHeader (hex_encode "0123456789abcdef") new_writer)
      (services Memory.empty) (services s') w'.
Proof.
  destruct (ServeHTTP_driven Samples.redirect samples_redirect_driven
    (NewHandler Samples.token (Some store_Ready)) Samples.create_demo Memory.empty)
    as (calls & s' & Hobs).
  exists calls, s'. cbv zeta.
  pose proof (public_listener Samples.redirect Samples.redirect_3xx Samples.token
    (fun _ _ _ => (calls, false, s'))
    {| env_random := Ok "0123456789abcdef" : result Memory.error string; env_trace_id := None |}
    Samples.create_demo Memory.empty (hex_encode "0123456789abcdef")) as Hp.
  cbn zeta in Hp. destruct Hp as (Hpan & Heff & _).
  - split; [reflexivity|]. right; right. reflexivity.
  - reflexivity.
  - split; [reflexivity|exact Hobs].
  - split; [exact Hpan|exact Heff].
Defined.
End ApiTelemetry.
