(* ===== verification/Workloads.v ===== *)
(** * Deployments, Services and the reconciler's client

    The Kubernetes objects the operator manages, with the fields the program
    sets or reads (a Deployment or Service keeps the fields the operator does not
    manage in [d_unmanaged] and [s_unmanaged]; a [corev1.PodSpec] literal leaves all
    other fields, [pod_unmanaged], zero), and the third-party code the reconciler
    calls: the client with its cache, [controllerutil.CreateOrUpdate] and
    [SetControllerReference], the condition helpers of apimachinery.  Their
    documented behaviour is stated by the law classes. *)

From S2P Require Import Prelude GoStrings ApiTypes Kube.
Import V1alpha1.

(** ** Go errors

    [fmt.Errorf] with [%w], [errors.Join] and the errors of the client. *)
Section Errors.
Context {E : Type}.

#[warnings="-register-all"]
Inductive go_error : Type :=
| ErrorNew (text : string)
| ErrorWrap (prefix : string) (err : go_error)
| ErrorJoin (errs : list go_error)
| ErrorApi (err : E).

(** [errors.Join] puts the texts on lines of their own. *)
Definition join_lines (l : list string) : string :=
  match l with
  | [] => ""
  | x :: l' => foldl (fun acc y => acc +:+ String LF y) x l'
  end.

(** [err.Error()] *)
Fixpoint Error `{APIErrors E} (err : go_error) : string :=
  match err with
  | ErrorNew text => text
  | ErrorWrap prefix err' => prefix +:+ ": " +:+ Error err'
  | ErrorJoin errs => join_lines (map Error errs)
  | ErrorApi err' => error_text err'
  end.
End Errors.
Arguments go_error : clear implicits.

(** ** Pods *)

Record ContainerPort : Type := { cp_Name : string; cp_ContainerPort : Z; cp_Protocol : string }.
Record EnvVar : Type := { env_Name : string; env_Value : string }.
Record SecurityContext : Type := {
  sc_AllowPrivilegeEscalation : option bool;
  sc_Drop : list string;
  sc_ReadOnlyRootFilesystem : option bool;
  sc_RunAsNonRoot : option bool;
}.
Record PodSecurityContext : Type := {
  psc_RunAsGroup : option Z;
  psc_RunAsNonRoot : option bool;
  psc_RunAsUser : option Z;
  psc_SeccompProfile : string;
}.
(** A probe by HTTP GET on a named port. *)
Record Probe : Type := {
  probe_Path : string;
  probe_Port : string;
  probe_Scheme : string;
  probe_InitialDelaySeconds : Z;
  probe_TimeoutSeconds : Z;
  probe_PeriodSeconds : Z;
  probe_SuccessThreshold : Z;
  probe_FailureThreshold : Z;
}.
Record Container : Type := {
  c_Name : string;
  c_Image : string;
  c_ImagePullPolicy : string;
  c_Ports : list ContainerPort;
  c_Env : list EnvVar;
  c_Requests : list (string * string);
  c_Limits : list (string * string);
  c_SecurityContext : SecurityContext;
  c_LivenessProbe : Probe;
  c_ReadinessProbe : Probe;
  c_TerminationMessagePath : string;
  c_TerminationMessagePolicy : string;
}.
Record PodSpec : Type := {
  pod_AutomountServiceAccountToken : option bool;
  pod_DNSPolicy : string;
  pod_EnableServiceLinks : option bool;
  pod_ImagePullSecrets : list string;
  pod_RestartPolicy : string;
  pod_SchedulerName : string;
  pod_SecurityContext : PodSecurityContext;
  pod_TerminationGracePeriodSeconds : option Z;
  pod_Containers : list Container;
  pod_unmanaged : string;          (* the fields the program does not name *)
}.

Record Deployment : Type := {
  d_meta : ObjectMeta;
  d_Replicas : option Z;
  d_Selector : option (gmap string string);
  d_TemplateLabels : gmap string string;
  d_PodSpec : option PodSpec;      (* [None] for the zero pod spec *)
  d_ReadyReplicas : Z;             (* of the status *)
  d_unmanaged : string;            (* everything else *)
}.

(** ** Services *)
Record ServicePort : Type := {
  sp_Name : string; sp_Port : Z; sp_Protocol : string; sp_TargetPort : string;
}.
Record Service : Type := {
  s_meta : ObjectMeta;
  s_Type : string;
  s_Selector : gmap string string;
  s_Ports : list ServicePort;
  s_unmanaged : string;
}.

#[export] Instance ContainerPort_eq_dec : EqDecision ContainerPort.
Proof. solve_decision. Defined.
#[export] Instance EnvVar_eq_dec : EqDecision EnvVar.
Proof. solve_decision. Defined.
#[export] Instance SecurityContext_eq_dec : EqDecision SecurityContext.
Proof. solve_decision. Defined.
#[export] Instance PodSecurityContext_eq_dec : EqDecision PodSecurityContext.
Proof. solve_decision. Defined.
#[export] Instance Probe_eq_dec : EqDecision Probe.
Proof. solve_decision. Defined.
#[export] Instance Container_eq_dec : EqDecision Container.
Proof. solve_decision. Defined.
#[export] Instance PodSpec_eq_dec : EqDecision PodSpec.
Proof. solve_decision. Defined.
#[export] Instance Deployment_eq_dec : EqDecision Deployment.
Proof. solve_decision. Defined.
#[export] Instance ServicePort_eq_dec : EqDecision ServicePort.
Proof. solve_decision. Defined.
#[export] Instance Service_eq_dec : EqDecision Service.
Proof. solve_decision. Defined.

Definition new_deployment (name namespace : string) : Deployment :=
  {| d_meta := named_meta name namespace; d_Replicas := None; d_Selector := None;
     d_TemplateLabels := ∅; d_PodSpec := None; d_ReadyReplicas := 0; d_unmanaged := "" |}.

Definition new_service (name namespace : string) : Service :=
  {| s_meta := named_meta name namespace; s_Type := ""; s_Selector := ∅; s_Ports := [];
     s_unmanaged := "" |}.

(** ** The condition helpers of apimachinery (package api/meta) *)

(** [SetStatusCondition] takes the time from the clock, an argument here. *)
Class ConditionHelpers : Type := {
  SetStatusCondition : Z -> Condition -> list Condition -> list Condition;
  FindStatusCondition : list Condition -> string -> option Condition;
}.

Definition same_but_time (c c' : Condition) : Prop :=
  cond_Type c = cond_Type c' /\ cond_Status c = cond_Status c' /\
  cond_ObservedGeneration c = cond_ObservedGeneration c' /\
  cond_Reason c = cond_Reason c' /\ cond_Message c = cond_Message c'.

Class ConditionHelpersLaws `{ConditionHelpers} : Type := {
  find_type : forall cs t c, FindStatusCondition cs t = Some c -> c ∈ cs /\ cond_Type c = t;
  find_none : forall cs t, FindStatusCondition cs t = None <-> t ∉ (cond_Type <$> cs);
  (** the condition is set; its transition time is kept while the status stays *)
  set_find : forall now c cs, exists c',
    FindStatusCondition (SetStatusCondition now c cs) (cond_Type c) = Some c' /\
    same_but_time c' c /\
    (forall old, FindStatusCondition cs (cond_Type c) = Some old ->
       cond_Status old = cond_Status c -> cond_LastTransitionTime c' = cond_LastTransitionTime old);
  set_find_other : forall now c cs t,
    t <> cond_Type c ->
    FindStatusCondition (SetStatusCondition now c cs) t = FindStatusCondition cs t;
  (** at most the one type is added *)
  set_types : forall now c cs,
    cond_Type <$> SetStatusCondition now c cs =
    if bool_decide (cond_Type c ∈ (cond_Type <$> cs)) then cond_Type <$> cs
    else (cond_Type <$> cs) ++ [cond_Type c];
  (** nothing changes when the condition is already there *)
  set_unchanged : forall now c cs old,
    FindStatusCondition cs (cond_Type c) = Some old -> same_but_time old c ->
    SetStatusCondition now c cs = cs;
}.

(** ** The client of the reconciler *)

(** [MutateFn] of [CreateOrUpdate]. *)
Definition mutate_fn (E T : Type) : Type := T -> result (go_error E) T.

Class ReconcilerClient (W E : Type) : Type := {
  (** reads go to the manager's cache *)
  rc_Get : string * string -> W -> result E ManagedService * W;
  CreateOrUpdate_Deployment : Deployment -> mutate_fn E Deployment -> W ->
    result (go_error E) Deployment * W;
  CreateOrUpdate_Service : Service -> mutate_fn E Service -> W ->
    result (go_error E) Service * W;
  (** [Status().Patch] with [MergeFrom before] *)
  status_Patch : ManagedService -> ManagedService -> W -> result E ManagedService * W;
  (** the owner references of an object of the given namespace, extended; of the
      owner, its metadata and its kind matter *)
  SetControllerReference : ObjectMeta -> string -> list OwnerReference ->
    result E (list OwnerReference);
  (** [equality.Semantic.DeepEqual] on statuses *)
  DeepEqual_status : ManagedServiceStatus -> ManagedServiceStatus -> bool;
}.

(** The owner reference of a controller. *)
Definition controls (owner : ObjectMeta) (o : OwnerReference) : Prop :=
  owner_UID o = UID owner /\ owner_Name o = Name owner /\
  owner_APIVersion o = Group +:+ "/" +:+ Version /\ owner_Kind o = Kind /\ owner_Controller o = true.

Definition controlled_by (owner : ObjectMeta) (refs : list OwnerReference) : Prop :=
  exists o, o ∈ refs /\ controls owner o.

(** What an API server may change of an object it stores: metadata it
    maintains and fields the operator does not manage. *)
Definition deployment_stored (sent stored : Deployment) : Prop :=
  key (d_meta stored) = key (d_meta sent) /\ Labels (d_meta stored) = Labels (d_meta sent) /\
  OwnerReferences (d_meta stored) = OwnerReferences (d_meta sent) /\
  d_Replicas stored = d_Replicas sent /\ d_Selector stored = d_Selector sent /\
  d_TemplateLabels stored = d_TemplateLabels sent /\ d_PodSpec stored = d_PodSpec sent /\
  d_ReadyReplicas stored = d_ReadyReplicas sent.

Definition service_stored (sent stored : Service) : Prop :=
  key (s_meta stored) = key (s_meta sent) /\ Labels (s_meta stored) = Labels (s_meta sent) /\
  OwnerReferences (s_meta stored) = OwnerReferences (s_meta sent) /\
  s_Type stored = s_Type sent /\ s_Selector stored = s_Selector sent /\
  s_Ports stored = s_Ports sent.

(** What [CreateOrUpdate] stores: the outcome of the mutation of the stored
    object, or of the given one when there is none. *)
Definition written {E T : Type} (key_of : T -> string * string) (stored_as : T -> T -> Prop)
    (o : T) (f : mutate_fn E T) (m m' : gmap (string * string) T) (o' : T) : Prop :=
  exists mutated, key_of (default o (m !! key_of o)) = key_of o /\
    f (default o (m !! key_of o)) = Ok mutated /\ stored_as mutated o' /\
    m' = <[key_of o := o']> m.

(** A JSON merge patch holds the fields that differ; the API server sets these in the
    status it stores and keeps the others.  A list is one field. *)
Definition merged {A : Type} `{EqDecision A} (before after current : A) : A :=
  if decide (before = after) then current else after.

Definition merge_status (before after current : ManagedServiceStatus) : ManagedServiceStatus :=
  {| ObservedGeneration := merged (ObservedGeneration before) (ObservedGeneration after) (ObservedGeneration current);
     ReadyReplicas := merged (ReadyReplicas before) (ReadyReplicas after) (ReadyReplicas current);
     Endpoint := merged (Endpoint before) (Endpoint after) (Endpoint current);
     Conditions := merged (Conditions before) (Conditions after) (Conditions current) |}.

Lemma merged_unchanged {A : Type} `{EqDecision A} (before after : A) : merged before after before = after.
Proof. unfold merged. by destruct (decide _). Qed.

(** The stored status being the one the patch was computed from, it becomes the
    intended one. *)
Lemma merge_status_unchanged before after : merge_status before after before = after.
Proof. unfold merge_status. rewrite !merged_unchanged. by destruct after. Qed.

(** A status patch: the stored object gets the merged status [st]. *)
Definition patched (before after : ManagedService) (st : ManagedServiceStatus)
    (m m' : gmap (string * string) ManagedService) : Prop :=
  exists cur, m !! key (ms_meta after) = Some cur /\
    m' = <[key (ms_meta after) := set_status cur st]> m /\
    st = merge_status (Status before) (Status after) (Status cur).

(** The map changes at most at [k], where it keeps what it has. *)
Definition changes_at {T : Type} (k : string * string) (m m' : gmap (string * string) T) : Prop :=
  (forall k', k' <> k -> m' !! k' = m !! k') /\ (is_Some (m !! k) -> is_Some (m' !! k)).

Lemma changes_at_insert {T : Type} (k : string * string) (m : gmap (string * string) T) (o : T) : changes_at k m (<[k := o]> m).
Proof.
  split; [intros k' Hk; by rewrite lookup_insert_ne|]. intros _. rewrite lookup_insert_eq. by eexists.
Qed.

Lemma changes_at_refl {T : Type} (k : string * string) (m : gmap (string * string) T) : changes_at k m m.
Proof. done. Qed.

(** A failed write left the objects alone, or was carried out and its answer was
    lost. *)
Class ReconcilerClientLaws (W E : Type) `{APIErrors E} `{ReconcilerClient W E} : Type := {
  services_of : W -> gmap (string * string) ManagedService;
  deployments : W -> gmap (string * string) Deployment;
  k8s_services : W -> gmap (string * string) Service;
  (** the caches have caught up with the API server *)
  synced_managed : W -> Prop;
  synced_deployments : W -> Prop;
  synced_services : W -> Prop;
  rc_get_ok : forall k w o w',
    rc_Get k w = (Ok o, w') ->
    w' = w /\ key (ms_meta o) = k /\ (synced_managed w -> services_of w !! k = Some o);
  rc_get_err : forall k w e w',
    rc_Get k w = (Err e, w') ->
    w' = w /\ (IsNotFound e = true -> synced_managed w -> services_of w !! k = None);
  rc_get_synced : forall k w o,
    synced_managed w -> services_of w !! k = Some o ->
    rc_Get k w = (Ok o, w) \/ exists e, rc_Get k w = (Err e, w) /\ IsNotFound e = false;
  (** with a cache that has caught up, [CreateOrUpdate] starts from the stored
      object; otherwise the API server may refuse or accept the write *)
  cou_deployment_ok : forall d f w d' w',
    CreateOrUpdate_Deployment d f w = (Ok d', w') ->
    services_of w' = services_of w /\ k8s_services w' = k8s_services w /\
    (synced_services w -> synced_services w') /\
    changes_at (key (d_meta d)) (deployments w) (deployments w') /\
    (synced_deployments w ->
     written (fun d => key (d_meta d)) deployment_stored d f
       (deployments w) (deployments w') d');
  cou_deployment_err : forall d f w e w',
    CreateOrUpdate_Deployment d f w = (Err e, w') ->
    services_of w' = services_of w /\ k8s_services w' = k8s_services w /\
    (deployments w' = deployments w \/
     exists d', changes_at (key (d_meta d)) (deployments w) (deployments w') /\
     (synced_deployments w ->
      written (fun d => key (d_meta d)) deployment_stored d f
       (deployments w) (deployments w') d'));
  (** when the mutation changes no managed field, nothing is written, or the API
      server's defaults restore the others and the write is without effect *)
  cou_deployment_noop : forall d f w base,
    synced_deployments w -> deployments w !! key (d_meta d) = Some base -> f base = Ok base ->
    CreateOrUpdate_Deployment d f w = (Ok base, w) \/
    exists e, CreateOrUpdate_Deployment d f w = (Err e, w);
  cou_service_ok : forall s f w s' w',
    CreateOrUpdate_Service s f w = (Ok s', w') ->
    services_of w' = services_of w /\ deployments w' = deployments w /\
    changes_at (key (s_meta s)) (k8s_services w) (k8s_services w') /\
    (synced_services w ->
     written (fun s => key (s_meta s)) service_stored s f
       (k8s_services w) (k8s_services w') s');
  cou_service_err : forall s f w e w',
    CreateOrUpdate_Service s f w = (Err e, w') ->
    services_of w' = services_of w /\ deployments w' = deployments w /\
    (k8s_services w' = k8s_services w \/
     exists s', changes_at (key (s_meta s)) (k8s_services w) (k8s_services w') /\
     (synced_services w ->
      written (fun s => key (s_meta s)) service_stored s f
       (k8s_services w) (k8s_services w') s'));
  cou_service_noop : forall s f w base,
    synced_services w -> k8s_services w !! key (s_meta s) = Some base -> f base = Ok base ->
    CreateOrUpdate_Service s f w = (Ok base, w) \/
    exists e, CreateOrUpdate_Service s f w = (Err e, w);
  (** a status patch writes the status and nothing else *)
  patch_ok : forall before after w o w',
    status_Patch before after w = (Ok o, w') ->
    deployments w' = deployments w /\ k8s_services w' = k8s_services w /\
    patched before after (Status o) (services_of w) (services_of w');
  patch_err : forall before after w e w',
    status_Patch before after w = (Err e, w') ->
    deployments w' = deployments w /\ k8s_services w' = k8s_services w /\
    (services_of w' = services_of w \/
     exists st, patched before after st (services_of w) (services_of w'));
  (** [SetControllerReference] adds the reference, or finds it, or fails when
      the object has another controller; doing it again changes nothing *)
  scr_ok : forall owner ns refs refs',
    SetControllerReference owner ns refs = Ok refs' ->
    controlled_by owner refs' /\ SetControllerReference owner ns refs' = Ok refs';
  deep_equal_status : forall a b, DeepEqual_status a b = true <-> a = b;
}.

(** When the calls succeed: the API server is reachable, grants the requests and
    nobody else writes the objects ([writable]); and it admits the object sent, given
    the stored one. *)
Class ReconcilerClientLive (W E : Type) `{ReconcilerClientLaws W E} : Type := {
  writable : W -> Prop;
  admits_deployment : option Deployment -> Deployment -> Prop;
  admits_service : option Service -> Service -> Prop;
  admits_status : ManagedService -> Prop;
  live_get : forall k w o,
    writable w -> synced_managed w -> services_of w !! k = Some o -> rc_Get k w = (Ok o, w);
  live_deployment : forall d f w mutated,
    let stored := deployments w !! key (d_meta d) in
    writable w -> synced_deployments w -> key (d_meta (default d stored)) = key (d_meta d) ->
    f (default d stored) = Ok mutated -> key (d_meta mutated) = key (d_meta d) ->
    admits_deployment stored mutated ->
    exists d' w', CreateOrUpdate_Deployment d f w = (Ok d', w') /\ writable w';
  live_service : forall s f w mutated,
    let stored := k8s_services w !! key (s_meta s) in
    writable w -> synced_services w -> key (s_meta (default s stored)) = key (s_meta s) ->
    f (default s stored) = Ok mutated -> key (s_meta mutated) = key (s_meta s) ->
    admits_service stored mutated ->
    exists s' w', CreateOrUpdate_Service s f w = (Ok s', w') /\ writable w';
  live_status : forall before after w,
    writable w -> services_of w !! key (ms_meta after) = Some before -> admits_status after ->
    exists o w', status_Patch before after w = (Ok o, w') /\ writable w';
  (** an object of the owner's namespace without owners can be owned *)
  live_reference : forall owner, exists refs, SetControllerReference owner (Namespace owner) [] = Ok refs;
}.

(** ** A concrete cluster with an up-to-date cache

    The ManagedServices of [Memory], with Deployments and Services beside them. *)
Module MemoryCluster.
Import Memory.

Record cluster : Type := {
  mem_base : Memory.cluster;
  mem_deployments : gmap (string * string) Deployment;
  mem_services : gmap (string * string) Service;
}.

Definition owner_of (owner : ObjectMeta) : OwnerReference :=
  {| owner_APIVersion := Group +:+ "/" +:+ Version; owner_Kind := Kind;
     owner_Name := Name owner; owner_UID := UID owner;
     owner_Controller := true; owner_BlockOwnerDeletion := true |}.

Definition set_controller (ms : ObjectMeta) (ns : string) (refs : list OwnerReference)
    : result error (list OwnerReference) :=
  if negb (String.eqb ns (Namespace ms)) then Err Invalid
  else if bool_decide (owner_of ms ∈ refs) then Ok refs
  else if existsb owner_Controller refs then Err AlreadyExists
  else Ok (refs ++ [owner_of ms]).

Definition get (k : string * string) (w : cluster) : result error ManagedService * cluster :=
  (do_get k (mem_base w), w).

Section CreateOrUpdate.
Context {T : Type} `{EqDecision T} (key_of : T -> string * string).

Definition create_or_update (o : T) (f : mutate_fn error T) (m : gmap (string * string) T)
    : result (go_error error) T * gmap (string * string) T :=
  let base := default o (m !! key_of o) in
  if negb (bool_decide (key_of base = key_of o)) then (Err (ErrorApi Unavailable), m) else
  match f base with
  | Err e => (Err e, m)
  | Ok o' => (Ok o', <[key_of o := o']> m)
  end.

Lemma create_or_update_ok o f m o' m' :
  create_or_update o f m = (Ok o', m') ->
  key_of (default o (m !! key_of o)) = key_of o /\
  f (default o (m !! key_of o)) = Ok o' /\ m' = <[key_of o := o']> m.
Proof.
  unfold create_or_update. case_bool_decide; [|done]. simpl.
  destruct (f _); [|done]. by intros [= <- <-].
Qed.

Lemma create_or_update_err o f m e m' : create_or_update o f m = (Err e, m') -> m' = m.
Proof.
  unfold create_or_update. case_bool_decide; simpl; [destruct (f _); [done|]|]; by intros [= _ <-].
Qed.

Lemma create_or_update_noop o f m base :
  m !! key_of o = Some base -> f base = Ok base ->
  create_or_update o f m = (Ok base, m) \/ exists e, create_or_update o f m = (Err e, m).
Proof.
  intros Hb Hf. unfold create_or_update. rewrite Hb. simpl. case_bool_decide; [left|by right; eexists].
  simpl. rewrite Hf. by rewrite insert_id.
Qed.
End CreateOrUpdate.

Definition with_base (b : Memory.cluster) (w : cluster) : cluster :=
  {| mem_base := b; mem_deployments := mem_deployments w; mem_services := mem_services w |}.

Definition patch (before after : ManagedService) (w : cluster) : result error ManagedService * cluster :=
  let k := key (ms_meta after) in
  let current := from_option Status zero_status (view (mem_base w) !! k) in
  let '(r, b) := do_status k (merge_status (Status before) (Status after) current) (mem_base w) in
  (r, with_base b w).

#[global] Instance reconciler_client : ReconcilerClient cluster error := {
  rc_Get := get;
  CreateOrUpdate_Deployment := fun d f w =>
    let '(r, m) := create_or_update (fun d => key (d_meta d)) d f (mem_deployments w) in
    (r, {| mem_base := mem_base w; mem_deployments := m; mem_services := mem_services w |});
  CreateOrUpdate_Service := fun s f w =>
    let '(r, m) := create_or_update (fun s => key (s_meta s)) s f (mem_services w) in
    (r, {| mem_base := mem_base w; mem_deployments := mem_deployments w; mem_services := m |});
  status_Patch := patch;
  SetControllerReference := set_controller;
  DeepEqual_status := fun a b => bool_decide (a = b);
}.

Lemma deployment_stored_refl d : deployment_stored d d.
Proof. done. Qed.

Lemma service_stored_refl s : service_stored s s.
Proof. done. Qed.

#[global] Program Instance reconciler_laws : ReconcilerClientLaws cluster error := {
  services_of := fun w => view (mem_base w);
  deployments := mem_deployments;
  k8s_services := mem_services;
  synced_managed := fun _ => True;
  synced_deployments := fun _ => True;
  synced_services := fun _ => True;
}.
Next Obligation.
  intros k w o w'. simpl. unfold get. rewrite do_get_lookup.
  destruct (view (mem_base w) !! k) as [o'|] eqn:Ho; intros [= <- <-].
  by split_and!; [|by eapply view_key|].
Qed.
Next Obligation.
  intros k w e w'. simpl. unfold get. rewrite do_get_lookup.
  by destruct (view (mem_base w) !! k); intros [= _ <-].
Qed.
Next Obligation.
  intros k w o _ Ho. cbn in Ho |- *. unfold get. rewrite do_get_lookup, Ho. by left.
Qed.
Next Obligation.
  intros d f w d' w'. simpl. destruct (create_or_update _ d f _) as [r m] eqn:Hc.
  intros [= -> <-]. apply create_or_update_ok in Hc as (Hk & Hf & ->). simpl.
  split_and!; [done..|apply changes_at_insert|by exists d'].
Qed.
Next Obligation.
  intros d f w e w'. simpl. destruct (create_or_update _ d f _) as [r m] eqn:Hc.
  intros [= -> <-]. apply create_or_update_err in Hc as ->. auto.
Qed.
Next Obligation.
  intros d f w base _ Hb Hf. cbn in Hb |- *.
  destruct (create_or_update_noop (fun d => key (d_meta d)) d f _ base Hb Hf) as [-> |[e ->]]; destruct w;
    [by left|by right; exists e].
Qed.
Next Obligation.
  intros d f w d' w'. simpl. destruct (create_or_update _ d f _) as [r m] eqn:Hc.
  intros [= -> <-]. apply create_or_update_ok in Hc as (Hk & Hf & ->). simpl.
  split_and!; [done..|apply changes_at_insert|by exists d'].
Qed.
Next Obligation.
  intros d f w e w'. simpl. destruct (create_or_update _ d f _) as [r m] eqn:Hc.
  intros [= -> <-]. apply create_or_update_err in Hc as ->. auto.
Qed.
Next Obligation.
  intros d f w base _ Hb Hf. cbn in Hb |- *.
  destruct (create_or_update_noop (fun s => key (s_meta s)) d f _ base Hb Hf) as [-> |[e ->]]; destruct w;
    [by left|by right; exists e].
Qed.
Next Obligation.
  intros before after w o w'. cbn. unfold patch. cbv zeta.
  pose proof (fun st => do_status_spec (key (ms_meta after)) st (mem_base w)) as Hs.
  destruct (view (mem_base w) !! key (ms_meta after)) as [cur|] eqn:Hk.
  - destruct (Hs (merge_status (Status before) (Status after) (Status cur))) as (b & Hd & Hb).
    cbn [from_option]. rewrite Hd. intros [= <- <-]. split_and!; [done..|]. exists cur. by rewrite Hk.
  - rewrite Hs. done.
Qed.
Next Obligation.
  intros before after w e w'. cbn. unfold patch. cbv zeta.
  pose proof (fun st => do_status_spec (key (ms_meta after)) st (mem_base w)) as Hs.
  destruct (view (mem_base w) !! key (ms_meta after)) as [cur|] eqn:Hk.
  - destruct (Hs (merge_status (Status before) (Status after) (Status cur))) as (b & Hd & _).
    cbn [from_option]. by rewrite Hd.
  - rewrite Hs. intros [= _ <-]. auto.
Qed.
Next Obligation.
  intros ms ns refs refs'. cbn. unfold set_controller.
  destruct (negb _); [done|]. case_bool_decide as Hin.
  - intros [= <-]. split; [by exists (owner_of ms)|]. by rewrite bool_decide_eq_true_2.
  - destruct (existsb _ _); [done|]. intros [= <-].
    assert (owner_of ms ∈ refs ++ [owner_of ms]) as Hin' by (apply elem_of_app; right; by left).
    split; [by exists (owner_of ms)|]. by rewrite bool_decide_eq_true_2.
Qed.
Next Obligation. intros a b. simpl. apply bool_decide_eq_true. Qed.

#[global] Program Instance reconciler_live : ReconcilerClientLive cluster error := {
  writable := fun _ => True;
  admits_deployment := fun _ _ => True;
  admits_service := fun _ _ => True;
  admits_status := fun _ => True;
}.
Next Obligation. intros k w o _ _ Ho. cbn in Ho |- *. unfold get. by rewrite do_get_lookup, Ho. Qed.
Next Obligation.
  intros d f w mutated stored _ _ Hk Hf _ _. cbn [CreateOrUpdate_Deployment reconciler_client].
  unfold create_or_update. rewrite bool_decide_eq_true_2 by exact Hk. cbn [negb].
  change (default d (mem_deployments w !! _)) with (default d stored). rewrite Hf. by do 2 eexists.
Qed.
Next Obligation.
  intros s f w mutated stored _ _ Hk Hf _ _. cbn [CreateOrUpdate_Service reconciler_client].
  unfold create_or_update. rewrite bool_decide_eq_true_2 by exact Hk. cbn [negb].
  change (default s (mem_services w !! _)) with (default s stored). rewrite Hf. by do 2 eexists.
Qed.
Next Obligation.
  intros before after w _ Hb _. cbn in Hb |- *. unfold patch. cbv zeta.
  pose proof (fun st => do_status_spec (key (ms_meta after)) st (mem_base w)) as Hs. rewrite Hb in Hs |- *.
  destruct (Hs (merge_status (Status before) (Status after) (Status before))) as (b & Hd & _).
  cbn [from_option]. rewrite Hd. by do 2 eexists.
Qed.
Next Obligation.
  intros owner. exists [owner_of owner]. cbn [SetControllerReference reconciler_client]. unfold set_controller.
  rewrite String.eqb_refl. by rewrite bool_decide_eq_false_2 by apply not_elem_of_nil.
Qed.

(** The client of the control-plane API on the same cluster. *)
Definition on_base {A : Type} (f : Memory.cluster -> A * Memory.cluster) (w : cluster) : A * cluster :=
  let '(a, b) := f (mem_base w) in (a, with_base b w).

#[global] Instance managed_client : ManagedServiceClient cluster error := {
  client_Create := fun o => on_base (client_Create o);
  client_List := fun ns limit => on_base (client_List ns limit);
  client_Get := fun k => on_base (client_Get k);
  client_Delete := fun k => on_base (client_Delete k);
}.

Lemma on_base_inv {A : Type} (f : Memory.cluster -> A * Memory.cluster) w a w' :
  on_base f w = (a, w') -> f (mem_base w) = (a, mem_base w').
Proof. unfold on_base. destruct (f (mem_base w)). by intros [= -> <-]. Qed.

Lemma on_base_fst {A : Type} (f : Memory.cluster -> A * Memory.cluster) w :
  (on_base f w).1 = (f (mem_base w)).1.
Proof. unfold on_base. by destruct (f (mem_base w)). Qed.

#[global] Program Instance managed_laws : ManagedServiceClientLaws cluster error := {
  objects := fun w => objects (mem_base w);
  available := fun ns w => available ns (mem_base w);
}.
Next Obligation. intros w. apply objects_key. Qed.
Next Obligation. intros o w o' w' Hc%on_base_inv. by apply create_ok. Qed.
Next Obligation. intros o w e w' Hc%on_base_inv. by apply create_err. Qed.
Next Obligation.
  intros n ns spec w o Hw Hn Hs. cbn [client_Create managed_client]. rewrite on_base_fst.
  exact (create_available n ns spec _ Hw Hn Hs).
Qed.
Next Obligation. intros ns limit w r w' Hc%on_base_inv. by eapply list_frame. Qed.
Next Obligation. intros ns w l w' Hc%on_base_inv. by eapply list_ok. Qed.
Next Obligation.
  intros ns limit w Hw. cbn [client_List managed_client]. rewrite on_base_fst.
  exact (list_available ns limit _ Hw).
Qed.
Next Obligation. intros k w r w' Hc%on_base_inv. by eapply get_frame. Qed.
Next Obligation. intros k w o w' Hc%on_base_inv. by eapply get_ok. Qed.
Next Obligation. intros k w e w' Hc%on_base_inv. by eapply get_not_found. Qed.
Next Obligation.
  intros k w Hw. cbn [client_Get managed_client]. rewrite on_base_fst. exact (get_available k _ Hw).
Qed.
Next Obligation. intros k w w' Hc%on_base_inv. by apply delete_ok. Qed.
Next Obligation. intros k w e w' Hc%on_base_inv. by apply delete_err. Qed.
Next Obligation.
  intros k w Hw. cbn [client_Delete managed_client]. rewrite on_base_fst. exact (delete_available k _ Hw).
Qed.

(** The condition helpers as documented. *)
Fixpoint set_condition (now : Z) (c : Condition) (cs : list Condition) : list Condition :=
  match cs with
  | [] => [ {| cond_Type := cond_Type c; cond_Status := cond_Status c;
               cond_ObservedGeneration := cond_ObservedGeneration c;
               cond_LastTransitionTime := now; cond_Reason := cond_Reason c;
               cond_Message := cond_Message c |} ]
  | old :: cs' =>
      if String.eqb (cond_Type old) (cond_Type c) then
        {| cond_Type := cond_Type c; cond_Status := cond_Status c;
           cond_ObservedGeneration := cond_ObservedGeneration c;
           cond_LastTransitionTime :=
             if String.eqb (cond_Status old) (cond_Status c) then cond_LastTransitionTime old else now;
           cond_Reason := cond_Reason c; cond_Message := cond_Message c |} :: cs'
      else old :: set_condition now c cs'
  end.

Definition find_condition (cs : list Condition) (t : string) : option Condition :=
  head (filter (fun c => cond_Type c = t) cs).

#[global] Instance condition_helpers : ConditionHelpers := {
  SetStatusCondition := set_condition;
  FindStatusCondition := find_condition;
}.

Lemma find_condition_cons c cs t :
  find_condition (c :: cs) t = if bool_decide (cond_Type c = t) then Some c else find_condition cs t.
Proof. unfold find_condition. rewrite filter_cons. by case_bool_decide; destruct (decide _). Qed.

#[global] Program Instance condition_laws : ConditionHelpersLaws.
Next Obligation.
  intros cs t c. simpl. induction cs as [|c' cs IH]; [done|]. rewrite find_condition_cons.
  case_bool_decide; [intros [= <-]; split; [by left|done]|]. intros Hc.
  destruct (IH Hc). split; [by right|done].
Qed.
Next Obligation.
  intros cs t. simpl. induction cs as [|c' cs IH]; [split; [by intros _ ?%elem_of_nil|done]|].
  rewrite find_condition_cons, fmap_cons, not_elem_of_cons. case_bool_decide as Ht.
  - split; [done|]. intros [Hne _]. by destruct Hne.
  - rewrite IH. split; [|by intros [_ ?]]. split; [by intros Hc; apply Ht|done].
Qed.
Next Obligation.
  intros now c cs. simpl. induction cs as [|old cs IH]; simpl.
  - eexists. rewrite find_condition_cons, bool_decide_eq_true_2 by done. split_and!; [done..|].
    intros old. by unfold find_condition.
  - destruct (String.eqb_spec (cond_Type old) (cond_Type c)) as [Ht|Ht]; rewrite !find_condition_cons.
    + rewrite !bool_decide_eq_true_2 by done. eexists. split_and!; [done..|].
      intros old' [= <-] Hs. simpl. by rewrite Hs, String.eqb_refl.
    + by rewrite !bool_decide_eq_false_2.
Qed.
Next Obligation.
  intros now c cs t Ht. simpl. induction cs as [|old cs IH]; simpl.
  - rewrite find_condition_cons. by rewrite bool_decide_eq_false_2.
  - destruct (String.eqb_spec (cond_Type old) (cond_Type c)) as [He|He]; rewrite !find_condition_cons.
    + simpl. by rewrite !bool_decide_eq_false_2 by congruence.
    + by rewrite IH.
Qed.
Next Obligation.
  intros now c cs. change (@SetStatusCondition condition_helpers) with set_condition.
  induction cs as [|old cs IH]; [done|]. cbn [set_condition]. rewrite fmap_cons.
  destruct (String.eqb_spec (cond_Type old) (cond_Type c)) as [He|He]; rewrite fmap_cons.
  - rewrite bool_decide_eq_true_2 by (rewrite He; left). by rewrite He.
  - rewrite IH. case_bool_decide as H1; case_bool_decide as H2; try done.
    + destruct H2. by right.
    + by apply elem_of_cons in H2 as [Hc|].
Qed.
Next Obligation.
  intros now c cs old. simpl. induction cs as [|o cs IH]; [done|]. simpl.
  rewrite find_condition_cons. destruct (String.eqb_spec (cond_Type o) (cond_Type c)) as [He|He].
  - rewrite bool_decide_eq_true_2 by done. intros [= ->] (Ht & Hs & Hg & Hr & Hm).
    rewrite Hs, String.eqb_refl. by destruct old, c; simpl in *; subst.
  - rewrite bool_decide_eq_false_2 by done. intros Hf Hsame. by rewrite IH.
Qed.
End MemoryCluster.
