(* ===== verification/Resources.v ===== *)
(** * The managed resources (internal/controller/managedservice_resources.go)

    The image check, the labels and selectors, and the Deployment and Service of
    a ManagedService.  A [MutateFn] is a function from the object it is given to
    the mutated object. *)

From Stdlib Require Import ZArith Lia.
From S2P Require Import Prelude GoStrings ApiTypes Kube Workloads.
Import V1alpha1.

Module Resources.

Definition managedServiceContainerName : string := "demo-http".
Definition managedServiceContainerPort : Z := 8080.
Definition managedServiceHTTPPortName : string := "http".
Definition managedServiceMetricsContainerPort : Z := 9090.
Definition managedServiceMetricsPortName : string := "metrics".
Definition managedServiceServicePort : Z := 80.
Definition applicationNameLabel : string := "app.kubernetes.io/name".
Definition applicationInstanceLabel : string := "app.kubernetes.io/instance".
Definition managedServiceApplicationName : string := "managed-service".
Definition managedServiceManagedByLabel : string := "app.kubernetes.io/managed-by".
Definition managedServiceTemplateLabel : string := "platform.eoghanclancy.eu/template".
Definition platformOperatorName : string := "platform-operator".
Definition otlpClientLabel : string := "observability.eoghanclancy.eu/otlp-client".
Definition managedServiceOTLPClient : string := "managed-service".

Definition validateImmutableImage {E : Type} (image : string) : option (go_error E) :=
  match cut image "@sha256:" with
  | None => Some (ErrorNew "demo-http image must use an immutable @sha256 digest")
  | Some (repository, digest) =>
      if String.eqb repository "" then
        Some (ErrorNew "demo-http image must use an immutable @sha256 digest")
      else
        match hex_decode digest with
        | Some decodedDigest =>
            if negb (String.length decodedDigest =? 32)%nat
            then Some (ErrorNew "demo-http image contains an invalid sha256 digest")
            else None
        | None => Some (ErrorNew "demo-http image contains an invalid sha256 digest")
        end
  end.

Definition managedServiceSelector (ms : ManagedService) : gmap string string :=
  <[applicationNameLabel := managedServiceApplicationName]>
  (<[applicationInstanceLabel := Name (ms_meta ms)]> ∅).

Definition managedServiceLabels (ms : ManagedService) : gmap string string :=
  let labels := managedServiceSelector ms in
  let labels := <[managedServiceManagedByLabel := platformOperatorName]> labels in
  <[managedServiceTemplateLabel := Template (Spec ms)]> labels.

Definition managedServicePodLabels (ms : ManagedService) : gmap string string :=
  <[otlpClientLabel := managedServiceOTLPClient]> (managedServiceLabels ms).

Definition desiredReplicas (ms : ManagedService) : Z :=
  match Replicas (Spec ms) with
  | None => 1
  | Some replicas => replicas
  end.

Definition managedServiceHTTPProbe (path : string) (initialDelaySeconds : Z) : Probe :=
  {| probe_Path := path; probe_Port := managedServiceHTTPPortName; probe_Scheme := "HTTP";
     probe_InitialDelaySeconds := initialDelaySeconds; probe_TimeoutSeconds := 2;
     probe_PeriodSeconds := 5; probe_SuccessThreshold := 1; probe_FailureThreshold := 6 |}.

Definition with_owners (m : ObjectMeta) (refs : list OwnerReference) : ObjectMeta :=
  {| Name := Name m; Namespace := Namespace m; UID := UID m; Generation := Generation m;
     Labels := Labels m; OwnerReferences := refs; DeletionTimestamp := DeletionTimestamp m |}.

Definition with_labels (m : ObjectMeta) (labels : gmap string string) : ObjectMeta :=
  {| Name := Name m; Namespace := Namespace m; UID := UID m; Generation := Generation m;
     Labels := labels; OwnerReferences := OwnerReferences m; DeletionTimestamp := DeletionTimestamp m |}.

(** The fields of [ManagedServiceReconciler] besides the client and scheme. *)
Record ManagedServiceReconciler : Type := {
  DemoHTTPImage : string;
  ImagePullSecretName : string;
  has_Metrics : bool;
}.

Definition managedServiceContainer (r : ManagedServiceReconciler) (ms : ManagedService) : Container :=
  {| c_Name := managedServiceContainerName;
     c_Image := DemoHTTPImage r;
     c_ImagePullPolicy := "IfNotPresent";
     c_Ports := [ {| cp_Name := managedServiceHTTPPortName;
                     cp_ContainerPort := managedServiceContainerPort; cp_Protocol := "TCP" |};
                  {| cp_Name := managedServiceMetricsPortName;
                     cp_ContainerPort := managedServiceMetricsContainerPort; cp_Protocol := "TCP" |} ];
     c_Env := [ {| env_Name := "MESSAGE"; env_Value := Message (Spec ms) |};
                {| env_Name := "METRICS_PORT"; env_Value := "9090" |};
                {| env_Name := "OTEL_SERVICE_NAME"; env_Value := managedServiceContainerName |} ];
     c_Requests := [("cpu", "5m"); ("memory", "16Mi")];
     c_Limits := [("cpu", "50m"); ("memory", "32Mi")];
     c_SecurityContext := {| sc_AllowPrivilegeEscalation := Some false; sc_Drop := ["ALL"];
                             sc_ReadOnlyRootFilesystem := Some true; sc_RunAsNonRoot := Some true |};
     c_LivenessProbe := managedServiceHTTPProbe "/healthz" 10;
     c_ReadinessProbe := managedServiceHTTPProbe "/readyz" 2;
     c_TerminationMessagePath := "/dev/termination-log";
     c_TerminationMessagePolicy := "File" |}.

Definition managedServicePodSpec (r : ManagedServiceReconciler) (ms : ManagedService) : PodSpec :=
  let imagePullSecrets :=
    if negb (String.eqb (ImagePullSecretName r) "") then [ImagePullSecretName r] else [] in
  {| pod_AutomountServiceAccountToken := Some false;
     pod_DNSPolicy := "ClusterFirst";
     pod_EnableServiceLinks := Some false;
     pod_ImagePullSecrets := imagePullSecrets;
     pod_RestartPolicy := "Always";
     pod_SchedulerName := "default-scheduler";
     pod_SecurityContext := {| psc_RunAsGroup := Some 65532%Z; psc_RunAsNonRoot := Some true;
                               psc_RunAsUser := Some 65532%Z; psc_SeccompProfile := "RuntimeDefault" |};
     pod_TerminationGracePeriodSeconds := Some 10%Z;
     pod_Containers := [managedServiceContainer r ms];
     pod_unmanaged := "" |}.

Definition managedServicePorts : list ServicePort :=
  [ {| sp_Name := managedServiceHTTPPortName; sp_Port := managedServiceServicePort;
       sp_Protocol := "TCP"; sp_TargetPort := managedServiceHTTPPortName |};
    {| sp_Name := managedServiceMetricsPortName; sp_Port := managedServiceMetricsContainerPort;
       sp_Protocol := "TCP"; sp_TargetPort := managedServiceMetricsPortName |} ].

Section Reconciling.
Context {W E : Type} `{ReconcilerClient W E}.

(** The closure [reconcileDeployment] passes to [CreateOrUpdate]. *)
Definition mutateDeployment (r : ManagedServiceReconciler) (ms : ManagedService)
    : mutate_fn E Deployment := fun deployment =>
  match SetControllerReference (ms_meta ms) (Namespace (d_meta deployment)) (OwnerReferences (d_meta deployment)) with
  | Err err => Err (ErrorWrap "set Deployment controller reference" (ErrorApi err))
  | Ok refs => Ok {|
      d_meta := with_labels (with_owners (d_meta deployment) refs) (managedServiceLabels ms);
      d_Replicas := Some (desiredReplicas ms);
      d_Selector := Some (managedServiceSelector ms);
      d_TemplateLabels := managedServicePodLabels ms;
      d_PodSpec := Some (managedServicePodSpec r ms);
      d_ReadyReplicas := d_ReadyReplicas deployment;
      d_unmanaged := d_unmanaged deployment |}
  end.

Definition reconcileDeployment (r : ManagedServiceReconciler) (ms : ManagedService) (w : W)
    : result (go_error E) Deployment * W :=
  let deployment := new_deployment (Name (ms_meta ms)) (Namespace (ms_meta ms)) in
  match CreateOrUpdate_Deployment deployment (mutateDeployment r ms) w with
  | (Err err, w') => (Err (ErrorWrap "reconcile Deployment" err), w')
  | (Ok deployment', w') => (Ok deployment', w')
  end.

Definition mutateService (ms : ManagedService) : mutate_fn E Service := fun service =>
  match SetControllerReference (ms_meta ms) (Namespace (s_meta service)) (OwnerReferences (s_meta service)) with
  | Err err => Err (ErrorWrap "set Service controller reference" (ErrorApi err))
  | Ok refs => Ok {|
      s_meta := with_labels (with_owners (s_meta service) refs) (managedServiceLabels ms);
      s_Type := "ClusterIP";
      s_Selector := managedServiceSelector ms;
      s_Ports := managedServicePorts;
      s_unmanaged := s_unmanaged service |}
  end.

Definition reconcileService (ms : ManagedService) (w : W) : option (go_error E) * W :=
  let service := new_service (Name (ms_meta ms)) (Namespace (ms_meta ms)) in
  match CreateOrUpdate_Service service (mutateService ms) w with
  | (Err err, w') => (Some (ErrorWrap "reconcile Service" err), w')
  | (Ok _, w') => (None, w')
  end.
End Reconciling.

(** ** The image check *)

Lemma hex_decode_length s b : hex_decode s = Some b -> String.length s = 2 * String.length b.
Proof.
  remember (String.length s) as n eqn:Hn. revert s b Hn.
  induction n as [n IH] using lt_wf_ind. intros s b ->.
  destruct s as [|x [|y s]]; simpl; [by intros [= <-]|done|].
  destruct (hex_digit x), (hex_digit y); try done. intros (b' & Hb & ->)%fmap_Some.
  simpl. rewrite (IH (String.length s)) with (s := s) (b := b') by (done || simpl; lia). lia.
Qed.

Definition is_hex_digit (c : ascii) : bool := match hex_digit c with Some _ => true | None => false end.

Lemma hex_decode_some s k :
  (exists b, hex_decode s = Some b /\ String.length b = k) <->
  String.length s = 2 * k /\ sforall is_hex_digit s = true.
Proof.
  split.
  - intros (b & Hb & <-). split; [by apply hex_decode_length|].
    remember (String.length s) as n eqn:Hn. revert s b Hb Hn.
    induction n as [n IH] using lt_wf_ind. intros s b Hb ->.
    destruct s as [|x [|y s]]; simpl in *; [done|done|]. unfold is_hex_digit.
    destruct (hex_digit x), (hex_digit y); try done. apply fmap_Some in Hb as (b' & Hb & ->).
    simpl. by eapply (IH (String.length s)); [lia| |].
  - revert s. induction k as [|k IH]; intros s [Hl Hs].
    + exists "". by destruct s.
    + destruct s as [|x [|y s]]; simpl in *; [lia|lia|]. bools. unfold is_hex_digit in *.
      destruct (IH s) as (b & Hb & Hlb); [split; [lia|done]|]. rewrite Hb.
      destruct (hex_digit x), (hex_digit y); try done. eexists. split; [done|]. simpl. by rewrite Hlb.
Qed.

(** Exactly which images the operator accepts: a non-empty repository, the
    separator [@sha256:] at its first occurrence, and 64 hexadecimal digits.  A
    tag alone, a truncated digest or text after the digest is refused, so what
    runs is fixed by the configuration. *)
Theorem validateImmutableImage_iff {E : Type} image :
  validateImmutableImage (E := E) image = None <->
  exists repository digest,
    cut image "@sha256:" = Some (repository, digest) /\
    image = repository +:+ "@sha256:" +:+ digest /\ repository <> "" /\
    String.length digest = 64 /\ sforall is_hex_digit digest = true.
Proof.
  unfold validateImmutableImage. split.
  - destruct (cut image "@sha256:") as [[repository digest]|] eqn:Hc; [|done].
    destruct (String.eqb_spec repository "") as [|Hne]; [done|].
    destruct (hex_decode digest) as [b|] eqn:Hh; [|done].
    destruct (Nat.eqb_spec (String.length b) 32) as [Hl|]; [|done]. intros _.
    destruct (proj1 (hex_decode_some digest 32)) as [Hd Hx]; [by exists b|].
    exists repository, digest. split_and!; [done|by apply cut_spec in Hc|done..].
  - intros (repository & digest & -> & _ & Hne%String.eqb_neq & Hl & Hx). rewrite Hne.
    destruct (proj2 (hex_decode_some digest 32)) as (b & -> & Hb); [done|]. by rewrite Hb.
Qed.

(** ** Labels and selectors *)

(** A label selector with [matchLabels] only, as Kubernetes evaluates it. *)
Definition selects (selector labels : gmap string string) : Prop := selector ⊆ labels.

Lemma selector_lookup_instance ms :
  managedServiceSelector ms !! applicationInstanceLabel = Some (Name (ms_meta ms)).
Proof. done. Qed.

Lemma selector_pod_labels ms : managedServiceSelector ms ⊆ managedServicePodLabels ms.
Proof.
  unfold managedServicePodLabels, managedServiceLabels.
  apply insert_subseteq_r; [done|]. apply insert_subseteq_r; [done|].
  by apply insert_subseteq_r.
Qed.

Lemma pod_labels_instance ms :
  managedServicePodLabels ms !! applicationInstanceLabel = Some (Name (ms_meta ms)).
Proof. done. Qed.

(** The number of a port by its name, among those of a pod. *)
Definition resolve_port (pod : PodSpec) (name : string) : option Z :=
  cp_ContainerPort <$> head (filter (fun p => cp_Name p = name) (pod_Containers pod ≫= c_Ports)).

(** C28: traffic goes to the right pods.  The selector shared by a service's
    Deployment and Service selects the pods of its own template and, within a
    namespace, where names are unique, those of no other ManagedService; it does
    not depend on the spec, as a Deployment's selector must not change; and every
    port of the Service, and every probe, resolves to a port of the container. *)
Theorem selectors_and_ports r ms ms' :
  (selects (managedServiceSelector ms) (managedServicePodLabels ms') <->
   Name (ms_meta ms) = Name (ms_meta ms')) /\
  (Name (ms_meta ms) = Name (ms_meta ms') -> managedServiceSelector ms = managedServiceSelector ms') /\
  (fun p => resolve_port (managedServicePodSpec r ms) (sp_TargetPort p)) <$> managedServicePorts =
    [Some 8080%Z; Some 9090%Z] /\
  Forall (fun c => resolve_port (managedServicePodSpec r ms) (probe_Port (c_LivenessProbe c)) = Some 8080%Z /\
                   resolve_port (managedServicePodSpec r ms) (probe_Port (c_ReadinessProbe c)) = Some 8080%Z)
    (pod_Containers (managedServicePodSpec r ms)).
Proof.
  assert (Name (ms_meta ms) = Name (ms_meta ms') ->
    managedServiceSelector ms = managedServiceSelector ms') as Heq
    by (unfold managedServiceSelector; by intros ->).
  split_and!; [|done|done|by repeat constructor]. split.
  - intros Hs. eapply lookup_weaken in Hs; [|apply selector_lookup_instance].
    rewrite pod_labels_instance in Hs. by injection Hs.
  - intros Hn. rewrite (Heq Hn). apply selector_pod_labels.
Qed.

(** ** The mutations *)
Section MutationFacts.
Context {W E : Type} `{ReconcilerClientLaws W E}.

Lemma mutateDeployment_ok r ms d d' :
  mutateDeployment (W:=W) r ms d = Ok d' ->
  exists refs, SetControllerReference (W:=W) (ms_meta ms) (Namespace (d_meta d)) (OwnerReferences (d_meta d)) = Ok refs /\
  d' = {| d_meta := with_labels (with_owners (d_meta d) refs) (managedServiceLabels ms);
          d_Replicas := Some (desiredReplicas ms);
          d_Selector := Some (managedServiceSelector ms);
          d_TemplateLabels := managedServicePodLabels ms;
          d_PodSpec := Some (managedServicePodSpec r ms);
          d_ReadyReplicas := d_ReadyReplicas d; d_unmanaged := d_unmanaged d |}.
Proof. unfold mutateDeployment. destruct (SetControllerReference _ _ _); [|done]. intros [= <-]. eauto. Qed.

(** What a Deployment of the operator looks like: a fixed point of the mutation. *)
Definition deployment_current (r : ManagedServiceReconciler) (ms : ManagedService) (d : Deployment) : Prop :=
  key (d_meta d) = key (ms_meta ms) /\ controlled_by (ms_meta ms) (OwnerReferences (d_meta d)) /\
  Labels (d_meta d) = managedServiceLabels ms /\
  d_Replicas d = Some (desiredReplicas ms) /\ d_Selector d = Some (managedServiceSelector ms) /\
  d_TemplateLabels d = managedServicePodLabels ms /\ d_PodSpec d = Some (managedServicePodSpec r ms) /\
  mutateDeployment (W:=W) r ms d = Ok d.

Definition service_current (ms : ManagedService) (s : Service) : Prop :=
  key (s_meta s) = key (ms_meta ms) /\ controlled_by (ms_meta ms) (OwnerReferences (s_meta s)) /\
  Labels (s_meta s) = managedServiceLabels ms /\ s_Type s = "ClusterIP" /\
  s_Selector s = managedServiceSelector ms /\ s_Ports s = managedServicePorts /\
  mutateService (W:=W) ms s = Ok s.

(** Mutating and storing gives a fixed point of the mutation. *)
Lemma mutated_deployment_current r ms d d1 d' :
  key (d_meta d) = key (ms_meta ms) ->
  mutateDeployment (W:=W) r ms d = Ok d1 -> deployment_stored d1 d' -> deployment_current r ms d'.
Proof.
  intros Hk Hm Hs. apply mutateDeployment_ok in Hm as (refs & Hr & ->).
  apply scr_ok in Hr as [Hc Hr].
  destruct Hs as (Hk' & Hl & Ho & Hrep & Hsel & Htl & Hpod & Hready). simpl in *.
  assert (key (d_meta d') = key (ms_meta ms)) as Hkey.
  { rewrite Hk'. unfold key in *. simpl. done. }
  split_and!; [done|by rewrite Ho|done..|]. unfold mutateDeployment.
  assert (Namespace (d_meta d') = Namespace (d_meta d)) as -> by (unfold key in *; congruence).
  rewrite Ho, Hr. destruct d' as [m rep sel tl pod ready un]. simpl in *. subst.
  destruct m as [n ns uid g l o dt]. simpl in *. by subst.
Qed.

Lemma mutateService_ok ms s s' :
  mutateService (W:=W) ms s = Ok s' ->
  exists refs, SetControllerReference (W:=W) (ms_meta ms) (Namespace (s_meta s)) (OwnerReferences (s_meta s)) = Ok refs /\
  s' = {| s_meta := with_labels (with_owners (s_meta s) refs) (managedServiceLabels ms);
          s_Type := "ClusterIP"; s_Selector := managedServiceSelector ms;
          s_Ports := managedServicePorts; s_unmanaged := s_unmanaged s |}.
Proof. unfold mutateService. destruct (SetControllerReference _ _ _); [|done]. intros [= <-]. eauto. Qed.

Lemma mutated_service_current ms s s1 s' :
  key (s_meta s) = key (ms_meta ms) ->
  mutateService (W:=W) ms s = Ok s1 -> service_stored s1 s' -> service_current ms s'.
Proof.
  intros Hk Hm Hs. apply mutateService_ok in Hm as (refs & Hr & ->).
  apply scr_ok in Hr as [Hc Hr].
  destruct Hs as (Hk' & Hl & Ho & Ht & Hsel & Hp). simpl in *.
  assert (key (s_meta s') = key (ms_meta ms)) as Hkey.
  { rewrite Hk'. unfold key in *. simpl. done. }
  split_and!; [done|by rewrite Ho|done..|]. unfold mutateService.
  assert (Namespace (s_meta s') = Namespace (s_meta s)) as -> by (unfold key in *; congruence).
  rewrite Ho, Hr. destruct s' as [m t sel ports un]. simpl in *. subst.
  destruct m as [n ns uid g l o dt]. simpl in *. by subst.
Qed.

(** Both depend on the metadata and the spec of the ManagedService only. *)
Lemma deployment_current_ext r ms ms' d :
  ms_meta ms' = ms_meta ms -> Spec ms' = Spec ms ->
  deployment_current r ms d -> deployment_current r ms' d.
Proof.
  intros Hm Hs. destruct ms as [m sp st], ms' as [m' sp' st']. simpl in *. by subst.
Qed.

Lemma service_current_ext ms ms' s :
  ms_meta ms' = ms_meta ms -> Spec ms' = Spec ms -> service_current ms s -> service_current ms' s.
Proof.
  intros Hm Hs. destruct ms as [m sp st], ms' as [m' sp' st']. simpl in *. by subst.
Qed.
End MutationFacts.
End Resources.
