(* ===== verification/Status.v ===== *)
(** * Status and metrics of the operator
      (internal/controller/managedservice_status.go, managedservice_metrics.go)

    The status a reconciliation computes, how it is patched, and the metrics it
    reports, as a list of [event]s.  The clock gives each condition type the time
    its [SetStatusCondition] call reads. *)

From Stdlib Require Import ZArith Lia.
From S2P Require Import Prelude GoStrings ApiTypes Kube Workloads Resources.
Import V1alpha1 Resources.

Module Status.

Definition reasonWorkloadAvailable : string := "WorkloadAvailable".
Definition reasonWorkloadProgressing : string := "WorkloadProgressing".
Definition reasonReconciliationFailed : string := "ReconciliationFailed".
Definition reasonReconciliationSucceeded : string := "ReconciliationSucceeded".
Definition reasonTemplateConfigurationInvalid : string := "TemplateConfigurationInvalid".
Definition reasonDeploymentReconcileFailed : string := "DeploymentReconcileFailed".
Definition reasonServiceReconcileFailed : string := "ServiceReconcileFailed".

(** ** Metrics *)

Inductive event : Type :=
| ReconciliationsInc (outcome : string)
| ReconcileDurationObserve (outcome : string)
| ConditionTransitionsInc (condition status : string).

(** [ctrl.Result] *)
Record Result : Type := { Requeue : bool; RequeueAfter : Z }.

Definition reconciliationOutcomeSuccess : string := "success".
Definition reconciliationOutcomeError : string := "error".
Definition reconciliationOutcomeRequeue : string := "requeue".

Definition managedServiceConditionTypes : list string :=
  [ManagedServiceConditionAvailable; ManagedServiceConditionProgressing; ManagedServiceConditionDegraded].

(** [metrics] is whether the receiver is not nil. *)
Definition observeReconciliation {E : Type} (metrics : bool) (result : Result)
    (reconcileErr : option (go_error E)) : list event :=
  if negb metrics then []
  else
    let requeue := (0 <? RequeueAfter result)%Z in
    let requeue := requeue || Requeue result in
    let outcome := match reconcileErr with
      | Some _ => reconciliationOutcomeError
      | None => if requeue then reconciliationOutcomeRequeue else reconciliationOutcomeSuccess
      end in
    [ReconciliationsInc outcome; ReconcileDurationObserve outcome].

Section Conditions.
Context `{ConditionHelpers}.

Definition transition (before after : list Condition) (conditionType : string) : list event :=
  match FindStatusCondition before conditionType, FindStatusCondition after conditionType with
  | _, None => []
  | Some beforeCondition, Some afterCondition =>
      if String.eqb (cond_Status beforeCondition) (cond_Status afterCondition) then []
      else [ConditionTransitionsInc conditionType (to_lower (cond_Status afterCondition))]
  | None, Some afterCondition =>
      [ConditionTransitionsInc conditionType (to_lower (cond_Status afterCondition))]
  end.

Definition observeConditionTransitions (metrics : bool) (before after : list Condition) : list event :=
  if negb metrics then [] else managedServiceConditionTypes ≫= transition before after.

(** ** Computing the status *)
Section Computing.
Context (clock : string -> Z).

Definition setManagedServiceCondition (conditionType status reason message : string)
    (ms : ManagedService) : ManagedService :=
  let st := Status ms in
  set_status ms
    {| ObservedGeneration := ObservedGeneration st; ReadyReplicas := ReadyReplicas st;
       Endpoint := Endpoint st;
       Conditions := SetStatusCondition (clock conditionType)
         {| cond_Type := conditionType; cond_Status := status;
            cond_ObservedGeneration := Generation (ms_meta ms); cond_LastTransitionTime := 0;
            cond_Reason := reason; cond_Message := message |} (Conditions st) |}.

Definition set_observed (readyReplicas : Z) (endpoint : string) (ms : ManagedService) : ManagedService :=
  set_status ms
    {| ObservedGeneration := Generation (ms_meta ms); ReadyReplicas := readyReplicas;
       Endpoint := endpoint; Conditions := Conditions (Status ms) |}.

Definition service_endpoint (ms : ManagedService) : string :=
  "http://" +:+ Name (ms_meta ms) +:+ "." +:+ Namespace (ms_meta ms) +:+ ".svc.cluster.local".

(** The assignments of [updateManagedServiceStatus], up to the patch. *)
Definition ready_status (ms : ManagedService) (deployment : Deployment) : ManagedService :=
  let ms := set_observed (d_ReadyReplicas deployment) (service_endpoint ms) ms in
  let ms :=
    if (desiredReplicas ms <=? d_ReadyReplicas deployment)%Z then
      setManagedServiceCondition ManagedServiceConditionProgressing ConditionFalse
        reasonWorkloadAvailable "Reconciliation succeeded"
      (setManagedServiceCondition ManagedServiceConditionAvailable ConditionTrue
        reasonWorkloadAvailable "Deployment has the desired number of ready replicas" ms)
    else
      setManagedServiceCondition ManagedServiceConditionProgressing ConditionTrue
        reasonWorkloadProgressing "Deployment is waiting for ready replicas"
      (setManagedServiceCondition ManagedServiceConditionAvailable ConditionFalse
        reasonWorkloadProgressing "Deployment is waiting for ready replicas" ms) in
  setManagedServiceCondition ManagedServiceConditionDegraded ConditionFalse
    reasonReconciliationSucceeded "Reconciliation succeeded" ms.

(** The assignments of [recordDegradedStatus], up to the patch. *)
Definition degraded_status (ms : ManagedService) (reason message : string) : ManagedService :=
  let ms := set_observed 0 "" ms in
  setManagedServiceCondition ManagedServiceConditionDegraded ConditionTrue reason message
  (setManagedServiceCondition ManagedServiceConditionProgressing ConditionFalse
    reasonReconciliationFailed "Reconciliation failed"
  (setManagedServiceCondition ManagedServiceConditionAvailable ConditionFalse
    reasonReconciliationFailed "Reconciliation failed" ms)).

(** ** Writing the status *)
Section Writing.
Context {W E : Type} `{APIErrors E} `{ReconcilerClient W E}.

Definition patchManagedServiceStatus (r : ManagedServiceReconciler) (before ms : ManagedService) (w : W)
    : option (go_error E) * W * list event :=
  if DeepEqual_status (Status before) (Status ms) then (None, w, [])
  else
    match status_Patch before ms w with
    | (Err err, w') => (Some (ErrorWrap "patch ManagedService status" (ErrorApi err)), w', [])
    | (Ok ms', w') =>
        (None, w', observeConditionTransitions (has_Metrics r)
                     (Conditions (Status before)) (Conditions (Status ms')))
    end.

Definition updateManagedServiceStatus (r : ManagedServiceReconciler) (ms : ManagedService)
    (deployment : Deployment) (w : W) : option (go_error E) * W * list event :=
  let before := ms in
  patchManagedServiceStatus r before (ready_status ms deployment) w.

Definition recordDegradedStatus (r : ManagedServiceReconciler) (ms : ManagedService)
    (reason : string) (reconcileErr : go_error E) (w : W) : option (go_error E) * W * list event :=
  let before := ms in
  match patchManagedServiceStatus r before (degraded_status ms reason (Error reconcileErr)) w with
  | (Some err, w', events) => (Some (ErrorJoin [reconcileErr; err]), w', events)
  | (None, w', events) => (Some reconcileErr, w', events)
  end.
End Writing.
End Computing.
End Conditions.

(** ** Facts: the conditions of a computed status *)
Section StatusFacts.
Context `{ConditionHelpersLaws} (clock : string -> Z).

(** Condition [t] of [ms] has this status, reason and message, for the current generation. *)
Definition has_condition (ms : ManagedService) (t status reason message : string) : Prop :=
  exists c, FindStatusCondition (Conditions (Status ms)) t = Some c /\
    cond_Type c = t /\ cond_Status c = status /\ cond_Reason c = reason /\ cond_Message c = message /\
    cond_ObservedGeneration c = Generation (ms_meta ms).

Lemma set_condition_has ms t status reason message :
  has_condition (setManagedServiceCondition clock t status reason message ms) t status reason message.
Proof.
  unfold has_condition, setManagedServiceCondition. simpl.
  match goal with |- context [SetStatusCondition ?now ?c ?cs] =>
    destruct (set_find now c cs) as (c' & Hf & (Ht & Hs & Hg & Hr & Hm) & _) end.
  simpl in *. by exists c'.
Qed.

Lemma set_condition_keeps ms t status reason message t' status' reason' message' :
  t <> t' -> has_condition ms t status reason message ->
  has_condition (setManagedServiceCondition clock t' status' reason' message' ms) t status reason message.
Proof.
  intros Hne (c & Hf & Hc). exists c. unfold setManagedServiceCondition. simpl.
  rewrite set_find_other; [done|]. simpl. done.
Qed.

(** Setting a condition that is already there changes nothing. *)
Lemma set_condition_id ms t status reason message :
  has_condition ms t status reason message ->
  setManagedServiceCondition clock t status reason message ms = ms.
Proof.
  intros (c & Hf & Ht & Hs & Hr & Hm & Hg). unfold setManagedServiceCondition.
  erewrite set_unchanged; [by destruct ms as [m sp [g rr e cs]]|exact Hf|].
  split_and!; simpl; done.
Qed.

Lemma set_condition_meta ms t status reason message :
  ms_meta (setManagedServiceCondition clock t status reason message ms) = ms_meta ms /\
  Spec (setManagedServiceCondition clock t status reason message ms) = Spec ms.
Proof. done. Qed.

#[local] Hint Resolve set_condition_has set_condition_keeps : controlplane.

Definition available_condition (ms : ManagedService) (ready : bool) : Prop :=
  if ready
  then has_condition ms ManagedServiceConditionAvailable ConditionTrue reasonWorkloadAvailable
         "Deployment has the desired number of ready replicas"
  else has_condition ms ManagedServiceConditionAvailable ConditionFalse reasonWorkloadProgressing
         "Deployment is waiting for ready replicas".

Definition progressing_condition (ms : ManagedService) (ready : bool) : Prop :=
  if ready
  then has_condition ms ManagedServiceConditionProgressing ConditionFalse reasonWorkloadAvailable
         "Reconciliation succeeded"
  else has_condition ms ManagedServiceConditionProgressing ConditionTrue reasonWorkloadProgressing
         "Deployment is waiting for ready replicas".

(** The status of a successful reconciliation, as a specification. *)
Definition ready_spec (ms : ManagedService) (readyReplicas : Z) (ms' : ManagedService) : Prop :=
  let ready := (desiredReplicas ms <=? readyReplicas)%Z in
  ms_meta ms' = ms_meta ms /\ Spec ms' = Spec ms /\
  ObservedGeneration (Status ms') = Generation (ms_meta ms) /\
  ReadyReplicas (Status ms') = readyReplicas /\ Endpoint (Status ms') = service_endpoint ms /\
  available_condition ms' ready /\ progressing_condition ms' ready /\
  has_condition ms' ManagedServiceConditionDegraded ConditionFalse reasonReconciliationSucceeded
    "Reconciliation succeeded".

(** The status of a failed one. *)
Definition degraded_spec (ms : ManagedService) (reason message : string) (ms' : ManagedService) : Prop :=
  ms_meta ms' = ms_meta ms /\ Spec ms' = Spec ms /\
  ObservedGeneration (Status ms') = Generation (ms_meta ms) /\
  ReadyReplicas (Status ms') = 0%Z /\ Endpoint (Status ms') = "" /\
  has_condition ms' ManagedServiceConditionAvailable ConditionFalse reasonReconciliationFailed
    "Reconciliation failed" /\
  has_condition ms' ManagedServiceConditionProgressing ConditionFalse reasonReconciliationFailed
    "Reconciliation failed" /\
  has_condition ms' ManagedServiceConditionDegraded ConditionTrue reason message.

Lemma ready_status_spec ms d : ready_spec ms (d_ReadyReplicas d) (ready_status clock ms d).
Proof.
  unfold ready_spec, ready_status, available_condition, progressing_condition.
  set (ms1 := set_observed _ _ ms). change (desiredReplicas ms1) with (desiredReplicas ms).
  destruct (_ <=? _)%Z; split_and!; try done;
    repeat first [ apply set_condition_has | apply set_condition_keeps; [discriminate|] ].
Qed.

Lemma degraded_status_spec ms reason message :
  degraded_spec ms reason message (degraded_status clock ms reason message).
Proof.
  unfold degraded_spec, degraded_status.
  split_and!; try done;
    repeat first [ apply set_condition_has | apply set_condition_keeps; [discriminate|] ].
Qed.

Lemma set_observed_id ms rr e :
  ObservedGeneration (Status ms) = Generation (ms_meta ms) -> ReadyReplicas (Status ms) = rr ->
  Endpoint (Status ms) = e -> set_observed rr e ms = ms.
Proof. intros Hg <- <-. unfold set_observed. rewrite <- Hg. by destruct ms as [m sp []]. Qed.

(** A status that is as it should be is left as it is, clock or no clock. *)
Lemma ready_status_id ms d :
  ready_spec ms (d_ReadyReplicas d) ms -> ready_status clock ms d = ms.
Proof.
  intros (_ & _ & Hg & Hr & He & Ha & Hp & Hd). unfold ready_status.
  rewrite set_observed_id by done. unfold available_condition, progressing_condition in *.
  destruct (_ <=? _)%Z;
    by rewrite (set_condition_id ms ManagedServiceConditionAvailable) by done;
       rewrite (set_condition_id ms ManagedServiceConditionProgressing) by done;
       rewrite (set_condition_id ms ManagedServiceConditionDegraded).
Qed.

Lemma degraded_status_id ms reason message :
  degraded_spec ms reason message ms -> degraded_status clock ms reason message = ms.
Proof.
  intros (_ & _ & Hg & Hr & He & Ha & Hp & Hd). unfold degraded_status.
  rewrite set_observed_id by done.
  rewrite (set_condition_id ms ManagedServiceConditionAvailable) by done.
  rewrite (set_condition_id ms ManagedServiceConditionProgressing) by done.
  by rewrite (set_condition_id ms ManagedServiceConditionDegraded).
Qed.

Lemma set_condition_types ms t status reason message :
  NoDup (cond_Type <$> Conditions (Status ms)) ->
  NoDup (cond_Type <$> Conditions (Status (setManagedServiceCondition clock t status reason message ms))).
Proof.
  intros Hnd. unfold setManagedServiceCondition. simpl. rewrite set_types. simpl.
  case_bool_decide as Hin; [done|]. apply NoDup_app. split_and!; [done| |apply NoDup_singleton].
  intros x Hx ->%list_elem_of_singleton. done.
Qed.

(** Conditions of other types survive. *)
Lemma set_condition_other ms t status reason message t' :
  t' <> t ->
  FindStatusCondition (Conditions (Status (setManagedServiceCondition clock t status reason message ms))) t' =
  FindStatusCondition (Conditions (Status ms)) t'.
Proof. intros Hne. unfold setManagedServiceCondition. simpl. by rewrite set_find_other. Qed.

(** A computed status is its own specification: it does not refer to the old one. *)
Lemma ready_spec_self ms rr ms' : ready_spec ms rr ms' -> ready_spec ms' rr ms'.
Proof.
  unfold ready_spec, service_endpoint, desiredReplicas. intros (Hm & Hs & ?). rewrite Hm, Hs in *. done.
Qed.

(** The platform's conditions that are true. *)
Definition true_conditions (ms : ManagedService) : list string :=
  filter (fun t => cond_Status <$> FindStatusCondition (Conditions (Status ms)) t = Some ConditionTrue)
    managedServiceConditionTypes.

Lemma has_condition_status ms t status reason message :
  has_condition ms t status reason message ->
  cond_Status <$> FindStatusCondition (Conditions (Status ms)) t = Some status.
Proof. intros (c & -> & _ & <- & _). done. Qed.

Lemma true_conditions_of ms va vp vd ra ma rp mp rd md :
  has_condition ms ManagedServiceConditionAvailable va ra ma ->
  has_condition ms ManagedServiceConditionProgressing vp rp mp ->
  has_condition ms ManagedServiceConditionDegraded vd rd md ->
  true_conditions ms =
    (if bool_decide (va = ConditionTrue) then [ManagedServiceConditionAvailable] else []) ++
    (if bool_decide (vp = ConditionTrue) then [ManagedServiceConditionProgressing] else []) ++
    (if bool_decide (vd = ConditionTrue) then [ManagedServiceConditionDegraded] else []).
Proof.
  intros Ha%has_condition_status Hp%has_condition_status Hd%has_condition_status.
  unfold true_conditions, managedServiceConditionTypes. rewrite !filter_cons, Ha, Hp, Hd.
  repeat case_bool_decide; repeat destruct (decide _); simplify_eq; done.
Qed.

(** The computed statuses have one true condition. *)
Lemma ready_true_conditions ms rr ms' :
  ready_spec ms rr ms' ->
  true_conditions ms' =
    [if (desiredReplicas ms <=? rr)%Z then ManagedServiceConditionAvailable else ManagedServiceConditionProgressing].
Proof.
  intros (_ & _ & _ & _ & _ & Ha & Hp & Hd). unfold available_condition, progressing_condition in *.
  destruct (_ <=? _)%Z; by rewrite (true_conditions_of _ _ _ _ _ _ _ _ _ _ Ha Hp Hd).
Qed.

Lemma degraded_true_conditions ms reason message ms' :
  degraded_spec ms reason message ms' -> true_conditions ms' = [ManagedServiceConditionDegraded].
Proof. intros (_ & _ & _ & _ & _ & Ha & Hp & Hd). by rewrite (true_conditions_of _ _ _ _ _ _ _ _ _ _ Ha Hp Hd). Qed.

(** Condition types stay unique, and conditions the operator does not own keep their value. *)
Record conditions_kept (ms ms' : ManagedService) : Prop := {
  kept_unique : NoDup (cond_Type <$> Conditions (Status ms)) -> NoDup (cond_Type <$> Conditions (Status ms'));
  kept_others : forall t, t ∉ managedServiceConditionTypes ->
    FindStatusCondition (Conditions (Status ms')) t = FindStatusCondition (Conditions (Status ms)) t;
}.

#[export] Instance conditions_kept_preorder : PreOrder conditions_kept.
Proof.
  split; [by split|]. intros a b c [Nab Fab] [Nbc Fbc]. split; [by auto|].
  intros t Ht. by rewrite Fbc, Fab.
Qed.

Lemma set_condition_kept ms t status reason message :
  t ∈ managedServiceConditionTypes ->
  conditions_kept ms (setManagedServiceCondition clock t status reason message ms).
Proof.
  intros Ht. split; [apply set_condition_types|]. intros t' Ht'. apply set_condition_other. by intros ->.
Qed.

Lemma set_observed_kept rr e ms : conditions_kept ms (set_observed rr e ms).
Proof. by split. Qed.

Lemma computed_kept ms d reason message :
  conditions_kept ms (ready_status clock ms d) /\ conditions_kept ms (degraded_status clock ms reason message).
Proof.
  assert (Forall (fun t => t ∈ managedServiceConditionTypes) managedServiceConditionTypes) as Hin
    by by apply Forall_forall.
  apply Forall_cons in Hin as [? [? [? _]%Forall_cons]%Forall_cons].
  unfold ready_status, degraded_status. split; [destruct (_ <=? _)%Z|];
    do 3 (etrans; [|by apply set_condition_kept]); apply set_observed_kept.
Qed.

(** ** Facts: transitions *)

Lemma transition_in before after t st e :
  FindStatusCondition after t = Some st ->
  e ∈ transition before after t <->
  e = ConditionTransitionsInc t (to_lower (cond_Status st)) /\
  cond_Status <$> FindStatusCondition before t <> Some (cond_Status st).
Proof.
  intros Hf. unfold transition. rewrite Hf. destruct (FindStatusCondition before t) as [b|]; simpl.
  - destruct (String.eqb_spec (cond_Status b) (cond_Status st)) as [->|Hne].
    + rewrite elem_of_nil. split; [done|]. by intros [_ []].
    + rewrite list_elem_of_singleton. split; [|by intros [? _]]. intros ->. split; [done|]. congruence.
  - rewrite list_elem_of_singleton. split; [|by intros [? _]]. intros ->. done.
Qed.

(** Condition transitions are counted exactly: there is one increment for
    each of the three condition types whose persisted status is new or differs
    from the status before, labelled with the type and the new status in lower
    case, and none for the others. *)
Theorem transitions_exact before after t s :
  ConditionTransitionsInc t s ∈ observeConditionTransitions true before after <->
  t ∈ managedServiceConditionTypes /\
  exists c, FindStatusCondition after t = Some c /\ s = to_lower (cond_Status c) /\
    cond_Status <$> FindStatusCondition before t <> Some (cond_Status c).
Proof.
  unfold observeConditionTransitions. cbn [negb]. rewrite list_elem_of_bind. split.
  - intros (t' & Hin & Ht').
    destruct (FindStatusCondition after t') as [c|] eqn:Hf;
      [|unfold transition in Hin; rewrite Hf in Hin;
        by destruct (FindStatusCondition before t'); apply elem_of_nil in Hin].
    apply (transition_in _ _ _ _ _ Hf) in Hin as [[= -> ->] Hne]. split; [done|]. by exists c.
  - intros (Ht & c & Hf & -> & Hne). exists t. split; [|done].
    by apply (transition_in _ _ _ _ _ Hf).
Qed.

(** The statuses that the schema of the CRD admits for a condition. *)
Definition condition_statuses : list string := [ConditionTrue; ConditionFalse; ConditionUnknown].

Definition admissible_conditions (cs : list Condition) : Prop :=
  Forall (fun c => cond_Status c ∈ condition_statuses) cs.

(** Where the operator's own conditions have admissible statuses, whatever the others. *)
Definition own_admissible (cs : list Condition) : Prop :=
  forall t c, t ∈ managedServiceConditionTypes -> FindStatusCondition cs t = Some c ->
    cond_Status c ∈ condition_statuses.

Lemma admissible_own cs : admissible_conditions cs -> own_admissible cs.
Proof.
  intros Hcs t c _ [Hin _]%find_type. unfold admissible_conditions in Hcs. rewrite Forall_forall in Hcs.
  by apply Hcs.
Qed.

Lemma own_admissible_of ms va vp vd ra ma rp mp rd md :
  has_condition ms ManagedServiceConditionAvailable va ra ma ->
  has_condition ms ManagedServiceConditionProgressing vp rp mp ->
  has_condition ms ManagedServiceConditionDegraded vd rd md ->
  va ∈ condition_statuses -> vp ∈ condition_statuses -> vd ∈ condition_statuses ->
  own_admissible (Conditions (Status ms)).
Proof.
  intros (ca & Ha & _ & <- & _) (cp & Hp & _ & <- & _) (cd & Hd & _ & <- & _) ? ? ? t c.
  unfold managedServiceConditionTypes. rewrite !elem_of_cons, elem_of_nil.
  intros Hin Hf. destruct_or? Hin; try done; subst t; congruence.
Qed.

Lemma computed_admissible ms d reason message :
  own_admissible (Conditions (Status (ready_status clock ms d))) /\
  own_admissible (Conditions (Status (degraded_status clock ms reason message))).
Proof.
  destruct (ready_status_spec ms d) as (_ & _ & _ & _ & _ & Hra & Hrp & Hrd).
  destruct (degraded_status_spec ms reason message) as (_ & _ & _ & _ & _ & Hda & Hdp & Hdd).
  unfold available_condition, progressing_condition in *.
  split; [destruct (_ <=? _)%Z|]; (eapply own_admissible_of; [done..| | |]); unfold condition_statuses;
    rewrite !elem_of_cons; tauto.
Qed.

(** The values of the operator's metrics are of known sets. *)
Definition known_values (e : event) : Prop :=
  match e with
  | ReconciliationsInc outcome | ReconcileDurationObserve outcome =>
      outcome ∈ [reconciliationOutcomeSuccess; reconciliationOutcomeError; reconciliationOutcomeRequeue]
  | ConditionTransitionsInc t status => t ∈ managedServiceConditionTypes /\ status ∈ (to_lower <$> condition_statuses)
  end.

Lemma transitions_known metrics before after :
  own_admissible after -> Forall known_values (observeConditionTransitions metrics before after).
Proof.
  intros Hafter. unfold observeConditionTransitions. destruct (negb metrics); [constructor|].
  apply Forall_forall. intros e (t & He & Ht)%list_elem_of_bind. unfold transition in He.
  destruct (FindStatusCondition after t) as [c|] eqn:Hf;
    [|by destruct (FindStatusCondition before t); apply elem_of_nil in He].
  assert (known_values (ConditionTransitionsInc t (to_lower (cond_Status c)))) as Hk
    by (split; [done|by apply list_elem_of_fmap_2, (Hafter t)]).
  destruct (FindStatusCondition before t); [destruct (String.eqb _ _); [by apply elem_of_nil in He|]|];
    apply list_elem_of_singleton in He; by subst e.
Qed.

Lemma observed_known {E : Type} metrics result (err : option (go_error E)) :
  Forall known_values (observeReconciliation metrics result err).
Proof.
  unfold observeReconciliation. destruct (negb metrics); [constructor|].
  rewrite !Forall_cons, Forall_nil. unfold known_values. rewrite !elem_of_cons. repeat case_match; tauto.
Qed.

Lemma transitions_length before after metrics :
  length (observeConditionTransitions metrics before after) <= 3.
Proof.
  assert (forall t, length (transition before after t) <= 1) as Hone.
  { intros t. unfold transition. repeat case_match; simpl; lia. }
  unfold observeConditionTransitions, managedServiceConditionTypes. destruct metrics; simpl; [|lia].
  rewrite !length_app. pose proof (Hone ManagedServiceConditionAvailable).
  pose proof (Hone ManagedServiceConditionProgressing).
  pose proof (Hone ManagedServiceConditionDegraded). simpl. lia.
Qed.
End StatusFacts.
(** ** Witness *)

Definition degraded_now : Condition :=
  {| cond_Type := ManagedServiceConditionDegraded; cond_Status := ConditionTrue; cond_ObservedGeneration := 1;
     cond_LastTransitionTime := 7; cond_Reason := "Reason"; cond_Message := "" |}.

Lemma transitions_exact_witness :
  ConditionTransitionsInc "Degraded" "true" ∈
    observeConditionTransitions (H:=MemoryCluster.condition_helpers) true [] [degraded_now].
Proof.
  apply transitions_exact. split; [do 2 right; left|]. exists degraded_now.
  split; [reflexivity|]. split; [reflexivity|discriminate].
Defined.
End Status.
