(* ===== verification/Controller.v ===== *)
(** * The reconciler (internal/controller/managedservice_controller.go)

    [Reconcile] returns the error handed to the work queue, the state of the
    cluster, and the metric events; its [ctrl.Result] is always the zero one.
    The deferred observation comes after everything else. *)

From Stdlib Require Import ZArith Lia.
From S2P Require Import Prelude GoStrings ApiTypes Kube Workloads Resources Status.
Import V1alpha1 Resources Status.

Module Controller.

Section Reconcile.
Context {W E : Type} `{APIErrors E} `{ReconcilerClient W E} `{ConditionHelpers}.
Context (clock : string -> Z).

(** The body of [Reconcile], without the deferred observation. *)
Definition reconcile (r : ManagedServiceReconciler) (req : string * string) (w : W)
    : Result * option (go_error E) * W * list event :=
  let done x := let '(err, w', events) := x in
    ({| Requeue := false; RequeueAfter := 0 |}, err, w', events) in
  match rc_Get req w with
  | (Err err, w1) => done (ErrorApi <$> IgnoreNotFound err, w1, [])
  | (Ok managedService, w1) =>
      match validateImmutableImage (DemoHTTPImage r) with
      | Some err =>
          done (recordDegradedStatus clock r managedService reasonTemplateConfigurationInvalid err w1)
      | None =>
          match reconcileDeployment r managedService w1 with
          | (Err err, w2) =>
              done (recordDegradedStatus clock r managedService reasonDeploymentReconcileFailed err w2)
          | (Ok deployment, w2) =>
              match reconcileService managedService w2 with
              | (Some err, w3) =>
                  done (recordDegradedStatus clock r managedService reasonServiceReconcileFailed err w3)
              | (None, w3) =>
                  match updateManagedServiceStatus clock r managedService deployment w3 with
                  | (Some err, w4, events) => done (Some err, w4, events)
                  | (None, w4, events) => done (None, w4, events)
                  end
              end
          end
      end
  end.

Definition Reconcile (r : ManagedServiceReconciler) (req : string * string) (w : W)
    : option (go_error E) * W * list event :=
  let '(result, reconcileErr, w', events) := reconcile r req w in
  (reconcileErr, w', events ++ observeReconciliation (has_Metrics r) result reconcileErr).
End Reconcile.

(** ** What a reconciliation does *)
Section ReconcileFacts.
Context {W E : Type} `{ReconcilerClientLaws W E} `{ConditionHelpersLaws}.
Context (clock : string -> Z) (r : ManagedServiceReconciler).

(** The status of [ms], if it is the stored object, became one that satisfies [P]. *)
Definition status_written (P : ManagedService -> Prop) (ms : ManagedService) (req : string * string)
    (w w' : W) : Prop :=
  services_of w !! req = Some ms ->
  exists ms', P ms' /\ services_of w' = <[req := ms']> (services_of w).

(** The Deployment of [ms] became a current one, if the cache had caught up. *)
Definition deployment_applied (ms : ManagedService) (req : string * string) (w w' : W) (d : Deployment)
    : Prop :=
  synced_deployments w ->
  deployment_current (W:=W) r ms d /\ deployments w' = <[req := d]> (deployments w).

Definition service_applied (ms : ManagedService) (req : string * string) (w w' : W) (s : Service)
    : Prop :=
  synced_services w ->
  service_current (W:=W) ms s /\ k8s_services w' = <[req := s]> (k8s_services w).

(** The persisted status is [after], or the patch failed, without effect or with
    a lost answer. *)
Lemma patch_outcome before after w err w' events :
  Spec after = Spec before -> ms_meta after = ms_meta before ->
  patchManagedServiceStatus r before after w = (err, w', events) ->
  deployments w' = deployments w /\ k8s_services w' = k8s_services w /\
  (forall k, Spec <$> services_of w' !! k = Spec <$> services_of w !! k) /\
  (forall k, k <> key (ms_meta before) -> services_of w' !! k = services_of w !! k) /\
  match err with
  | None => status_written (eq after) before (key (ms_meta before)) w w'
  | Some err => exists e, err = ErrorWrap "patch ManagedService status" (ErrorApi e) /\
      (services_of w' = services_of w \/
       status_written (eq after) before (key (ms_meta before)) w w')
  end.
Proof.
  intros Hspec Hmeta. unfold patchManagedServiceStatus.
  assert (forall w1 st, patched before after st (services_of w) (services_of w1) ->
    (forall k, Spec <$> services_of w1 !! k = Spec <$> services_of w !! k) /\
    (forall k, k <> key (ms_meta before) -> services_of w1 !! k = services_of w !! k) /\
    status_written (eq after) before (key (ms_meta before)) w w1) as Hpatched.
  { intros w1 st (cur & Hcur & Hs & Hst). rewrite Hmeta in *. split_and!.
    - intros k. rewrite Hs. destruct (decide (k = key (ms_meta before))) as [->|Hne];
        [by rewrite lookup_insert_eq, Hcur|by rewrite lookup_insert_ne].
    - intros k Hne. by rewrite Hs, lookup_insert_ne.
    - unfold status_written. rewrite Hcur. intros [= ->]. exists after. split; [done|].
      rewrite Hs, Hst, merge_status_unchanged. f_equal. destruct before, after; simpl in *; by subst. }
  destruct (DeepEqual_status _ _) eqn:Heq.
  - intros [= <- <- _]. apply deep_equal_status in Heq. split_and!; [done..|].
    intros Hb. exists after. split; [done|]. rewrite insert_id; [done|]. rewrite Hb. f_equal.
    destruct before, after; simpl in *; by subst.
  - destruct (status_Patch before after w) as [[o|e] w1] eqn:Hp; intros [= <- <- _].
    + apply patch_ok in Hp as (-> & -> & Hp). by apply Hpatched in Hp.
    + apply patch_err in Hp as (-> & -> & [Hp|(st & (? & ? & ?)%Hpatched)]);
        [rewrite Hp|]; split_and!; try done; exists e; auto.
Qed.

Lemma reconcileDeployment_frame ms w res w' :
  reconcileDeployment r ms w = (res, w') ->
  services_of w' = services_of w /\ k8s_services w' = k8s_services w /\
  changes_at (key (ms_meta ms)) (deployments w) (deployments w') /\
  match res with
  | Ok d => deployment_applied ms (key (ms_meta ms)) w w' d /\ (synced_services w -> synced_services w')
  | Err e => (exists cause, e = ErrorWrap "reconcile Deployment" cause) /\
      (deployments w' = deployments w \/ exists d, deployment_applied ms (key (ms_meta ms)) w w' d)
  end.
Proof.
  unfold reconcileDeployment.
  assert (forall w1 d', written (fun d => key (d_meta d)) deployment_stored
      (new_deployment (Name (ms_meta ms)) (Namespace (ms_meta ms))) (mutateDeployment r ms)
      (deployments w) (deployments w1) d' ->
    deployment_current (W:=W) r ms d' /\ deployments w1 = <[key (ms_meta ms) := d']> (deployments w)) as Hwr.
  { intros w1 d' (mutated & Hk & Hf & Hst & Hw). split; [|exact Hw]. by eapply mutated_deployment_current. }
  destruct (CreateOrUpdate_Deployment _ _ w) as [[d|e] w1] eqn:Hc; intros [= <- <-].
  - apply cou_deployment_ok in Hc as (-> & -> & ? & ? & Hd). split_and!; [done..| |done].
    intros Hs. apply Hwr, Hd, Hs.
  - apply cou_deployment_err in Hc as (-> & -> & [->|(d & ? & Hd)]); split_and!; try done;
      [by eexists|by left|by eexists|right].
    exists d. intros Hs. apply Hwr, Hd, Hs.
Qed.

Lemma reconcileService_frame ms w err w' :
  reconcileService ms w = (err, w') ->
  services_of w' = services_of w /\ deployments w' = deployments w /\
  changes_at (key (ms_meta ms)) (k8s_services w) (k8s_services w') /\
  match err with
  | None => exists s, service_applied ms (key (ms_meta ms)) w w' s
  | Some e => (exists cause, e = ErrorWrap "reconcile Service" cause) /\
      (k8s_services w' = k8s_services w \/ exists s, service_applied ms (key (ms_meta ms)) w w' s)
  end.
Proof.
  unfold reconcileService.
  assert (forall w1 s', written (fun s => key (s_meta s)) service_stored
      (new_service (Name (ms_meta ms)) (Namespace (ms_meta ms))) (mutateService ms)
      (k8s_services w) (k8s_services w1) s' ->
    service_current (W:=W) ms s' /\ k8s_services w1 = <[key (ms_meta ms) := s']> (k8s_services w)) as Hwr.
  { intros w1 s' (mutated & Hk & Hf & Hst & Hw). split; [|exact Hw]. by eapply mutated_service_current. }
  destruct (CreateOrUpdate_Service _ _ w) as [[s|e] w1] eqn:Hc; intros [= <- <-].
  - apply cou_service_ok in Hc as (-> & -> & ? & Hd). split_and!; [done..|].
    exists s. intros Hs. apply Hwr, Hd, Hs.
  - apply cou_service_err in Hc as (-> & -> & [->|(s & ? & Hd)]); split_and!; try done;
      [by eexists|by left|by eexists|right].
    exists s. intros Hs. apply Hwr, Hd, Hs.
Qed.

Lemma status_written_impl (P Q : ManagedService -> Prop) ms req w w' :
  (forall ms', P ms' -> Q ms') -> status_written P ms req w w' -> status_written Q ms req w w'.
Proof. intros HPQ Hw Hms. destruct (Hw Hms) as (ms' & ? & ?). eauto. Qed.

(** What a reconciliation of [ms] may do to the status of services. *)
Definition status_frame (ms : ManagedService) (w w' : W) : Prop :=
  deployments w' = deployments w /\ k8s_services w' = k8s_services w /\
  (forall k, Spec <$> services_of w' !! k = Spec <$> services_of w !! k) /\
  (forall k, k <> key (ms_meta ms) -> services_of w' !! k = services_of w !! k).

Lemma recordDegraded_outcome ms reason cause w err w' events :
  recordDegradedStatus clock r ms reason cause w = (err, w', events) ->
  status_frame ms w w' /\
  let recorded := status_written (degraded_spec ms reason (Error cause)) ms (key (ms_meta ms)) w w' in
  (err = Some cause /\ recorded \/
   exists e, err = Some (ErrorJoin [cause; ErrorWrap "patch ManagedService status" (ErrorApi e)]) /\
     (services_of w' = services_of w \/ recorded)).
Proof.
  unfold recordDegradedStatus.
  destruct (patchManagedServiceStatus r ms _ w) as [[perr w1] ev] eqn:Hp.
  pose proof (degraded_status_spec clock ms reason (Error cause)) as Hspec.
  apply patch_outcome in Hp as (? & ? & ? & ? & Hw); [|done..].
  assert (forall ms', degraded_status clock ms reason (Error cause) = ms' ->
    degraded_spec ms reason (Error cause) ms') as Hd by (by intros ? <-).
  destruct perr as [perr|]; intros [= <- <- _]; (split; [done|]); cbv zeta.
  - right. destruct Hw as (e & -> & [?|Hw]); exists e; (split; [done|]); [by left|right].
    by eapply status_written_impl.
  - left. split; [done|]. by eapply status_written_impl.
Qed.

Lemma updateStatus_outcome ms d w err w' events :
  updateManagedServiceStatus clock r ms d w = (err, w', events) ->
  status_frame ms w w' /\
  let recorded := status_written (ready_spec ms (d_ReadyReplicas d)) ms (key (ms_meta ms)) w w' in
  match err with
  | None => recorded
  | Some err => exists e, err = ErrorWrap "patch ManagedService status" (ErrorApi e) /\
      (services_of w' = services_of w \/ recorded)
  end.
Proof.
  unfold updateManagedServiceStatus. intros Hp.
  pose proof (ready_status_spec clock ms d) as Hspec.
  apply patch_outcome in Hp as (? & ? & ? & ? & Hw); [|apply Hspec..].
  assert (forall ms', ready_status clock ms d = ms' -> ready_spec ms (d_ReadyReplicas d) ms') as Hd
    by (by intros ? <-).
  split; [done|]. cbv zeta. destruct err as [err|]; [|by eapply status_written_impl].
  destruct Hw as (e & -> & [?|Hw]); exists e; (split; [done|]); [by left|right].
  by eapply status_written_impl.
Qed.

(** The step at which a reconciliation failed, and what it had done by then.  A
    failed write may have been carried out all the same, its answer lost. *)
Inductive failed_step (ms : ManagedService) (req : string * string) (w w' : W)
    : string -> go_error E -> Prop :=
| failed_image cause :
    validateImmutableImage (DemoHTTPImage r) = Some cause ->
    deployments w' = deployments w -> k8s_services w' = k8s_services w ->
    failed_step ms req w w' reasonTemplateConfigurationInvalid cause
| failed_deployment cause :
    validateImmutableImage (E:=E) (DemoHTTPImage r) = None ->
    deployments w' = deployments w \/ (exists d, deployment_applied ms req w w' d) ->
    k8s_services w' = k8s_services w ->
    failed_step ms req w w' reasonDeploymentReconcileFailed (ErrorWrap "reconcile Deployment" cause)
| failed_service cause d :
    validateImmutableImage (E:=E) (DemoHTTPImage r) = None ->
    deployment_applied ms req w w' d ->
    k8s_services w' = k8s_services w \/ (exists s, service_applied ms req w w' s) ->
    failed_step ms req w w' reasonServiceReconcileFailed (ErrorWrap "reconcile Service" cause).

(** How the failure reached the status and the work queue. *)
Definition failure_recorded (ms : ManagedService) (req : string * string) (w w' : W)
    (reason : string) (cause err : go_error E) : Prop :=
  let recorded := status_written (degraded_spec ms reason (Error cause)) ms req w w' in
  err = cause /\ recorded \/
  exists e, err = ErrorJoin [cause; ErrorWrap "patch ManagedService status" (ErrorApi e)] /\
    (services_of w' = services_of w \/ recorded).

(** The possible runs of [Reconcile], branch by branch. *)
Inductive run_of (req : string * string) (w : W) : option (go_error E) -> W -> Prop :=
| run_gone e : rc_Get req w = (Err e, w) -> IsNotFound e = true -> run_of req w None w
| run_unreadable e : rc_Get req w = (Err e, w) -> IsNotFound e = false ->
    run_of req w (Some (ErrorApi e)) w
| run_failed ms reason cause err w' :
    rc_Get req w = (Ok ms, w) -> failed_step ms req w w' reason cause ->
    failure_recorded ms req w w' reason cause err -> run_of req w (Some err) w'
| run_applied ms d s err w' :
    rc_Get req w = (Ok ms, w) -> validateImmutableImage (E:=E) (DemoHTTPImage r) = None ->
    deployment_applied ms req w w' d -> service_applied ms req w w' s ->
    (let recorded := status_written (ready_spec ms (d_ReadyReplicas d)) ms req w w' in
     match err with
     | None => recorded
     | Some err => exists e, err = ErrorWrap "patch ManagedService status" (ErrorApi e) /\
         (services_of w' = services_of w \/ recorded)
     end) ->
    run_of req w err w'.

Lemma status_written_from P ms req w w2 w' :
  services_of w2 = services_of w -> status_written P ms req w2 w' -> status_written P ms req w w'.
Proof. unfold status_written. by intros ->. Qed.

Lemma degraded_recorded ms req reason cause w w2 err w3 events :
  key (ms_meta ms) = req -> services_of w2 = services_of w ->
  recordDegradedStatus clock r ms reason cause w2 = (err, w3, events) ->
  deployments w3 = deployments w2 /\ k8s_services w3 = k8s_services w2 /\
  exists err', err = Some err' /\ failure_recorded ms req w w3 reason cause err'.
Proof.
  intros <- Hw2 Hr. apply recordDegraded_outcome in Hr as ((? & ? & _) & Hout). rewrite Hw2 in Hout.
  split_and!; [done..|].
  destruct Hout as [[-> Hms]|(e & -> & [?|Hms])]; eexists; (split; [done|]).
  - left. split; [done|]. by eapply status_written_from.
  - right. exists e. auto.
  - right. exists e. split; [done|]. right. by eapply status_written_from.
Qed.

(** What was applied stays applied when later steps leave the objects alone. *)
Lemma deployment_applied_on ms req w w1 w2 d :
  deployments w2 = deployments w1 -> deployment_applied ms req w w1 d -> deployment_applied ms req w w2 d.
Proof. unfold deployment_applied. by intros ->. Qed.

Lemma service_applied_on ms req w w1 w2 w3 s :
  (synced_services w -> synced_services w1) -> k8s_services w1 = k8s_services w ->
  k8s_services w3 = k8s_services w2 -> service_applied ms req w1 w2 s -> service_applied ms req w w3 s.
Proof. unfold service_applied. intros Hs -> ->. auto. Qed.

Lemma reconcile_runs req w err w' events :
  Reconcile clock r req w = (err, w', events) -> run_of req w err w'.
Proof.
  unfold Reconcile, reconcile. destruct (rc_Get req w) as [[ms|e] w1] eqn:Hget.
  2:{ apply rc_get_err in Hget as Hg. destruct Hg as [-> _]. intros [= <- <- _]. unfold IgnoreNotFound.
      destruct (IsNotFound e) eqn:Hn; simpl; [by eapply run_gone|by eapply run_unreadable]. }
  apply rc_get_ok in Hget as Hg. destruct Hg as (-> & Hk & _).
  destruct (validateImmutableImage (DemoHTTPImage r)) as [cause|] eqn:Himg.
  { destruct (recordDegradedStatus _ _ _ _ _ _) as [[err1 w2] ev] eqn:Hr. intros [= <- <- _].
    destruct (degraded_recorded ms req _ _ w w _ _ _ Hk eq_refl Hr) as (? & ? & err' & -> & Hf).
    eapply run_failed; [done| |exact Hf]. by apply failed_image. }
  destruct (reconcileDeployment r ms w) as [[d|derr] w2] eqn:Hdep;
    apply reconcileDeployment_frame in Hdep as (Hm2 & Hs2 & _ & Hdep); rewrite Hk in Hdep.
  2:{ destruct Hdep as [[cause ->] Hd2].
      destruct (recordDegradedStatus _ _ _ _ _ _) as [[err1 w3] ev] eqn:Hr. intros [= <- <- _].
      destruct (degraded_recorded ms req _ _ w w2 _ _ _ Hk Hm2 Hr) as (Hd3 & ? & err' & -> & Hf).
      eapply run_failed; [done| |exact Hf]. apply failed_deployment; [done| |congruence].
      destruct Hd2 as [?|(d & Hd)]; [left; congruence|right; exists d; by eapply deployment_applied_on]. }
  destruct Hdep as [Hdep Hsync]. 
  destruct (reconcileService ms w2) as [[serr|] w3] eqn:Hsvc;
    apply reconcileService_frame in Hsvc as (Hm3 & Hd3 & _ & Hsvc); rewrite Hk in Hsvc.
  { destruct Hsvc as [[cause ->] Hs3].
    destruct (recordDegradedStatus _ _ _ _ _ _) as [[err1 w4] ev] eqn:Hr. intros [= <- <- _].
    destruct (degraded_recorded ms req _ _ w w3 _ _ _ Hk ltac:(congruence) Hr)
      as (Hd4 & Hs4 & err' & -> & Hf).
    eapply run_failed; [done| |exact Hf].
    eapply failed_service; [done|by eapply deployment_applied_on, Hdep; congruence|].
    destruct Hs3 as [?|(s & Hs)]; [left; congruence|right; exists s]. by eapply service_applied_on. }
  destruct Hsvc as [s Hs].
  destruct (updateManagedServiceStatus _ _ _ _ _) as [[uerr w4] ev] eqn:Hup.
  apply updateStatus_outcome in Hup as ((Hd4 & Hs4 & _) & Hout). rewrite Hk in Hout. cbv zeta in Hout.
  assert (run_of req w uerr w4) as Hrun.
  { eapply run_applied; [done|done|by eapply deployment_applied_on, Hdep; congruence
      |by eapply service_applied_on|]. cbv zeta.
    assert (services_of w3 = services_of w) as Hm by congruence.
    destruct uerr as [uerr|]; [|by eapply status_written_from].
    destruct Hout as (e & -> & [?|?]); exists e; (split; [done|]); [left; congruence|right].
    by eapply status_written_from. }
  by destruct uerr; intros [= <- <- _].
Qed.

(** ** Properties *)

Definition caches_synced (w : W) : Prop :=
  synced_managed w /\ synced_deployments w /\ synced_services w.

Lemma get_synced req w o ms :
  synced_managed w -> services_of w !! req = Some ms -> rc_Get req w = (Ok o, w) -> o = ms.
Proof. intros Hs Hms (_ & _ & Hg)%rc_get_ok. rewrite (Hg Hs) in Hms. congruence. Qed.

Lemma success_state req w w' events ms :
  caches_synced w -> services_of w !! req = Some ms ->
  Reconcile clock r req w = (None, w', events) ->
  validateImmutableImage (E:=E) (DemoHTTPImage r) = None /\ key (ms_meta ms) = req /\
  exists d s ms',
    deployments w' = <[req := d]> (deployments w) /\ deployment_current (W:=W) r ms d /\
    k8s_services w' = <[req := s]> (k8s_services w) /\ service_current (W:=W) ms s /\
    services_of w' = <[req := ms']> (services_of w) /\ ready_spec ms (d_ReadyReplicas d) ms'.
Proof.
  intros (Hsm & Hsd & Hss) Hms Hrun%reconcile_runs.
  inversion Hrun as [e Hg Hn| | |ms0 d s err w0 Hg Himg Hd Hs Hst]; subst.
  - apply rc_get_err in Hg as [_ Hnone]. rewrite Hnone in Hms; done.
  - pose proof (get_synced _ _ _ _ Hsm Hms Hg) as ->. split; [done|].
    split; [by apply rc_get_ok in Hg as (_ & ? & _)|].
    destruct (Hd Hsd) as [Hcur Hdw], (Hs Hss) as [Hscur Hsw], (Hst Hms) as (ms' & Hspec & Hmw).
    by exists d, s, ms'.
Qed.

(** C3: what a successful reconciliation establishes.  When [Reconcile] returns
    [nil] for a ManagedService, with caches that have caught up, the cluster
    holds under its name a Deployment and a Service controlled by it, with the
    labels, selector, ports, replicas, hardened pod and digest-pinned image of
    its spec, and its status says for the current generation what the
    Deployment's ready replicas amount to; no other object was touched. *)
Theorem reconcile_success req w w' events ms :
  caches_synced w -> services_of w !! req = Some ms ->
  Reconcile clock r req w = (None, w', events) ->
  validateImmutableImage (E:=E) (DemoHTTPImage r) = None /\ key (ms_meta ms) = req /\
  exists d s ms',
    deployments w' = <[req := d]> (deployments w) /\ deployment_current (W:=W) r ms d /\
    k8s_services w' = <[req := s]> (k8s_services w) /\ service_current (W:=W) ms s /\
    services_of w' = <[req := ms']> (services_of w) /\ ready_spec ms (d_ReadyReplicas d) ms'.
Proof. apply success_state. Qed.

(** C10: every error is either recorded or retried.  When [Reconcile] returns an
    error for a stored ManagedService, with caches that have caught up with the cluster
    ([caches_synced]), the service could not be read; or a step failed, with the reason
    that belongs to the step, no later step was taken, and the status says Degraded
    with that reason and the error's text, or the patch failed too and both errors
    are returned; or everything but the final status patch succeeded.  A step or a
    patch that failed changed nothing, or what it would have changed had it
    succeeded. *)
Theorem reconcile_failure req w err w' events ms :
  caches_synced w -> services_of w !! req = Some ms ->
  Reconcile clock r req w = (Some err, w', events) ->
  (exists e, err = ErrorApi e /\ IsNotFound e = false /\ w' = w) \/
  (exists reason cause, failed_step ms req w w' reason cause /\
     failure_recorded ms req w w' reason cause err) \/
  (exists e d s, err = ErrorWrap "patch ManagedService status" (ErrorApi e) /\
     (services_of w' = services_of w \/
      status_written (ready_spec ms (d_ReadyReplicas d)) ms req w w') /\
     deployments w' = <[req := d]> (deployments w) /\ deployment_current (W:=W) r ms d /\
     k8s_services w' = <[req := s]> (k8s_services w) /\ service_current (W:=W) ms s).
Proof.
  intros (Hsm & Hsd & Hss) Hms Hrun%reconcile_runs.
  inversion Hrun as [|e Hg Hn|ms0 reason cause err0 w0 Hg Hstep Hrec|ms0 d s err0 w0 Hg Himg Hd Hs Hst]; subst.
  - left. by exists e.
  - right; left. pose proof (get_synced _ _ _ _ Hsm Hms Hg) as ->. by exists reason, cause.
  - right; right. pose proof (get_synced _ _ _ _ Hsm Hms Hg) as ->.
    destruct (Hd Hsd) as [Hcur Hdw], (Hs Hss) as [Hscur Hsw], Hst as (e & -> & Hmw).
    by exists e, d, s.
Qed.

(** A status that is written keeps the conditions of others. *)
Lemma patch_kept before after w err w' events :
  Spec after = Spec before -> ms_meta after = ms_meta before -> conditions_kept before after ->
  patchManagedServiceStatus r before after w = (err, w', events) ->
  services_of w' = services_of w \/ status_written (conditions_kept before) before (key (ms_meta before)) w w'.
Proof.
  intros Hs Hm Hk (_ & _ & _ & _ & Hp)%patch_outcome; [|done..].
  assert (status_written (eq after) before (key (ms_meta before)) w w' ->
    status_written (conditions_kept before) before (key (ms_meta before)) w w') as Himpl
    by by apply status_written_impl; intros ? <-.
  destruct err; [destruct Hp as (? & _ & [?|?]); [by left|right]|right]; auto.
Qed.

Lemma degraded_kept ms reason cause w w2 err w3 events :
  services_of w2 = services_of w -> recordDegradedStatus clock r ms reason cause w2 = (err, w3, events) ->
  services_of w3 = services_of w \/ status_written (conditions_kept ms) ms (key (ms_meta ms)) w w3.
Proof.
  intros Hw. unfold recordDegradedStatus. destruct (patchManagedServiceStatus _ _ _ _) as [[perr w4] ev] eqn:Hp.
  apply patch_kept in Hp as [Hp|Hp]; [| |done..|apply (computed_kept clock ms (new_deployment "" ""))];
    destruct perr; intros [= _ <- _]; [left; congruence|left; congruence|right|right]; by eapply status_written_from.
Qed.

Lemma reconcile_kept req w ms err w' events :
  rc_Get req w = (Ok ms, w) -> Reconcile clock r req w = (err, w', events) ->
  services_of w' = services_of w \/ status_written (conditions_kept ms) ms req w w'.
Proof.
  intros Hget. apply rc_get_ok in Hget as Hk. destruct Hk as (_ & Hk & _). rewrite <- Hk in Hget |- *.
  unfold Reconcile, reconcile. rewrite Hget. destruct (validateImmutableImage (DemoHTTPImage r)).
  { destruct (recordDegradedStatus _ _ _ _ _ _) as [[err1 w2] ev] eqn:Hr. intros [= _ <- _].
    by eapply degraded_kept. }
  destruct (reconcileDeployment r ms w) as [[d|derr] w2] eqn:Hdep; apply reconcileDeployment_frame in Hdep as [Hm2 _].
  2:{ destruct (recordDegradedStatus _ _ _ _ _ _) as [[err1 w3] ev] eqn:Hr. intros [= _ <- _].
      by eapply degraded_kept. }
  destruct (reconcileService ms w2) as [[serr|] w3] eqn:Hsvc; apply reconcileService_frame in Hsvc as [Hm3 _].
  { destruct (recordDegradedStatus _ _ _ _ _ _) as [[err1 w4] ev] eqn:Hr. intros [= _ <- _].
    eapply degraded_kept; [|exact Hr]. congruence. }
  unfold updateManagedServiceStatus. destruct (patchManagedServiceStatus _ _ _ _) as [[uerr w4] ev] eqn:Hp.
  destruct (ready_status_spec clock ms d) as (Hm & Hs & _).
  apply patch_kept in Hp; [|done..|by apply (computed_kept clock ms d "" "")].
  assert (services_of w3 = services_of w) as Hw3 by congruence. rewrite Hw3 in Hp.
  destruct uerr; intros [= _ <- _];
    (destruct Hp as [?|Hp]; [by left|right; by eapply status_written_from]).
Qed.

(** The stored status of [ms] became one with this true condition, and only this one,
    and kept what the operator does not own. *)
Definition one_true (t : ManagedService -> string) (ms : ManagedService) (req : string * string) (w w' : W)
    : Prop :=
  exists ms', services_of w' = <[req := ms']> (services_of w) /\ true_conditions ms' = [t ms'] /\
    conditions_kept ms ms'.

(** Available or Progressing, by the ready replicas that the status shows. *)
Definition readiness_condition (ms' : ManagedService) : string :=
  if (desiredReplicas ms' <=? ReadyReplicas (Status ms'))%Z then ManagedServiceConditionAvailable
  else ManagedServiceConditionProgressing.

Lemma written_one_true (P : ManagedService -> Prop) t ms req w w' :
  services_of w !! req = Some ms -> (forall ms', P ms' -> true_conditions ms' = [t ms']) ->
  services_of w' = services_of w \/ status_written (conditions_kept ms) ms req w w' ->
  status_written P ms req w w' -> one_true t ms req w w'.
Proof.
  intros Hms HP Hkept Hw. destruct (Hw Hms) as (ms' & Hp & Heq). exists ms'. split; [done|]. split; [by apply HP|].
  assert (services_of w' !! req = Some ms') as Hms' by (by rewrite Heq, lookup_insert_eq).
  destruct Hkept as [Hsame|Hkept].
  - rewrite Hsame in Hms'. replace ms' with ms by congruence. reflexivity.
  - destruct (Hkept Hms) as (ms2 & Hk & Heq2). rewrite Heq2, lookup_insert_eq in Hms'. by injection Hms' as <-.
Qed.

Lemma ready_one_true ms rr ms' : ready_spec ms rr ms' -> true_conditions ms' = [readiness_condition ms'].
Proof.
  intros Hs. pose proof Hs as (_ & Hspec & _ & Hrr & _). apply ready_true_conditions in Hs. rewrite Hs.
  unfold readiness_condition, desiredReplicas. by rewrite Hspec, Hrr.
Qed.

(** C27: the stored status is never contradictory.  When [Reconcile] returns for a stored
    ManagedService, with caches that have caught up with the cluster, exactly one of
    Available, Progressing and Degraded is true in the status it stored: Available or
    Progressing, by the ready replicas the status shows, if it returned [nil], and
    Degraded if it returned the error of a failed step.  The other errors say that no
    status may have been stored: the service could not be read, and the services are as
    they were; or the status patch failed, and they are as they were or the answer of a
    patch was lost that stored such a status.  Condition types stay unique, and
    conditions the operator does not own keep their value. *)
Theorem one_condition_true req w err w' events ms :
  caches_synced w -> services_of w !! req = Some ms -> Reconcile clock r req w = (err, w', events) ->
  let degraded := one_true (fun _ => ManagedServiceConditionDegraded) ms req w w' in
  let ready := one_true readiness_condition ms req w w' in
  let unchanged := services_of w' = services_of w in
  match err with
  | None => ready
  | Some err =>
      (exists e, err = ErrorApi e /\ unchanged) \/
      (exists reason cause, failed_step ms req w w' reason cause /\
        (err = cause /\ degraded \/
         exists e, err = ErrorJoin [cause; ErrorWrap "patch ManagedService status" (ErrorApi e)] /\
           (unchanged \/ degraded))) \/
      (exists e, err = ErrorWrap "patch ManagedService status" (ErrorApi e) /\ (unchanged \/ ready))
  end.
Proof.
  intros (Hsm & _) Hms Hrun degraded ready unchanged. pose proof Hrun as Hkept. apply reconcile_runs in Hrun.
  assert (forall reason message, rc_Get req w = (Ok ms, w) ->
    status_written (degraded_spec ms reason message) ms req w w' -> degraded) as Hdeg.
  { intros reason message Hg. eapply written_one_true; [done| |by eapply reconcile_kept].
    intros ms'. apply degraded_true_conditions. }
  assert (forall rr, rc_Get req w = (Ok ms, w) -> status_written (ready_spec ms rr) ms req w w' -> ready) as Hready.
  { intros rr Hg. eapply written_one_true; [done| |by eapply reconcile_kept]. intros ms'. apply ready_one_true. }
  inversion Hrun as [e Hg Hn|e Hg Hn|ms0 reason cause err0 w0 Hg Hstep Hrec|ms0 d s err0 w0 Hg Himg Hd Hs Hst]; subst.
  - apply rc_get_err in Hg as [_ Hnone]. rewrite Hnone in Hms; done.
  - left. by exists e.
  - right; left. pose proof (get_synced _ _ _ _ Hsm Hms Hg) as ->. exists reason, cause. split; [done|].
    destruct Hrec as [[-> Hrec]|(e & -> & Hrec)]; [left|right; exists e]; (split; [done|]); [by eapply Hdeg|].
    destruct Hrec as [?|?]; [by left|right; by eapply Hdeg].
  - pose proof (get_synced _ _ _ _ Hsm Hms Hg) as ->. destruct err as [err|]; [|by eapply Hready].
    right; right. destruct Hst as (e & -> & Hst). exists e. split; [done|].
    destruct Hst as [?|?]; [by left|right; by eapply Hready].
Qed.

(** A deleted service is left alone: when it is gone, or its read fails,
    [Reconcile] changes nothing, and only the failed read is retried. *)
Theorem reconcile_absent req w err w' events e :
  rc_Get req w = (Err e, w) ->
  Reconcile clock r req w = (err, w', events) ->
  w' = w /\ err = (if IsNotFound e then None else Some (ErrorApi e)).
Proof.
  intros Hg. unfold Reconcile, reconcile. rewrite Hg. unfold IgnoreNotFound.
  destruct (IsNotFound e); by intros [= <- <- _].
Qed.

Lemma recordDegraded_fails clock' ms reason cause w w' events :
  recordDegradedStatus clock' r ms reason cause w <> (None, w', events).
Proof.
  unfold recordDegradedStatus. by destruct (patchManagedServiceStatus _ _ _ _) as [[[] ?] ?].
Qed.

Lemma reconcileDeployment_noop ms w d :
  synced_deployments w -> deployments w !! key (ms_meta ms) = Some d ->
  deployment_current (W:=W) r ms d ->
  reconcileDeployment r ms w = (Ok d, w) \/ exists e, reconcileDeployment r ms w = (Err e, w).
Proof.
  intros Hs Hd (_ & _ & _ & _ & _ & _ & _ & Hm). unfold reconcileDeployment.
  destruct (cou_deployment_noop (new_deployment (Name (ms_meta ms)) (Namespace (ms_meta ms)))
    (mutateDeployment r ms) w d Hs Hd Hm) as [->|[e ->]]; [by left|right; by eexists].
Qed.

Lemma reconcileService_noop ms w s :
  synced_services w -> k8s_services w !! key (ms_meta ms) = Some s ->
  service_current (W:=W) ms s ->
  reconcileService ms w = (None, w) \/ exists e, reconcileService ms w = (Some e, w).
Proof.
  intros Hs Hd (_ & _ & _ & _ & _ & _ & Hm). unfold reconcileService.
  destruct (cou_service_noop (new_service (Name (ms_meta ms)) (Namespace (ms_meta ms)))
    (mutateService ms) w s Hs Hd Hm) as [->|[e ->]]; [by left|right; by eexists].
Qed.

(** Reconciling a state that is as it should be. *)
Lemma reconcile_settled clock' req w w' events ms d s :
  caches_synced w -> services_of w !! req = Some ms -> key (ms_meta ms) = req ->
  deployments w !! req = Some d -> deployment_current (W:=W) r ms d ->
  k8s_services w !! req = Some s -> service_current (W:=W) ms s ->
  ready_spec ms (d_ReadyReplicas d) ms ->
  Reconcile clock' r req w = (None, w', events) ->
  w' = w /\ events = observeReconciliation (E:=E) (has_Metrics r) {| Requeue := false; RequeueAfter := 0 |} None.
Proof.
  intros (Hsm & Hsd & Hss) Hms Hk Hd Hcur Hs Hscur Hspec. unfold Reconcile, reconcile.
  destruct (rc_get_synced req w ms Hsm Hms) as [->|(e & -> & Hn)];
    [|unfold IgnoreNotFound; by rewrite Hn].
  destruct (validateImmutableImage (DemoHTTPImage r)).
  { destruct (recordDegradedStatus _ _ _ _ _ _) as [[[err|] ?] ?] eqn:Hr; [done|].
    by apply recordDegraded_fails in Hr. }
  rewrite <- Hk in Hd, Hs.
  destruct (reconcileDeployment_noop ms w d Hsd Hd Hcur) as [->|[e ->]].
  2:{ destruct (recordDegradedStatus _ _ _ _ _ _) as [[[err|] ?] ?] eqn:Hr; [done|].
      by apply recordDegraded_fails in Hr. }
  destruct (reconcileService_noop ms w s Hss Hs Hscur) as [->|[e ->]].
  2:{ destruct (recordDegradedStatus _ _ _ _ _ _) as [[[err|] ?] ?] eqn:Hr; [done|].
      by apply recordDegraded_fails in Hr. }
  unfold updateManagedServiceStatus, patchManagedServiceStatus.
  rewrite ready_status_id by done. rewrite (proj2 (deep_equal_status _ _) eq_refl).
  by intros [= <- <-].
Qed.

(** C11: reconciling is idempotent.  After a reconciliation of a stored service
    succeeded, started with caches that had caught up with the cluster, a second one,
    once the caches have caught up again and nothing else changed, either fails on an
    API error or changes nothing at all: no Deployment, no Service, no status, and it
    counts no condition transition. *)
Theorem reconcile_idempotent clock' req w w1 events w2 w3 events' ms :
  caches_synced w -> services_of w !! req = Some ms ->
  Reconcile clock r req w = (None, w1, events) ->
  caches_synced w2 -> services_of w2 = services_of w1 -> deployments w2 = deployments w1 ->
  k8s_services w2 = k8s_services w1 ->
  Reconcile clock' r req w2 = (None, w3, events') ->
  w3 = w2 /\ events' = observeReconciliation (E:=E) (has_Metrics r) {| Requeue := false; RequeueAfter := 0 |} None.
Proof.
  intros Hsync Hms Hrun Hsync2 Hm2 Hd2 Hs2 Hrun2.
  destruct (success_state _ _ _ _ _ Hsync Hms Hrun)
    as (_ & Hk & d & s & ms' & Hd1 & Hcur & Hs1 & Hscur & Hm1 & Hspec).
  destruct (Hspec) as (Hmeta & Hsp & _).
  eapply (reconcile_settled clock' req w2 w3 events' ms' d s); try done.
  - by rewrite Hm2, Hm1, lookup_insert_eq.
  - by rewrite Hmeta.
  - by rewrite Hd2, Hd1, lookup_insert_eq.
  - by eapply deployment_current_ext.
  - by rewrite Hs2, Hs1, lookup_insert_eq.
  - by eapply service_current_ext.
  - by eapply ready_spec_self.
Qed.

(** ** Convergence *)

Lemma reconcileDeployment_live `{!ReconcilerClientLive W E} ms w d1 :
  let req := key (ms_meta ms) in
  let d0 := default (new_deployment (Name (ms_meta ms)) (Namespace (ms_meta ms))) (deployments w !! req) in
  writable w -> synced_deployments w -> key (d_meta d0) = req -> mutateDeployment (W:=W) r ms d0 = Ok d1 ->
  admits_deployment (deployments w !! req) d1 ->
  exists d w', reconcileDeployment r ms w = (Ok d, w') /\ writable w'.
Proof.
  intros req d0 Hw Hs Hk Hm Ha. apply mutateDeployment_ok in Hm as Hok. destruct Hok as (refs & _ & Hd1).
  unfold reconcileDeployment.
  destruct (live_deployment (new_deployment (Name (ms_meta ms)) (Namespace (ms_meta ms)))
    (mutateDeployment r ms) w d1) as (d & w' & -> & ?); try done; [by rewrite Hd1|by do 2 eexists].
Qed.

Lemma reconcileService_live `{!ReconcilerClientLive W E} ms w s1 :
  let req := key (ms_meta ms) in
  let s0 := default (new_service (Name (ms_meta ms)) (Namespace (ms_meta ms))) (k8s_services w !! req) in
  writable w -> synced_services w -> key (s_meta s0) = req -> mutateService (W:=W) ms s0 = Ok s1 ->
  admits_service (k8s_services w !! req) s1 ->
  exists w', reconcileService ms w = (None, w') /\ writable w'.
Proof.
  intros req s0 Hw Hs Hk Hm Ha. apply mutateService_ok in Hm as Hok. destruct Hok as (refs & _ & Hs1).
  unfold reconcileService.
  destruct (live_service (new_service (Name (ms_meta ms)) (Namespace (ms_meta ms)))
    (mutateService ms) w s1) as (s & w' & -> & ?); try done; [by rewrite Hs1|by eexists].
Qed.

(** The conditions under which one run succeeds: an API server that can be written to,
    caches that have caught up, a pinned image, and a Deployment and a Service of the
    name that are absent or the operator's to change and whose mutated forms are
    admitted, like the status of the Deployment that this run stores. *)
Record ready_to_reconcile `{!ReconcilerClientLive W E} (req : string * string) (w : W) (ms : ManagedService)
    : Prop := {
  ready_writable : writable w;
  ready_caches : caches_synced w;
  ready_service : services_of w !! req = Some ms;
  ready_image : validateImmutableImage (E:=E) (DemoHTTPImage r) = None;
  ready_deployment :
    let d0 := default (new_deployment (Name (ms_meta ms)) (Namespace (ms_meta ms))) (deployments w !! req) in
    key (d_meta d0) = req /\
    exists d1, mutateDeployment (W:=W) r ms d0 = Ok d1 /\ admits_deployment (deployments w !! req) d1;
  ready_exposure :
    let s0 := default (new_service (Name (ms_meta ms)) (Namespace (ms_meta ms))) (k8s_services w !! req) in
    key (s_meta s0) = req /\
    exists s1, mutateService (W:=W) ms s0 = Ok s1 /\ admits_service (k8s_services w !! req) s1;
  ready_admitted : forall d w', reconcileDeployment r ms w = (Ok d, w') -> admits_status (ready_status clock ms d);
}.

Lemma reconcile_live `{!ReconcilerClientLive W E} req w ms :
  ready_to_reconcile req w ms -> exists w' events, Reconcile clock r req w = (None, w', events).
Proof.
  intros [Hw (Hsm0 & Hsd & Hss) Hms Himg (Hdk & d1 & Hdm & Hda) (Hsk & s1 & Hsm & Hsa) Hst].
  pose proof (live_get req w ms Hw Hsm0 Hms) as Hget.
  apply rc_get_ok in Hget as Hg. destruct Hg as (_ & Hk & _). unfold Reconcile, reconcile. rewrite Hget, Himg.
  pose proof (reconcileDeployment_live ms w d1) as Hlive. cbv zeta in Hlive. rewrite Hk in Hlive.
  destruct (Hlive Hw Hsd Hdk Hdm Hda) as (d & w1 & Hd & Hw1). clear Hlive.
  specialize (Hst d w1 Hd). rewrite Hd. apply reconcileDeployment_frame in Hd as (Hm1 & Hs1 & _ & _ & Hss1).
  pose proof (reconcileService_live ms w1 s1) as Hlive. cbv zeta in Hlive. rewrite Hk, Hs1 in Hlive.
  destruct (Hlive Hw1 (Hss1 Hss) Hsk Hsm Hsa) as (w2 & Hs & Hw2).
  rewrite Hs. apply reconcileService_frame in Hs as (Hm2 & _ & _).
  unfold updateManagedServiceStatus, patchManagedServiceStatus.
  destruct (DeepEqual_status _ _); [by do 2 eexists|].
  destruct (ready_status_spec clock ms d) as (Hmeta & _).
  destruct (live_status ms (ready_status clock ms d) w2 Hw2) as (o & w3 & -> & _);
    [by rewrite Hmeta, Hk, Hm2, Hm1|done|by do 2 eexists].
Qed.

(** C5: reconciliation converges in one run.  With a pinned image, an API server that
    can be written to, caches that have caught up, and a Deployment and a Service of
    the name that are absent or the operator's to change and whose mutated forms are
    admitted, [Reconcile] returns [nil], and the Deployment and the status are as its
    success requires. *)
Theorem reconcile_converges `{!ReconcilerClientLive W E} req w ms :
  ready_to_reconcile req w ms ->
  exists w' events, Reconcile clock r req w = (None, w', events) /\
    exists d ms', deployments w' = <[req := d]> (deployments w) /\ deployment_current (W:=W) r ms d /\
      services_of w' = <[req := ms']> (services_of w) /\ ready_spec ms (d_ReadyReplicas d) ms'.
Proof.
  intros Hready. destruct (reconcile_live req w ms Hready) as (w' & events & Hrun).
  exists w', events. split; [exact Hrun|].
  destruct (success_state req w w' events ms (ready_caches _ _ _ Hready) (ready_service _ _ _ Hready) Hrun)
    as (_ & _ & d & s & ms' & ? & ? & _ & _ & ? & ?).
  by exists d, ms'.
Qed.

(** ** The frame and the metrics *)

Lemma patch_events before after w err w' events :
  patchManagedServiceStatus r before after w = (err, w', events) ->
  events = [] \/ exists cs, events = observeConditionTransitions (has_Metrics r) (Conditions (Status before)) cs.
Proof.
  unfold patchManagedServiceStatus. destruct (DeepEqual_status _ _); [by intros [= _ _ <-]; left|].
  destruct (status_Patch before after w) as [[o|e] w1]; intros [= _ _ <-]; [|by left].
  right. by exists (Conditions (Status o)).
Qed.

Lemma degraded_events ms reason cause w err w' events :
  recordDegradedStatus clock r ms reason cause w = (err, w', events) ->
  events = [] \/ exists cs, events = observeConditionTransitions (has_Metrics r) (Conditions (Status ms)) cs.
Proof.
  unfold recordDegradedStatus. destruct (patchManagedServiceStatus _ _ _ _) as [[[] ?] ev] eqn:Hp;
    intros [= _ _ <-]; by eapply patch_events.
Qed.

(** The events of a run: condition transitions, if the status was patched, and
    the observation. *)
Lemma reconcile_events req w err w' events :
  Reconcile clock r req w = (err, w', events) ->
  exists transitions,
    events = transitions ++ observeReconciliation (has_Metrics r) {| Requeue := false; RequeueAfter := 0 |} err /\
    (transitions = [] \/ exists before after,
       transitions = observeConditionTransitions (has_Metrics r) before after).
Proof.
  unfold Reconcile, reconcile. destruct (rc_Get req w) as [[ms|e] w1];
    [|intros [= <- _ <-]; exists []; auto].
  assert (forall reason cause w0 err0 w2 ev,
    recordDegradedStatus clock r ms reason cause w0 = (err0, w2, ev) ->
    exists transitions, ev = transitions /\
      (transitions = [] \/ exists before after,
         transitions = observeConditionTransitions (has_Metrics r) before after)) as Hdeg.
  { intros reason cause w0 err0 w2 ev Hr. exists ev. split; [done|].
    apply degraded_events in Hr as [?|[cs ?]]; eauto. }
  destruct (validateImmutableImage (DemoHTTPImage r)); [|destruct (reconcileDeployment r ms w1) as [[d|derr] w2]];
    [| destruct (reconcileService ms w2) as [[serr|] w3] |].
  - destruct (recordDegradedStatus _ _ _ _ _ _) as [[err1 w4] ev] eqn:Hr. intros [= <- _ <-].
    destruct (Hdeg _ _ _ _ _ _ Hr) as (tr & -> & ?). eauto.
  - destruct (recordDegradedStatus _ _ _ _ _ _) as [[err1 w4] ev] eqn:Hr. intros [= <- _ <-].
    destruct (Hdeg _ _ _ _ _ _ Hr) as (tr & -> & ?). eauto.
  - unfold updateManagedServiceStatus.
    destruct (patchManagedServiceStatus _ _ _ _) as [[uerr w4] ev] eqn:Hp.
    apply patch_events in Hp. intros Hres. exists ev. destruct uerr; injection Hres as <- _ <-;
      (split; [done|]); destruct Hp as [?|[cs ?]]; eauto.
  - destruct (recordDegradedStatus _ _ _ _ _ _) as [[err1 w4] ev] eqn:Hr. intros [= <- _ <-].
    destruct (Hdeg _ _ _ _ _ _ Hr) as (tr & -> & ?). eauto.
Qed.

(** The schema of the CRD: the stored conditions have admissible statuses. *)
Definition schema_valid (w : W) : Prop :=
  forall k ms, services_of w !! k = Some ms -> admissible_conditions (Conditions (Status ms)).

Lemma patch_known before after w err w' events :
  schema_valid w -> own_admissible (Conditions (Status after)) ->
  patchManagedServiceStatus r before after w = (err, w', events) -> Forall known_values events.
Proof.
  intros Hw Hafter. unfold patchManagedServiceStatus.
  destruct (DeepEqual_status _ _); [intros [= _ _ <-]; constructor|].
  destruct (status_Patch before after w) as [[o|e] w1] eqn:Hp; intros [= _ _ <-]; [|constructor].
  apply transitions_known. apply patch_ok in Hp as (_ & _ & cur & Hcur & _ & ->). cbn [Conditions merge_status].
  unfold merged. destruct (decide _); [|done]. by eapply admissible_own, Hw.
Qed.

Lemma degraded_known ms reason cause w err w' events :
  schema_valid w -> recordDegradedStatus clock r ms reason cause w = (err, w', events) ->
  Forall known_values events.
Proof.
  intros Hw. unfold recordDegradedStatus. destruct (patchManagedServiceStatus _ _ _ _) as [[[] ?] ev] eqn:Hp;
    intros [= _ _ <-]; (eapply patch_known; [exact Hw| |exact Hp]);
    apply (computed_admissible clock ms (new_deployment "" "")).
Qed.

Lemma reconcile_known req w err w' events :
  schema_valid w -> Reconcile clock r req w = (err, w', events) -> Forall known_values events.
Proof.
  intros Hw. unfold Reconcile.
  destruct (reconcile clock r req w) as [[[result err1] w1] ev] eqn:Hr. intros [= _ _ <-].
  apply Forall_app. split; [|apply observed_known]. revert Hr. unfold reconcile.
  destruct (rc_Get req w) as [[ms|e] w0] eqn:Hget; [|intros [= _ _ _ <-]; constructor].
  apply rc_get_ok in Hget as (-> & _ & _).
  destruct (validateImmutableImage (DemoHTTPImage r)).
  { destruct (recordDegradedStatus _ _ _ _ _ _) as [[err2 w2] ev2] eqn:Hd. intros [= _ _ _ <-].
    by eapply degraded_known. }
  destruct (reconcileDeployment r ms w) as [[d|derr] w2] eqn:Hdep; apply reconcileDeployment_frame in Hdep as [Hm2 _];
    (assert (schema_valid w2) as Hw2 by (intros k o; rewrite Hm2; apply Hw)).
  2:{ destruct (recordDegradedStatus _ _ _ _ _ _) as [[err3 w3] ev3] eqn:Hd. intros [= _ _ _ <-].
      by eapply degraded_known. }
  destruct (reconcileService ms w2) as [[serr|] w3] eqn:Hsvc; apply reconcileService_frame in Hsvc as [Hm3 _];
    (assert (schema_valid w3) as Hw3 by (intros k o; rewrite Hm3; apply Hw2)).
  { destruct (recordDegradedStatus _ _ _ _ _ _) as [[err4 w4] ev4] eqn:Hd. intros [= _ _ _ <-].
    by eapply degraded_known. }
  unfold updateManagedServiceStatus. destruct (patchManagedServiceStatus _ _ _ _) as [[uerr w4] ev4] eqn:Hp.
  apply patch_known in Hp; [|done|apply (computed_admissible clock ms d "" "")].
  destruct uerr; by intros [= _ _ _ <-].
Qed.

Definition is_reconciliation (e : event) : bool :=
  match e with ReconciliationsInc _ => true | _ => false end.

(** Every reconciliation is counted once, on every path out of it: with
    metrics configured there is exactly one increment of the total, labelled
    [error] if an error is returned and [success] otherwise, its duration is the
    last observation, and at most three condition transitions are counted; without
    metrics nothing is reported. *)
Theorem reconcile_counted_once req w err w' events :
  Reconcile clock r req w = (err, w', events) ->
  let outcome := match err with None => reconciliationOutcomeSuccess | Some _ => reconciliationOutcomeError end in
  if has_Metrics r then
    filter (fun e => is_reconciliation e = true) events = [ReconciliationsInc outcome] /\
    last events = Some (ReconcileDurationObserve outcome) /\ length events <= 5
  else events = [].
Proof.
  intros (tr & -> & Htr)%reconcile_events outcome.
  assert (filter (fun e => is_reconciliation e = true) tr = [] /\ length tr <= 3 /\
    (has_Metrics r = false -> tr = [])) as (Hf & Hl & Hnone).
  { destruct Htr as [->|(before & after & ->)]; [split_and!; simpl; done || lia|].
    split_and!; [|apply transitions_length|by intros Hm; unfold observeConditionTransitions; rewrite Hm].
    unfold observeConditionTransitions. destruct (negb _); [done|].
    assert (forall ts, filter (fun e => is_reconciliation e = true) (ts ≫= transition before after) = []) as Ht;
      [|apply Ht].
    induction ts as [|t ts IH]; [done|]. rewrite bind_cons, filter_app, IH, app_nil_r.
    unfold transition. repeat case_match; done. }
  unfold observeReconciliation. destruct (has_Metrics r); simpl; [|by rewrite Hnone].
  rewrite filter_app, Hf, length_app, last_app. simpl.
  destruct err; (split_and!; [done|done|simpl; lia]).
Qed.

(** What no reconciliation of [req] ever does, caught-up caches or not. *)
Record framed (req : string * string) (w w' : W) : Prop := {
  framed_specs : forall k, Spec <$> services_of w' !! k = Spec <$> services_of w !! k;
  framed_managed : forall k, k <> req -> services_of w' !! k = services_of w !! k;
  framed_deployments : forall k, k <> req -> deployments w' !! k = deployments w !! k;
  framed_services : forall k, k <> req -> k8s_services w' !! k = k8s_services w !! k;
  framed_deployment_kept : is_Some (deployments w !! req) -> is_Some (deployments w' !! req);
  framed_service_kept : is_Some (k8s_services w !! req) -> is_Some (k8s_services w' !! req);
}.

#[local] Instance framed_preorder req : PreOrder (framed req).
Proof.
  split; [by constructor|].
  intros w1 w2 w3 [A1 B1 C1 D1 E1 F1] [A2 B2 C2 D2 E2 F2]. constructor; [| | | |by auto|by auto].
  - intros k. by rewrite A2, A1.
  - intros k Hk. by rewrite B2, B1.
  - intros k Hk. by rewrite C2, C1.
  - intros k Hk. by rewrite D2, D1.
Qed.

Lemma patch_framed before after w err w' events :
  Spec after = Spec before -> ms_meta after = ms_meta before ->
  patchManagedServiceStatus r before after w = (err, w', events) ->
  framed (key (ms_meta before)) w w'.
Proof.
  intros Hs Hm (Hd & Hsv & ? & ? & _)%patch_outcome; [|done..].
  constructor; rewrite ?Hd, ?Hsv; done.
Qed.

Lemma degraded_framed ms reason cause w err w' events :
  recordDegradedStatus clock r ms reason cause w = (err, w', events) ->
  framed (key (ms_meta ms)) w w'.
Proof.
  intros ((Hd & Hsv & ? & ?) & _)%recordDegraded_outcome. constructor; rewrite ?Hd, ?Hsv; done.
Qed.

Lemma deployment_framed ms w res w' :
  reconcileDeployment r ms w = (res, w') -> framed (key (ms_meta ms)) w w'.
Proof. intros (Hm & Hs & [? ?] & _)%reconcileDeployment_frame. constructor; rewrite ?Hm, ?Hs; done. Qed.

Lemma service_framed ms w res w' :
  reconcileService ms w = (res, w') -> framed (key (ms_meta ms)) w w'.
Proof. intros (Hm & Hd & [? ?] & _)%reconcileService_frame. constructor; rewrite ?Hm, ?Hd; done. Qed.

(** A reconciliation stays in its lane, whatever the state of the caches and
    whether or not it succeeds: it never changes the spec of any ManagedService,
    nor the status, Deployment or Service of another one, and never deletes a
    Deployment or Service. *)
Theorem reconcile_framed req w err w' events :
  Reconcile clock r req w = (err, w', events) -> framed req w w'.
Proof.
  unfold Reconcile, reconcile. destruct (rc_Get req w) as [[ms|e] w1] eqn:Hget.
  2:{ apply rc_get_err in Hget as [-> _]. by intros [= _ <- _]. }
  apply rc_get_ok in Hget as (-> & Hk & _). rewrite <- Hk.
  destruct (validateImmutableImage (DemoHTTPImage r)).
  { destruct (recordDegradedStatus _ _ _ _ _ _) as [[err1 w2] ev] eqn:Hr. intros [= _ <- _].
    by eapply degraded_framed. }
  destruct (reconcileDeployment r ms w) as [[d|derr] w2] eqn:Hdep; apply deployment_framed in Hdep.
  2:{ destruct (recordDegradedStatus _ _ _ _ _ _) as [[err1 w3] ev] eqn:Hr. intros [= _ <- _].
      etrans; [done|]. by eapply degraded_framed. }
  destruct (reconcileService ms w2) as [[serr|] w3] eqn:Hsvc; apply service_framed in Hsvc.
  { destruct (recordDegradedStatus _ _ _ _ _ _) as [[err1 w4] ev] eqn:Hr. intros [= _ <- _].
    do 2 (etrans; [done|]). by eapply degraded_framed. }
  unfold updateManagedServiceStatus.
  destruct (patchManagedServiceStatus _ _ _ _) as [[uerr w4] ev] eqn:Hp.
  assert (framed (key (ms_meta ms)) w3 w4) as Hf.
  { eapply patch_framed; [| |exact Hp]; apply (ready_status_spec clock ms d). }
  assert (framed (key (ms_meta ms)) w w4) by (do 2 (etrans; [done|]); done).
  destruct uerr; by intros [= _ <- _].
Qed.
End ReconcileFacts.

(** ** What runs *)

(** C29: the pods of a current Deployment are hardened and pinned: no service
    account token, not root, no privilege escalation, all capabilities dropped, a
    read-only root file system and the default seccomp profile; every container
    runs exactly the configured image, which ends in a 32-byte digest; and for an
    admitted spec there are one to three replicas. *)
Theorem deployment_hardened {W E : Type} `{ReconcilerClientLaws W E} r ms d :
  deployment_current (W:=W) r ms d -> validateImmutableImage (E:=E) (DemoHTTPImage r) = None ->
  admit_spec (Spec ms) = Some (Spec ms) ->
  (exists n, d_Replicas d = Some n /\ (1 <= n <= 3)%Z) /\
  exists pod, d_PodSpec d = Some pod /\
    pod_AutomountServiceAccountToken pod = Some false /\
    psc_RunAsNonRoot (pod_SecurityContext pod) = Some true /\
    psc_SeccompProfile (pod_SecurityContext pod) = "RuntimeDefault" /\
    pod_Containers pod <> [] /\
    Forall (fun c =>
      c_Image c = DemoHTTPImage r /\
      (exists repository digest b, c_Image c = repository +:+ "@sha256:" +:+ digest /\
         hex_decode digest = Some b /\ String.length b = 32) /\
      sc_AllowPrivilegeEscalation (c_SecurityContext c) = Some false /\
      sc_Drop (c_SecurityContext c) = ["ALL"] /\
      sc_ReadOnlyRootFilesystem (c_SecurityContext c) = Some true /\
      sc_RunAsNonRoot (c_SecurityContext c) = Some true) (pod_Containers pod).
Proof.
  intros (_ & _ & _ & Hrep & _ & _ & Hpod & _) Himg Hadm. split.
  - destruct (admit_spec_replicas _ _ Hadm) as (n & Hn & Hb). exists n. split; [|done].
    rewrite Hrep. unfold desiredReplicas. by rewrite Hn.
  - exists (managedServicePodSpec r ms). split; [done|]. split_and!; [done..|].
    repeat constructor. unfold validateImmutableImage in Himg.
    destruct (cut (DemoHTTPImage r) "@sha256:") as [[repository digest]|] eqn:Hc; [|done].
    destruct (String.eqb repository ""); [done|].
    destruct (hex_decode digest) as [b|] eqn:Hh; [|done].
    destruct (Nat.eqb_spec (String.length b) 32); [|done].
    exists repository, digest, b. split; [by apply cut_spec in Hc|done].
Qed.

(** ** Witnesses: a new service on a concrete cluster *)

Definition demo_req : string * string := ("applications", "demo").

Definition demo_service : ManagedService :=
  {| ms_meta := {| Name := "demo"; Namespace := "applications"; UID := "u1"; Generation := 1; Labels := ∅;
                   OwnerReferences := []; DeletionTimestamp := None |};
     Spec := {| Template := "demo-http"; Replicas := Some 2%Z; Message := "hello" |};
     Status := zero_status |}.

Definition demo_cluster : MemoryCluster.cluster :=
  {| MemoryCluster.mem_base := {|
       Memory.contents := {[demo_req := {| Memory.st_UID := "u1"; Memory.st_Generation := 1;
         Memory.st_Spec := Spec demo_service; Memory.st_Status := zero_status |}]};
       Memory.next_uid := 2; Memory.network := Memory.Healthy |};
     MemoryCluster.mem_deployments := ∅; MemoryCluster.mem_services := ∅ |}.

Definition pinned : ManagedServiceReconciler :=
  {| DemoHTTPImage := "registry.example/demo@sha256:0123456789abcdef0123456789abcdef0123456789abcdef0123456789abcdef";
     ImagePullSecretName := ""; has_Metrics := true |}.

Definition unpinned : ManagedServiceReconciler :=
  {| DemoHTTPImage := "registry.example/demo:latest"; ImagePullSecretName := ""; has_Metrics := true |}.

Definition at_seven (t : string) : Z := 7.

Definition demo_run : option (go_error Memory.error) * MemoryCluster.cluster * list event :=
  Reconcile at_seven pinned demo_req demo_cluster.

Lemma demo_run_ok : demo_run = (None, demo_run.1.2, demo_run.2).
Proof. apply run_eq. vm_compute. reflexivity. Qed.

Lemma demo_present : services_of (W:=MemoryCluster.cluster) demo_cluster !! demo_req = Some demo_service.
Proof. vm_compute. reflexivity. Qed.

Lemma demo_synced (w : MemoryCluster.cluster) : caches_synced w.
Proof. by split_and!. Qed.

Lemma reconcile_success_witness :
  exists d s ms',
    deployments demo_run.1.2 = <[demo_req := d]> ∅ /\
    deployment_current (W:=MemoryCluster.cluster) pinned demo_service d /\
    k8s_services demo_run.1.2 = <[demo_req := s]> ∅ /\
    services_of demo_run.1.2 = <[demo_req := ms']> (services_of demo_cluster) /\
    ready_spec demo_service (d_ReadyReplicas d) ms'.
Proof.
  destruct (reconcile_success at_seven pinned demo_req demo_cluster demo_run.1.2 demo_run.2 demo_service
    (demo_synced _) demo_present demo_run_ok) as (_ & _ & d & s & ms' & Hd & Hc & Hs & _ & Hm & Hsp).
  exists d, s, ms'. split_and!; [exact Hd|exact Hc|exact Hs|exact Hm|exact Hsp].
Defined.

Lemma demo_ready : ready_to_reconcile at_seven pinned demo_req demo_cluster demo_service.
Proof.
  split; [exact I|apply demo_synced|exact demo_present|reflexivity| | |by intros d w'].
  - split; [reflexivity|].
    exists (default (new_deployment "" "") (MemoryCluster.mem_deployments demo_run.1.2 !! demo_req)).
    split; [vm_compute; reflexivity|exact I].
  - split; [reflexivity|].
    exists (default (new_service "" "") (MemoryCluster.mem_services demo_run.1.2 !! demo_req)).
    split; [vm_compute; reflexivity|exact I].
Qed.

Lemma reconcile_converges_witness :
  exists w' events, Reconcile at_seven pinned demo_req demo_cluster = (None, w', events).
Proof.
  destruct (reconcile_converges at_seven pinned demo_req demo_cluster demo_service demo_ready)
    as (w' & events & Hrun & _).
  exists w', events. exact Hrun.
Defined.

Definition unpinned_run : option (go_error Memory.error) * MemoryCluster.cluster * list event :=
  Reconcile at_seven unpinned demo_req demo_cluster.

Definition unpinned_error : go_error Memory.error :=
  ErrorNew "demo-http image must use an immutable @sha256 digest".

Lemma unpinned_run_fails : unpinned_run = (Some unpinned_error, unpinned_run.1.2, unpinned_run.2).
Proof. apply run_eq. vm_compute. reflexivity. Qed.

Lemma reconcile_failure_witness :
  (exists e, unpinned_error = ErrorApi e /\ IsNotFound e = false /\ unpinned_run.1.2 = demo_cluster) \/
  (exists reason cause,
     failed_step unpinned demo_service demo_req demo_cluster unpinned_run.1.2 reason cause /\
     failure_recorded demo_service demo_req demo_cluster unpinned_run.1.2 reason cause unpinned_error) \/
  (exists (e : Memory.error) (d : Deployment) (s : Service),
     unpinned_error = ErrorWrap "patch ManagedService status" (ErrorApi e)).
Proof.
  destruct (reconcile_failure at_seven unpinned demo_req demo_cluster unpinned_error unpinned_run.1.2
    unpinned_run.2 demo_service (demo_synced _) demo_present unpinned_run_fails)
    as [Ha|[Hb|(e & d & s & He & _)]]; [left; exact Ha|right; left; exact Hb|].
  right; right. exists e, d, s. exact He.
Defined.

Definition empty_cluster : MemoryCluster.cluster :=
  {| MemoryCluster.mem_base := Memory.empty; MemoryCluster.mem_deployments := ∅; MemoryCluster.mem_services := ∅ |}.

Lemma reconcile_absent_witness :
  let run := Reconcile at_seven pinned demo_req empty_cluster in
  run.1.2 = empty_cluster /\ run.1.1 = None.
Proof.
  cbv zeta. destruct (reconcile_absent at_seven pinned demo_req empty_cluster
    (Reconcile at_seven pinned demo_req empty_cluster).1.1
    (Reconcile at_seven pinned demo_req empty_cluster).1.2
    (Reconcile at_seven pinned demo_req empty_cluster).2 Memory.NotFound) as [Hw Herr].
  - reflexivity.
  - vm_compute. reflexivity.
  - split; [exact Hw|exact Herr].
Defined.

Lemma reconcile_idempotent_witness :
  let second := Reconcile (fun _ => 99%Z) pinned demo_req demo_run.1.2 in
  second.1.2 = demo_run.1.2 /\
  second.2 = [ReconciliationsInc "success"; ReconcileDurationObserve "success"].
Proof.
  cbv zeta.
  apply (reconcile_idempotent at_seven pinned (fun _ => 99%Z) demo_req demo_cluster demo_run.1.2
    demo_run.2 demo_run.1.2 _ _ demo_service);
    [apply demo_synced|exact demo_present|exact demo_run_ok|apply demo_synced|reflexivity..|].
  vm_compute. reflexivity.
Defined.

Lemma reconcile_counted_once_witness :
  filter (fun e => is_reconciliation e = true) unpinned_run.2 = [ReconciliationsInc "error"] /\
  last unpinned_run.2 = Some (ReconcileDurationObserve "error") /\ length unpinned_run.2 <= 5.
Proof.
  exact (reconcile_counted_once at_seven unpinned demo_req demo_cluster (Some unpinned_error)
    unpinned_run.1.2 unpinned_run.2 unpinned_run_fails).
Defined.

Lemma reconcile_framed_witness :
  framed demo_req demo_cluster demo_run.1.2.
Proof. exact (reconcile_framed at_seven pinned demo_req demo_cluster _ _ _ demo_run_ok). Defined.

Lemma deployment_hardened_witness :
  exists d, deployment_current (W:=MemoryCluster.cluster) pinned demo_service d /\
    exists n, d_Replicas d = Some n /\ (1 <= n <= 3)%Z.
Proof.
  set (d := default (new_deployment "" "") (MemoryCluster.mem_deployments demo_run.1.2 !! demo_req)).
  assert (deployment_current (W:=MemoryCluster.cluster) pinned demo_service d) as Hcur.
  { split_and!; [reflexivity| |reflexivity..].
    exists (MemoryCluster.owner_of (ms_meta demo_service)). split; [vm_compute; left|by split_and!]. }
  exists d. split; [exact Hcur|].
  exact (proj1 (deployment_hardened pinned demo_service d Hcur eq_refl eq_refl)).
Defined.

(** The image is changed for one that is not pinned after the first reconciliation. *)
Definition demoted_run : option (go_error Memory.error) * MemoryCluster.cluster * list event :=
  Reconcile at_seven unpinned demo_req demo_run.1.2.

Lemma demoted_run_fails : demoted_run = (Some unpinned_error, demoted_run.1.2, demoted_run.2).
Proof. apply run_eq. vm_compute. reflexivity. Qed.

Lemma one_condition_true_witness :
  (exists ms', services_of demo_run.1.2 !! demo_req = Some ms' /\
     true_conditions ms' = [ManagedServiceConditionProgressing] /\
     NoDup (cond_Type <$> Conditions (Status ms'))) /\
  (exists ms', services_of demoted_run.1.2 !! demo_req = Some ms' /\
     length (Conditions (Status ms')) = 3 /\
     true_conditions ms' = [ManagedServiceConditionDegraded] /\
     NoDup (cond_Type <$> Conditions (Status ms'))).
Proof.
  destruct (one_condition_true at_seven pinned demo_req demo_cluster None demo_run.1.2 demo_run.2 demo_service
    (demo_synced _) demo_present demo_run_ok) as (ms1 & Heq1 & Ht1 & [Hu1 _]).
  assert (services_of (W:=MemoryCluster.cluster) demo_run.1.2 !! demo_req = Some ms1) as Hms1
    by (rewrite Heq1; apply lookup_insert_eq).
  assert (NoDup (cond_Type <$> Conditions (Status ms1))) as Hnd1 by (apply Hu1; constructor).
  assert (readiness_condition ms1 = ManagedServiceConditionProgressing) as Hp.
  { vm_compute in Hms1. injection Hms1 as <-. reflexivity. }
  split; [exists ms1; split_and!; [exact Hms1|by rewrite Ht1, Hp|exact Hnd1]|].
  destruct (one_condition_true at_seven unpinned demo_req demo_run.1.2 (Some unpinned_error) demoted_run.1.2
    demoted_run.2 ms1 (demo_synced _) Hms1 demoted_run_fails)
    as [(e & He & _)|[(reason & cause & _ & [[_ (ms2 & Heq2 & Ht2 & [Hu2 _])]|(e & He & _)])|(e & He & _)]];
    try discriminate He.
  assert (services_of (W:=MemoryCluster.cluster) demoted_run.1.2 !! demo_req = Some ms2) as Hms2
    by (rewrite Heq2; apply lookup_insert_eq).
  exists ms2. split_and!; [exact Hms2| |exact Ht2|apply Hu2, Hnd1].
  vm_compute in Hms2. injection Hms2 as <-. reflexivity.
Defined.
End Controller.
