(* ===== verification/Interference.v ===== *)
(** * Reconciliation among other writers

    While [Reconcile] runs, users edit the ManagedService, the Deployment controller
    reports ready pods, other programs write other objects, and the operator may be
    stopped between two calls.  [disturbed] is the world with these others in it: a
    client of it lets them act before every call of the reconciler, so that the same
    [Reconcile] describes its interleavings with them. *)

From Stdlib Require Import ZArith Lia.
From S2P Require Import Prelude GoStrings ApiTypes Kube Workloads Resources Status Controller.
Import V1alpha1 Resources Status Controller.

Module Interference.

(** ** The client among others *)
Section Disturbed.
Context {W E : Type}.

(** The world and the number of calls made. *)
Record disturbed : Type := { world : W; turn : nat }.

(** What the others do before each call, and the call from which on the API server
    is not reached any more: the operator has lost the connection or was stopped. *)
Context `{ReconcilerClient W E} (others : nat -> W -> W) (cut : nat) (lost : E).

Definition call {A F : Type} (wrap : E -> F) (f : W -> result F A * W) (dw : disturbed)
    : result F A * disturbed :=
  if cut <=? turn dw then (Err (wrap lost), {| world := world dw; turn := S (turn dw) |})
  else
    let '(a, w') := f (others (turn dw) (world dw)) in
    (a, {| world := w'; turn := S (turn dw) |}).

#[local] Instance disturbed_client : ReconcilerClient disturbed E := {
  rc_Get := fun k => call id (rc_Get k);
  CreateOrUpdate_Deployment := fun d f => call ErrorApi (CreateOrUpdate_Deployment d f);
  CreateOrUpdate_Service := fun s f => call ErrorApi (CreateOrUpdate_Service s f);
  status_Patch := fun before after => call id (status_Patch before after);
  SetControllerReference := SetControllerReference (W:=W);
  DeepEqual_status := DeepEqual_status (W:=W);
}.

(** A reconciliation among others, from the world [w]: its error, the world it leaves
    and its events. *)
Definition Reconcile_among `{APIErrors E} `{ConditionHelpers} (clock : string -> Z)
    (r : ManagedServiceReconciler) (req : string * string) (w : W) : option (go_error E) * W * list event :=
  let '(err, dw, events) := Reconcile clock r req {| world := w; turn := 0 |} in (err, world dw, events).
End Disturbed.
Arguments disturbed : clear implicits.

(** ** What the others may do

    [edited ms ms'] is a user's change of a ManagedService: its spec may change, and
    then the API server increases its generation; its identity and its status, which
    is a subresource of the operator, stay. *)
Record edited (ms ms' : ManagedService) : Prop := {
  edited_name : Name (ms_meta ms') = Name (ms_meta ms);
  edited_namespace : Namespace (ms_meta ms') = Namespace (ms_meta ms);
  edited_uid : UID (ms_meta ms') = UID (ms_meta ms);
  edited_status : Status ms' = Status ms;
  edited_generation : (Generation (ms_meta ms) <= Generation (ms_meta ms'))%Z;
  edited_spec : Generation (ms_meta ms') = Generation (ms_meta ms) -> Spec ms' = Spec ms;
}.

#[export] Instance edited_preorder : PreOrder edited.
Proof.
  split; [by constructor|]. intros a b c [] []. split; [congruence..|lia|].
  intros Hg. rewrite <- edited_spec0 by lia. apply edited_spec1. lia.
Qed.

(** The Deployment controller and the defaults of the API server
    change what the operator does not manage: the number of ready pods and the
    unmanaged fields. *)
Record deployment_tended (d d' : Deployment) : Prop := {
  tended_key : key (d_meta d') = key (d_meta d);
  tended_labels : Labels (d_meta d') = Labels (d_meta d);
  tended_owners : OwnerReferences (d_meta d') = OwnerReferences (d_meta d);
  tended_replicas : d_Replicas d' = d_Replicas d;
  tended_selector : d_Selector d' = d_Selector d;
  tended_template : d_TemplateLabels d' = d_TemplateLabels d;
  tended_pods : d_PodSpec d' = d_PodSpec d;
}.

#[export] Instance deployment_tended_preorder : PreOrder deployment_tended.
Proof. split; [by constructor|]. intros a b c [] []. split; congruence. Qed.

Record service_tended (s s' : Service) : Prop := {
  service_tended_key : key (s_meta s') = key (s_meta s);
  service_tended_labels : Labels (s_meta s') = Labels (s_meta s);
  service_tended_owners : OwnerReferences (s_meta s') = OwnerReferences (s_meta s);
  service_tended_type : s_Type s' = s_Type s;
  service_tended_selector : s_Selector s' = s_Selector s;
  service_tended_ports : s_Ports s' = s_Ports s;
}.

#[export] Instance service_tended_preorder : PreOrder service_tended.
Proof. split; [by constructor|]. intros a b c [] []. split; congruence. Qed.

(** An object stays, up to [R]. *)
Definition stays {T : Type} (R : relation T) (k : string * string) (m m' : gmap (string * string) T) : Prop :=
  forall o, m !! k = Some o -> exists o', m' !! k = Some o' /\ R o o'.

#[export] Instance stays_preorder {T : Type} (R : relation T) `{!PreOrder R} (k : string * string) : PreOrder (stays R k).
Proof.
  split.
  - intros m o Ho. exists o. by split.
  - intros m1 m2 m3 H12 H23 o (o' & Ho' & ?)%H12. apply H23 in Ho' as (o'' & ? & ?). exists o''.
    split; [done|by etrans].
Qed.

Lemma stays_eq {T : Type} (R : relation T) `{!PreOrder R} (k : string * string) (m m' : gmap (string * string) T) :
  m' !! k = m !! k -> stays R k m m'.
Proof. intros Heq o Ho. exists o. by rewrite Heq. Qed.

(** ** What a status claims *)
Section Honest.
Context {W E : Type} `{ReconcilerClientLaws W E} `{ConditionHelpersLaws}.
Context (clock : string -> Z) (r : ManagedServiceReconciler) (req : string * string).

(** Another writer's step on the objects named [req]: a ManagedService that appears
    has no status for its generation yet. *)
Record others_step (w w' : W) : Prop := {
  others_managed : stays edited req (services_of w) (services_of w');
  others_new : services_of w !! req = None -> forall ms, services_of w' !! req = Some ms ->
    (ObservedGeneration (Status ms) < Generation (ms_meta ms))%Z;
  others_deployment : stays deployment_tended req (deployments w) (deployments w');
  others_service : stays service_tended req (k8s_services w) (k8s_services w');
}.

#[export] Instance others_step_preorder : PreOrder others_step.
Proof.
  split; [split; try reflexivity; congruence|].
  intros w1 w2 w3 [M12 N12 D12 S12] [M23 N23 D23 S23]. split; [by etrans| |by etrans..].
  intros Hnone ms3 Hms3. destruct (services_of w2 !! req) as [ms2|] eqn:Hms2; [|by apply N23].
  destruct (M23 _ Hms2) as (ms' & Hms3' & He). replace ms' with ms3 in * by congruence.
  specialize (N12 Hnone _ eq_refl). rewrite (edited_status _ _ He). pose proof (edited_generation _ _ He). lia.
Qed.

(** The Deployment, or the Service, is as the spec of [ms] asks. *)
Definition deployment_matches (ms : ManagedService) (d : Deployment) : Prop :=
  key (d_meta d) = key (ms_meta ms) /\ controlled_by (ms_meta ms) (OwnerReferences (d_meta d)) /\
  Labels (d_meta d) = managedServiceLabels ms /\
  d_Replicas d = Some (desiredReplicas ms) /\ d_Selector d = Some (managedServiceSelector ms) /\
  d_TemplateLabels d = managedServicePodLabels ms /\ d_PodSpec d = Some (managedServicePodSpec r ms).

Definition service_matches (ms : ManagedService) (s : Service) : Prop :=
  key (s_meta s) = key (ms_meta ms) /\ controlled_by (ms_meta ms) (OwnerReferences (s_meta s)) /\
  Labels (s_meta s) = managedServiceLabels ms /\ s_Type s = "ClusterIP" /\
  s_Selector s = managedServiceSelector ms /\ s_Ports s = managedServicePorts.

Definition deployed (ms : ManagedService) (w : W) : Prop :=
  exists d, deployments w !! req = Some d /\ deployment_matches ms d.

Definition exposed (ms : ManagedService) (w : W) : Prop :=
  exists s, k8s_services w !! req = Some s /\ service_matches ms s.

(** The status speaks of the present generation, and of success. *)
Definition undegraded (st : ManagedServiceStatus) : Prop :=
  exists c, FindStatusCondition (Conditions st) ManagedServiceConditionDegraded = Some c /\
    cond_Status c = ConditionFalse.

Definition claims_success (ms : ManagedService) : Prop :=
  ObservedGeneration (Status ms) = Generation (ms_meta ms) /\ undegraded (Status ms).

(** What a status claims is so. *)
Definition honest (w : W) : Prop :=
  forall ms, services_of w !! req = Some ms ->
    (ObservedGeneration (Status ms) <= Generation (ms_meta ms))%Z /\
    (claims_success ms -> deployed ms w /\ exposed ms w).

(** What matches a ManagedService matches it when it was edited without a new spec. *)
Lemma edited_same ms ms' :
  edited ms ms' -> Generation (ms_meta ms') = Generation (ms_meta ms) ->
  key (ms_meta ms') = key (ms_meta ms) /\ Name (ms_meta ms') = Name (ms_meta ms) /\
  UID (ms_meta ms') = UID (ms_meta ms) /\ Spec ms' = Spec ms.
Proof. intros [Hn Hns Hu _ _ Hs] Hg. split_and!; [unfold key; congruence|done|done|auto]. Qed.

Lemma controlled_by_same owner owner' refs :
  Name owner' = Name owner -> UID owner' = UID owner -> controlled_by owner refs -> controlled_by owner' refs.
Proof.
  intros Hn Hu (o & Hin & Hc). exists o. split; [done|]. unfold controls in *. by rewrite Hn, Hu.
Qed.

(** What is managed depends on the name and the spec. *)
Lemma managed_same ms ms' :
  Name (ms_meta ms') = Name (ms_meta ms) -> Spec ms' = Spec ms ->
  managedServiceSelector ms' = managedServiceSelector ms /\
  managedServiceLabels ms' = managedServiceLabels ms /\
  managedServicePodLabels ms' = managedServicePodLabels ms /\
  desiredReplicas ms' = desiredReplicas ms /\ managedServicePodSpec r ms' = managedServicePodSpec r ms.
Proof.
  intros Hn Hs.
  assert (managedServiceSelector ms' = managedServiceSelector ms) as Hsel
    by (unfold managedServiceSelector; by rewrite Hn).
  assert (managedServiceLabels ms' = managedServiceLabels ms) as Hl
    by (unfold managedServiceLabels; by rewrite Hsel, Hs).
  split_and!; [done|done|unfold managedServicePodLabels|unfold desiredReplicas|
    unfold managedServicePodSpec, managedServiceContainer]; by rewrite ?Hl, ?Hs.
Qed.

Lemma deployment_matches_edited ms ms' d :
  edited ms ms' -> Generation (ms_meta ms') = Generation (ms_meta ms) ->
  deployment_matches ms d -> deployment_matches ms' d.
Proof.
  intros He Hg (Hk & Hc & Hrest). destruct (edited_same _ _ He Hg) as (Hk' & Hn & Hu & Hs).
  split; [congruence|]. split; [exact (controlled_by_same _ _ _ Hn Hu Hc)|].
  destruct (managed_same _ _ Hn Hs) as (-> & -> & -> & -> & ->). exact Hrest.
Qed.

Lemma service_matches_edited ms ms' s :
  edited ms ms' -> Generation (ms_meta ms') = Generation (ms_meta ms) ->
  service_matches ms s -> service_matches ms' s.
Proof.
  intros He Hg (Hk & Hc & Hrest). destruct (edited_same _ _ He Hg) as (Hk' & Hn & Hu & Hs).
  split; [congruence|]. split; [exact (controlled_by_same _ _ _ Hn Hu Hc)|].
  destruct (managed_same _ _ Hn Hs) as (-> & -> & _). exact Hrest.
Qed.

Lemma deployed_edited ms ms' w :
  edited ms ms' -> Generation (ms_meta ms') = Generation (ms_meta ms) -> deployed ms w -> deployed ms' w.
Proof. intros He Hg (d & ? & ?). exists d. split; [done|]. by eapply deployment_matches_edited. Qed.

Lemma exposed_edited ms ms' w :
  edited ms ms' -> Generation (ms_meta ms') = Generation (ms_meta ms) -> exposed ms w -> exposed ms' w.
Proof. intros He Hg (s & ? & ?). exists s. split; [done|]. by eapply service_matches_edited. Qed.

(** Others tend what is deployed; it still matches. *)
Lemma deployed_others ms w w' : others_step w w' -> deployed ms w -> deployed ms w'.
Proof.
  intros [_ _ Hd _] (d & (d' & Hd' & [])%Hd & Hm). exists d'. split; [done|].
  unfold deployment_matches in *. by rewrite tended_key0, tended_owners0, tended_labels0, tended_replicas0,
    tended_selector0, tended_template0, tended_pods0.
Qed.

Lemma exposed_others ms w w' : others_step w w' -> exposed ms w -> exposed ms w'.
Proof.
  intros [_ _ _ Hs] (s & (s' & Hs' & [])%Hs & Hm). exists s'. split; [done|].
  unfold service_matches in *. by rewrite service_tended_key0, service_tended_owners0, service_tended_labels0,
    service_tended_type0, service_tended_selector0, service_tended_ports0.
Qed.

Lemma honest_others w w' : others_step w w' -> honest w -> honest w'.
Proof.
  intros Hstep Hw ms' Hms'. destruct (services_of w !! req) as [ms|] eqn:Hms.
  - destruct (others_managed _ _ Hstep _ Hms) as (ms1 & Hms1 & He). replace ms1 with ms' in * by congruence.
    destruct (Hw _ Hms) as [Hle Hclaim]. pose proof (edited_generation _ _ He) as Hge.
    unfold claims_success. rewrite (edited_status _ _ He). split; [lia|]. intros [Hg Hc].
    assert (Generation (ms_meta ms') = Generation (ms_meta ms)) as Heq by lia.
    destruct Hclaim as [Hd Hs]; [split; [congruence|done]|].
    split; [by eapply deployed_edited, deployed_others|by eapply exposed_edited, exposed_others].
  - pose proof (others_new _ _ Hstep Hms _ Hms') as Hlt. split; [lia|]. intros [Hg _]. lia.
Qed.

(** ** Between the calls

    The reconciler holds [ms], which it read; the stored object has been edited at
    most. *)
Definition reading (ms : ManagedService) (w : W) : Prop :=
  honest w /\ key (ms_meta ms) = req /\ (ObservedGeneration (Status ms) <= Generation (ms_meta ms))%Z /\
  exists cur, services_of w !! req = Some cur /\ edited ms cur.

Lemma reading_others ms w w' : others_step w w' -> reading ms w -> reading ms w'.
Proof.
  intros Hstep (Hw & Hk & Hle & cur & Hcur & He). split; [by eapply honest_others|]. split; [done|]. split; [done|].
  destruct (others_managed _ _ Hstep _ Hcur) as (cur' & Hcur' & He'). exists cur'. split; [done|by etrans].
Qed.

(** What the reconciler holds is what a claim of the stored object is about. *)
Lemma claim_read ms cur :
  (ObservedGeneration (Status ms) <= Generation (ms_meta ms))%Z -> edited ms cur -> claims_success cur ->
  Generation (ms_meta cur) = Generation (ms_meta ms).
Proof.
  intros Hle He [Hg _]. rewrite (edited_status _ _ He) in Hg. pose proof (edited_generation _ _ He). lia.
Qed.

(** A Deployment or a Service written for what was read breaks no claim. *)
Lemma reading_written ms w w' :
  services_of w' = services_of w ->
  (forall m, deployed m w -> deployed m w') \/ deployed ms w' ->
  (forall m, exposed m w -> exposed m w') \/ exposed ms w' ->
  reading ms w -> reading ms w'.
Proof.
  intros Hm Hd Hs (Hw & Hk & Hle & cur & Hcur & He). unfold reading. rewrite Hm.
  split; [|split_and!; [done|done|by exists cur]]. intros cur' Hcur'. rewrite Hm in Hcur'.
  replace cur' with cur in * by congruence. destruct (Hw _ Hcur) as [? Hclaim]. split; [done|].
  intros Hc. pose proof (claim_read _ _ Hle He Hc) as Hg. destruct (Hclaim Hc) as [Hdep Hexp].
  split; [destruct Hd as [Hd|Hd]|destruct Hs as [Hs|Hs]]; auto; [by eapply deployed_edited|by eapply exposed_edited].
Qed.

Lemma current_matches ms d : deployment_current (W:=W) r ms d -> deployment_matches ms d.
Proof. by intros (? & ? & ? & ? & ? & ? & ? & _). Qed.

Lemma service_current_matches ms s : service_current (W:=W) ms s -> service_matches ms s.
Proof. by intros (? & ? & ? & ? & ? & ? & _). Qed.

(** ** The calls *)
Context (others : nat -> W -> W) (cut : nat) (lost : E).

#[local] Instance among : ReconcilerClient (disturbed W) E := disturbed_client others cut lost.

(** The others' turn before the next call. *)
Definition interfered (dw : disturbed W) : W := others (turn dw) (world dw).

Lemma call_result {A F : Type} (wrap : E -> F) (f : W -> result F A * W) dw res dw' :
  call others cut lost wrap f dw = (res, dw') ->
  (res = Err (wrap lost) /\ world dw' = world dw) \/ f (interfered dw) = (res, world dw').
Proof.
  unfold call, interfered. destruct (cut <=? turn dw).
  - intros [= <- <-]. by left.
  - destruct (f _) as [a w']. intros [= <- <-]. by right.
Qed.

Lemma deployment_among ms dw res dw' :
  reconcileDeployment r ms dw = (res, dw') ->
  ((exists e, res = Err e) /\ world dw' = world dw) \/
  reconcileDeployment r ms (interfered dw) = (res, world dw').
Proof.
  unfold reconcileDeployment at 1. cbn [CreateOrUpdate_Deployment among disturbed_client].
  destruct (call _ _ _ _ _ dw) as [res1 dw1] eqn:Hc.
  apply call_result in Hc as [[-> Hw]|Hc]; [by intros [= <- <-]; left; split; [eexists|]|].
  intros Hres. right. unfold reconcileDeployment.
  change (mutateDeployment (W:=disturbed W) r ms) with (mutateDeployment (W:=W) r ms) in Hc. rewrite Hc.
  by destruct res1; injection Hres as <- <-.
Qed.

Lemma service_among ms dw err dw' :
  reconcileService ms dw = (err, dw') ->
  ((exists e, err = Some e) /\ world dw' = world dw) \/
  reconcileService ms (interfered dw) = (err, world dw').
Proof.
  unfold reconcileService at 1. cbn [CreateOrUpdate_Service among disturbed_client].
  destruct (call _ _ _ _ _ dw) as [res1 dw1] eqn:Hc.
  apply call_result in Hc as [[-> Hw]|Hc]; [by intros [= <- <-]; left; split; [eexists|]|].
  intros Hres. right. unfold reconcileService.
  change (mutateService (W:=disturbed W) ms) with (mutateService (W:=W) ms) in Hc. rewrite Hc.
  by destruct res1; injection Hres as <- <-.
Qed.

(** A patch without a difference makes no call. *)
Lemma patch_among before after dw err dw' events :
  patchManagedServiceStatus r before after dw = (err, dw', events) ->
  ((exists e, err = Some e) /\ world dw' = world dw) \/
  exists w1, (w1 = world dw \/ w1 = interfered dw) /\
    patchManagedServiceStatus r before after w1 = (err, world dw', events).
Proof.
  unfold patchManagedServiceStatus. cbn [DeepEqual_status status_Patch among disturbed_client].
  destruct (DeepEqual_status _ _).
  { intros [= <- <- <-]. right. exists (world dw). auto. }
  destruct (call _ _ _ _ _ dw) as [res1 dw1] eqn:Hc.
  apply call_result in Hc as [[-> Hw]|Hc]; [by intros [= <- <- _]; left; split; [eexists|]|].
  intros Hres. right. exists (interfered dw). split; [by right|]. rewrite Hc.
  by destruct res1; injection Hres as <- <- <-.
Qed.

Lemma degraded_among ms reason cause dw err dw' events :
  recordDegradedStatus clock r ms reason cause dw = (err, dw', events) ->
  world dw' = world dw \/
  exists w1 err1, (w1 = world dw \/ w1 = interfered dw) /\
    recordDegradedStatus clock r ms reason cause w1 = (err1, world dw', events).
Proof.
  unfold recordDegradedStatus. destruct (patchManagedServiceStatus r ms _ dw) as [[perr dw1] ev] eqn:Hp.
  apply patch_among in Hp as [[[e ->] Hw]|(w1 & Hw1 & Hp)].
  - intros [= _ <- _]. by left.
  - intros Hres. right. exists w1. rewrite Hp. by destruct perr; injection Hres as _ <- <-; eexists.
Qed.

(** The rule for a reconciliation among others: [read], [dep] and [exp] are what holds
    of the world once the ManagedService was read, its Deployment was written and its
    Service was written, and [post] what holds in the end. *)
Record phases (post : W -> Prop) (read dep exp : ManagedService -> W -> Prop) : Prop := {
  phase_degraded : forall ms reason cause dw err dw' events,
    read ms (world dw) -> recordDegradedStatus clock r ms reason cause dw = (err, dw', events) ->
    post (world dw');
  phase_deployment : forall ms dw res dw',
    read ms (world dw) -> reconcileDeployment r ms dw = (res, dw') ->
    read ms (world dw') /\ forall d, res = Ok d -> dep ms (world dw');
  phase_service : forall ms dw err dw',
    read ms (world dw) -> dep ms (world dw) -> reconcileService ms dw = (err, dw') ->
    read ms (world dw') /\ dep ms (world dw') /\ (err = None -> exp ms (world dw'));
  phase_status : forall ms d dw err dw' events,
    read ms (world dw) -> dep ms (world dw) -> exp ms (world dw) ->
    updateManagedServiceStatus clock r ms d dw = (err, dw', events) -> post (world dw');
}.

Lemma among_rule post read dep exp w err w' events :
  phases post read dep exp -> post w -> post (others 0 w) ->
  (forall ms, rc_Get req (others 0 w) = (Ok ms, others 0 w) -> read ms (others 0 w)) ->
  Reconcile_among others cut lost clock r req w = (err, w', events) -> post w'.
Proof.
  intros [Hdeg Hdep Hsvc Hup] Hw Hw0 Hread. unfold Reconcile_among, Reconcile, reconcile. fold among.
  cbn [rc_Get among disturbed_client]. set (dw0 := {| world := w; turn := 0 |}).
  destruct (call others cut lost id (rc_Get req) dw0) as [[ms|e] dw1] eqn:Hget;
    apply call_result in Hget as [[Hres Hw1]|Hget]; try done.
  2: by intros [= _ <- _]; rewrite Hw1.
  2:{ intros [= _ <- _]. by apply rc_get_err in Hget as [-> _]. }
  apply rc_get_ok in Hget as Hg. destruct Hg as (Hw1 & _). rewrite Hw1 in Hget.
  apply Hread in Hget as Hr. change (others 0 w) with (interfered dw0) in Hr. rewrite <- Hw1 in Hr.
  destruct (validateImmutableImage (DemoHTTPImage r)) as [cause|].
  { destruct (recordDegradedStatus _ _ _ _ _ _) as [[err1 dw2] ev] eqn:Hd. intros [= _ <- _]. by eapply Hdeg. }
  destruct (reconcileDeployment r ms dw1) as [[d|derr] dw2] eqn:Hd; apply (Hdep _ _ _ _ Hr) in Hd as [Hr2 Hd2].
  2:{ destruct (recordDegradedStatus _ _ _ _ _ _) as [[err1 dw3] ev] eqn:Hd. intros [= _ <- _]. by eapply Hdeg. }
  specialize (Hd2 d eq_refl).
  destruct (reconcileService ms dw2) as [[serr|] dw3] eqn:Hs; apply (Hsvc _ _ _ _ Hr2 Hd2) in Hs as (Hr3 & Hd3 & Hs3).
  { destruct (recordDegradedStatus _ _ _ _ _ _) as [[err1 dw4] ev] eqn:Hd. intros [= _ <- _]. by eapply Hdeg. }
  destruct (updateManagedServiceStatus _ _ _ _ _) as [[uerr dw4] ev] eqn:Hu. intros Hres.
  assert (world dw4 = w') as <- by (destruct uerr; by injection Hres).
  eapply Hup; [exact Hr3|exact Hd3|by apply Hs3|exact Hu].
Qed.

(** ** The steps of the reconciler keep the status honest *)
Context (others_step_all : forall n w, others_step w (others n w)).
Context (caught_up : forall n w, caches_synced (others n w)).

Lemma deployed_eq w w' : deployments w' = deployments w -> forall m, deployed m w -> deployed m w'.
Proof. intros Hd m. unfold deployed. by rewrite Hd. Qed.

Lemma exposed_eq w w' : k8s_services w' = k8s_services w -> forall m, exposed m w -> exposed m w'.
Proof. intros Hs m. unfold exposed. by rewrite Hs. Qed.

Lemma deployment_applied_deployed ms w w' d :
  synced_deployments w -> deployment_applied r ms req w w' d -> deployed ms w'.
Proof.
  intros Hs Ha. destruct (Ha Hs) as [Hc Hd]. exists d. rewrite Hd, lookup_insert_eq.
  split; [done|by apply current_matches].
Qed.

Lemma service_applied_exposed ms w w' s :
  synced_services w -> service_applied ms req w w' s -> exposed ms w'.
Proof.
  intros Hs Ha. destruct (Ha Hs) as [Hc Hd]. exists s. rewrite Hd, lookup_insert_eq.
  split; [done|by apply service_current_matches].
Qed.

Lemma deployment_keeps ms dw res dw' :
  reading ms (world dw) -> reconcileDeployment r ms dw = (res, dw') ->
  reading ms (world dw') /\ forall d, res = Ok d -> deployed ms (world dw').
Proof.
  intros Hr Hdep. apply deployment_among in Hdep as [[[e ->] ->]|Hdep]; [done|].
  apply (reading_others _ _ (interfered dw)) in Hr; [|apply others_step_all].
  destruct (caught_up (turn dw) (world dw)) as (_ & Hsync & _). fold (interfered dw) in Hsync.
  apply reconcileDeployment_frame in Hdep as (Hm & Hs & _ & Hres).
  destruct Hr as (Hw & Hk & Hr). rewrite Hk in Hres.
  destruct res as [d|e].
  - destruct Hres as [Ha _]. pose proof (deployment_applied_deployed _ _ _ _ Hsync Ha) as Hd.
    split; [|done]. eapply reading_written; [done|by right|left; by apply exposed_eq|done].
  - destruct Hres as [_ Hd]. split; [|done]. eapply reading_written; [done| |left; by apply exposed_eq|done].
    destruct Hd as [Hd|[d Hd]]; [left; by apply deployed_eq|right; by eapply deployment_applied_deployed].
Qed.

Lemma service_keeps ms dw err dw' :
  reading ms (world dw) -> deployed ms (world dw) -> reconcileService ms dw = (err, dw') ->
  reading ms (world dw') /\ deployed ms (world dw') /\ (err = None -> exposed ms (world dw')).
Proof.
  intros Hr Hdep Hsvc. apply service_among in Hsvc as [[[e ->] ->]|Hsvc]; [done|].
  apply (reading_others _ _ (interfered dw)) in Hr; [|apply others_step_all].
  apply (deployed_others _ _ (interfered dw)) in Hdep; [|apply others_step_all].
  destruct (caught_up (turn dw) (world dw)) as (_ & _ & Hsync). fold (interfered dw) in Hsync.
  apply reconcileService_frame in Hsvc as (Hm & Hd & _ & Hres).
  destruct Hr as (Hw & Hk & Hr). rewrite Hk in Hres.
  assert (forall m, deployed m (interfered dw) -> deployed m (world dw')) as Hkeep by by apply deployed_eq.
  split; [|split; [auto|]].
  - eapply reading_written; [done|by left| |done]. destruct err as [e|].
    + destruct Hres as [_ [Hs|[s Hs]]]; [left; by apply exposed_eq|right; by eapply service_applied_exposed].
    + destruct Hres as [s Hs]. right. by eapply service_applied_exposed.
  - intros ->. destruct Hres as [s Hs]. by eapply service_applied_exposed.
Qed.

(** A status patch on the object as others have edited it. *)
Lemma patch_edited before after w err w' events cur :
  ms_meta after = ms_meta before -> services_of w !! key (ms_meta before) = Some cur ->
  Status cur = Status before ->
  patchManagedServiceStatus r before after w = (err, w', events) ->
  deployments w' = deployments w /\ k8s_services w' = k8s_services w /\
  (services_of w' = services_of w \/
   services_of w' = <[key (ms_meta before) := set_status cur (Status after)]> (services_of w)).
Proof.
  intros Hmeta Hcur Hst. unfold patchManagedServiceStatus.
  assert (forall w1 st, patched before after st (services_of w) (services_of w1) ->
    services_of w1 = <[key (ms_meta before) := set_status cur (Status after)]> (services_of w)) as Hpatched.
  { intros w1 st (cur' & Hcur' & -> & ->). rewrite Hmeta in *. replace cur' with cur in * by congruence.
    by rewrite Hst, merge_status_unchanged. }
  destruct (DeepEqual_status _ _); [intros [= _ <- _]; auto|].
  destruct (status_Patch before after w) as [[o|e] w1] eqn:Hp; intros [= _ <- _].
  - apply patch_ok in Hp as (-> & -> & Hp%Hpatched). auto.
  - apply patch_err in Hp as (-> & -> & [Hp|(st & Hp%Hpatched)]); auto.
Qed.

Lemma patch_keeps ms after w err w' events :
  reading ms w -> ms_meta after = ms_meta ms ->
  ObservedGeneration (Status after) = Generation (ms_meta ms) ->
  (undegraded (Status after) -> deployed ms w /\ exposed ms w) ->
  patchManagedServiceStatus r ms after w = (err, w', events) -> honest w'.
Proof.
  intros (Hw & Hk & Hle & cur & Hcur & He) Hmeta Hog Hclaim Hp.
  eapply patch_edited in Hp as (Hd & Hs & Hm); [|done|by rewrite Hk|by apply edited_status].
  assert (forall m, deployed m w -> deployed m w') as Hkd by by apply deployed_eq.
  assert (forall m, exposed m w -> exposed m w') as Hks by by apply exposed_eq.
  rewrite Hk in Hm. intros o Ho. destruct Hm as [Hm|Hm]; rewrite Hm in Ho.
  { destruct (Hw _ Ho) as [? Hc]. split; [done|]. intros [? ?]%Hc. auto. }
  rewrite lookup_insert_eq in Ho. injection Ho as <-. cbn [Status ms_meta set_status]. rewrite Hog.
  pose proof (edited_generation _ _ He). split; [done|].
  intros [Hg Hu]. cbn [Status ms_meta set_status] in Hg, Hu. rewrite Hog in Hg.
  destruct (Hclaim Hu) as [Hdep Hexp].
  apply (deployed_edited _ cur) in Hdep; [|done|done]. apply (exposed_edited _ cur) in Hexp; [|done|done].
  split; [exact (Hkd cur Hdep)|exact (Hks cur Hexp)].
Qed.

Lemma degraded_keeps ms reason cause dw err dw' events :
  reading ms (world dw) -> recordDegradedStatus clock r ms reason cause dw = (err, dw', events) ->
  honest (world dw').
Proof.
  intros Hr Hd. apply degraded_among in Hd as [->|(w1 & err1 & Hw1 & Hd)]; [apply Hr|].
  assert (reading ms w1) as Hr1.
  { destruct Hw1 as [->| ->]; [done|]. eapply reading_others; [apply others_step_all|done]. }
  unfold recordDegradedStatus in Hd. destruct (patchManagedServiceStatus r ms _ w1) as [[perr w2] ev] eqn:Hp.
  assert (w2 = world dw') as <- by (destruct perr; by injection Hd).
  destruct (degraded_status_spec clock ms reason (Error cause)) as (Hmeta & _ & Hog & _ & _ & _ & _ & Hdeg).
  eapply patch_keeps; [exact Hr1|exact Hmeta|exact Hog| |exact Hp].
  intros (c & Hc & Hcs). destruct Hdeg as (c' & Hc' & _ & Hcs' & _). rewrite Hc' in Hc. injection Hc as ->. by rewrite Hcs in Hcs'.
Qed.

Lemma update_keeps ms d dw err dw' events :
  reading ms (world dw) -> deployed ms (world dw) -> exposed ms (world dw) ->
  updateManagedServiceStatus clock r ms d dw = (err, dw', events) -> honest (world dw').
Proof.
  unfold updateManagedServiceStatus. intros Hr Hd Hs Hp.
  apply patch_among in Hp as [[_ ->]|(w1 & Hw1 & Hp)]; [apply Hr|].
  assert (reading ms w1 /\ deployed ms w1 /\ exposed ms w1) as (Hr1 & Hd1 & Hs1).
  { destruct Hw1 as [->| ->]; [done|]. pose proof (others_step_all (turn dw) (world dw)) as Hstep.
    split_and!; [by eapply reading_others|by eapply deployed_others|by eapply exposed_others]. }
  destruct (ready_status_spec clock ms d) as (Hmeta & _ & Hog & _).
  eapply patch_keeps; [exact Hr1|exact Hmeta|exact Hog|done|exact Hp].
Qed.

Lemma reconcile_keeps w err w' events :
  honest w -> Reconcile_among others cut lost clock r req w = (err, w', events) -> honest w'.
Proof.
  intros Hw. pose proof (honest_others _ _ (others_step_all 0 w) Hw) as Hw0.
  apply (among_rule honest reading deployed exposed); [|done|done|].
  - split; [exact degraded_keeps|exact deployment_keeps|exact service_keeps|exact update_keeps].
  - intros ms (_ & Hk & Hms)%rc_get_ok. specialize (Hms (proj1 (caught_up 0 w))).
    split; [done|]. split; [done|]. split; [by apply (Hw0 _ Hms)|]. by exists ms.
Qed.
End Honest.

(** ** The writes of the reconciler among others *)
Section Writes.
Context {W E : Type} `{ReconcilerClientLaws W E} `{ConditionHelpersLaws}.
Context (clock : string -> Z) (r : ManagedServiceReconciler) (req : string * string).
Context (others : nat -> W -> W) (cut : nat) (lost : E).

(** A write that touches only what the name [req] is for, and no spec. *)
Record own_write (w w' : W) : Prop := {
  own_specs : forall k, Spec <$> services_of w' !! k = Spec <$> services_of w !! k;
  own_statuses : forall k, k <> req -> services_of w' !! k = services_of w !! k;
  own_deployments : changes_at req (deployments w) (deployments w');
  own_services : changes_at req (k8s_services w) (k8s_services w');
}.

Definition interleaved : relation W := fun w w' => (exists n, w' = others n w) \/ own_write w w'.

#[local] Instance among_others : ReconcilerClient (disturbed W) E := disturbed_client others cut lost.

Lemma interfered_first (dw : disturbed W) w' :
  own_write (interfered others dw) w' -> rtc interleaved (world dw) w'.
Proof. intros Hw. eapply rtc_l; [left; by eexists|]. apply rtc_once. by right. Qed.

Lemma deployment_interleaved ms dw res dw' :
  key (ms_meta ms) = req -> reconcileDeployment r ms dw = (res, dw') -> rtc interleaved (world dw) (world dw').
Proof.
  intros Hk Hdep. apply deployment_among in Hdep as [[_ ->]|Hdep]; [done|]. apply interfered_first.
  apply reconcileDeployment_frame in Hdep as (Hm & Hs & Hd & _). rewrite Hk in Hd.
  split; [by rewrite Hm|by rewrite Hm|done|by rewrite Hs].
Qed.

Lemma service_interleaved ms dw err dw' :
  key (ms_meta ms) = req -> reconcileService ms dw = (err, dw') -> rtc interleaved (world dw) (world dw').
Proof.
  intros Hk Hsvc. apply service_among in Hsvc as [[_ ->]|Hsvc]; [done|]. apply interfered_first.
  apply reconcileService_frame in Hsvc as (Hm & Hd & Hs & _). rewrite Hk in Hs.
  split; [by rewrite Hm|by rewrite Hm|by rewrite Hd|done].
Qed.

Lemma status_frame_own ms w w' : key (ms_meta ms) = req -> status_frame ms w w' -> own_write w w'.
Proof.
  intros Hk (Hd & Hs & Hspec & Hne). rewrite Hk in Hne. split; [done|done|by rewrite Hd|by rewrite Hs].
Qed.

Lemma acted (dw : disturbed W) w1 w' :
  w1 = world dw \/ w1 = interfered others dw -> own_write w1 w' -> rtc interleaved (world dw) w'.
Proof. intros [->| ->] Hw; [apply rtc_once; by right|by apply interfered_first]. Qed.

Lemma degraded_interleaved ms reason cause dw err dw' events :
  key (ms_meta ms) = req -> recordDegradedStatus clock r ms reason cause dw = (err, dw', events) ->
  rtc interleaved (world dw) (world dw').
Proof.
  intros Hk Hd. apply degraded_among in Hd as [->|(w1 & err1 & Hw1 & Hd)]; [done|].
  apply recordDegraded_outcome in Hd as [Hf _]. eapply acted; [exact Hw1|by eapply status_frame_own].
Qed.

Lemma update_interleaved ms d dw err dw' events :
  key (ms_meta ms) = req -> updateManagedServiceStatus clock r ms d dw = (err, dw', events) ->
  rtc interleaved (world dw) (world dw').
Proof.
  intros Hk Hp. apply patch_among in Hp as [[_ ->]|(w1 & Hw1 & Hp)]; [done|].
  apply (updateStatus_outcome clock r ms d) in Hp as [Hf _].
  eapply acted; [exact Hw1|by eapply status_frame_own].
Qed.

(** C17: whatever other writers do between its calls, and wherever it is stopped, a
    reconciliation writes only its own objects.  The run is a sequence of the others'
    steps and of steps of the reconciler; each of the latter leaves every spec, every
    object of another name, and every Deployment and Service that exists in place. *)
Theorem writes_confined w err w' events :
  Reconcile_among others cut lost clock r req w = (err, w', events) -> rtc interleaved w w'.
Proof.
  assert (rtc interleaved w (others 0 w)) as Hw0 by (apply rtc_once; left; by exists 0).
  apply (among_rule clock r req others cut lost (rtc interleaved w)
    (fun ms w1 => key (ms_meta ms) = req /\ rtc interleaved w w1) (fun _ _ => True) (fun _ _ => True));
    [|done|exact Hw0|by intros ms (_ & ? & _)%rc_get_ok].
  split.
  - intros ms reason cause dw err1 dw' ev [Hk Hr] Hd. etrans; [exact Hr|by eapply degraded_interleaved].
  - intros ms dw res dw' [Hk Hr] Hd. split; [|done]. split; [done|].
    etrans; [exact Hr|by eapply deployment_interleaved].
  - intros ms dw err1 dw' [Hk Hr] _ Hs. split; [|done]. split; [done|].
    etrans; [exact Hr|by eapply service_interleaved].
  - intros ms d dw err1 dw' ev [Hk Hr] _ _ Hu. etrans; [exact Hr|by eapply update_interleaved].
Qed.
End Writes.

(** ** The life of a ManagedService *)
Section Life.
Context {W E : Type} `{ReconcilerClientLaws W E} `{ConditionHelpersLaws}.
Context (r : ManagedServiceReconciler) (req : string * string).

(** Steps of other writers; the deletion of the service, and anything that happens while
    there is none; and reconciliations among other writers, each complete, failed, or
    stopped at any call.  Every call of a reconciliation is made when the caches have
    caught up with what the others did before it. *)
Inductive life_step : W -> W -> Prop :=
| life_others w w' : others_step req w w' -> life_step w w'
| life_gone w w' : services_of w' !! req = None -> life_step w w'
| life_reconcile clock others cut lost w err w' events :
    (forall n w, others_step req w (others n w)) -> (forall n w, caches_synced (others n w)) ->
    Reconcile_among others cut lost clock r req w = (err, w', events) -> life_step w w'.

Lemma honest_life w w' : life_step w w' -> honest r req w -> honest r req w'.
Proof.
  intros Hstep Hw. destruct Hstep as [w w' Ho|w w' Hnone|clock others cut lost w err w' events Ho Hs Hr].
  - by eapply honest_others.
  - intros ms Hms. congruence.
  - exact (reconcile_keeps clock r req others cut lost Ho Hs w err w' events Hw Hr).
Qed.

(** C4: with caches that have caught up, a status never claims what is not so.  From before
    a ManagedService is created, through edits by users, changes by the Deployment
    controller, and any number of reconciliations that succeed, fail, lose their answers
    or are stopped between two calls, all interleaved, and through deletions and
    re-creations between reconciliations: whenever the stored status is for the present
    generation and not degraded, the cluster holds the Deployment and the Service of the
    present spec; and the status is never for a generation to come.  Conditions: every
    call of a reconciliation is made when its caches have caught up with what the others
    did before it ([caches_synced]), and while the service is stored the others keep to
    [others_step]: they do not write its status, and of its Deployment and Service only
    what the operator does not manage. *)
Theorem status_never_overclaims w0 w ms :
  services_of w0 !! req = None -> rtc life_step w0 w -> services_of w !! req = Some ms ->
  (ObservedGeneration (Status ms) <= Generation (ms_meta ms))%Z /\
  (ObservedGeneration (Status ms) = Generation (ms_meta ms) -> undegraded (Status ms) ->
   (exists d, deployments w !! req = Some d /\ deployment_matches r ms d) /\
   (exists s, k8s_services w !! req = Some s /\ service_matches ms s)).
Proof.
  intros H0w Hrun Hms. assert (honest r req w) as Hw.
  { assert (honest r req w0) as Hw0 by (intros ms0 Hms0; congruence). clear Hms H0w.
    induction Hrun as [|w w1 w2 Hstep _ IH]; [done|]. by eapply IH, honest_life. }
  destruct (Hw ms Hms) as [? Hclaim]. split; [done|]. intros Hg Hu. by apply Hclaim.
Qed.
End Life.

(** ** Witnesses: a service that is scaled while it is reconciled *)
Section Witnesses.
Import MemoryCluster.

(** [kubectl patch] of the number of replicas. *)
Definition scale (n : Z) (w : cluster) : cluster :=
  with_base {| Memory.contents := alter (fun s =>
      {| Memory.st_UID := Memory.st_UID s; Memory.st_Generation := Memory.st_Generation s + 1;
         Memory.st_Spec := {| Template := Template (Memory.st_Spec s); Replicas := Some n;
                              Message := Message (Memory.st_Spec s) |};
         Memory.st_Status := Memory.st_Status s |}) demo_req (Memory.contents (mem_base w));
    Memory.next_uid := Memory.next_uid (mem_base w); Memory.network := Memory.network (mem_base w) |} w.

(** The user scales between the read and the write of the Deployment. *)
Definition scaling (n : nat) (w : cluster) : cluster := if decide (n = 1) then scale 3 w else w.

Definition quiet (n : nat) (w : cluster) : cluster := w.

Definition among_scaling : option (go_error Memory.error) * cluster * list event :=
  Reconcile_among scaling 100 Memory.Unavailable at_seven pinned demo_req demo_cluster.

Definition afterwards : option (go_error Memory.error) * cluster * list event :=
  Reconcile_among quiet 100 Memory.Unavailable at_seven pinned demo_req among_scaling.1.2.

Lemma scaling_others n w : others_step (W:=cluster) demo_req w (scaling n w).
Proof.
  unfold scaling. destruct (decide (n = 1)); [|reflexivity].
  split; cbn [services_of reconciler_laws scale with_base mem_base deployments mem_deployments k8s_services
    mem_services]; [| |reflexivity..].
  - intros ms Hms. rewrite Memory.view_lookup in Hms |- *. cbn [Memory.contents]. rewrite lookup_alter_eq.
    apply fmap_Some in Hms as (s & -> & ->). eexists. split; [done|]. split; cbn; lia || done.
  - intros Hnone ms. rewrite !Memory.view_lookup in Hnone |- *. cbn [Memory.contents]. rewrite lookup_alter_eq.
    by destruct (Memory.contents (mem_base w) !! demo_req).
Qed.

Lemma demo_applied : others_step (W:=cluster) demo_req empty_cluster demo_cluster.
Proof.
  split; [by intros o ?|intros _ ms|by intros o ?|by intros o ?].
  rewrite demo_present. by intros [= <-].
Qed.

Lemma among_scaling_ok : among_scaling = (None, among_scaling.1.2, among_scaling.2).
Proof. apply run_eq. vm_compute. reflexivity. Qed.

Lemma afterwards_ok : afterwards = (None, afterwards.1.2, afterwards.2).
Proof. apply run_eq. vm_compute. reflexivity. Qed.

Lemma scaled_reached : rtc (life_step (E:=Memory.error) pinned demo_req) empty_cluster among_scaling.1.2.
Proof.
  eapply rtc_l; [apply life_others, demo_applied|]. apply rtc_once.
  exact (life_reconcile pinned demo_req at_seven scaling 100 Memory.Unavailable _ _ _ _ scaling_others
    (fun n w => demo_synced _) among_scaling_ok).
Qed.

Lemma afterwards_reached : rtc (life_step (E:=Memory.error) pinned demo_req) empty_cluster afterwards.1.2.
Proof.
  etrans; [apply scaled_reached|]. apply rtc_once.
  refine (life_reconcile pinned demo_req at_seven quiet 100 Memory.Unavailable _ _ _ _ _
    (fun n w => demo_synced _) afterwards_ok).
  intros n w. unfold quiet. reflexivity.
Qed.

(** Scaled in the middle of a reconciliation, the service is reported as not observed
    yet; after the next one the claim is made, and is true. *)
Lemma status_never_overclaims_witness :
  (Generation ∘ ms_meta <$> services_of among_scaling.1.2 !! demo_req = Some 2%Z /\
   ObservedGeneration ∘ Status <$> services_of among_scaling.1.2 !! demo_req = Some 1%Z) /\
  exists ms d, services_of afterwards.1.2 !! demo_req = Some ms /\ ObservedGeneration (Status ms) = 2%Z /\
    deployments afterwards.1.2 !! demo_req = Some d /\ d_Replicas d = Some 3%Z.
Proof.
  split; [by vm_compute|].
  destruct (services_of afterwards.1.2 !! demo_req) as [ms|] eqn:Hms; [|vm_compute in Hms; discriminate].
  destruct (status_never_overclaims pinned demo_req empty_cluster afterwards.1.2 ms) as [_ Hclaim];
    [vm_compute; reflexivity|exact afterwards_reached|exact Hms|].
  vm_compute in Hms. injection Hms as <-.
  destruct Hclaim as [(d & Hd & Hm) _]; [reflexivity|eexists; split; reflexivity|].
  eexists. exists d. split; [reflexivity|]. split; [reflexivity|]. split; [exact Hd|].
  destruct Hm as (_ & _ & _ & Hrep & _). exact Hrep.
Defined.

Lemma writes_confined_witness :
  rtc (interleaved (E:=Memory.error) demo_req scaling) demo_cluster among_scaling.1.2 /\
  services_of among_scaling.1.2 !! demo_req <> services_of demo_cluster !! demo_req.
Proof.
  split; [|by vm_compute].
  exact (writes_confined at_seven pinned demo_req scaling 100 Memory.Unavailable demo_cluster None
    among_scaling.1.2 among_scaling.2 among_scaling_ok).
Defined.
End Witnesses.
End Interference.
