(* ===== verification/Settled.v ===== *)
(** * A service nobody edits

    The control-plane API creates and deletes services; it never changes a spec.  While
    nobody else does, the generation stays, and the status is of it as soon as there is
    one: among such writers the reconciler keeps [settled]. *)

From Stdlib Require Import ZArith Lia.
From S2P Require Import Prelude GoStrings ApiTypes Kube Workloads Resources Status Controller Interference.
Import V1alpha1 Resources Status Controller Interference.

Module Settled.

Section Unedited.
Context {W E : Type} `{ReconcilerClientLaws W E} `{ConditionHelpersLaws}.
Context (clock : string -> Z) (r : ManagedServiceReconciler) (req : string * string).

Record unedited (w w' : W) : Prop := {
  unedited_step : others_step req w w';
  unedited_generation : forall ms ms', services_of w !! req = Some ms -> services_of w' !! req = Some ms' ->
    Generation (ms_meta ms') = Generation (ms_meta ms);
  unedited_new : services_of w !! req = None -> forall ms, services_of w' !! req = Some ms ->
    Status ms = zero_status;
}.

(** The status has a condition of the type, and it is true. *)
Definition holds (st : ManagedServiceStatus) (t : string) : Prop :=
  exists c, FindStatusCondition (Conditions st) t = Some c /\ cond_Status c = ConditionTrue.

(** The status is of the one generation, or of none; and what it calls available has as
    many ready replicas as are desired. *)
Definition settled_status (ms : ManagedService) : Prop :=
  (ObservedGeneration (Status ms) = 0%Z \/ ObservedGeneration (Status ms) = Generation (ms_meta ms)) /\
  (holds (Status ms) ManagedServiceConditionAvailable ->
   (desiredReplicas ms <= ReadyReplicas (Status ms))%Z).

Definition settled (w : W) : Prop := forall ms, services_of w !! req = Some ms -> settled_status ms.

Lemma settled_edited ms ms' :
  edited ms ms' -> Generation (ms_meta ms') = Generation (ms_meta ms) -> settled_status ms -> settled_status ms'.
Proof.
  intros He Hg. destruct (edited_same _ _ He Hg) as (_ & _ & _ & Hs).
  unfold settled_status, desiredReplicas. by rewrite (edited_status _ _ He), Hg, Hs.
Qed.

Lemma settled_unedited w w' : unedited w w' -> settled w -> settled w'.
Proof.
  intros [Hstep Hgen Hnew] Hw ms' Hms'. destruct (services_of w !! req) as [ms|] eqn:Hms.
  - destruct (others_managed _ _ _ Hstep _ Hms) as (ms1 & Hms1 & He). replace ms1 with ms' in * by congruence.
    eapply settled_edited; [exact He|by apply Hgen|by apply Hw].
  - unfold settled_status. rewrite (Hnew eq_refl _ Hms'). split; [by left|]. intros (c & Hc & _).
    apply find_type in Hc as [Hc _]. by apply elem_of_nil in Hc.
Qed.

(** The reconciler holds [ms], which is the stored object but for labels and the like. *)
Definition holding (ms : ManagedService) (w : W) : Prop :=
  settled w /\ key (ms_meta ms) = req /\
  exists cur, services_of w !! req = Some cur /\ edited ms cur /\
    Generation (ms_meta cur) = Generation (ms_meta ms).

Lemma holding_unedited ms w w' : unedited w w' -> holding ms w -> holding ms w'.
Proof.
  intros Hu (Hw & Hk & cur & Hcur & He & Hg). split; [by eapply settled_unedited|]. split; [done|].
  destruct Hu as [Hstep Hgen _]. destruct (others_managed _ _ _ Hstep _ Hcur) as (cur' & Hcur' & He').
  exists cur'. split; [done|]. split; [by etrans|]. rewrite <- Hg. by apply Hgen.
Qed.

Lemma holding_eq ms w w' : services_of w' = services_of w -> holding ms w -> holding ms w'.
Proof. unfold holding, settled. by intros ->. Qed.

Lemma patch_settles ms after w err w' events :
  holding ms w -> ms_meta after = ms_meta ms ->
  ObservedGeneration (Status after) = Generation (ms_meta ms) ->
  (holds (Status after) ManagedServiceConditionAvailable ->
   (desiredReplicas ms <= ReadyReplicas (Status after))%Z) ->
  patchManagedServiceStatus r ms after w = (err, w', events) -> settled w'.
Proof.
  intros (Hw & Hk & cur & Hcur & He & Hg) Hmeta Hog Hav Hp.
  eapply patch_edited in Hp as (_ & _ & Hm); [|done|by rewrite Hk|by apply edited_status].
  rewrite Hk in Hm. intros o Ho. destruct Hm as [Hm|Hm]; rewrite Hm in Ho; [by apply Hw|].
  rewrite lookup_insert_eq in Ho. injection Ho as <-.
  split; cbn [Status ms_meta set_status]; [right; by rewrite Hog, Hg|].
  destruct (edited_same _ _ He Hg) as (_ & _ & _ & Hs). unfold desiredReplicas in *.
  cbn [Spec set_status]. by rewrite Hs.
Qed.

(** ** The steps of the reconciler among writers that do not edit *)
Context (others : nat -> W -> W) (cut : nat) (lost : E).
Context (others_unedited : forall n w, unedited w (others n w)).
Context (caught_up : forall n w, caches_synced (others n w)).

#[local] Instance among : ReconcilerClient (disturbed W) E := disturbed_client others cut lost.

Lemma holding_acted ms (dw : disturbed W) w1 :
  w1 = world dw \/ w1 = interfered others dw -> holding ms (world dw) -> holding ms w1.
Proof. intros [->| ->] Hr; [done|]. eapply holding_unedited; [apply others_unedited|done]. Qed.

Lemma degraded_settles ms reason cause dw err dw' events :
  holding ms (world dw) -> recordDegradedStatus clock r ms reason cause dw = (err, dw', events) ->
  settled (world dw').
Proof.
  intros Hr Hd. apply degraded_among in Hd as [->|(w1 & err1 & Hw1 & Hd)]; [apply Hr|].
  eapply holding_acted in Hr; [|exact Hw1].
  unfold recordDegradedStatus in Hd. destruct (patchManagedServiceStatus r ms _ w1) as [[perr w2] ev] eqn:Hp.
  assert (w2 = world dw') as <- by (destruct perr; by injection Hd).
  destruct (degraded_status_spec clock ms reason (Error cause)) as (Hmeta & _ & Hog & _ & _ & Hav & _).
  eapply patch_settles; [exact Hr|exact Hmeta|exact Hog| |exact Hp].
  intros (c & Hc & Hcs). destruct Hav as (c' & Hc' & _ & Hcs' & _).
  rewrite Hc' in Hc. injection Hc as ->. by rewrite Hcs in Hcs'.
Qed.

Lemma update_settles ms d dw err dw' events :
  holding ms (world dw) -> updateManagedServiceStatus clock r ms d dw = (err, dw', events) ->
  settled (world dw').
Proof.
  unfold updateManagedServiceStatus. intros Hr Hp.
  apply patch_among in Hp as [[_ ->]|(w1 & Hw1 & Hp)]; [apply Hr|]. eapply holding_acted in Hr; [|exact Hw1].
  destruct (ready_status_spec clock ms d) as (Hmeta & _ & Hog & Hrr & _ & Hav & _).
  eapply patch_settles; [exact Hr|exact Hmeta|exact Hog| |exact Hp].
  intros (c & Hc & Hcs). rewrite Hrr. unfold available_condition in Hav.
  destruct (Z.leb_spec (desiredReplicas ms) (d_ReadyReplicas d)); [done|].
  destruct Hav as (c' & Hc' & _ & Hcs' & _). rewrite Hc' in Hc. injection Hc as ->. by rewrite Hcs in Hcs'.
Qed.

Lemma reconcile_settles w err w' events :
  settled w -> Reconcile_among others cut lost clock r req w = (err, w', events) -> settled w'.
Proof.
  intros Hw. pose proof (settled_unedited _ _ (others_unedited 0 w) Hw) as Hw0.
  apply (among_rule clock r req others cut lost settled holding (fun _ _ => True) (fun _ _ => True));
    [|done|done|].
  - split.
    + exact degraded_settles.
    + intros ms dw res dw' Hr Hd. split; [|done]. apply deployment_among in Hd as [[_ ->]|Hd]; [done|].
      apply reconcileDeployment_frame in Hd as (Hm & _).
      eapply holding_eq, holding_acted; [exact Hm|by right|done].
    + intros ms dw err1 dw' Hr _ Hs. split; [|done]. apply service_among in Hs as [[_ ->]|Hs]; [done|].
      apply reconcileService_frame in Hs as (Hm & _).
      eapply holding_eq, holding_acted; [exact Hm|by right|done].
    + intros ms d dw err1 dw' ev Hr _ _. by apply update_settles.
  - intros ms (_ & Hk & Hms)%rc_get_ok. specialize (Hms (proj1 (caught_up 0 w))).
    split; [done|]. split; [done|]. exists ms. split; [done|]. by split.
Qed.
End Unedited.
End Settled.
