(* ===== verification/Registration.v ===== *)
(** * Registering metrics (internal/telemetry/metrics.go, internal/controller/managedservice_metrics.go)

    How the collectors of the HTTP middleware and of the operator come to be in a
    Prometheus registry.  The registry is a parameter with its documented laws:
    a collector whose descriptor is registered already is refused with
    [AlreadyRegisteredError], which names the existing one.  Collectors are
    pointers: each has a reference, fresh when it is constructed. *)

From Stdlib Require Import ZArith Lia.
From S2P Require Import Prelude GoStrings Http ApiTypes Kube Workloads Telemetry Resources Status Controller.
Import Status Controller.

(** ** Collectors and registries *)

Record desc : Type := {
  fqName : string;
  help : string;
  constLabels : gmap string string;
  variableLabels : list string;
}.

(** The Go type of the collector; buckets in milliseconds. *)
Inductive collector_kind : Type := CounterVec | HistogramVec (buckets : list Z) | GaugeVec.

Record collector : Type := { c_ref : nat; c_kind : collector_kind; c_desc : desc }.

Inductive register_error (X : Type) : Type :=
| AlreadyRegisteredError (ExistingCollector : collector)
| OtherRegisterError (err : X).
Arguments AlreadyRegisteredError {X} ExistingCollector.
Arguments OtherRegisterError {X} err.

#[export] Instance desc_eq_dec : EqDecision desc.
Proof. solve_decision. Defined.

Class Registerer (R X : Type) : Type := {
  Register : collector -> R -> option (register_error X) * R;
}.

(** Names the registry accepts. *)
Definition name_start (c : ascii) : bool := is_lower c || is_upper c || Ascii.eqb c "_".
Definition valid_name (s : string) : bool :=
  match s with
  | "" => false
  | String c s' => name_start c && sforall (fun c => name_start c || is_digit c) s'
  end.

(** Valid and pairwise distinct labels. *)
Definition valid_desc (d : desc) : bool :=
  let labels := variableLabels d ++ (map_to_list (constLabels d)).*1 in
  valid_name (fqName d) && forallb valid_name labels && bool_decide (NoDup labels).

Class RegistererLaws (R X : Type) `{Registerer R X} : Type := {
  registered : R -> list collector;
  register_ok : forall c r r', Register c r = (None, r') -> registered r' ≡ₚ c :: registered r;
  register_duplicate : forall c r existing r',
    Register c r = (Some (AlreadyRegisteredError existing), r') ->
    r' = r /\ existing ∈ registered r /\ c_desc existing = c_desc c;
  register_refused : forall c r x r', Register c r = (Some (OtherRegisterError x), r') -> r' = r;
  register_again : forall c existing r,
    existing ∈ registered r -> c_desc existing = c_desc c ->
    Register c r = (Some (AlreadyRegisteredError existing), r);
  register_fresh : forall c r,
    valid_desc (c_desc c) = true ->
    (forall c', c' ∈ registered r -> fqName (c_desc c') <> fqName (c_desc c)) ->
    exists r', Register c r = (None, r');
}.

Module Registration.

Inductive registration_error (X : Type) : Type :=
| RegistererRequired
| ServiceNameRequired
| RegisterFailed (what : string) (err : register_error X)
| IncompatibleType (what : string).
Arguments RegistererRequired {X}.
Arguments ServiceNameRequired {X}.
Arguments RegisterFailed {X} what err.
Arguments IncompatibleType {X} what.

(** ** Constants *)

Definition methodLabel : string := "method".
Definition routeLabel : string := "route".
Definition statusClassLabel : string := "status_class".
Definition outcomeLabel : string := "outcome".
Definition reconciliationDurationBuckets : list Z := [10; 25; 50; 100; 250; 500; 1000; 2500; 5000; 10000]%Z.

Section Operations.
Context {R X : Type} `{Registerer R X}.

(** The next reference and the registry. *)
Definition heap : Type := nat * R.

(** [NewCounterVec] and its kin. *)
Definition new_collector (k : collector_kind) (name help : string) (labels : list string) (st : heap)
    : collector * heap :=
  ({| c_ref := st.1; c_kind := k;
      c_desc := {| fqName := name; help := help; constLabels := ∅; variableLabels := labels |} |},
   (S st.1, st.2)).

Definition register (c : collector) (st : heap) : option (register_error X) * heap :=
  let '(err, r) := Register c st.2 in (err, (st.1, r)).

Definition registerCounterVec (c : collector) (st : heap)
    : result (registration_error X) collector * heap :=
  match register c st with
  | (None, st') => (Ok c, st')
  | (Some (AlreadyRegisteredError existing), st') =>
      match c_kind existing with
      | CounterVec => (Ok existing, st')
      | _ => (Err (IncompatibleType "counter"), st')
      end
  | (Some err, st') => (Err (RegisterFailed "counter" err), st')
  end.

Definition registerHistogramVec (c : collector) (st : heap)
    : result (registration_error X) collector * heap :=
  match register c st with
  | (None, st') => (Ok c, st')
  | (Some (AlreadyRegisteredError existing), st') =>
      match c_kind existing with
      | HistogramVec _ => (Ok existing, st')
      | _ => (Err (IncompatibleType "histogram"), st')
      end
  | (Some err, st') => (Err (RegisterFailed "histogram" err), st')
  end.

Record ManagedServiceMetrics : Type := {
  reconciliations : collector;
  reconcileDuration : collector;
  conditionTransitions : collector;
}.

(** [registerer] is whether the argument is not nil. *)
Definition NewManagedServiceMetrics (registerer : bool) (st : heap)
    : result (registration_error X) ManagedServiceMetrics * heap :=
  if negb registerer then (Err RegistererRequired, st) else
  let '(c1, st) := new_collector CounterVec "managedservice_reconciliations_total"
    "Total number of completed ManagedService reconciliation attempts." [outcomeLabel] st in
  match registerCounterVec c1 st with
  | (Err err, st) => (Err err, st)
  | (Ok reconciliations, st) =>
      let '(c2, st) := new_collector (HistogramVec reconciliationDurationBuckets)
        "managedservice_reconcile_duration_seconds"
        "Duration of completed ManagedService reconciliation attempts in seconds." [outcomeLabel] st in
      match registerHistogramVec c2 st with
      | (Err err, st) => (Err err, st)
      | (Ok reconcileDuration, st) =>
          let '(c3, st) := new_collector CounterVec "managedservice_condition_transitions_total"
            "Total number of persisted ManagedService condition status transitions."
            ["condition"; "status"] st in
          match registerCounterVec c3 st with
          | (Err err, st) => (Err err, st)
          | (Ok conditionTransitions, st) =>
              (Ok {| reconciliations := reconciliations; reconcileDuration := reconcileDuration;
                     conditionTransitions := conditionTransitions |}, st)
          end
      end
  end.

Record HTTPMetrics : Type := {
  requestsTotal : collector;
  requestDuration : collector;
  requestsInFlight : collector;
}.

(** What a registry behind [WrapRegistererWith] gets to see of a collector. *)
Definition with_const_label (k v : string) (c : collector) : collector :=
  {| c_ref := c_ref c; c_kind := c_kind c;
     c_desc := {| fqName := fqName (c_desc c); help := help (c_desc c);
                  constLabels := <[k := v]> (constLabels (c_desc c));
                  variableLabels := variableLabels (c_desc c) |} |}.

Fixpoint register_all (wrap : collector -> collector) (cs : list collector) (st : heap)
    : option (registration_error X) * heap :=
  match cs with
  | [] => (None, st)
  | c :: cs' =>
      match register (wrap c) st with
      | (Some err, st') => (Some (RegisterFailed "HTTP" err), st')
      | (None, st') => register_all wrap cs' st'
      end
  end.

Definition NewHTTPMetrics (DefBuckets : list Z) (registerer : bool) (serviceName : string) (st : heap)
    : result (registration_error X) HTTPMetrics * heap :=
  if negb registerer then (Err RegistererRequired, st) else
  if String.eqb serviceName "" then (Err ServiceNameRequired, st) else
  let '(total, st) := new_collector CounterVec "http_server_requests_total"
    "Total HTTP server requests." [methodLabel; routeLabel; statusClassLabel] st in
  let '(duration, st) := new_collector (HistogramVec DefBuckets) "http_server_request_duration_seconds"
    "HTTP server request duration in seconds." [methodLabel; routeLabel; statusClassLabel] st in
  let '(inFlight, st) := new_collector GaugeVec "http_server_requests_in_flight"
    "Current HTTP server requests." [methodLabel; routeLabel] st in
  match register_all (with_const_label "service" serviceName) [total; duration; inFlight] st with
  | (Some err, st) => (Err err, st)
  | (None, st) =>
      (Ok {| requestsTotal := total; requestDuration := duration; requestsInFlight := inFlight |}, st)
  end.
End Operations.

(** ** The updates of the collectors

    The collector and the label values of the [WithLabelValues] call behind an
    event; [WithLabelValues] panics unless there is one value per label and every value
    is valid UTF-8. *)

Definition http_update (m : HTTPMetrics) (e : Telemetry.event) : option (collector * list string) :=
  match e with
  | Telemetry.InFlightInc method route | Telemetry.InFlightDec method route =>
      Some (requestsInFlight m, [method; route])
  | Telemetry.RequestsInc method route class => Some (requestsTotal m, [method; route; class])
  | Telemetry.DurationObserve method route class => Some (requestDuration m, [method; route; class])
  | _ => None
  end.

Definition operator_update (m : ManagedServiceMetrics) (e : Status.event) : collector * list string :=
  match e with
  | Status.ReconciliationsInc outcome => (reconciliations m, [outcome])
  | Status.ReconcileDurationObserve outcome => (reconcileDuration m, [outcome])
  | Status.ConditionTransitionsInc condition status => (conditionTransitions m, [condition; status])
  end.

Definition well_labelled (u : collector * list string) : Prop :=
  length u.2 = length (variableLabels (c_desc u.1)) /\ Forall (fun v => ValidString v = true) u.2.

Definition is_counter (k : collector_kind) : bool := match k with CounterVec => true | _ => false end.
Definition is_histogram (k : collector_kind) : bool := match k with HistogramVec _ => true | _ => false end.

(** The types of the collectors that are updated. *)
Definition http_kind (DefBuckets : list Z) (e : Telemetry.event) : collector_kind :=
  match e with
  | Telemetry.InFlightInc _ _ | Telemetry.InFlightDec _ _ => GaugeVec
  | Telemetry.DurationObserve _ _ _ => HistogramVec DefBuckets
  | _ => CounterVec
  end.

Definition operator_kind (e : Status.event) : collector_kind -> bool :=
  match e with
  | Status.ReconcileDurationObserve _ => is_histogram
  | _ => is_counter
  end.

(** ** Facts *)
Section Facts.
Context {R X : Type} `{RegistererLaws R X}.
Implicit Types (st : @heap R) (r : R) (c : collector).

(** A registered collector stays registered. *)
Definition grows (st st' : @heap R) : Prop :=
  forall c, c ∈ registered st.2 -> c ∈ registered st'.2.

#[local] Instance grows_preorder : PreOrder grows.
Proof. split; [by intros st c|]. intros st1 st2 st3 H12 H23 c Hc. by apply H23, H12. Qed.

Lemma new_collector_grows k name help labels st : grows st (new_collector k name help labels st).2.
Proof. by intros c. Qed.

Lemma register_outcome c st err st' :
  register c st = (err, st') ->
  grows st st' /\
  match err with
  | None => c ∈ registered st'.2
  | Some (AlreadyRegisteredError existing) => st' = st /\ existing ∈ registered st.2 /\ c_desc existing = c_desc c
  | Some (OtherRegisterError _) => st' = st
  end.
Proof.
  unfold register. destruct st as [n r]. simpl. destruct (Register c r) as [e r'] eqn:Hr. intros [= <- <-].
  destruct e as [[existing|x]|].
  - by apply register_duplicate in Hr as (-> & ? & ?).
  - by apply register_refused in Hr as ->.
  - apply register_ok in Hr. unfold grows. simpl. setoid_rewrite Hr.
    split; [intros c'; by right|by left].
Qed.

(** What both helpers promise: a registered collector of the wanted type with the
    wanted descriptor. *)
Definition obtains (same_kind : collector_kind -> bool)
    (f : collector -> @heap R -> result (registration_error X) collector * @heap R) : Prop :=
  forall c st, same_kind (c_kind c) = true ->
  let '(res, st') := f c st in
  grows st st' /\
  (forall c', res = Ok c' -> c' ∈ registered st'.2 /\ c_desc c' = c_desc c /\ same_kind (c_kind c') = true) /\
  (forall c', c' ∈ registered st.2 -> c_desc c' = c_desc c -> same_kind (c_kind c') = true ->
   res = Ok c' /\ st' = st).

Lemma obtains_registered c c' st :
  c' ∈ registered st.2 -> c_desc c' = c_desc c ->
  register (X:=X) c st = (Some (AlreadyRegisteredError c'), st).
Proof. intros Hin Hd. destruct st as [n r]. unfold register. simpl in *. by rewrite (register_again _ c'). Qed.

(** The two helpers differ in the type assertion. *)
Definition reuse (same_kind : collector_kind -> bool) (what : string) (c : collector) (st : @heap R)
    : result (registration_error X) collector * @heap R :=
  match register c st with
  | (None, st') => (Ok c, st')
  | (Some (AlreadyRegisteredError existing), st') =>
      if same_kind (c_kind existing) then (Ok existing, st') else (Err (IncompatibleType what), st')
  | (Some err, st') => (Err (RegisterFailed what err), st')
  end.

Lemma registerCounterVec_reuse c st : registerCounterVec c st = reuse is_counter "counter" c st.
Proof.
  unfold registerCounterVec, reuse. destruct (register c st) as [[[existing|]|] ?]; [|done..].
  by destruct (c_kind existing).
Qed.

Lemma registerHistogramVec_reuse c st : registerHistogramVec c st = reuse is_histogram "histogram" c st.
Proof.
  unfold registerHistogramVec, reuse. destruct (register c st) as [[[existing|]|] ?]; [|done..].
  by destruct (c_kind existing).
Qed.

Lemma reuse_obtains same_kind what : obtains same_kind (reuse same_kind what).
Proof.
  intros c st Hk. unfold reuse. destruct (register c st) as [err st'] eqn:Hr.
  apply register_outcome in Hr as Hout. destruct Hout as [Hg Hout].
  assert (forall c', c' ∈ registered st.2 -> c_desc c' = c_desc c ->
    err = Some (AlreadyRegisteredError c') /\ st' = st) as Hagain.
  { intros c' Hin Hd. rewrite (obtains_registered c c' st Hin Hd) in Hr. by simplify_eq. }
  destruct err as [[existing|x]|].
  - destruct Hout as (-> & Hin & Hd). destruct (same_kind (c_kind existing)) eqn:He; split_and!; try done.
    + by intros c' [= <-].
    + intros c' Hin' Hd' Hk'. by destruct (Hagain c' Hin' Hd') as [[= ->] _].
    + intros c' Hin' Hd' Hk'. destruct (Hagain c' Hin' Hd') as [[= ->] _]. congruence.
  - split_and!; [done..|]. intros c' Hin' Hd' _. by destruct (Hagain c' Hin' Hd').
  - split_and!; [done|by intros c' [= <-]|]. intros c' Hin' Hd' _. by destruct (Hagain c' Hin' Hd').
Qed.

(** What [NewManagedServiceMetrics] returns. *)
Record operator_metrics_ok (m : ManagedServiceMetrics) (r : R) : Prop := {
  ok_reconciliations : reconciliations m ∈ registered r /\
    c_desc (reconciliations m) = {| fqName := "managedservice_reconciliations_total";
      help := "Total number of completed ManagedService reconciliation attempts.";
      constLabels := ∅; variableLabels := [outcomeLabel] |} /\
    is_counter (c_kind (reconciliations m)) = true;
  ok_duration : reconcileDuration m ∈ registered r /\
    c_desc (reconcileDuration m) = {| fqName := "managedservice_reconcile_duration_seconds";
      help := "Duration of completed ManagedService reconciliation attempts in seconds.";
      constLabels := ∅; variableLabels := [outcomeLabel] |} /\
    is_histogram (c_kind (reconcileDuration m)) = true;
  ok_transitions : conditionTransitions m ∈ registered r /\
    c_desc (conditionTransitions m) = {| fqName := "managedservice_condition_transitions_total";
      help := "Total number of persisted ManagedService condition status transitions.";
      constLabels := ∅; variableLabels := ["condition"; "status"] |} /\
    is_counter (c_kind (conditionTransitions m)) = true;
}.

Lemma NewManagedServiceMetrics_ok st m st' :
  NewManagedServiceMetrics true st = (Ok m, st') -> grows st st' /\ operator_metrics_ok m st'.2.
Proof.
  unfold NewManagedServiceMetrics. cbn [negb new_collector].
  rewrite registerCounterVec_reuse.
  pose proof (reuse_obtains is_counter "counter") as Hc.
  match goal with |- context [reuse is_counter "counter" ?c ?s] => specialize (Hc c s eq_refl) as H1;
    destruct (reuse is_counter "counter" c s) as [[c1|] st1] end; [|done].
  destruct H1 as (Hg1 & H1 & _). destruct (H1 c1 eq_refl) as (Hin1 & Hd1 & Hk1).
  rewrite registerHistogramVec_reuse.
  match goal with |- context [reuse is_histogram "histogram" ?c ?s] =>
    pose proof (reuse_obtains is_histogram "histogram" c s eq_refl) as H2;
    destruct (reuse is_histogram "histogram" c s) as [[c2|] st2] end; [|done].
  destruct H2 as (Hg2 & H2 & _). destruct (H2 c2 eq_refl) as (Hin2 & Hd2 & Hk2).
  rewrite registerCounterVec_reuse.
  match goal with |- context [reuse is_counter "counter" ?c ?s] => specialize (Hc c s eq_refl) as H3;
    destruct (reuse is_counter "counter" c s) as [[c3|] st3] end; [|done].
  destruct H3 as (Hg3 & H3 & _). destruct (H3 c3 eq_refl) as (Hin3 & Hd3 & Hk3).
  intros [= <- <-]. split; [by do 2 (etrans; [done|])|].
  constructor; (split; [|done]); auto.
Qed.

Lemma reuse_registered same_kind what c c' st :
  c' ∈ registered st.2 -> c_desc c' = c_desc c -> same_kind (c_kind c') = true ->
  reuse same_kind what c st = (Ok c', st).
Proof. intros Hin Hd Hk. unfold reuse. rewrite (obtains_registered c c' st Hin Hd). by rewrite Hk. Qed.

Lemma NewManagedServiceMetrics_again m st :
  operator_metrics_ok m st.2 ->
  NewManagedServiceMetrics true st = (Ok m, (3 + st.1, st.2)).
Proof.
  intros [(Hin1 & Hd1 & Hk1) (Hin2 & Hd2 & Hk2) (Hin3 & Hd3 & Hk3)].
  unfold NewManagedServiceMetrics. cbn [negb new_collector].
  rewrite registerCounterVec_reuse, (reuse_registered _ _ _ (reconciliations m)) by done.
  rewrite registerHistogramVec_reuse, (reuse_registered _ _ _ (reconcileDuration m)) by done.
  rewrite registerCounterVec_reuse, (reuse_registered _ _ _ (conditionTransitions m)) by done.
  by destruct m.
Qed.

(** Registering the operator's metrics again is safe.  Once it has succeeded, it
    succeeds on every later state of the registry, returns the very same
    collectors, and changes nothing in the registry. *)
Theorem metrics_reused st m st1 st2 :
  NewManagedServiceMetrics true st = (Ok m, st1) -> grows st1 st2 ->
  exists n, NewManagedServiceMetrics true st2 = (Ok m, (n, st2.2)).
Proof.
  intros [_ [[? ?] [? ?] [? ?]]]%NewManagedServiceMetrics_ok Hg.
  exists (3 + st2.1). apply NewManagedServiceMetrics_again. constructor; auto.
Qed.

(** ** The HTTP metrics *)

Lemma register_all_outcome wrap cs st err st' :
  register_all wrap cs st = (err, st') ->
  grows st st' /\ (err = None -> Forall (fun c => wrap c ∈ registered st'.2) cs).
Proof.
  revert st. induction cs as [|c cs IH]; intros st; simpl; [by intros [= <- <-]|].
  destruct (register (wrap c) st) as [[e|] st1] eqn:Hr; apply register_outcome in Hr as [Hg Hc].
  - by intros [= <- <-].
  - intros [Hg' HF]%IH. split; [by etrans|]. intros He. constructor; auto.
Qed.

(** On a registry without HTTP metrics the registration succeeds. *)
Lemma NewHTTPMetrics_fresh DefBuckets serviceName st :
  serviceName <> "" -> registered st.2 = [] ->
  exists m st', NewHTTPMetrics DefBuckets true serviceName st = (Ok m, st').
Proof.
  intros Hname Hnone. unfold NewHTTPMetrics. rewrite (proj2 (String.eqb_neq _ _) Hname).
  cbn [negb new_collector]. destruct st as [n r]. simpl in Hnone. cbn [register_all fst snd]. unfold register. cbn [fst snd].
  match goal with |- context [Register ?c r] => destruct (register_fresh c r) as [r1 H1];
    [vm_compute; reflexivity|intros c'; rewrite Hnone; by intros ?%elem_of_nil|] end.
  rewrite H1. cbn [fst snd]. apply register_ok in H1. rewrite Hnone in H1.
  match goal with |- context [Register ?c r1] => destruct (register_fresh c r1) as [r2 H2];
    [vm_compute; reflexivity|intros c'; rewrite H1; by intros [->|?%elem_of_nil]%elem_of_cons|] end.
  rewrite H2. cbn [fst snd]. apply register_ok in H2. rewrite H1 in H2.
  match goal with |- context [Register ?c r2] => destruct (register_fresh c r2) as [r3 H3];
    [vm_compute; reflexivity
    |intros c'; rewrite H2; by intros [->|[->|?%elem_of_nil]%elem_of_cons]%elem_of_cons|] end.
  rewrite H3. by do 2 eexists.
Qed.

(** The HTTP metrics of a service exist once.  If [NewHTTPMetrics] succeeds, its
    three collectors are registered under the label of the service; from then on it
    fails for the same service, whatever else was registered, and leaves the registry
    as it is.  Without a registerer or a service name it fails and registers nothing. *)
Theorem http_metrics_once DefBuckets registerer serviceName st res st1 :
  NewHTTPMetrics DefBuckets registerer serviceName st = (res, st1) ->
  grows st st1 /\
  match res with
  | Ok m =>
      registerer = true /\ serviceName <> "" /\
      Forall (fun c => with_const_label "service" serviceName c ∈ registered st1.2)
        [requestsTotal m; requestDuration m; requestsInFlight m] /\
      forall st2, grows st1 st2 -> exists err st3,
        NewHTTPMetrics DefBuckets true serviceName st2 = (Err err, st3) /\ st3.2 = st2.2
  | Err _ => registerer = false \/ serviceName = "" -> st1 = st
  end.
Proof.
  unfold NewHTTPMetrics at 1. destruct registerer; [|by intros [= <- <-]]. cbn [negb].
  destruct (String.eqb_spec serviceName "") as [->|Hname]; [by intros [= <- <-]|].
  cbn [new_collector]. destruct (register_all _ _ _) as [[err|] st'] eqn:Hr; intros [= <- <-];
    apply register_all_outcome in Hr as [Hg HF].
  - split; [exact Hg|]. by intros [?|?].
  - split; [exact Hg|]. specialize (HF eq_refl). split_and!; [done|done|exact HF|].
    intros st2 Hg2. apply Forall_inv in HF. apply Hg2 in HF.
    unfold NewHTTPMetrics. cbn [negb new_collector register_all].
    rewrite (proj2 (String.eqb_neq _ _) Hname).
    match goal with |- context [register (with_const_label "service" serviceName ?c) ?s] =>
      rewrite (obtains_registered (with_const_label "service" serviceName c) _ s HF eq_refl) end.
    by do 2 eexists.
Qed.

Lemma known_values_valid e :
  known_values e -> match e with
  | Status.ReconciliationsInc o | Status.ReconcileDurationObserve o => ValidString o = true
  | Status.ConditionTransitionsInc t s => ValidString t = true /\ ValidString s = true
  end.
Proof.
  assert (forall (l : list string) v, forallb ValidString l = true -> v ∈ l -> ValidString v = true) as Hl.
  { intros l v Hl Hv. rewrite forallb_forall in Hl. by apply Hl, list_elem_of_In. }
  destruct e as [o|o|t s]; cbn [known_values]; [by apply Hl..|].
  intros [Ht Hs]. split; [revert Ht|revert Hs]; by apply Hl.
Qed.

Lemma ascii_values_valid vs : Telemetry.ascii_values vs -> Forall (fun v => ValidString v = true) vs.
Proof. intros Hvs. eapply Forall_impl; [exact Hvs|]. intros v. apply ValidString_ascii. Qed.

Lemma NewHTTPMetrics_updates DefBuckets serviceName st m st' e u :
  NewHTTPMetrics DefBuckets true serviceName st = (Ok m, st') -> http_update m e = Some u ->
  u.2 = Telemetry.label_values e /\ length u.2 = length (variableLabels (c_desc u.1)) /\
  c_kind u.1 = http_kind DefBuckets e /\
  with_const_label "service" serviceName u.1 ∈ registered st'.2.
Proof.
  unfold NewHTTPMetrics. cbn [negb new_collector]. destruct (String.eqb serviceName ""); [done|].
  destruct (register_all _ _ _) as [[err|] st2] eqn:Hr; [done|]. intros [= <- <-].
  apply register_all_outcome in Hr as [_ HF]. specialize (HF eq_refl).
  apply Forall_cons in HF as [Ht HF]. apply Forall_cons in HF as [Hd HF]. apply Forall_inv in HF.
  destruct e; simpl; by intros [= <-].
Qed.

Lemma operator_updates st m st' e :
  NewManagedServiceMetrics true st = (Ok m, st') -> known_values e ->
  well_labelled (operator_update m e) /\ operator_kind e (c_kind (operator_update m e).1) = true /\
  (operator_update m e).1 ∈ registered st'.2.
Proof.
  intros [_ [(Hin1 & Hd1 & Hk1) (Hin2 & Hd2 & Hk2) (Hin3 & Hd3 & Hk3)]]%NewManagedServiceMetrics_ok
    Hv%known_values_valid. unfold well_labelled.
  destruct e as [o|o|t s]; simpl; rewrite ?Hd1, ?Hd2, ?Hd3; (split; [split; [done|]|done]);
    [by repeat constructor..|]. destruct Hv. by repeat constructor.
Qed.

(** ** What the program reports *)
Section Reported.
Context {V F : Type} `{ReconcilerClientLaws V F} `{ConditionHelpersLaws}.

(** C38: no update of a metric that the program makes can panic.  [WithLabelValues] panics
    unless it gets as many values as the collector has labels, all of them valid UTF-8.
    So it is for every event that the middleware reports, whatever method, path and
    route a request has and whatever the handler does, on the collectors of
    [NewHTTPMetrics]; and for every event that [Reconcile] reports, on those of
    [NewManagedServiceMetrics], fresh or reused, while the API server stores only
    condition statuses that the schema of the CRD admits ([schema_valid]).  And each of
    these collectors is of the type that is updated, and registered. *)
Theorem updates_well_labelled DefBuckets serviceName st1 m1 st1' st2 m2 st2' :
  NewHTTPMetrics DefBuckets true serviceName st1 = (Ok m1, st1') ->
  NewManagedServiceMetrics true st2 = (Ok m2, st2') ->
  (forall (U G : Type) (next : @Telemetry.observed_handler U) options (env : Telemetry.environment G) rq w s e u,
     e ∈ (Telemetry.NewHTTPHandler next options env rq w s).1.2 -> http_update m1 e = Some u ->
     well_labelled u /\ c_kind u.1 = http_kind DefBuckets e /\
     with_const_label "service" serviceName u.1 ∈ registered st1'.2) /\
  (forall clock rc req (v : V) err v' events e,
     schema_valid v -> Reconcile clock rc req v = (err, v', events) -> e ∈ events ->
     well_labelled (operator_update m2 e) /\ operator_kind e (c_kind (operator_update m2 e).1) = true /\
     (operator_update m2 e).1 ∈ registered st2'.2).
Proof.
  intros H1m H2m. split.
  - intros U G next options env rq w s e u He Hu. pose proof (Telemetry.emitted_values next options env rq w s) as Hv.
    rewrite Forall_forall in Hv. specialize (Hv e He).
    destruct (NewHTTPMetrics_updates _ _ _ _ _ _ _ H1m Hu) as (Hvals & Hlen & ? & ?).
    split; [|done]. split; [done|]. rewrite Hvals. by apply ascii_values_valid.
  - intros clock rc req v err v' events e Hsv Hrun He. apply reconcile_known in Hrun; [|done].
    rewrite Forall_forall in Hrun. eapply operator_updates; [exact H2m|by apply Hrun].
Qed.
End Reported.
End Facts.
End Registration.

(** ** A concrete registry *)
Module MemoryRegistry.

#[export] Instance kind_eq_dec : EqDecision collector_kind.
Proof. solve_decision. Defined.
#[export] Instance collector_eq_dec : EqDecision collector.
Proof. solve_decision. Defined.

Fixpoint find_desc (d : desc) (r : list collector) : option collector :=
  match r with
  | [] => None
  | c :: r' => if bool_decide (c_desc c = d) then Some c else find_desc d r'
  end.

(** Descriptors of one name have the same help and label names. *)
Definition consistent (d d' : desc) : bool :=
  negb (String.eqb (fqName d) (fqName d')) ||
  bool_decide (help d = help d' /\ variableLabels d = variableLabels d' /\
               dom (constLabels d) = dom (constLabels d')).

Inductive inconsistent : Type := Inconsistent.

#[global] Instance registerer : Registerer (list collector) inconsistent := {
  Register c r :=
    match find_desc (c_desc c) r with
    | Some existing => (Some (AlreadyRegisteredError existing), r)
    | None =>
        if forallb (fun c' => consistent (c_desc c) (c_desc c')) r then (None, c :: r)
        else (Some (OtherRegisterError Inconsistent), r)
    end;
}.

Definition visible (r : list collector) : list collector :=
  filter (fun c => find_desc (c_desc c) r = Some c) r.

Lemma find_desc_some d r c : find_desc d r = Some c -> c ∈ r /\ c_desc c = d.
Proof.
  induction r as [|c' r IH]; simpl; [done|]. case_bool_decide as Hd.
  - intros [= ->]. split; [by left|done].
  - intros [? ?]%IH. split; [by right|done].
Qed.

Lemma find_desc_none d r c : find_desc d r = None -> c ∈ r -> c_desc c <> d.
Proof.
  induction r as [|c' r IH]; simpl; [by intros _ ?%elem_of_nil|]. case_bool_decide; [done|].
  intros Hn [->|Hin]%elem_of_cons; auto.
Qed.

#[global] Program Instance registerer_laws : RegistererLaws (list collector) inconsistent := {
  registered := visible;
}.
Next Obligation.
  intros c r r' Hr. cbn in Hr. destruct (find_desc (c_desc c) r) eqn:Hf; [done|].
  destruct (forallb _ r); [|done]. injection Hr as <-. unfold visible.
  rewrite filter_cons_True by (simpl; by rewrite bool_decide_eq_true_2). f_equiv.
  rewrite (filter_ext_in _ (fun c' => find_desc (c_desc c') r = Some c')); [done|].
  intros c' Hin. simpl. rewrite bool_decide_eq_false_2; [done|].
  intros Hd. by apply (find_desc_none _ _ c') in Hf.
Qed.
Next Obligation.
  intros c r existing r' Hr. cbn in Hr. destruct (find_desc (c_desc c) r) eqn:Hf;
    [|by destruct (forallb _ r)]. injection Hr as <- <-.
  apply find_desc_some in Hf as Hs. destruct Hs as [Hin Hd]. split_and!; [done| |done].
  apply list_elem_of_filter. split; [|done]. by rewrite Hd.
Qed.
Next Obligation.
  intros c r x r' Hr. cbn in Hr. destruct (find_desc (c_desc c) r); [done|].
  destruct (forallb _ r); [done|]. by injection Hr.
Qed.
Next Obligation.
  intros c existing r Hin Hd. apply list_elem_of_filter in Hin as [Hf _]. cbn. by rewrite <- Hd, Hf.
Qed.
Next Obligation.
  intros c r Hv Hfresh. cbn.
  assert (forall c', c' ∈ r -> fqName (c_desc c') <> fqName (c_desc c)) as Hall.
  { intros c' Hin. destruct (find_desc (c_desc c') r) as [c''|] eqn:Hf;
      [|by apply (find_desc_none _ _ c') in Hf].
    apply find_desc_some in Hf as Hs. destruct Hs as [Hin' Hd]. rewrite <- Hd. apply Hfresh.
    apply list_elem_of_filter. split; [|done]. by rewrite Hd. }
  destruct (find_desc (c_desc c) r) as [c''|] eqn:Hf.
  { apply find_desc_some in Hf as [Hin Hd]. exfalso. apply (Hall _ Hin). by rewrite Hd. }
  assert (forallb (fun c' => consistent (c_desc c) (c_desc c')) r = true) as ->; [|by eexists].
  apply forallb_forall. intros c' Hin%list_elem_of_In. unfold consistent.
  apply Hall in Hin. by destruct (String.eqb_spec (fqName (c_desc c)) (fqName (c_desc c'))).
Qed.
End MemoryRegistry.

(** ** Witnesses *)
Module RegistrationWitnesses.
Import Registration MemoryRegistry.

Definition after_operator : result (registration_error inconsistent) ManagedServiceMetrics * heap :=
  NewManagedServiceMetrics true (0, []).

Definition after_http : result (registration_error inconsistent) HTTPMetrics * heap :=
  NewHTTPMetrics [5; 10]%Z true "control-plane-api" after_operator.2.

Lemma after_operator_ok : exists m, after_operator = (Ok m, after_operator.2).
Proof. eexists. vm_compute. reflexivity. Qed.

Lemma after_http_ok : exists m, after_http = (Ok m, after_http.2).
Proof. eexists. vm_compute. reflexivity. Qed.

Lemma metrics_reused_witness :
  exists m n, after_operator.1 = Ok m /\
    NewManagedServiceMetrics true after_http.2 = (Ok m, (n, after_http.2.2)).
Proof.
  destruct after_operator_ok as [m Hm]. exists m.
  destruct (metrics_reused (0, []) m after_operator.2 after_http.2 Hm) as [n Hn].
  - intros c Hc. vm_compute in Hc |- *. do 3 right. exact Hc.
  - exists n. split; [by rewrite Hm|exact Hn].
Defined.

Lemma http_metrics_once_witness :
  exists err st, NewHTTPMetrics [5; 10]%Z true "control-plane-api" after_http.2 = (Err err, st) /\
    st.2 = after_http.2.2.
Proof.
  destruct after_http_ok as [m Hm].
  destruct (http_metrics_once [5; 10]%Z true "control-plane-api" after_operator.2 (Ok m) after_http.2 Hm)
    as (_ & _ & _ & _ & Hagain).
  apply Hagain. intros c Hc. exact Hc.
Defined.

(** A request with an unusual method on a collector of the API, and the first condition
    transitions of a service on those of the operator. *)
Lemma updates_well_labelled_witness :
  exists m1 m2,
    (forall e u, e ∈ (Telemetry.NewHTTPHandler Telemetry.sample_next Telemetry.sample_options Telemetry.sample_env
        Telemetry.sample_request Http.new_writer 0).1.2 -> http_update m1 e = Some u -> well_labelled u) /\
    Status.ConditionTransitionsInc "Progressing" "true" ∈ demo_run.2 /\
    (forall e, e ∈ demo_run.2 -> well_labelled (operator_update m2 e)).
Proof.
  destruct after_http_ok as [m1 Hm1], after_operator_ok as [m2 Hm2].
  destruct (updates_well_labelled (V:=Workloads.MemoryCluster.cluster) [5; 10]%Z "control-plane-api" after_operator.2
    m1 after_http.2 (0, []) m2 after_operator.2 Hm1 Hm2) as [Hhttp Hop].
  exists m1, m2. split_and!.
  - intros e u He Hu. exact (proj1 (Hhttp _ _ _ _ _ _ _ _ e u He Hu)).
  - apply list_elem_of_In. vm_compute. tauto.
  - intros e He. refine (proj1 (Hop at_seven pinned demo_req demo_cluster None demo_run.1.2 demo_run.2 e _ demo_run_ok He)).
    intros k ms Hms. destruct (decide (k = demo_req)) as [->|Hne].
    + rewrite demo_present in Hms. injection Hms as <-. constructor.
    + change (services_of demo_cluster) with (Memory.view (MemoryCluster.mem_base demo_cluster)) in Hms.
      rewrite Memory.view_lookup in Hms. unfold demo_cluster in Hms.
      cbn [MemoryCluster.mem_base Memory.contents] in Hms.
      rewrite lookup_singleton_ne in Hms by congruence. discriminate Hms.
Defined.
End RegistrationWitnesses.
