(* ===== verification/Operator.v ===== *)
(** * The operator's program (cmd/main.go, SetupWithManager)

    The command line, which package flag parses into the options of the manager,
    the wiring of the reconciler, and the exit codes.  The manager of
    controller-runtime is a parameter with the documented laws the program relies on:
    which objects the watches of a controller turn into requests for it.  The flags
    that the logging and client libraries add to the command line are a parameter
    too; they do not touch the operator's own. *)

From Stdlib Require Import ZArith Lia.
From S2P Require Import Prelude GoStrings ApiTypes Kube Workloads Resources Status Controller Registration.
Import V1alpha1 Resources.

Module Operator.

(** ** The command line *)

Record operator_flags : Type := Flags {
  metricsAddr : string;
  probeAddr : string;
  enableLeaderElection : bool;
  secureMetrics : bool;
  webhookCertPath : string;
  webhookCertName : string;
  webhookCertKey : string;
  metricsCertPath : string;
  metricsCertName : string;
  metricsCertKey : string;
  enableHTTP2 : bool;
  demoHTTPImage : string;
  managedServiceImagePullSecret : string;
}.

(** The defaults of the [flag.StringVar] and [flag.BoolVar] calls. *)
Definition default_flags : operator_flags := {|
  metricsAddr := "0";
  probeAddr := ":8081";
  enableLeaderElection := false;
  secureMetrics := true;
  webhookCertPath := "";
  webhookCertName := "tls.crt";
  webhookCertKey := "tls.key";
  metricsCertPath := "";
  metricsCertName := "tls.crt";
  metricsCertKey := "tls.key";
  enableHTTP2 := false;
  demoHTTPImage := "";
  managedServiceImagePullSecret := "";
|}.

Inductive flag_var : Type :=
| StringVar (set : string -> operator_flags -> operator_flags)
| BoolVar (set : bool -> operator_flags -> operator_flags).

(** [flag.CommandLine], by name. *)
Definition formal (name : string) : option flag_var :=
  if String.eqb name "metrics-bind-address" then
    Some (StringVar (fun v '(Flags _ b c d e f g h i j k l m) => Flags v b c d e f g h i j k l m))
  else if String.eqb name "health-probe-bind-address" then
    Some (StringVar (fun v '(Flags a _ c d e f g h i j k l m) => Flags a v c d e f g h i j k l m))
  else if String.eqb name "leader-elect" then
    Some (BoolVar (fun v '(Flags a b _ d e f g h i j k l m) => Flags a b v d e f g h i j k l m))
  else if String.eqb name "metrics-secure" then
    Some (BoolVar (fun v '(Flags a b c _ e f g h i j k l m) => Flags a b c v e f g h i j k l m))
  else if String.eqb name "webhook-cert-path" then
    Some (StringVar (fun v '(Flags a b c d _ f g h i j k l m) => Flags a b c d v f g h i j k l m))
  else if String.eqb name "webhook-cert-name" then
    Some (StringVar (fun v '(Flags a b c d e _ g h i j k l m) => Flags a b c d e v g h i j k l m))
  else if String.eqb name "webhook-cert-key" then
    Some (StringVar (fun v '(Flags a b c d e f _ h i j k l m) => Flags a b c d e f v h i j k l m))
  else if String.eqb name "metrics-cert-path" then
    Some (StringVar (fun v '(Flags a b c d e f g _ i j k l m) => Flags a b c d e f g v i j k l m))
  else if String.eqb name "metrics-cert-name" then
    Some (StringVar (fun v '(Flags a b c d e f g h _ j k l m) => Flags a b c d e f g h v j k l m))
  else if String.eqb name "metrics-cert-key" then
    Some (StringVar (fun v '(Flags a b c d e f g h i _ k l m) => Flags a b c d e f g h i v k l m))
  else if String.eqb name "enable-http2" then
    Some (BoolVar (fun v '(Flags a b c d e f g h i j _ l m) => Flags a b c d e f g h i j v l m))
  else if String.eqb name "demo-http-image" then
    Some (StringVar (fun v '(Flags a b c d e f g h i j k _ m) => Flags a b c d e f g h i j k v m))
  else if String.eqb name "managed-service-image-pull-secret" then
    Some (StringVar (fun v '(Flags a b c d e f g h i j k l _) => Flags a b c d e f g h i j k l v))
  else None.

(** [strconv.ParseBool] *)
Definition ParseBool (s : string) : option bool :=
  if existsb (String.eqb s) ["1"; "t"; "T"; "true"; "TRUE"; "True"] then Some true
  else if existsb (String.eqb s) ["0"; "f"; "F"; "false"; "FALSE"; "False"] then Some false
  else None.

Inductive parse_error : Type :=
| ErrHelp
| BadSyntax (arg : string)
| NotDefined (name : string)
| InvalidValue (name value : string)
| NeedsArgument (name : string).

(** How an argument is taken apart: the name and the value after an equals sign. *)
Inductive argument : Type :=
| NotAFlag
| Terminator
| Malformed
| Flag (name : string) (value : option string).

Definition split_flag (name : string) : argument :=
  match name with
  | "" => Malformed
  | String c _ =>
      if Ascii.eqb c "-" || Ascii.eqb c "=" then Malformed
      else
        match cut name "=" with
        | Some (n, v) => Flag n (Some v)
        | None => Flag name None
        end
  end.

Definition classify (s : string) : argument :=
  match s with
  | String c (String c2 rest) =>
      if negb (Ascii.eqb c "-") then NotAFlag
      else if Ascii.eqb c2 "-" then
        match rest with "" => Terminator | _ => split_flag rest end
      else split_flag (String c2 rest)
  | _ => NotAFlag
  end.

Section Parse.
(** The flags other libraries define: whether they are boolean, which values they take. *)
Context (other_flags : string -> option (bool * (string -> bool))).

(** [FlagSet.Parse]: the flags and the arguments left over. *)
Fixpoint Parse (f : operator_flags) (args : list string)
    : result parse_error (operator_flags * list string) :=
  match args with
  | [] => Ok (f, [])
  | s :: args' =>
      match classify s with
      | NotAFlag => Ok (f, s :: args')
      | Terminator => Ok (f, args')
      | Malformed => Err (BadSyntax s)
      | Flag name value =>
          match formal name with
          | Some (BoolVar set) =>
              let value := default "true" value in
              match ParseBool value with
              | Some b => Parse (set b f) args'
              | None => Err (InvalidValue name value)
              end
          | Some (StringVar set) =>
              match value, args' with
              | Some v, _ => Parse (set v f) args'
              | None, v :: args'' => Parse (set v f) args''
              | None, [] => Err (NeedsArgument name)
              end
          | None =>
              match other_flags name with
              | Some (true, accepts) =>
                  let value := default "true" value in
                  if accepts value then Parse f args' else Err (InvalidValue name value)
              | Some (false, accepts) =>
                  match value, args' with
                  | Some v, _ => if accepts v then Parse f args' else Err (InvalidValue name v)
                  | None, v :: args'' =>
                      if accepts v then Parse f args'' else Err (InvalidValue name v)
                  | None, [] => Err (NeedsArgument name)
                  end
              | None =>
                  if String.eqb name "help" || String.eqb name "h" then Err ErrHelp
                  else Err (NotDefined name)
              end
          end
      end
  end.
End Parse.

(** ** Options *)

(** Of [tls.Config], the field the program sets. *)
Record tls_config : Type := { NextProtos : list string }.

Definition disableHTTP2 (c : tls_config) : tls_config := {| NextProtos := ["http/1.1"] |}.

Definition tlsOpts (f : operator_flags) : list (tls_config -> tls_config) :=
  if negb (enableHTTP2 f) then [disableHTTP2] else [].

(** What a server makes of its options: they are applied in order. *)
Definition configured (opts : list (tls_config -> tls_config)) (c : tls_config) : tls_config :=
  foldl (fun c opt => opt c) c opts.

Inductive filter_provider : Type := NoFilter | WithAuthenticationAndAuthorization.

Record webhook_options : Type := {
  wh_TLSOpts : list (tls_config -> tls_config);
  wh_CertDir : string;
  wh_CertName : string;
  wh_KeyName : string;
}.

Record metrics_options : Type := {
  ms_BindAddress : string;
  ms_SecureServing : bool;
  ms_TLSOpts : list (tls_config -> tls_config);
  ms_FilterProvider : filter_provider;
  ms_CertDir : string;
  ms_CertName : string;
  ms_KeyName : string;
}.

Definition webhookServerOptions (f : operator_flags) : webhook_options :=
  if (0 <? String.length (webhookCertPath f))%nat then
    {| wh_TLSOpts := tlsOpts f; wh_CertDir := webhookCertPath f; wh_CertName := webhookCertName f;
       wh_KeyName := webhookCertKey f |}
  else {| wh_TLSOpts := tlsOpts f; wh_CertDir := ""; wh_CertName := ""; wh_KeyName := "" |}.

Definition metricsServerOptions (f : operator_flags) : metrics_options :=
  let provider := if secureMetrics f then WithAuthenticationAndAuthorization else NoFilter in
  if (0 <? String.length (metricsCertPath f))%nat then
    {| ms_BindAddress := metricsAddr f; ms_SecureServing := secureMetrics f; ms_TLSOpts := tlsOpts f;
       ms_FilterProvider := provider; ms_CertDir := metricsCertPath f; ms_CertName := metricsCertName f;
       ms_KeyName := metricsCertKey f |}
  else
    {| ms_BindAddress := metricsAddr f; ms_SecureServing := secureMetrics f; ms_TLSOpts := tlsOpts f;
       ms_FilterProvider := provider; ms_CertDir := ""; ms_CertName := ""; ms_KeyName := "" |}.

Record manager_options : Type := {
  mgr_Metrics : metrics_options;
  mgr_WebhookServer : webhook_options;
  mgr_HealthProbeBindAddress : string;
  mgr_LeaderElection : bool;
  mgr_LeaderElectionID : string;
}.

Definition managerOptions (f : operator_flags) : manager_options :=
  {| mgr_Metrics := metricsServerOptions f; mgr_WebhookServer := webhookServerOptions f;
     mgr_HealthProbeBindAddress := probeAddr f; mgr_LeaderElection := enableLeaderElection f;
     mgr_LeaderElectionID := "f3394f2f.eoghanclancy.eu" |}.

(** A controller as [ctrl.NewControllerManagedBy] builds it: the kind it is for, the
    kinds it owns, its name and its reconciler. *)
Record controller : Type := {
  c_For : string;
  c_Owns : list string;
  c_Named : string;
  c_reconciler : ManagedServiceReconciler;
}.

Definition deploymentKind : string := "Deployment".
Definition serviceKind : string := "Service".
Definition API_version : string := Group +:+ "/" +:+ Version.

(** ** The manager of controller-runtime

    [requests m c kind meta]: what controller [c] of the running manager [m] is asked
    to reconcile when an object of the kind with that metadata changes. *)
Class ControllerManager (M X : Type) : Type := {
  NewManager : manager_options -> result X M;
  Complete : controller -> M -> result X M;
  AddHealthzCheck : string -> M -> result X M;
  AddReadyzCheck : string -> M -> result X M;
  Start : M -> option X;
  controllers : M -> list controller;
  requests : M -> controller -> string -> ObjectMeta -> list (string * string);
}.

Class ControllerManagerLaws (M X : Type) `{ControllerManager M X} : Type := {
  complete_ok : forall c m m', Complete c m = Ok m' -> c ∈ controllers m';
  healthz_ok : forall n m m', AddHealthzCheck n m = Ok m' -> controllers m' = controllers m;
  readyz_ok : forall n m m', AddReadyzCheck n m = Ok m' -> controllers m' = controllers m;
  (** [For]: the object itself *)
  watch_for : forall m c meta, c ∈ controllers m -> key meta ∈ requests m c (c_For c) meta;
  (** [Owns]: the owner of the object that is its controller *)
  watch_owned : forall m c k meta o,
    c ∈ controllers m -> k ∈ c_Owns c -> o ∈ OwnerReferences meta -> owner_Controller o = true ->
    owner_Kind o = c_For c -> owner_APIVersion o = API_version ->
    (Namespace meta, owner_Name o) ∈ requests m c k meta;
}.

(** ** The program *)
Section Main.
Context {M X R : Type} `{ControllerManager M X} `{Registerer R X}.
Context (other_flags : string -> option (bool * (string -> bool))).
(** [utilruntime.Must] on the two [AddToScheme] calls of [init]; [GetConfigOrDie]; the
    registry of controller-runtime. *)
Context (clientgo_AddToScheme platform_AddToScheme : option X) (GetConfig : option X).
Context (Registry : Registration.heap (R:=R)).

Definition SetupWithManager (r : ManagedServiceReconciler) (mgr : M) : result X M :=
  Complete {| c_For := Kind; c_Owns := [deploymentKind; serviceKind]; c_Named := "managedservice";
              c_reconciler := r |} mgr.

Definition reconciler (f : operator_flags) : ManagedServiceReconciler :=
  {| DemoHTTPImage := demoHTTPImage f; ImagePullSecretName := managedServiceImagePullSecret f;
     has_Metrics := true |}.

Inductive setup_error : Type :=
| ConfigFailed (err : X)
| ManagerFailed (err : X)
| MetricsFailed (err : Registration.registration_error X)
| ControllerFailed (err : X)
| HealthCheckFailed (err : X)
| ReadyCheckFailed (err : X).

Definition wrap {A F : Type} (f : F -> setup_error) (r : result F A) : result setup_error A :=
  match r with Ok a => Ok a | Err e => Err (f e) end.

(** [main] from the parsed flags to the manager it starts. *)
Definition setup (f : operator_flags) : result setup_error M :=
  match GetConfig with
  | Some err => Err (ConfigFailed err)
  | None =>
      (let? mgr := wrap ManagerFailed (NewManager (managerOptions f)) in
       let? managedServiceMetrics :=
         wrap MetricsFailed (Registration.NewManagedServiceMetrics true Registry).1 in
       let? mgr := wrap ControllerFailed (SetupWithManager (reconciler f) mgr) in
       let? mgr := wrap HealthCheckFailed (AddHealthzCheck "healthz" mgr) in
       wrap ReadyCheckFailed (AddReadyzCheck "readyz" mgr))%go
  end.

(** [init]: the error it panics with. *)
Definition init : option X :=
  match clientgo_AddToScheme with
  | Some err => Some err
  | None => platform_AddToScheme
  end.

(** The exit status; a panic and a bad command line give 2. *)
Definition main (args : list string) : Z :=
  match init with
  | Some _ => 2
  | None =>
      match Parse other_flags default_flags args with
      | Err ErrHelp => 0
      | Err _ => 2
      | Ok (f, _) =>
          match setup f with
          | Err _ => 1
          | Ok mgr => match Start mgr with Some _ => 1 | None => 0 end
          end
      end
  end.
End Main.

(** ** Facts: the command line *)

(** The command line that gives every flag its value. *)
Definition bool_text (b : bool) : string := if b then "true" else "false".

Definition command_line (f : operator_flags) : list string := [
  "--metrics-bind-address=" +:+ metricsAddr f;
  "--health-probe-bind-address=" +:+ probeAddr f;
  "--leader-elect=" +:+ bool_text (enableLeaderElection f);
  "--metrics-secure=" +:+ bool_text (secureMetrics f);
  "--webhook-cert-path=" +:+ webhookCertPath f;
  "--webhook-cert-name=" +:+ webhookCertName f;
  "--webhook-cert-key=" +:+ webhookCertKey f;
  "--metrics-cert-path=" +:+ metricsCertPath f;
  "--metrics-cert-name=" +:+ metricsCertName f;
  "--metrics-cert-key=" +:+ metricsCertKey f;
  "--enable-http2=" +:+ bool_text (enableHTTP2 f);
  "--demo-http-image=" +:+ demoHTTPImage f;
  "--managed-service-image-pull-secret=" +:+ managedServiceImagePullSecret f
].

(** Every configuration can be given on the command line and is read back as it
    was given, values with equals signs and leading dashes included. *)
Theorem flags_roundtrip other_flags f f0 :
  Parse other_flags f0 (command_line f) = Ok (f, []).
Proof. destruct f as [? ? [] [] ? ? ? ? ? ? [] ? ?], f0; reflexivity. Qed.

(** Some argument names the flag. *)
Definition asks (name : string) (args : list string) : bool :=
  existsb (fun a => match classify a with Flag k _ => String.eqb k name | _ => false end) args.

(** Setting the variable leaves a part of the flags alone. *)
Definition leaves {A : Type} (part : operator_flags -> A) (v : flag_var) : Prop :=
  match v with
  | StringVar set => forall x f, part (set x f) = part f
  | BoolVar set => forall x f, part (set x f) = part f
  end.

Lemma asks_cons name a args : asks name (a :: args) = false -> asks name args = false.
Proof. unfold asks. simpl. by intros [_ ?]%orb_false_iff. Qed.

Lemma Parse_leaves {A : Type} (part : operator_flags -> A) name other_flags n : forall f args f' rest,
  length args <= n ->
  (forall k v, formal k = Some v -> k <> name -> leaves part v) -> asks name args = false ->
  Parse other_flags f args = Ok (f', rest) -> part f' = part f.
Proof.
  induction n as [|n IH]; intros f [|s args] f' rest Hlen Hpart Hno; cbn [length Parse] in *; try lia;
    try by intros [= <- <-].
  pose proof (asks_cons _ _ _ Hno) as Hno1.
  destruct (classify s) as [| | |k v] eqn:Hc; try by intros [= <- <-].
  assert (k <> name) as Hk.
  { intros ->. unfold asks in Hno. cbn [existsb] in Hno. by rewrite Hc, String.eqb_refl in Hno. }
  assert (forall f1 args1, length args1 <= n -> asks name args1 = false ->
    Parse other_flags f1 args1 = Ok (f', rest) -> part f' = part f1) as Hgo by (intros; by eapply IH).
  destruct (formal k) as [[set|set]|] eqn:Hf; [pose proof (Hpart _ _ Hf Hk) as Hset..|]; cbn [leaves] in *.
  - destruct v as [v|]; [|destruct args as [|v args]; [done|]];
      intros Hp; apply Hgo in Hp; [rewrite Hp; apply Hset|simpl in *; lia|eauto using asks_cons|
        rewrite Hp; apply Hset|simpl in *; lia|eauto using asks_cons].
  - destruct (ParseBool _); [|done]. intros Hp. apply Hgo in Hp; [rewrite Hp; apply Hset|lia|done].
  - destruct (other_flags k) as [[[] accepts]|]; [| |by destruct (_ || _)].
    + destruct (accepts _); [|done]. by apply Hgo; [lia|].
    + destruct v as [v|]; [|destruct args as [|v args]; [done|]]; (destruct (accepts v); [|done]);
        apply Hgo; first [done | simpl in *; lia | eauto using asks_cons].
Qed.

Ltac other_variables :=
  intros k v; unfold formal;
  repeat (case_bool; [intros [= <-]; first [by intros _ ? [] | by intros []; bools] |]); done.

(** C36: the manager is as closed as its defaults unless the command line says
    otherwise, whatever the other arguments are.  Both servers speak HTTP/1.1 only
    unless an argument names [enable-http2]; the metrics are served over TLS and only
    to authorized clients unless one names [metrics-secure], and not at all unless one
    names [metrics-bind-address]. *)
Theorem closed_unless_asked other_flags args f rest :
  Parse other_flags default_flags args = Ok (f, rest) ->
  let o := managerOptions f in
  (asks "enable-http2" args = false ->
   forall c, NextProtos (configured (ms_TLSOpts (mgr_Metrics o)) c) = ["http/1.1"] /\
             NextProtos (configured (wh_TLSOpts (mgr_WebhookServer o)) c) = ["http/1.1"]) /\
  (asks "metrics-secure" args = false ->
   ms_SecureServing (mgr_Metrics o) = true /\
   ms_FilterProvider (mgr_Metrics o) = WithAuthenticationAndAuthorization) /\
  (asks "metrics-bind-address" args = false -> ms_BindAddress (mgr_Metrics o) = "0").
Proof.
  intros Hp. unfold managerOptions, metricsServerOptions, webhookServerOptions, tlsOpts. cbn. split_and!.
  - intros Hno c. rewrite (Parse_leaves enableHTTP2 _ _ _ _ _ _ _ (Nat.le_refl _) ltac:(other_variables) Hno Hp).
    by repeat case_bool.
  - intros Hno.
    pose proof (Parse_leaves secureMetrics _ _ _ _ _ _ _ (Nat.le_refl _) ltac:(other_variables) Hno Hp) as ->.
    by case_bool.
  - intros Hno.
    pose proof (Parse_leaves metricsAddr _ _ _ _ _ _ _ (Nat.le_refl _) ltac:(other_variables) Hno Hp) as Ha.
    by case_bool.
Qed.

(** ** Facts: the wiring *)
Section Wiring.
Context {M X R : Type} `{ControllerManagerLaws M X} `{Registerer R X}.
Context (GetConfig : option X) (Registry : Registration.heap (R:=R)).

Lemma wrap_ok {A F : Type} (f : F -> setup_error) (r : result F A) a : wrap (X:=X) f r = Ok a -> r = Ok a.
Proof. destruct r; simpl; congruence. Qed.

(** A started manager runs the controller. *)
Lemma setup_ok f mgr :
  setup GetConfig Registry f = Ok mgr ->
  {| c_For := Kind; c_Owns := [deploymentKind; serviceKind]; c_Named := "managedservice";
     c_reconciler := reconciler f |} ∈ controllers mgr.
Proof.
  unfold setup. destruct GetConfig; [done|]. intros Hs.
  apply result_bind_ok in Hs as (m1 & _ & Hs). apply result_bind_ok in Hs as (? & _ & Hs).
  apply result_bind_ok in Hs as (m2 & Hc%wrap_ok & Hs). apply complete_ok in Hc.
  apply result_bind_ok in Hs as (m3 & Hh%wrap_ok%healthz_ok & Hr%wrap_ok%readyz_ok).
  by rewrite Hr, Hh.
Qed.

Context {W E : Type} `{ReconcilerClientLaws W E} `{ConditionHelpersLaws}.

(** C34: the operator repairs what it deployed.  The manager that [main] starts runs a
    controller with the image and the pull secret of the command line; and once that
    controller's reconciler has succeeded for a ManagedService, in a run that started with
    caches that had caught up with the cluster ([caches_synced]), every change of the
    ManagedService, of its Deployment or of its Service asks for it to be reconciled
    again. *)
Theorem owned_changes_requeued f mgr clock req w w' events ms :
  setup GetConfig Registry f = Ok mgr ->
  Controller.caches_synced w -> services_of w !! req = Some ms ->
  Controller.Reconcile clock (reconciler f) req w = (None, w', events) ->
  exists c d s ms',
    c ∈ controllers mgr /\ c_reconciler c = reconciler f /\
    DemoHTTPImage (c_reconciler c) = demoHTTPImage f /\
    ImagePullSecretName (c_reconciler c) = managedServiceImagePullSecret f /\
    deployments w' !! req = Some d /\ req ∈ requests mgr c deploymentKind (d_meta d) /\
    k8s_services w' !! req = Some s /\ req ∈ requests mgr c serviceKind (s_meta s) /\
    services_of w' !! req = Some ms' /\ req ∈ requests mgr c Kind (ms_meta ms').
Proof.
  intros Hsetup Hsync Hms Hrec. apply setup_ok in Hsetup as Hc.
  destruct (Controller.success_state clock _ req w w' events ms Hsync Hms Hrec)
    as (_ & Hk & d & s & ms' & Hd & Hdc & Hs & Hsc & Hm & Hready).
  destruct Hdc as (Hdk & (o & Ho & _ & Hon & Hov & Hok & Hoc) & _).
  destruct Hsc as (Hsk & (o' & Ho' & _ & Hon' & Hov' & Hok' & Hoc') & _).
  destruct Hready as (Hmeta & _). rewrite Hk in Hdk, Hsk.
  assert (forall m n, key m = req -> n = Name (ms_meta ms) -> (Namespace m, n) = req) as Hreq.
  { intros m n Hm' ->. rewrite <- Hm' in Hk |- *. unfold key in *. congruence. }
  eexists _, d, s, ms'. split; [exact Hc|].
  split_and!; [done|done|done|by rewrite Hd, lookup_insert_eq| |by rewrite Hs, lookup_insert_eq|
               |by rewrite Hm, lookup_insert_eq|].
  - rewrite <- (Hreq _ _ Hdk Hon). eapply watch_owned; [exact Hc|by left|done..].
  - rewrite <- (Hreq _ _ Hsk Hon'). eapply watch_owned; [exact Hc|by right; left|done..].
  - rewrite <- Hk, <- Hmeta. exact (watch_for _ _ (ms_meta ms') Hc).
Qed.
End Wiring.

(** ** Witnesses: the arguments of config/manager/manager.yaml *)
Section Witnesses.
Import MemoryRegistry.

Definition manager_args : list string := [
  "--leader-elect";
  "--health-probe-bind-address=:8081";
  "--demo-http-image=" +:+ DemoHTTPImage Controller.pinned;
  "--managed-service-image-pull-secret=ghcr-pull"
].

Definition manager_flags : operator_flags := {|
  metricsAddr := "0"; probeAddr := ":8081"; enableLeaderElection := true; secureMetrics := true;
  webhookCertPath := ""; webhookCertName := "tls.crt"; webhookCertKey := "tls.key";
  metricsCertPath := ""; metricsCertName := "tls.crt"; metricsCertKey := "tls.key";
  enableHTTP2 := false; demoHTTPImage := DemoHTTPImage Controller.pinned;
  managedServiceImagePullSecret := "ghcr-pull" |}.

Lemma closed_unless_asked_witness :
  NextProtos (configured (ms_TLSOpts (mgr_Metrics (managerOptions manager_flags)))
    {| NextProtos := ["h2"] |}) = ["http/1.1"].
Proof.
  destruct (closed_unless_asked (fun _ => None) manager_args manager_flags []) as [Hhttp _].
  - vm_compute. reflexivity.
  - exact (proj1 (Hhttp eq_refl {| NextProtos := ["h2"] |})).
Defined.

(** A manager that keeps its controllers and finds owners as documented. *)
#[local] Instance memory_manager : ControllerManager (list controller) inconsistent := {
  NewManager := fun _ => Ok [];
  Complete := fun c m => Ok (c :: m);
  AddHealthzCheck := fun _ m => Ok m;
  AddReadyzCheck := fun _ m => Ok m;
  Start := fun _ => None;
  controllers := fun m => m;
  requests := fun _ c k meta =>
    (if String.eqb k (c_For c) then [key meta] else []) ++
    (if existsb (String.eqb k) (c_Owns c) then
      (fun o => (Namespace meta, owner_Name o)) <$>
        filter (fun o => owner_Controller o = true /\ owner_Kind o = c_For c /\
                         owner_APIVersion o = API_version) (OwnerReferences meta)
    else []);
}.

Definition manager_run : Z := main (fun _ => None) None None None (0, [] : list collector) manager_args.

Lemma manager_runs : manager_run = 0%Z.
Proof. vm_compute. reflexivity. Qed.

#[local] Program Instance memory_manager_laws : ControllerManagerLaws (list controller) inconsistent.
Next Obligation. intros c m m' [= <-]. by left. Qed.
Next Obligation. by intros n m m' [= ->]. Qed.
Next Obligation. by intros n m m' [= ->]. Qed.
Next Obligation. intros m c meta _. simpl. rewrite String.eqb_refl. by left. Qed.
Next Obligation.
  intros m c k meta o _ Hk Ho Hc Hkind Hv. simpl. apply elem_of_app. right.
  assert (existsb (String.eqb k) (c_Owns c) = true) as ->.
  { apply existsb_exists. exists k. split; [by apply list_elem_of_In|apply String.eqb_refl]. }
  apply (list_elem_of_fmap_2' _ _ o); [|done]. by apply list_elem_of_filter.
Qed.

Definition started : list controller :=
  match setup (X:=inconsistent) None (0, [] : list collector) manager_flags with Ok m => m | Err _ => [] end.

Definition first_run : option (go_error Memory.error) * MemoryCluster.cluster * list Status.event :=
  Controller.Reconcile Controller.at_seven (reconciler manager_flags) Controller.demo_req Controller.demo_cluster.

Lemma first_run_ok : first_run = (None, first_run.1.2, first_run.2).
Proof. apply run_eq. vm_compute. reflexivity. Qed.

Lemma owned_changes_requeued_witness :
  exists c (d : Deployment), c ∈ started /\
    (deployments first_run.1.2 : gmap (string * string) Deployment) !! Controller.demo_req = Some d /\
    Controller.demo_req ∈ requests started c deploymentKind (d_meta d).
Proof.
  destruct (owned_changes_requeued (M:=list controller) (X:=inconsistent) None (0, [] : list collector)
    manager_flags started Controller.at_seven Controller.demo_req Controller.demo_cluster
    first_run.1.2 first_run.2 Controller.demo_service)
    as (c & d & s & ms' & Hc & _ & _ & _ & Hd & Hr & _).
  - vm_compute. reflexivity.
  - apply Controller.demo_synced.
  - exact Controller.demo_present.
  - exact first_run_ok.
  - exists c, d. split; [exact Hc|]. split; [exact Hd|exact Hr].
Defined.
End Witnesses.
End Operator.
