(* ===== verification/Programs.v ===== *)
(** * The two HTTP programs (cmd/control-plane-api/main.go, cmd/demo-http/main.go)

    What each [run] does up to [ServeUntilShutdown]: configuration from the
    environment, then the handler behind the middleware and the metrics server,
    each with its address; then the end of [run]: serving, which is
    [Server.listen_all] and [Server.step], and the shutdown of the tracer.  The
    environment, the file system, the Kubernetes client, OpenTelemetry and the
    Prometheus registry are parameters.  The settings of the servers are kept; what
    net/http does with them is not modelled. *)

From Stdlib Require Import ZArith Lia.
From S2P Require Import Prelude GoStrings Sha256 Http ApiTypes Kube Store ApiHandler.
From S2P Require Import Samples ApiSpec Config DemoHttp Server Tracing Telemetry ApiTelemetry Registration.

Module Programs.
Import Http (Handler, Request, ResponseWriter, rw_sent, response_status, URL_Path, StatusUnauthorized).
Import ApiHandler (isProtectedPath, authenticated, ServeHTTP, NewHandler).
Import Telemetry (HTTPHandlerOptions).

(** What a program serves: the public handler with the options of its middleware,
    and the metrics handler, each with its listener's name and address. *)
Record program (W : Type) : Type := {
  prog_handler : @Handler W;
  prog_options : HTTPHandlerOptions;
  prog_metrics : @Handler W;
  prog_servers : list Server.NamedServer;
  prog_tracing : Tracing.TraceRuntime;
}.
Arguments prog_handler {W}.
Arguments prog_options {W}.
Arguments prog_metrics {W}.
Arguments prog_servers {W}.
Arguments prog_tracing {W}.

(** [fmt.Sprintf(":%d", port)] *)
Definition address (port : Z) : string := String ":" (Itoa port).

(** The public servers of the two programs. *)
Definition maxHeaderBytes : Z := Z.shiftl 16 10.

Definition api_server_settings (port : Z) : Server.http_Server :=
  {| Server.Addr := address port; Server.ReadHeaderTimeout := 5 * Server.Second;
     Server.ReadTimeout := 15 * Server.Second; Server.WriteTimeout := 15 * Server.Second;
     Server.IdleTimeout := 60 * Server.Second; Server.MaxHeaderBytes := maxHeaderBytes |}.

Definition demo_server (port : Z) : Server.http_Server :=
  {| Server.Addr := address port; Server.ReadHeaderTimeout := 5 * Server.Second;
     Server.ReadTimeout := 10 * Server.Second; Server.WriteTimeout := 10 * Server.Second;
     Server.IdleTimeout := 60 * Server.Second; Server.MaxHeaderBytes := maxHeaderBytes |}.

Inductive run_error (E X : Type) : Type :=
| ConfigureToken (err : Config.token_error E)
| ConfigureServer (err : Config.port_error)
| ConfigureMetricsServer (err : Config.port_error)
| RegisterAPI (err : X)
| LoadKubernetesConfiguration (err : X)
| CreateKubernetesClient (err : X)
| ConfigureTracing (err : @Tracing.trace_error X)
| ConfigureHTTPMetrics (err : Registration.registration_error X).
Arguments ConfigureToken {E X} err.
Arguments ConfigureServer {E X} err.
Arguments ConfigureMetricsServer {E X} err.
Arguments RegisterAPI {E X} err.
Arguments LoadKubernetesConfiguration {E X} err.
Arguments CreateKubernetesClient {E X} err.
Arguments ConfigureTracing {E X} err.
Arguments ConfigureHTTPMetrics {E X} err.

(** The error of a stage, under the name the stage gives it. *)
Definition stage {A E F : Type} (wrap : E -> F) (r : result E A) : result F A :=
  match r with Ok a => Ok a | Err e => Err (wrap e) end.

Definition stage_ok {E F : Type} (wrap : E -> F) (err : option E) : result F unit :=
  match err with None => Ok tt | Some e => Err (wrap e) end.

Section Run.
Context {W E X R : Type} `{Registerer R X}.
Context (getenv : string -> string) (redirect : string -> Request -> ResponseWriter -> ResponseWriter).
Context (parse_host : string -> string -> option string) (resource_New exporter_New : string -> option X).
Context (NewRegistry : R) (DefBuckets : list Z) (promhttp_HandlerFor : @Handler W).

(** ** cmd/demo-http *)

Definition demo_options : HTTPHandlerOptions :=
  {| Telemetry.ServiceName := DemoHttp.ServiceName; Telemetry.with_Metrics := true;
     Telemetry.RouteNormalizer := Some DemoHttp.NormalizeRoute |}.

Definition demo_run : result (run_error E X) (program W) :=
  (let? port := stage ConfigureServer (DemoHttp.ParsePort (getenv "PORT")) in
   let? metricsPort := stage ConfigureMetricsServer
     (DemoHttp.ParseMetricsPort (getenv "METRICS_PORT") port) in
   let? httpMetrics := stage ConfigureHTTPMetrics
     (Registration.NewHTTPMetrics DefBuckets true DemoHttp.ServiceName (0, NewRegistry)).1 in
   let traceConfig := Tracing.TraceConfigFromEnvironment getenv in
   let traceConfig := {| Tracing.Endpoint := Tracing.Endpoint traceConfig;
     Tracing.ServiceName := if String.eqb (Tracing.ServiceName traceConfig) ""
       then DemoHttp.ServiceName else Tracing.ServiceName traceConfig |} in
   let? traceRuntime := stage ConfigureTracing
     (Tracing.NewTraceRuntime parse_host resource_New exporter_New traceConfig) in
   Ok {| prog_handler := DemoHttp.NewHandler redirect (getenv "MESSAGE");
         prog_options := demo_options;
         prog_metrics := Server.NewMetricsServer redirect promhttp_HandlerFor;
         prog_servers := [
           {| Server.ns_Name := "public demo"; Server.ns_Server := Some (demo_server port) |};
           {| Server.ns_Name := "internal metrics"; Server.ns_Server := Some (Server.metricsServer (address metricsPort)) |}];
         prog_tracing := traceRuntime |})%go.

(** ** cmd/control-plane-api *)

Context {K S : Type} `{APIErrors S} `{ManagedServiceClient W S} `{NameValidation}.
Context (ReadFile : string -> result E string) (AddToScheme : option X).
Context (GetConfig : result X K) (client_New : K -> option X).

Definition api_run : result (run_error E X) (program W) :=
  (let? token := stage ConfigureToken
     (Config.LoadToken ReadFile (getenv "API_TOKEN_FILE")) in
   let? port := stage ConfigureServer (Config.ParsePort (getenv "PORT")) in
   let? metricsPort := stage ConfigureMetricsServer
     (Config.ParseMetricsPort (getenv "METRICS_PORT") port) in
   let? _ := stage_ok RegisterAPI AddToScheme in
   let? kubernetesConfig := stage LoadKubernetesConfiguration GetConfig in
   let? _ := stage_ok CreateKubernetesClient (client_New kubernetesConfig) in
   let? traceRuntime := stage ConfigureTracing
     (Tracing.NewTraceRuntime parse_host resource_New exporter_New
        (Tracing.TraceConfigFromEnvironment getenv)) in
   let? httpMetrics := stage ConfigureHTTPMetrics
     (Registration.NewHTTPMetrics DefBuckets true ApiTelemetry.serviceName (0, NewRegistry)).1 in
   Ok {| prog_handler := api_server (E:=S) redirect token;
         prog_options := ApiTelemetry.public_options;
         prog_metrics := Server.NewMetricsServer redirect promhttp_HandlerFor;
         prog_servers := [
           {| Server.ns_Name := "public API"; Server.ns_Server := Some (api_server_settings port) |};
           {| Server.ns_Name := "internal metrics"; Server.ns_Server := Some (Server.metricsServer (address metricsPort)) |}];
         prog_tracing := traceRuntime |})%go.
End Run.

(** ** Running *)
Section Exit.
Context {W E X : Type} (net_Listen_error : string -> Server.os -> option X).

(** What [run] joins into its error; [[]] is [nil]. *)
Inductive failure : Type :=
| SetupFailed (err : run_error E X)
| StartupFailed (err : Server.startup_error X)
| ServingFailed (err : Server.lifecycle_error X)
| TracingShutdownFailed (err : X).

(** [traceRuntime.Shutdown]: the no-op runtime has nothing to flush. *)
Inductive tracing_shutdown (t : Tracing.TraceRuntime) : list failure -> Prop :=
| tracing_shut_down : tracing_shutdown t []
| tracing_shutdown_fails err :
    Tracing.Provider t <> Tracing.NoopProvider -> tracing_shutdown t [TracingShutdownFailed err].

Definition names (prog : program W) : list string := Server.ns_Name <$> prog_servers prog.

(** [run]: its error and the state of the servers when it ends, if they started. *)
Inductive runs (setup : result (run_error E X) (program W)) (o : Server.os)
    : list failure -> option (Server.state X) -> Prop :=
| run_unconfigured err :
    setup = Err err -> runs setup o [SetupFailed err] None
| run_unstarted prog err o' t :
    setup = Ok prog -> Server.listen_all net_Listen_error (prog_servers prog) o = (Err err, o') ->
    tracing_shutdown (prog_tracing prog) t ->
    runs setup o (StartupFailed err :: t) None
| run_served prog listeners o' st t :
    setup = Ok prog -> Server.listen_all net_Listen_error (prog_servers prog) o = (Ok listeners, o') ->
    Server.reachable (names prog) st -> Server.st_main st = Server.Finished ->
    tracing_shutdown (prog_tracing prog) t ->
    runs setup o ((ServingFailed <$> Server.st_errors st) ++ t) (Some st).

(** [main] *)
Definition exit_status (errors : list failure) : Z :=
  match errors with [] => 0 | _ => 1 end.

(** ** Properties *)

(** C24: a program that exits with status 0 did its work: it was configured, every
    server of it had a listener of its own, it was told to stop, and by then every
    server had been shut down, had returned without a failure and had closed its
    listener. *)
Theorem clean_exit setup o errors final :
  Server.os_ok o -> runs setup o errors final -> exit_status errors = 0%Z ->
  exists prog listeners o' st,
    setup = Ok prog /\
    Server.listen_all net_Listen_error (prog_servers prog) o = (Ok listeners, o') /\
    length listeners = length (prog_servers prog) /\ NoDup listeners /\
    final = Some st /\ Server.st_cancelled st = true /\
    Server.sv_name <$> Server.st_servers st = names prog /\
    Forall (fun sv => (exists r, Server.sv_routine sv = Server.Returned r /\
                         forall err, r <> Some (Server.ServeError err)) /\
                      Server.sv_shutdown sv = true /\ Server.sv_listening sv = false)
      (Server.st_servers st).
Proof.
  intros Hok Hrun Hexit. destruct Hrun as [err _|prog err o' t _ _ _|prog ls o' st t Hs Hl Hr Hm Ht]; [done..|].
  destruct (Server.st_errors st) as [|e l] eqn:He; [|done].
  destruct (Server.finished_state _ _ Hr Hm) as (_ & _ & Hall & Hfail & Hclean).
  pose proof (Server.listen_all_outcome net_Listen_error (prog_servers prog) o Hok) as Hstart.
  rewrite Hl in Hstart. destruct Hstart as (_ & Hlen & Hnd & _).
  exists prog, ls, o', st. split_and!; [done..|by apply Hclean| |].
  - by apply (Server.inv_names _ _ (Server.reachable_invariant _ _ Hr)).
  - rewrite Forall_forall in *. intros sv Hin. destruct (Hall sv Hin) as (Hret & ? & ?).
    split_and!; [|done|done]. unfold Server.has_returned in Hret.
    destruct (Server.sv_routine sv) as [| |r] eqn:Hrt; [done..|]. exists r. split; [done|].
    intros err ->. apply Hfail in Hrt; [|done]. rewrite He in Hrt. by apply elem_of_nil in Hrt.
Qed.
End Exit.
Arguments failure : clear implicits.
Arguments exit_status {E X} errors.
(** ** What the programs start *)
Section Started.
Context {W E X R : Type} `{RegistererLaws R X}.
Context (getenv : string -> string) (redirect : string -> Request -> ResponseWriter -> ResponseWriter).
Context (parse_host : string -> string -> option string) (resource_New exporter_New : string -> option X).
Context (NewRegistry : R) (DefBuckets : list Z) (promhttp_HandlerFor : @Handler W).
Context (registry_empty : registered NewRegistry = []).

Lemma stage_is_ok {A F G : Type} (wrap : F -> G) (r : result F A) a :
  stage wrap r = Ok a <-> r = Ok a.
Proof. destruct r; simpl; split; congruence. Qed.

Lemma stage_ok_is_ok {F G : Type} (wrap : F -> G) (err : option F) u :
  stage_ok wrap err = Ok u <-> err = None.
Proof. destruct err, u; simpl; split; congruence. Qed.

Lemma http_metrics_registered serviceName :
  serviceName <> "" ->
  exists m, (Registration.NewHTTPMetrics DefBuckets true serviceName (0, NewRegistry)).1 = Ok m.
Proof.
  intros Hn. destruct (Registration.NewHTTPMetrics_fresh DefBuckets serviceName (0, NewRegistry) Hn
    registry_empty) as (m & st & ->). by exists m.
Qed.

(** In a pod that sets the metrics port and leaves tracing off. *)
Lemma demo_run_in_pod name :
  getenv "PORT" = "" -> getenv "METRICS_PORT" = "9090" ->
  getenv "OTEL_EXPORTER_OTLP_TRACES_ENDPOINT" = "" -> getenv "OTEL_SERVICE_NAME" = name ->
  demo_run (E:=E) getenv redirect parse_host resource_New exporter_New NewRegistry DefBuckets
    promhttp_HandlerFor =
  Ok {| prog_handler := DemoHttp.NewHandler redirect (getenv "MESSAGE"); prog_options := demo_options;
        prog_metrics := Server.NewMetricsServer redirect promhttp_HandlerFor;
        prog_servers := [
          {| Server.ns_Name := "public demo"; Server.ns_Server := Some (demo_server 8080) |};
          {| Server.ns_Name := "internal metrics"; Server.ns_Server := Some (Server.metricsServer ":9090") |}];
        prog_tracing := {| Tracing.Provider := Tracing.NoopProvider; Tracing.Enabled := false |} |}.
Proof.
  intros Hp Hm He Hn. unfold demo_run. rewrite Hp, Hm.
  destruct (http_metrics_registered DemoHttp.ServiceName) as [m ->]; [discriminate|].
  unfold Tracing.TraceConfigFromEnvironment. rewrite He. reflexivity.
Qed.

Context {K S : Type} `{APIErrors S} `{ManagedServiceClient W S} `{NameValidation}.
Context (ReadFile : string -> result E string) (AddToScheme : option X).
Context (GetConfig : result X K) (client_New : K -> option X).

Abbreviation run := (api_run (S:=S) getenv redirect parse_host resource_New exporter_New NewRegistry DefBuckets
  promhttp_HandlerFor ReadFile AddToScheme GetConfig client_New).

Lemma api_run_ok prog :
  run = Ok prog <->
  exists token port metricsPort k tracing,
    Config.LoadToken ReadFile (getenv "API_TOKEN_FILE") = Ok token /\
    Config.ParsePort (getenv "PORT") = Ok port /\
    Config.ParseMetricsPort (getenv "METRICS_PORT") port = Ok metricsPort /\
    AddToScheme = None /\ GetConfig = Ok k /\ client_New k = None /\
    Tracing.NewTraceRuntime parse_host resource_New exporter_New
      (Tracing.TraceConfigFromEnvironment getenv) = Ok tracing /\
    prog = {| prog_handler := api_server (E:=S) redirect token; prog_options := ApiTelemetry.public_options;
              prog_metrics := Server.NewMetricsServer redirect promhttp_HandlerFor;
              prog_servers := [
                {| Server.ns_Name := "public API"; Server.ns_Server := Some (api_server_settings port) |};
                {| Server.ns_Name := "internal metrics"; Server.ns_Server := Some (Server.metricsServer (address metricsPort)) |}];
              prog_tracing := tracing |}.
Proof.
  unfold run, api_run. destruct (http_metrics_registered ApiTelemetry.serviceName) as [m ->]; [discriminate|].
  rewrite result_bind_ok. split.
  - intros (token & Ht%stage_is_ok & Hr).
    apply result_bind_ok in Hr as (port & Hp%stage_is_ok & Hr).
    apply result_bind_ok in Hr as (metricsPort & Hm%stage_is_ok & Hr).
    apply result_bind_ok in Hr as (? & Hs%stage_ok_is_ok & Hr).
    apply result_bind_ok in Hr as (k & Hk%stage_is_ok & Hr).
    apply result_bind_ok in Hr as (? & Hc%stage_ok_is_ok & Hr).
    apply result_bind_ok in Hr as (tracing & Htr%stage_is_ok & [= <-]). by do 5 eexists.
  - intros (token & port & metricsPort & k & tracing & Ht & Hp & Hm & Hs & Hk & Hc & Htr & ->).
    exists token. rewrite stage_is_ok. split; [done|].
    by rewrite Hp; simpl; rewrite Hm; simpl; rewrite Hs, Hk; simpl; rewrite Hc; simpl; rewrite Htr.
Qed.

Lemma run_is_ok :
  is_ok run = true <->
  is_ok (Config.LoadToken ReadFile (getenv "API_TOKEN_FILE")) = true /\
  is_ok (Config.ports (getenv "PORT") (getenv "METRICS_PORT")) = true /\
  AddToScheme = None /\ (exists k, GetConfig = Ok k /\ client_New k = None) /\
  is_ok (Tracing.NewTraceRuntime parse_host resource_New exporter_New
    (Tracing.TraceConfigFromEnvironment getenv)) = true.
Proof.
  rewrite !is_ok_true. setoid_rewrite api_run_ok. unfold Config.ports. split.
  - intros (prog & token & p & m & k & tracing & ? & Hp & Hm & ? & ? & ? & ? & _).
    split_and!; [by eexists| |done|by exists k|by eexists].
    exists (p, m). by rewrite Hp; simpl; rewrite Hm.
  - intros ([token ?] & [pm Hports] & ? & (k & ? & ?) & [tracing ?]).
    apply result_bind_ok in Hports as (p & Hp & Hports). apply result_bind_ok in Hports as (m & Hm & _).
    by do 6 eexists.
Qed.

(** Named servers with a configuration start unless the system refuses a listener. *)
Lemma listen_all_refused (net_Listen_error : string -> Server.os -> option X) servers o err :
  servers <> [] -> Forall (fun spec => Server.ns_Name spec <> "" /\ is_Some (Server.ns_Server spec)) servers ->
  (Server.listen_all net_Listen_error servers o).1 = Err err ->
  exists name e, err = Server.ListenFailed name e.
Proof.
  intros Hne HF. unfold Server.listen_all. destruct servers as [|spec0 servers0]; [done|].
  generalize (@nil nat). revert o HF. generalize (spec0 :: servers0). clear.
  induction l as [|spec l IH]; intros o HF ls; simpl; [done|].
  apply Forall_cons in HF as [[Hname [server Haddr]] HF]. rewrite (proj2 (String.eqb_neq _ _) Hname), Haddr.
  destruct (Server.net_Listen net_Listen_error (Server.Addr server) o) as [[x|e] o'].
  - by apply IH.
  - intros [= <-]. by do 2 eexists.
Qed.

(** C15: what the control-plane API serves once it is configured.  It starts exactly
    when the token file, the two ports, the scheme, the Kubernetes configuration and
    client, and the tracing settings are in order.  Then it serves on two distinct
    ports in the range, with limits on the headers and on every phase of a connection;
    the only way left for its listeners not to open is the operating system's; and the
    handler refuses every protected request without the token of the file, which has at
    least 32 bytes. *)
Theorem api_started :
  (is_ok run = true <->
     is_ok (Config.LoadToken ReadFile (getenv "API_TOKEN_FILE")) = true /\
     is_ok (Config.ports (getenv "PORT") (getenv "METRICS_PORT")) = true /\
     AddToScheme = None /\ (exists k, GetConfig = Ok k /\ client_New k = None) /\
     is_ok (Tracing.NewTraceRuntime parse_host resource_New exporter_New
       (Tracing.TraceConfigFromEnvironment getenv)) = true) /\
  forall prog, run = Ok prog ->
    (exists port metricsPort,
       prog_servers prog = [
         {| Server.ns_Name := "public API"; Server.ns_Server := Some (api_server_settings port) |};
         {| Server.ns_Name := "internal metrics"; Server.ns_Server := Some (Server.metricsServer (address metricsPort)) |}] /\
       (1 <= port <= 65535)%Z /\ (1 <= metricsPort <= 65535)%Z /\ port <> metricsPort) /\
    Forall (fun spec => exists server, Server.ns_Server spec = Some server /\ Server.bounded server)
      (prog_servers prog) /\
    (forall net_Listen_error (o : Server.os) (err : Server.startup_error X),
       (Server.listen_all net_Listen_error (prog_servers prog) o).1 = Err err ->
       exists name e, err = Server.ListenFailed name e) /\
    (exists token ending, ReadFile (getenv "API_TOKEN_FILE") = Ok (token +:+ ending) /\
       ending ∈ [""; String LF ""; CRLF] /\ 32 <= String.length token /\
       forall r w s, rw_sent w = None -> isProtectedPath (URL_Path r) = true ->
         authenticated (Sha256.Sum256 token) r = false ->
         let '(w', s') := prog_handler prog r w s in
         response_status w' = StatusUnauthorized /\ s' = s).
Proof.
  split; [exact run_is_ok|].
  intros prog (token & p & m & k & tracing & Ht & Hp & Hm & _ & _ & _ & _ & ->)%api_run_ok. split_and!.
  - exists p, m. destruct (Config.ParsePort_ok _ _ Hp), (Config.ParseMetricsPort_ok _ _ _ Hm) as (? & ? & _).
    done.
  - repeat constructor; eexists; (split; [reflexivity|]); done.
  - intros net o err. apply listen_all_refused; [done|].
    repeat constructor; [discriminate|by eexists|discriminate|by eexists].
  - apply Config.LoadToken_ok in Ht as (_ & Hlen & _ & _ & ending & Hread & He).
    exists token, ending. split_and!; [done| |done|].
    { rewrite !elem_of_cons. tauto. }
    intros r w s Hw Hprot Ha.
    pose proof (protected_refused redirect (NewHandler token (Some store_Ready)) r w s Hw Ha Hprot) as Href.
    cbn [prog_handler]. unfold api_server. destruct (ServeHTTP _ _ r w s) as [w' s'].
    by destruct Href as (? & _ & ?).
Qed.
End Started.
(** ** Witnesses *)
Section Witnesses.
Import MemoryRegistry Memory.

Definition pod_env : string -> string := fun name =>
  if String.eqb name "API_TOKEN_FILE" then "/var/run/secrets/token" else "".

Definition token_file : string -> result unit string := fun path =>
  if String.eqb path "/var/run/secrets/token" then Ok (Config.passphrase +:+ String LF "") else Err tt.

Definition example_api : result (run_error unit inconsistent) (program cluster) :=
  api_run (S:=error) (K:=unit) pod_env Samples.redirect (fun _ h => Some h) (fun _ => None) (fun _ => None) []
    [5; 10]%Z (fun _ w s => (w, s)) token_file None (Ok tt) (fun _ => None).

Lemma example_api_started : is_ok example_api = true.
Proof. vm_compute. reflexivity. Qed.

Lemma api_started_witness :
  exists prog, example_api = Ok prog /\
  (forall net_Listen_error (o : Server.os) (err : Server.startup_error inconsistent),
     (Server.listen_all net_Listen_error (prog_servers prog) o).1 = Err err ->
     exists name e, err = Server.ListenFailed name e).
Proof.
  destruct (proj1 (is_ok_true _) example_api_started) as [prog Hprog]. exists prog. split; [exact Hprog|].
  pose proof (api_started (E:=unit) (S:=error) (K:=unit) pod_env Samples.redirect (fun _ h => Some h)
    (fun _ => None) (fun _ => None) ([] : list collector) [5; 10]%Z (fun _ w (s : cluster) => (w, s))
    eq_refl token_file None (Ok tt) (fun _ => None)) as [_ Hstarted].
  exact (proj1 (proj2 (proj2 (Hstarted prog Hprog)))).
Defined.

Lemma clean_exit_witness :
  exists st : Server.state inconsistent,
    runs (fun _ _ => None) example_api {| Server.os_open := ∅; Server.os_next := 0 |} [] (Some st) /\
    Server.st_cancelled st = true.
Proof.
  set (o := {| Server.os_open := ∅; Server.os_next := 0 |}).
  destruct (proj1 (is_ok_true _) example_api_started) as [prog Hprog].
  destruct (@Server.graceful_run inconsistent) as (st & Hrun & Hm & _ & He).
  assert (exists port metricsPort tracing,
    names prog = Server.names_example /\ prog_tracing prog = tracing /\
    Server.listen_all (fun _ _ => None) (prog_servers prog) o =
    Server.listen_all (fun _ _ => @None inconsistent)
      [{| Server.ns_Name := "public API"; Server.ns_Server := Some port |};
       {| Server.ns_Name := "internal metrics"; Server.ns_Server := Some metricsPort |}] o)
    as (port & metricsPort & tracing & Hnames & Htr & Hlisten).
  { pose proof (api_run_ok (E:=unit) (S:=error) (K:=unit) pod_env Samples.redirect (fun _ h => Some h)
      (fun _ => None) (fun _ => None) ([] : list collector) [5; 10]%Z (fun _ w (s : cluster) => (w, s))
      eq_refl token_file None (Ok tt) (fun _ => None)) as Hok.
    apply Hok in Hprog as (token & p & m & k & tracing & _ & _ & _ & _ & _ & _ & _ & ->).
    exists (api_server_settings p), (Server.metricsServer (address m)), tracing. done. }
  assert (runs (fun _ _ => None) example_api o ((ServingFailed <$> Server.st_errors st) ++ []) (Some st))
    as Hruns.
  { eapply run_served; [exact Hprog|exact Hlisten| |exact Hm|constructor].
    rewrite Hnames. by eapply rtc_nsteps_2. }
  rewrite He in Hruns. exists st. split; [exact Hruns|].
  destruct (clean_exit (fun _ _ => None) example_api o [] (Some st)) as (_ & _ & _ & st' & _ & _ & _ & _ & [= <-] & Hc & _).
  - intros l Hl. simpl in Hl. by apply elem_of_empty in Hl.
  - exact Hruns.
  - reflexivity.
  - exact Hc.
Defined.
End Witnesses.
End Programs.
