(* ===== verification/System.v ===== *)
(** * The system end to end

    The control-plane API, the operator and the deployed program together.  One
    world holds the objects of the cluster; the API server's client and the
    reconciler's client are two views of it.  What starts the container of a pod is
    a parameter. *)

From Stdlib Require Import ZArith Lia.
From S2P Require Import Prelude GoStrings Sha256 Json Http ApiTypes Kube Store ApiHandler Samples.
From S2P Require Import ApiSpec ApiRoutes DemoHttp Server Tracing Workloads Resources Status Controller Interference.
From S2P Require Import Registration Programs.
Import V1alpha1 Resources.
Import Http (Handler, Request, ResponseWriter, new_writer, rw_sent, response_status, well_formed,
  Method, URL_Path, URL_EscapedPath, MethodGet, StatusOK, StatusCreated).

#[local] Opaque Sha256.Sum256.

(** ** Interfaces between the parts *)

(** The two clients are clients of one cluster. *)
Class OneCluster (W E : Type) `{ManagedServiceClientLaws W E, !ReconcilerClient W E,
    !ReconcilerClientLaws W E} : Prop := {
  one_cluster : forall w : W, services_of w = objects w;
}.

(** The environment of the process a container runs: what the container sets, the
    image for the rest.  Kubernetes expands references in values, which start with
    a dollar sign. *)
Class ContainerRuntime : Type := {
  image_env : string -> string -> string;
  process_env : Container -> string -> string;
  env_verbatim : forall c n v,
    {| env_Name := n; env_Value := v |} ∈ c_Env c -> NoDup (env_Name <$> c_Env c) ->
    contains_byte v "$" = false -> process_env c n = v;
  env_unset : forall c n,
    n ∉ (env_Name <$> c_Env c) -> process_env c n = image_env (c_Image c) n;
}.

Module System.

(** A plain GET of a path. *)
Definition get_of (path : string) (r : Request) : Prop :=
  Method r = MethodGet /\ URL_Path r = path /\ URL_EscapedPath r = path.

(** A handler that answers a GET of the path with 200 and the given body. *)
Definition serves {V : Type} (h : @Handler V) (path : string) (body : Json.json) : Prop :=
  forall r w s, get_of path r -> h r w s = (DemoHttp.writeJSON StatusOK body w, s).

Section EndToEnd.
Context {W E : Type} `{OneCluster W E} `{ConditionHelpersLaws} `{NameValidation} `{ContainerRuntime}.
Context (redirect : string -> Request -> ResponseWriter -> ResponseWriter) (token : string).
Context (redirect_3xx : forall p r w, rw_sent w = None ->
  (300 <= response_status (redirect p r w) < 400)%Z).
Context (clock : string -> Z) (r : ManagedServiceReconciler).

(** The world of the deployed program. *)
Context {V X R : Type} `{RegistererLaws R X}.
Context (parse_host : string -> string -> option string) (resource_New exporter_New : string -> option X).
Context (NewRegistry : R) (DefBuckets : list Z) (promhttp_HandlerFor : @Handler V).
Context (registry_empty : registered NewRegistry = []).

(** cmd/demo-http in a container. *)
Definition demo_in (c : Container) : result (Programs.run_error unit X) (Programs.program V) :=
  Programs.demo_run (process_env c) redirect parse_host resource_New exporter_New NewRegistry DefBuckets
    promhttp_HandlerFor.

(** The image was built from images/demo-http: it sets neither variable. *)
Definition plain_image (image : string) : Prop :=
  image_env image "PORT" = "" /\ image_env image "OTEL_EXPORTER_OTLP_TRACES_ENDPOINT" = "".

Lemma container_env_names ms :
  env_Name <$> c_Env (managedServiceContainer r ms) = ["MESSAGE"; "METRICS_PORT"; "OTEL_SERVICE_NAME"].
Proof. done. Qed.

Lemma container_env ms n v :
  {| env_Name := n; env_Value := v |} ∈ c_Env (managedServiceContainer r ms) ->
  contains_byte v "$" = false -> process_env (managedServiceContainer r ms) n = v.
Proof.
  intros Hin. apply env_verbatim; [done|]. rewrite container_env_names.
  refine (bool_decide_eq_true_1 _ _). vm_compute. reflexivity.
Qed.

Lemma container_unset ms n :
  n <> "MESSAGE" -> n <> "METRICS_PORT" -> n <> "OTEL_SERVICE_NAME" ->
  process_env (managedServiceContainer r ms) n = image_env (DemoHTTPImage r) n.
Proof.
  intros ? ? ?. apply env_unset. rewrite container_env_names.
  rewrite !not_elem_of_cons. split_and!; try done. by intros ?%elem_of_nil.
Qed.

(** The deployed program starts, on the ports the pod declares. *)
Lemma demo_in_starts ms :
  plain_image (DemoHTTPImage r) ->
  exists prog, demo_in (managedServiceContainer r ms) = Ok prog /\
    (fun spec => Server.Addr <$> Server.ns_Server spec) <$> Programs.prog_servers prog =
      [Some ":8080"; Some ":9090"] /\
    Programs.prog_handler prog =
      DemoHttp.NewHandler redirect (process_env (managedServiceContainer r ms) "MESSAGE").
Proof.
  intros [Hport Hotel]. unfold demo_in.
  rewrite (Programs.demo_run_in_pod _ _ _ _ _ _ _ _ registry_empty "demo-http").
  - eexists. split; [done|]. done.
  - by rewrite container_unset.
  - apply container_env; [|done]. right; left.
  - by rewrite container_unset.
  - apply container_env; [|done]. right; right; left.
Qed.

Lemma demo_serves prog message path :
  Programs.prog_handler prog = DemoHttp.NewHandler (W:=V) redirect message -> path ∈ DemoHttp.routes ->
  serves (Programs.prog_handler prog) path (DemoHttp.answer message path).
Proof.
  intros -> Hin req w s (Hm & Hp & He). rewrite DemoHttp.served_read; rewrite ?He; try done.
  - rewrite Hp. by repeat (apply elem_of_cons in Hin as [->|Hin]; [discriminate|]); apply elem_of_nil in Hin.
  - by rewrite Hm.
Qed.

(** C6: a created service runs and can be read back.  After a POST answered 201 and
    one successful reconciliation of the new name, whose caches had caught up with the
    creation ([caches_synced]) and whose image sets neither PORT nor
    OTEL_EXPORTER_OTLP_TRACES_ENDPOINT ([plain_image]), the cluster holds a Deployment
    with the requested replicas and one container, of the configured image; the
    program it runs starts, on the ports the pod declares; both probes get 200 on
    the port they name; a GET of its root gets the requested message, or the default
    one, unless the message has a dollar sign, which Kubernetes may expand; the
    Service sends port 80 to the pods of the Deployment, on the same port; and the
    API, while its store is available, shows the service with the Deployment's ready replicas and the Service's
    address. *)
Theorem requested_service_runs rc w0 answer w1 w2 events :
  well_formed rc -> api_server redirect token rc new_writer w0 = (answer, w1) ->
  response_status answer = StatusCreated -> Controller.caches_synced w1 -> plain_image (DemoHTTPImage r) ->
  let req := (ApiHandler.decodeCreateRequest rc).1 in
  let name := ApiHandler.req_Name req in
  let message := ApiHandler.req_Message req in
  Controller.Reconcile clock r (ApplicationsNamespace, name) w1 = (None, w2, events) ->
  exists d pod c prog s,
    (deployments w2 !! (ApplicationsNamespace, name) = Some d /\
     d_Replicas d = Some (default defaultReplicas (ApiHandler.req_Replicas req)) /\
     d_PodSpec d = Some pod /\ pod_Containers pod = [c] /\ c_Image c = DemoHTTPImage r) /\
    (demo_in c = Ok prog /\
     (fun spec => Server.Addr <$> Server.ns_Server spec) <$> Programs.prog_servers prog =
      [Some ":8080"; Some ":9090"] /\
     Forall (fun p => resolve_port pod (probe_Port p) = Some 8080%Z /\
       exists body, serves (Programs.prog_handler prog) (probe_Path p) body)
       [c_LivenessProbe c; c_ReadinessProbe c] /\
     (contains_byte message "$" = false ->
      serves (Programs.prog_handler prog) "/" (DemoHttp.json_of_root
        {| DemoHttp.root_Service := "demo-http";
           DemoHttp.root_Message := if String.eqb message "" then DemoHttp.DefaultMessage else message |}))) /\
    (k8s_services w2 !! (ApplicationsNamespace, name) = Some s /\
     s_Selector s ⊆ d_TemplateLabels d /\
     exists p, p ∈ s_Ports s /\ sp_Port p = 80%Z /\ resolve_port pod (sp_TargetPort p) = Some 8080%Z) /\
    forall rg, store_available w2 -> item_request token MethodGet name rg ->
      exists o, (api_server redirect token rg new_writer w2).1 =
          ApiHandler.writeJSON StatusOK
            (ApiHandler.json_of_response (ApiHandler.newManagedServiceResponse o)) new_writer /\
        Spec o = requested_spec (default defaultReplicas (ApiHandler.req_Replicas req)) message /\
        ReadyReplicas (Status o) = d_ReadyReplicas d /\ Endpoint (Status o) = Status.service_endpoint o.
Proof.
  intros Hwf Hpost H201 Hsync Hplain req name message Hrec.
  destruct (created_stored redirect token rc new_writer w0 answer w1 redirect_3xx Hwf eq_refl Hpost H201)
    as (o & Ho & Hl & Hspec & Hadm & _). fold req name message in Ho, Hl, Hspec.
  destruct (Controller.success_state clock r (ApplicationsNamespace, name) w1 w2 events o Hsync)
    as (_ & Hk & d & s & o' & Hd & Hdc & Hs & Hsc & Hms & Hready); [|exact Hrec|].
  { rewrite one_cluster. by rewrite <- applications_lookup. }
  destruct Hdc as (_ & _ & _ & Hrep & _ & Htl & Hpod & _).
  destruct Hsc as (_ & _ & _ & _ & Hsel & Hports & _).
  destruct (demo_in_starts o Hplain) as (prog & Hprog & Haddr & Hhandler).
  exists d, (managedServicePodSpec r o), (managedServiceContainer r o), prog, s. split_and!.
  - by rewrite Hd, lookup_insert_eq.
  - rewrite Hrep. unfold desiredReplicas. by rewrite Hspec.
  - done.
  - done.
  - done.
  - done.
  - done.
  - repeat constructor; eexists; eapply demo_serves; try exact Hhandler; by repeat constructor.
  - intros Hplainm. eapply demo_serves in Hhandler; [|by left]. unfold DemoHttp.answer in Hhandler.
    rewrite (container_env o "MESSAGE" message) in Hhandler; [exact Hhandler| |done].
    cbn [c_Env managedServiceContainer]. rewrite Hspec. left.
  - by rewrite Hs, lookup_insert_eq.
  - rewrite Hsel, Htl. apply selector_pod_labels.
  - rewrite Hports. eexists. split; [left|]. done.
  - intros rg Hav Hg. destruct (get_served redirect token name rg new_writer w2 Hav Hl Hg) as [-> _].
    exists o'. destruct Hready as (Hmeta & Hspec' & _ & Hrr & Hep & _).
    cbn [services controller_runtime_store_spec]. rewrite applications_lookup, <- one_cluster, Hms, lookup_insert_eq.
    split_and!; [done|congruence|done|]. rewrite Hep. unfold Status.service_endpoint. by rewrite Hmeta.
Qed.

(** The API server admits what the operator makes for the service stored at [req]: the
    Deployment and the Service it fills in from its spec, and the status it computes from
    the Deployment that was stored. *)
Record makings_admitted `{!ReconcilerClientLive W E} (w : W) (ms : ManagedService) : Prop := {
  deployment_admitted : forall d,
    mutateDeployment (W:=W) r ms (new_deployment (Name (ms_meta ms)) (Namespace (ms_meta ms))) = Ok d ->
    admits_deployment None d;
  service_admitted : forall s,
    mutateService (W:=W) ms (new_service (Name (ms_meta ms)) (Namespace (ms_meta ms))) = Ok s ->
    admits_service None s;
  status_admitted : forall d w', reconcileDeployment r ms w = (Ok d, w') ->
    admits_status (Status.ready_status clock ms d);
}.

Definition created_admitted `{!ReconcilerClientLive W E} (req : string * string) (w : W) : Prop :=
  forall ms, services_of w !! req = Some ms -> makings_admitted w ms.

(** What the operator creates for a new service. *)
Lemma new_deployment_mutated `{!ReconcilerClientLive W E} ms :
  exists d, mutateDeployment (W:=W) r ms (new_deployment (Name (ms_meta ms)) (Namespace (ms_meta ms))) = Ok d /\
    Interference.deployment_matches r ms d.
Proof.
  destruct (live_reference (W:=W) (ms_meta ms)) as [refs Hrefs].
  assert (exists d, mutateDeployment (W:=W) r ms (new_deployment (Name (ms_meta ms)) (Namespace (ms_meta ms))) = Ok d)
    as [d Hd] by (unfold mutateDeployment; simpl; rewrite Hrefs; by eexists).
  exists d. split; [exact Hd|]. eapply (Interference.current_matches (W:=W)).
  by eapply (mutated_deployment_current (W:=W) r ms _ d d); [|exact Hd|].
Qed.

Lemma new_service_mutated `{!ReconcilerClientLive W E} ms :
  exists s, mutateService (W:=W) ms (new_service (Name (ms_meta ms)) (Namespace (ms_meta ms))) = Ok s /\
    Interference.service_matches ms s.
Proof.
  destruct (live_reference (W:=W) (ms_meta ms)) as [refs Hrefs].
  assert (exists s, mutateService (W:=W) ms (new_service (Name (ms_meta ms)) (Namespace (ms_meta ms))) = Ok s)
    as [s Hs] by (unfold mutateService; simpl; rewrite Hrefs; by eexists).
  exists s. split; [exact Hs|]. eapply (Interference.service_current_matches (W:=W)).
  by eapply (mutated_service_current (W:=W) ms _ s s); [|exact Hs|].
Qed.

(** C8: a created service converges.  After a POST answered 201 in a cluster without a
    Deployment or a Service of the name, with a pinned image, an API server that can
    be written to and admits the Deployment, the Service and the status that the operator
    makes for the created service, and caches that have caught up with the creation
    ([caches_synced]), one reconciliation returns [nil], and then the cluster holds a
    Deployment and a Service as the spec of the created service asks, with the replicas
    of the request, and the status is for the created generation. *)
Theorem created_service_converges `{!ReconcilerClientLive W E} rc w0 answer w1 :
  well_formed rc -> api_server redirect token rc new_writer w0 = (answer, w1) ->
  response_status answer = StatusCreated ->
  let sent := (ApiHandler.decodeCreateRequest rc).1 in
  let req := (ApplicationsNamespace, ApiHandler.req_Name sent) in
  writable w1 -> Controller.caches_synced w1 -> validateImmutableImage (E:=E) (DemoHTTPImage r) = None ->
  deployments w1 !! req = None -> k8s_services w1 !! req = None ->
  created_admitted req w1 ->
  exists ms w2 events, services_of w1 !! req = Some ms /\
    Spec ms = requested_spec (default defaultReplicas (ApiHandler.req_Replicas sent)) (ApiHandler.req_Message sent) /\
    Controller.Reconcile clock r req w1 = (None, w2, events) /\
    exists d s ms', deployments w2 = <[req := d]> (deployments w1) /\
      Interference.deployment_matches r ms d /\
      d_Replicas d = Some (default defaultReplicas (ApiHandler.req_Replicas sent)) /\
      k8s_services w2 = <[req := s]> (k8s_services w1) /\ Interference.service_matches ms s /\
      services_of w2 = <[req := ms']> (services_of w1) /\
      ObservedGeneration (Status ms') = Generation (ms_meta ms).
Proof.
  intros Hwf Hpost H201 sent req Hw Hsync Himg Hd Hs Hadm.
  destruct (created_stored redirect token rc new_writer w0 answer w1 redirect_3xx Hwf eq_refl Hpost H201)
    as (ms & Hms & _ & Hspec & _). fold sent in Hms, Hspec. cbn [services controller_runtime_store_spec] in Hms.
  rewrite applications_lookup, <- one_cluster in Hms. fold req in Hms.
  assert (key (ms_meta ms) = req) as Hk by (rewrite one_cluster in Hms; by apply objects_key in Hms).
  assert (key (named_meta (Name (ms_meta ms)) (Namespace (ms_meta ms))) = req) as Hnew by exact Hk.
  destruct (Hadm ms Hms) as [Had Has Hst].
  assert (Controller.ready_to_reconcile clock r req w1 ms) as Hready.
  { split; [done|done|done|done| | |done].
    - cbv zeta. rewrite Hd. cbn [default]. split; [done|].
      destruct (new_deployment_mutated ms) as (d & Hmut & _). exists d. split; [done|by apply Had].
    - cbv zeta. rewrite Hs. cbn [default]. split; [done|].
      destruct (new_service_mutated ms) as (s & Hmut & _). exists s. split; [done|by apply Has]. }
  destruct (Controller.reconcile_live clock r req w1 ms Hready) as (w2 & events & Hrun).
  exists ms, w2, events. do 3 (split; [done|]).
  destruct (Controller.success_state clock r req w1 w2 events ms Hsync Hms Hrun)
    as (_ & _ & d & s & ms' & Hd2 & Hdc & Hs2 & Hsc & Hm2 & (_ & _ & Hog & _)).
  assert (d_Replicas d = Some (default defaultReplicas (ApiHandler.req_Replicas sent))) as Hrep.
  { destruct Hdc as (_ & _ & _ & -> & _). unfold desiredReplicas. by rewrite Hspec. }
  exists d, s, ms'. split_and!; [done|by eapply (Interference.current_matches (W:=W))|done|done| |done|done].
  by eapply (Interference.service_current_matches (W:=W)).
Qed.
End EndToEnd.
(** ** Witness: the sample create request, reconciled *)

#[export] Program Instance memory_cluster : OneCluster MemoryCluster.cluster Memory.error.
Next Obligation. done. Qed.

(** A runtime that refuses to expand: values with references are lost. *)
#[local] Program Instance plain_runtime : ContainerRuntime := {
  image_env := fun _ _ => "";
  process_env := fun c n =>
    match find (fun v => String.eqb (env_Name v) n) (c_Env c) with
    | Some v => if contains_byte (env_Value v) "$" then "" else env_Value v
    | None => ""
    end;
}.
Next Obligation.
  intros c n v Hin Hnd Hv. cbv beta.
  destruct (find _ (c_Env c)) as [v'|] eqn:Hf.
  - apply find_some in Hf as [Hin' Hn%String.eqb_eq]. apply list_elem_of_In in Hin'.
    pose proof (key_inj_of_NoDup env_Name (c_Env c) v' _ Hnd Hin' Hin Hn) as ->. simpl. by rewrite Hv.
  - apply list_elem_of_In in Hin. apply (List.find_none _ _ Hf) in Hin. simpl in Hin.
    by rewrite String.eqb_refl in Hin.
Qed.
Next Obligation.
  intros c n Hn. cbv beta. destruct (find _ (c_Env c)) as [v|] eqn:Hf; [|done].
  apply find_some in Hf as [Hin He%String.eqb_eq]. destruct Hn. apply list_elem_of_In in Hin.
  rewrite <- He. by apply list_elem_of_fmap_2.
Qed.

Lemma no_collectors : registered (R:=list collector) (X:=MemoryRegistry.inconsistent) [] = [].
Proof. reflexivity. Qed.

Definition posted : ResponseWriter * MemoryCluster.cluster :=
  api_server Samples.redirect Samples.token Samples.create_demo new_writer Controller.empty_cluster.

Definition reconciled : option (go_error Memory.error) * MemoryCluster.cluster * list Status.event :=
  Controller.Reconcile Controller.at_seven Controller.pinned ("applications", "demo") posted.2.

Lemma reconciled_ok : reconciled = (None, reconciled.1.2, reconciled.2).
Proof. apply run_eq. vm_compute. reflexivity. Qed.

Lemma requested_service_runs_witness :
  exists d (prog : Programs.program unit),
    deployments reconciled.1.2 !! ("applications", "demo") = Some d /\ d_Replicas d = Some 2%Z /\
    serves (Programs.prog_handler prog) "/" (DemoHttp.json_of_root
      {| DemoHttp.root_Service := "demo-http"; DemoHttp.root_Message := "Hello from a ManagedService" |}).
Proof.
  destruct (requested_service_runs (V:=unit) (X:=MemoryRegistry.inconsistent) Samples.redirect Samples.token Samples.redirect_3xx
    Controller.at_seven Controller.pinned (fun _ h => Some h) (fun _ => None) (fun _ => None)
    ([] : list collector) [5; 10]%Z (fun _ w s => (w, s)) no_collectors
    Samples.create_demo Controller.empty_cluster posted.1 posted.2 reconciled.1.2 reconciled.2)
    as (d & pod & c & prog & s & (Hd & Hrep & _) & (_ & _ & _ & Hroot) & _).
  - split; [reflexivity|]. right; right. reflexivity.
  - unfold posted. by destruct (api_server _ _ _ _ _).
  - vm_compute. reflexivity.
  - apply Controller.demo_synced.
  - split; reflexivity.
  - exact reconciled_ok.
  - exists d, prog. split; [exact Hd|]. split; [exact Hrep|]. apply Hroot. reflexivity.
Defined.
Lemma created_service_converges_witness :
  exists ms w2 events, services_of posted.2 !! ("applications", "demo") = Some ms /\
    Controller.Reconcile Controller.at_seven Controller.pinned ("applications", "demo") posted.2 =
      (None, w2, events) /\
    is_Some (deployments w2 !! ("applications", "demo")).
Proof.
  destruct (created_service_converges Samples.redirect Samples.token Samples.redirect_3xx Controller.at_seven
    Controller.pinned Samples.create_demo Controller.empty_cluster posted.1 posted.2)
    as (ms & w2 & events & Hms & _ & Hrun & d & _ & _ & Hd & _).
  - split; [reflexivity|]. right; right. reflexivity.
  - unfold posted. by destruct (api_server _ _ _ _ _).
  - vm_compute. reflexivity.
  - exact I.
  - apply Controller.demo_synced.
  - reflexivity.
  - vm_compute. reflexivity.
  - vm_compute. reflexivity.
  - intros ms _. by split.
  - exists ms, w2, events. split; [exact Hms|]. split; [exact Hrun|].
    rewrite Hd. replace ("applications", "demo") with (ApplicationsNamespace,
      ApiHandler.req_Name (ApiHandler.decodeCreateRequest Samples.create_demo).1) by (vm_compute; reflexivity).
    rewrite lookup_insert_eq. by eexists.
Defined.
End System.
