(* ===== verification/Platform.v ===== *)
(** * The API as one of the operator's other writers

    [Interference] shows the operator correct among writers that keep to
    [others_step].  Here the control-plane API is shown to be such a writer: its
    requests, at any moment and in any number, may run between the calls of a
    reconciliation, except the deletion of the service itself. *)

From Stdlib Require Import ZArith Lia.
From S2P Require Import Prelude GoStrings Sha256 Json Http ApiTypes Kube Store ApiHandler Samples.
From S2P Require Import ApiSpec ApiRoutes ApiConcurrent Workloads Resources Status Controller Interference Settled System.
Import V1alpha1 ApiHandler Interference Settled.
Import Http (Request, ResponseWriter, new_writer, rw_sent, response_status, well_formed, Method, URL_Path,
  MethodDelete).

#[local] Opaque Sha256.Sum256.

(** The API's client touches ManagedServices only, and an object that is created is of
    a first generation, which is positive. *)
Class ManagedOnly (W E : Type) `{OneCluster W E} : Prop := {
  create_others : forall o w res w', client_Create o w = (res, w') ->
    deployments w' = deployments w /\ k8s_services w' = k8s_services w;
  list_others : forall ns limit w res w', client_List ns limit w = (res, w') ->
    deployments w' = deployments w /\ k8s_services w' = k8s_services w;
  get_others : forall k w res w', client_Get k w = (res, w') ->
    deployments w' = deployments w /\ k8s_services w' = k8s_services w;
  delete_others : forall k w res w', client_Delete k w = (res, w') ->
    deployments w' = deployments w /\ k8s_services w' = k8s_services w;
  created_generation : forall o w res w' o', client_Create o w = (res, w') ->
    objects w !! key (ms_meta o) = None -> objects w' !! key (ms_meta o) = Some o' ->
    (0 < Generation (ms_meta o'))%Z;
}.

Module Platform.
Section Requests.
Context {W E : Type} `{ManagedOnly W E} `{NameValidation}.
Context (redirect : string -> Request -> ResponseWriter -> ResponseWriter) (token : string).
Context (redirect_3xx : forall p r w, rw_sent w = None ->
  (300 <= response_status (redirect p r w) < 400)%Z).

(** What appears in a step has a positive generation. *)
Definition positive_new (w w' : W) : Prop :=
  forall k o, objects w !! k = None -> objects w' !! k = Some o -> (0 < Generation (ms_meta o))%Z.

Lemma positive_new_eq (w w' : W) : objects w' = objects w -> positive_new w w'.
Proof. intros Heq k o. rewrite Heq. congruence. Qed.

Lemma create_positive o w res w' : client_Create o w = (res, w') -> positive_new w w'.
Proof.
  intros Hc k o' Hk Ho'. destruct (decide (k = key (ms_meta o))) as [->|Hne];
    [by eapply created_generation|].
  assert (objects w' !! k = objects w !! k) as Heq; [|congruence].
  destruct res as [o1|e].
  - apply create_ok in Hc as (_ & _ & ->). by rewrite lookup_insert_ne.
  - apply create_err in Hc as [[-> _]|(_ & o1 & _ & _ & ->)]; [done|by rewrite lookup_insert_ne].
Qed.

Lemma delete_positive k w res w' : client_Delete k w = (res, w') -> positive_new w w'.
Proof.
  intros Hc. assert (objects w' = objects w \/ deletion k (objects w) (objects w')) as [Heq|(o & Ho & Hm)].
  { destruct res as [e|]; [apply delete_err in Hc as [[? _]|[_ ?]]; auto|apply delete_ok in Hc; auto]. }
  - by apply positive_new_eq.
  - intros k' o' Hk' Ho'. destruct (decide (k' = k)) as [->|Hne]; [congruence|].
    destruct Hm as [Hm|(o1 & _ & Hm)]; rewrite Hm in Ho';
      [rewrite lookup_delete_ne in Ho' by done|rewrite lookup_insert_ne in Ho' by done]; congruence.
Qed.

(** One call of the store changes nothing but ManagedServices. *)
Lemma call_frame c (w : W) :
  let w' := (ApiConcurrent.run_call c w).2 in
  deployments w' = deployments w /\ k8s_services w' = k8s_services w /\ positive_new w w'.
Proof.
  destruct c as [|n m msg| |n|n|]; cbn [ApiConcurrent.run_call]; [by split_and!; [..|apply positive_new_eq]|..].
  - cbn [store_Create ControllerRuntimeStore.NewControllerRuntimeStore]. unfold ControllerRuntimeStore.Create.
    destruct (client_Create _ w) as [res w'] eqn:Hc.
    pose proof (create_others _ _ _ _ Hc) as [? ?]. apply create_positive in Hc. by destruct res.
  - cbn [store_List ControllerRuntimeStore.NewControllerRuntimeStore]. unfold ControllerRuntimeStore.List.
    destruct (client_List _ _ w) as [res w'] eqn:Hc.
    pose proof (list_others _ _ _ _ _ Hc) as [? ?]. apply list_frame, positive_new_eq in Hc. by destruct res.
  - cbn [store_Get ControllerRuntimeStore.NewControllerRuntimeStore]. unfold ControllerRuntimeStore.Get.
    destruct (client_Get _ w) as [res w'] eqn:Hc.
    pose proof (get_others _ _ _ _ Hc) as [? ?]. apply get_frame, positive_new_eq in Hc. by destruct res.
  - cbn [store_Delete ControllerRuntimeStore.NewControllerRuntimeStore]. unfold ControllerRuntimeStore.Delete.
    destruct (client_Delete _ w) as [res w'] eqn:Hc.
    pose proof (delete_others _ _ _ _ Hc) as [? ?]. by apply delete_positive in Hc.
  - cbn [store_Ready ControllerRuntimeStore.NewControllerRuntimeStore]. unfold ControllerRuntimeStore.Ready.
    destruct (client_List _ _ w) as [res w'] eqn:Hc.
    pose proof (list_others _ _ _ _ _ Hc) as [? ?]. apply list_frame, positive_new_eq in Hc. by destruct res.
Qed.

Lemma request_frame r w answer w' :
  api_server redirect token r new_writer w = (answer, w') ->
  deployments w' = deployments w /\ k8s_services w' = k8s_services w /\ positive_new w w'.
Proof.
  destruct (ApiConcurrent.server_atomic redirect token r) as (c & k & Hc). rewrite (Hc new_writer w).
  intros [= _ <-]. apply call_frame.
Qed.

(** A request other than the DELETE of [n] leaves the service [n] as it is, or creates
    it. *)
Lemma request_keeps r w answer w' n :
  well_formed r -> api_server redirect token r new_writer w = (answer, w') ->
  Method r <> MethodDelete \/ URL_Path r <> managedServicesRoute +:+ String "/" n ->
  services_of w' !! (ApplicationsNamespace, n) = services_of w !! (ApplicationsNamespace, n) \/
  services_of w !! (ApplicationsNamespace, n) = None /\
    exists o, services_of w' !! (ApplicationsNamespace, n) = Some o /\ Status o = zero_status.
Proof.
  intros Hwf Hserve Hnot. apply (request_effect_steps redirect redirect_3xx) in Hserve as He; [|done..].
  assert (forall v : W, services_of v !! (ApplicationsNamespace, n) = services v !! n) as Hlook.
  { intros v. rewrite one_cluster. cbn [services controller_runtime_store_spec]. by rewrite applications_lookup. }
  rewrite !Hlook. clear Hlook. revert He. generalize (services w) (services w'). intros m0 m0' He.
  destruct He as [w1 _ _|req o w1 _ _ _ _ Hfree _ _ _ Hst _|n' m' w1 Hdel Hp _ (o & Ho & Hm) _].
  - by left.
  - destruct (decide (req_Name req = n)) as [<-|Hne].
    + right. split; [done|]. exists o. by rewrite lookup_insert_eq.
    + left. by rewrite lookup_insert_ne.
  - left. assert (n' <> n) as Hne by (intros ->; destruct Hnot; congruence).
    destruct Hm as [Hm|(o' & _ & Hm)]; rewrite Hm; [by rewrite lookup_delete_ne|by rewrite lookup_insert_ne].
Qed.

Lemma request_unedited r w answer w' n :
  well_formed r -> api_server redirect token r new_writer w = (answer, w') ->
  Method r <> MethodDelete \/ URL_Path r <> managedServicesRoute +:+ String "/" n ->
  unedited (ApplicationsNamespace, n) w w'.
Proof.
  intros Hwf Hserve Hnot. pose proof (request_frame _ _ _ _ Hserve) as (Hd & Hs & Hpos).
  pose proof (request_keeps _ _ _ _ n Hwf Hserve Hnot) as Hn.
  split; [split|..]; [| |rewrite Hd; reflexivity|rewrite Hs; reflexivity|..].
  - intros o Ho. exists o. split; [|reflexivity]. destruct Hn as [->|[? _]]; [done|congruence].
  - intros Hnone ms Hms. destruct Hn as [Hn|(_ & o & Ho & Hst)]; [congruence|].
    replace o with ms in * by congruence. rewrite Hst. cbn. rewrite one_cluster in Hnone, Hms. by eapply Hpos.
  - intros ms ms' Hms Hms'. destruct Hn as [Hn|[? _]]; congruence.
  - intros Hnone ms Hms. destruct Hn as [Hn|(_ & o & Ho & Hst)]; congruence.
Qed.

(** C9: the API is a writer the operator can live with.  Every request, whatever its
    answer, other than the DELETE of the service itself, leaves all Deployments and
    Services, and the stored object of that service, exactly as they are, or creates the
    service, without a status and with a positive generation.  So it is one of the steps
    [others_step] that [status_never_overclaims] allows between any two calls of the
    operator. *)
Theorem requests_tolerated r w answer w' n :
  well_formed r -> api_server redirect token r new_writer w = (answer, w') ->
  Method r <> MethodDelete \/ URL_Path r <> managedServicesRoute +:+ String "/" n ->
  let req := (ApplicationsNamespace, n) in
  deployments w' = deployments w /\ k8s_services w' = k8s_services w /\
  (services_of w' !! req = services_of w !! req \/
   services_of w !! req = None /\ exists o, services_of w' !! req = Some o /\
     Status o = zero_status /\ (0 < Generation (ms_meta o))%Z) /\
  others_step req w w'.
Proof.
  intros Hwf Hserve Hnot req. destruct (request_frame _ _ _ _ Hserve) as (Hd & Hs & Hpos).
  split_and!; [done|done| |by eapply unedited_step, request_unedited].
  destruct (request_keeps _ _ _ _ n Hwf Hserve Hnot) as [?|(Hnone & o & Ho & Hst)]; [by left|right].
  split; [done|]. exists o. split_and!; [done|done|]. rewrite one_cluster in Hnone, Ho. by eapply Hpos.
Qed.
End Requests.

(** ** The platform *)
Section Running.
Context {W E : Type} `{ManagedOnly W E} `{NameValidation} `{ConditionHelpersLaws}.
Context (redirect : string -> Request -> ResponseWriter -> ResponseWriter) (token : string).
Context (redirect_3xx : forall p r w, rw_sent w = None ->
  (300 <= response_status (redirect p r w) < 400)%Z).
Context (r : Resources.ManagedServiceReconciler) (n : string).

#[local] Abbreviation req := (ApplicationsNamespace, n).

(** The platform at work around the service [n]: requests to the API; steps of other
    writers, which change no spec of [n]; anything that leaves no service [n], like its
    deletion and what the garbage collector does then; and reconciliations, complete or
    stopped.  Requests, but the DELETE of [n], and the steps of others may also run
    between the calls of a reconciliation, each of which is made when the caches have
    caught up with them.  A DELETE that leaves the service behind, for the finalizers of
    others, is not covered. *)
Inductive platform_step : W -> W -> Prop :=
| platform_request rq w answer w' :
    well_formed rq -> api_server redirect token rq new_writer w = (answer, w') ->
    Method rq <> MethodDelete \/ URL_Path rq <> managedServicesRoute +:+ String "/" n \/
      services_of w' !! req = None ->
    platform_step w w'
| platform_gone w w' : services_of w' !! req = None -> platform_step w w'
| platform_others w w' : unedited req w w' -> platform_step w w'
| platform_reconcile clock others cut lost w err w' events :
    (forall k v, unedited req v (others k v)) -> (forall k v, Controller.caches_synced (others k v)) ->
    Reconcile_among others cut lost clock r req w = (err, w', events) -> platform_step w w'.

Lemma platform_keeps w w' :
  platform_step w w' -> honest r req w /\ settled req w -> honest r req w' /\ settled req w'.
Proof.
  intros Hstep [Hh Hs].
  assert (unedited req w w' -> honest r req w' /\ settled req w') as Hun.
  { intros Hu. split; [by eapply honest_others, Hh; apply Hu|by eapply settled_unedited]. }
  assert (services_of w' !! req = None -> honest r req w' /\ settled req w') as Hgone
    by (intros Hnone; split; intros ms Hms; congruence).
  destruct Hstep as [rq w answer w' Hwf Hserve Hnot|w w' Hnone|w w' Hu
    |clock others cut lost w err w' events Ho Hc Hr].
  - destruct Hnot as [Hnot|[Hnot|Hnone]]; [| |by apply Hgone];
      apply Hun; eapply (request_unedited redirect token redirect_3xx); eauto.
  - by apply Hgone.
  - by apply Hun.
  - assert (forall k v, others_step req v (others k v)) as Hos by (intros k v; apply Ho).
    split; [exact (reconcile_keeps clock r req others cut lost Hos Hc w err w' events Hh Hr)|].
    exact (reconcile_settles clock r req others cut lost Ho Hc w err w' events Hs Hr).
Qed.

(** The response shows conditions of the type, all with the status. *)
Definition shows (resp : managedServiceResponse) (t status : string) : Prop :=
  t ∈ (rc_Type <$> resp_Conditions resp) /\
  forall c, c ∈ resp_Conditions resp -> rc_Type c = t -> rc_Status c = status.

Lemma shows_condition o t status :
  shows (newManagedServiceResponse o) t status ->
  exists c, FindStatusCondition (Conditions (Status o)) t = Some c /\ cond_Status c = status.
Proof.
  intros [Hin Hall]. unfold newManagedServiceResponse in *. cbn [resp_Conditions] in *.
  destruct (FindStatusCondition (Conditions (Status o)) t) as [c|] eqn:Hf.
  - exists c. split; [done|]. apply find_type in Hf as [Hc Ht].
    apply (Hall (newManagedServiceCondition c)); [|done]. apply sort_by_elem_of. by apply list_elem_of_fmap_2.
  - apply find_none in Hf. destruct Hf. apply list_elem_of_fmap in Hin as (rc & -> & Hrc).
    apply sort_by_elem_of, list_elem_of_fmap in Hrc as (c & -> & Hc). by apply (list_elem_of_fmap_2 cond_Type) in Hc.
Qed.

(** C7: with caches that have caught up, what the API answers is so.  From before a service
    is created, at any moment between requests, reconciliations and the steps of others:
    a GET answered 200 shows the service as it is stored; if it shows a status that is not
    degraded, the cluster holds the Deployment and the Service of the spec it shows; and
    if it shows the service as available, it shows at least as many ready replicas as
    desired ones.  Conditions: no spec is edited except by deleting the service and
    creating it again; a DELETE of it runs between reconciliations, not within one, and
    removes it (no finalizers); every call of a reconciliation is made when its caches have
    caught up with what was done before it ([caches_synced]); and others keep to
    [unedited]: they do not write its status, and of its Deployment and Service only
    what the operator does not manage. *)
Theorem api_never_overclaims w0 w rg answer w' :
  services_of w0 !! req = None -> rtc platform_step w0 w ->
  store_available w -> dns1123_label n = true -> item_request token Http.MethodGet n rg ->
  api_server redirect token rg new_writer w = (answer, w') -> response_status answer = Http.StatusOK ->
  exists o, services_of w !! req = Some o /\
    let resp := newManagedServiceResponse o in
    answer = writeJSON Http.StatusOK (json_of_response resp) new_writer /\
    (resp_ObservedGeneration resp <> 0%Z -> shows resp ManagedServiceConditionDegraded ConditionFalse ->
     (exists d, deployments w !! req = Some d /\ deployment_matches r o d /\ d_Replicas d = Some (resp_Replicas resp)) /\
     (exists s, k8s_services w !! req = Some s /\ service_matches o s)) /\
    (shows resp ManagedServiceConditionAvailable ConditionTrue ->
     (resp_Replicas resp <= resp_ReadyReplicas resp)%Z).
Proof.
  intros Hnone Hrun Hav Hl Hget Hserve H200.
  assert (honest r req w /\ settled req w) as [Hh Hs].
  { assert (honest r req w0 /\ settled req w0) as H0w by (split; intros ms Hms; congruence).
    clear Hnone Hav Hget Hserve. induction Hrun as [|w1 w2 w3 Hstep _ IH]; [done|].
    by eapply IH, platform_keeps. }
  destruct (get_served redirect token n rg new_writer w Hav Hl Hget) as [Hans _]. rewrite Hserve in Hans.
  cbn [fst services controller_runtime_store_spec] in Hans. rewrite applications_lookup, <- one_cluster in Hans.
  destruct (services_of w !! req) as [o|] eqn:Ho; [|rewrite Hans in H200; by vm_compute in H200].
  exists o. split; [done|]. cbv zeta. split; [done|].
  destruct (Hs o Ho) as [Hog Hready]. split.
  - intros Hobs Hdeg%shows_condition. cbn [resp_ObservedGeneration newManagedServiceResponse] in Hobs.
    destruct (Hh o Ho) as [_ Hclaim]. destruct Hclaim as [(d & Hd & Hm) Hexp]; [split; [tauto|exact Hdeg]|].
    split; [|exact Hexp]. exists d. split; [done|]. split; [done|]. apply Hm.
  - intros Havail%shows_condition. exact (Hready Havail).
Qed.
End Running.

(** ** Witness: the sample create request, seen by the operator *)
Import System Controller.

Lemma on_base_frame {A : Type} (f : Memory.cluster -> A * Memory.cluster) w a w' :
  MemoryCluster.on_base f w = (a, w') ->
  MemoryCluster.mem_deployments w' = MemoryCluster.mem_deployments w /\
  MemoryCluster.mem_services w' = MemoryCluster.mem_services w.
Proof. unfold MemoryCluster.on_base. destruct (f _). by intros [= _ <-]. Qed.

#[local] Program Instance memory_managed_only : ManagedOnly MemoryCluster.cluster Memory.error.
Next Obligation. intros o w res w' Hc. exact (on_base_frame _ _ _ _ Hc). Qed.
Next Obligation. intros ns limit w res w' Hc. exact (on_base_frame _ _ _ _ Hc). Qed.
Next Obligation. intros k w res w' Hc. exact (on_base_frame _ _ _ _ Hc). Qed.
Next Obligation. intros k w res w' Hc. exact (on_base_frame _ _ _ _ Hc). Qed.
Next Obligation.
  intros o w res w' o' Hc%MemoryCluster.on_base_inv Hk Ho'. cbn in Hk, Ho', Hc.
  unfold Memory.through in Hc.
  assert (MemoryCluster.mem_base w' = (Memory.do_create o (MemoryCluster.mem_base w)).2 \/
    MemoryCluster.mem_base w' = MemoryCluster.mem_base w) as [Hb|Hb].
  { destruct (Memory.network _); [left; by rewrite Hc|right; by injection Hc|left; by injection Hc]. }
  2: by rewrite Hb, Hk in Ho'.
  rewrite Hb in Ho'.
  destruct (Memory.do_create o (MemoryCluster.mem_base w)) as [[o1|e] b] eqn:Hd; cbn [snd] in Ho'.
  2: by apply Memory.do_create_err in Hd as [-> _]; rewrite Hk in Ho'.
  unfold Memory.do_create in Hd. destruct (Memory.admitted _) as [sp|]; [|done].
  destruct (Memory.contents _ !! _); [done|]. injection Hd as _ <-.
  rewrite Memory.view_insert, lookup_insert_eq in Ho'. injection Ho' as <-. cbn. lia.
Qed.

Lemma requests_tolerated_witness :
  let served := api_server (W:=MemoryCluster.cluster) Samples.redirect Samples.token Samples.create_demo new_writer
    empty_cluster in
  response_status served.1 = Http.StatusCreated /\
  exists o, services_of served.2 !! ("applications", "demo") = Some o /\ Status o = zero_status /\
    (0 < Generation (ms_meta o))%Z.
Proof.
  cbv zeta. split; [vm_compute; reflexivity|].
  destruct (requests_tolerated Samples.redirect Samples.token Samples.redirect_3xx Samples.create_demo
    empty_cluster (api_server Samples.redirect Samples.token Samples.create_demo new_writer empty_cluster).1
    (api_server Samples.redirect Samples.token Samples.create_demo new_writer empty_cluster).2 "demo")
    as (_ & _ & Ho & _).
  - split; [reflexivity|]. right; right. reflexivity.
  - apply surjective_pairing.
  - left. discriminate.
  - destruct Ho as [Ho|[_ Ho]]; [vm_compute in Ho; discriminate Ho|exact Ho].
Defined.
(** Created through the API and reconciled; deleted through the API, and what it left
    collected; created and reconciled again, and read through the API. *)
Definition created (w : MemoryCluster.cluster) : MemoryCluster.cluster :=
  (api_server Samples.redirect Samples.token Samples.create_demo new_writer w).2.

Definition reconciled (w : MemoryCluster.cluster)
    : option (go_error Memory.error) * MemoryCluster.cluster * list Status.event :=
  Reconcile_among quiet 100 Memory.Unavailable at_seven pinned ("applications", "demo") w.

Definition deleted (w : MemoryCluster.cluster) : MemoryCluster.cluster :=
  (api_server Samples.redirect Samples.token Samples.delete_demo new_writer w).2.

Definition collected (w : MemoryCluster.cluster) : MemoryCluster.cluster :=
  {| MemoryCluster.mem_base := MemoryCluster.mem_base w; MemoryCluster.mem_deployments := ∅;
     MemoryCluster.mem_services := ∅ |}.

Definition first_life : MemoryCluster.cluster := (reconciled (created empty_cluster)).1.2.

Definition between_lives : MemoryCluster.cluster := collected (deleted first_life).

Definition second_life : MemoryCluster.cluster := (reconciled (created between_lives)).1.2.

Definition answered : ResponseWriter * MemoryCluster.cluster :=
  api_server Samples.redirect Samples.token Samples.get_demo new_writer second_life.

Lemma reconciled_step w :
  reconciled w = (None, (reconciled w).1.2, (reconciled w).2) ->
  platform_step Samples.redirect Samples.token pinned "demo" w (reconciled w).1.2.
Proof.
  intros Hrun.
  refine (platform_reconcile Samples.redirect Samples.token pinned "demo" at_seven quiet 100 Memory.Unavailable
    _ _ _ _ _ (fun _ w => demo_synced w) Hrun).
  intros k v. unfold quiet. split; [reflexivity|congruence|congruence].
Qed.

Lemma created_step w : platform_step Samples.redirect Samples.token pinned "demo" w (created w).
Proof.
  apply (platform_request Samples.redirect Samples.token pinned "demo" Samples.create_demo w
    (api_server Samples.redirect Samples.token Samples.create_demo new_writer w).1).
  - split; [reflexivity|]. right; right. reflexivity.
  - apply surjective_pairing.
  - left. discriminate.
Qed.

Lemma deleted_step w :
  services_of (deleted w) !! ("applications", "demo") = None ->
  platform_step Samples.redirect Samples.token pinned "demo" w (deleted w).
Proof.
  intros Hnone. apply (platform_request Samples.redirect Samples.token pinned "demo" Samples.delete_demo w
    (api_server Samples.redirect Samples.token Samples.delete_demo new_writer w).1).
  - split; [reflexivity|]. right; right. reflexivity.
  - apply surjective_pairing.
  - right; right. exact Hnone.
Qed.

Lemma second_life_reached :
  rtc (platform_step Samples.redirect Samples.token pinned "demo") empty_cluster second_life.
Proof.
  eapply rtc_l; [apply created_step|].
  eapply rtc_l; [apply reconciled_step, run_eq; vm_compute; reflexivity|].
  eapply rtc_l; [apply deleted_step; vm_compute; reflexivity|].
  eapply rtc_l; [apply (platform_gone _ _ _ _ _ between_lives); vm_compute; reflexivity|].
  eapply rtc_l; [apply created_step|].
  apply rtc_once, reconciled_step, run_eq. vm_compute. reflexivity.
Qed.

Lemma api_never_overclaims_witness :
  services_of between_lives !! ("applications", "demo") = None /\
  response_status answered.1 = Http.StatusOK /\
  exists d, deployments second_life !! ("applications", "demo") = Some d /\ d_Replicas d = Some 2%Z.
Proof.
  assert (response_status answered.1 = Http.StatusOK) as H200 by (vm_compute; reflexivity).
  split; [vm_compute; reflexivity|]. split; [exact H200|].
  destruct (api_never_overclaims Samples.redirect Samples.token Samples.redirect_3xx pinned "demo" empty_cluster
    second_life Samples.get_demo answered.1 answered.2) as (o & Ho & _ & Hclaim & _).
  - vm_compute. reflexivity.
  - exact second_life_reached.
  - vm_compute. reflexivity.
  - vm_compute. reflexivity.
  - split_and!; vm_compute; reflexivity.
  - apply surjective_pairing.
  - exact H200.
  - vm_compute in Ho. injection Ho as <-. destruct Hclaim as [(d & Hd & _ & Hrep) _].
    + vm_compute. discriminate.
    + split.
      * apply list_elem_of_In. vm_compute. tauto.
      * intros c Hc Ht. apply list_elem_of_In in Hc. vm_compute in Hc.
        destruct Hc as [<-|[<-|[<-|[]]]]; vm_compute in Ht |- *; congruence.
    + exists d. split; [exact Hd|]. rewrite Hrep. vm_compute. reflexivity.
Defined.
End Platform.
